(* ===== verification/_CoqProject ===== *)
-Q . S2P
Prelude.v
CLayout.v
VmlinuxX86.v
VmlinuxArm64.v
Bpf.v
State.v
Names.v
Keys.v
Report.v
Syscalls.v
Activity.v
InitConfig.v
DPath.v
FsEvents.v
Hooks.v
Inflight.v
Scratch.v
Lock.v
Reported.v
Wire.v
LostEvents.v
Paths.v
Dirs.v
AppArmor.v
Recording.v
Profile.v
Armor.v
ReadBack.v
Printed.v
AuditLog.v
Filters.v
Delivered.v
ProcCache.v
Seccomp.v
ContainerKeys.v
ContainerProfiles.v
ProcFs.v
Recorder.v
LogEnricher.v
ProcessInfo.v
JsonEnricher.v
Rely.v
Collect.v
Sessions.v
Handlers.v
Selected.v
Exits.v
PidQueue.v
Maintenance.v
Enricher.v
KernelTypes.v
