(* ===== verification/Prelude.v ===== *)
(** * The recorder of the security profiles operator

    The operator records what a workload does, to generate seccomp and AppArmor
    profiles from it.  The recording happens in the kernel, in eBPF programs
    written in C; a daemon in Go collects it and makes the profiles.  This library
    models the programs, access by access, and the parts of the daemon that turn
    their events into profiles, and proves that the profiles are complete and
    correct.

    ** The system

    - [src/internal/pkg/daemon/bpfrecorder/bpf/recorder.bpf.c]: the recorder.
      Programs on tracepoints, a kprobe and LSM hooks mark the syscalls of a
      workload in a bit map and send events about its processes, files,
      sockets, capabilities and execs through a ring buffer.  They share maps
      with each other and with the userspace.
    - [.../bpfrecorder/bpf/bpf_d_path_tetragon.h]: resolves the path of a
      dentry, for the hooks in which the helper bpf_d_path is not allowed.
    - [.../bpfrecorder/vmlinux/{x86,arm64}/vmlinux.h]: the kernel structures
      the programs read.
    - [.../bpfrecorder/bpfrecorder_apparmor.go], [apparmor_filters.go]: handles
      the events about files, sockets and capabilities, keeps what they tell
      under the key of the workload, and makes an AppArmor profile of it.
    - [.../apparmorprofile/crd2armor/recorded.go], [crd2armor.go]: turn the
      profile of a recording into an abstract profile, validate it, and print it
      with a template as the text AppArmor loads.
    - [.../bpfrecorder/bpfrecorder_seccomp.go]: makes a seccomp profile of the
      bit maps.
    - [.../bpfrecorder/containerkeys.go], [containerprofiles.go],
      [bpfrecorder.go]: which keys belong to which container and which profile,
      and the requests that collect and reset a profile.
    - [bpfrecorder.go], [maintenance.go], [src/internal/pkg/util/containers.go]:
      the sessions of recording.  A bounded queue hands the processes the kernel
      reports to a pool of handlers, which resolve them to containers and
      profiles; waiters are told of exits; maintenance drops what nobody can
      collect and ends recordings nobody asks for.
    - [.../bpfrecorder/bpfprocesscache.go]: keeps command lines and environments
      of executed processes for the audit log.
    - [src/internal/pkg/daemon/enricher/auditsource/bpf/enricher.bpf.c] and
      [bpfevent.go]: sends the AppArmor denials of the kernel to the log
      enricher, and decodes them there.
    - [.../enricher/auditsource/audit.go], [enricher/filter.go], [enricher.go],
      [container.go], [syscall.go], [grpc.go]: the log enricher, the other way to
      record.  It parses the audit log, finds the container of a line, filters
      and logs it, and records the syscalls and SELinux denials for the profile of
      the container; lines of containers whose pod is not known yet wait in a
      bounded backlog.
    - [enricher/jsonenricher.go], [process.go], [impl.go], [common/common.go]: the
      JSON enricher, which collects the syscalls of every process in a bucket, with
      what is known of the process, and writes a record of it once in a while.

    ** The library

    Shared parts:
    - [Prelude]: machine integers, bits, little endian bytes, buffers and C
      strings, with the tactics and hints the other files share.
    - [Bpf]: the language of the model.  A program is a [prog], one [Act] per
      access to shared state; [run] executes it without interruption, [pstep]
      interleaves any number of programs and the userspace access by access.
      [preserves], [leaves] and [guar] carry invariants, results and guarantees
      of a program over to every interleaving.  The class [Kernel] is the
      kernel side of the helpers, [KernelOk] what their documentation promises,
      and [ref_kernel] an instance of both.

    The programs:
    - [State]: constants, structures, the configuration ([Rodata]), the current
      process ([Task]) and all maps ([World]) of [recorder.bpf.c].
    - [Names]: [matches_filter], [is_number], [exe_has_init_prefix],
      [is_container_init].
    - [Keys]: [get_mntns_id], [get_key], [unique_keys], [get_mntns].
    - [Report]: [count_lost], [submit_event], [clear_seccomp],
      [clear_apparmor], [already_recorded], [report_again].
    - [Syscalls]: [sys_enter], [sys_enter_getgid] and their predicates.
    - [Activity]: [sys_enter_socket], [cap_capable], [sys_enter_execve],
      [sys_enter_execveat] and the scheduler programs.
    - [DPath]: [bpf_d_path_tetragon.h] and [bpf_d_path_tetragon].
    - [FsEvents]: [register_fs_event] and the LSM programs.
    - [Hooks]: all programs ([hook]), the userspace as they see it
      ([user_step]), and invariants of every interleaving.
    - [Inflight]: what a program that is under way still owes, the protocol
      behind [Reported].
    - [Scratch], [Lock]: the per CPU buffers of file events and their counter.
    - [Reported]: what the userspace was told, over all interleavings.
    - [Wire]: the events as bytes, and their decoding.
    - [Enricher]: [kprobe__aa_audit] and [parseBpfAuditEvent].
    - [CLayout], [VmlinuxX86], [VmlinuxArm64], [KernelTypes]: the layout of C
      types, the kernel structures of both headers, and what the programs read
      of them.

    The daemon:
    - [Paths]: [sanitizeFilePath], [ReplaceVarianceInFilePath] with its regular
      expressions, the lists of [apparmor_filters.go], the expression that
      [crd2armor.go] validates a path with, and what an AppArmor path rule
      covers ([gmatch]), with the variables of AppArmor's tunables as a parameter
      (the class [Tunables], with its laws in [TunablesOk]).
    - [Dirs]: [filepath.Dir] and [filepath.Join] of Go.
    - [AppArmor]: the [AppArmorRecorder] and all operations on its data, with one
      access for every section under a lock; the event loop.
    - [Recording]: what the recorder holds, as a set of facts.
    - [Profile]: [GetAppArmorProcessed] and what it calls, and the validation of
      paths in [crd2armor.go].
    - [Armor]: the rest of [crd2armor.go] and [recorded.go], the template and
      [GenerateProfile] included.
    - [ReadBack]: a reader of the text of profiles ([statements]), and what the
      text of a profile says.
    - [Printed]: [generateAppArmorProfile] of the command line recorder, and the
      recorder and the printed profile together.
    - [AuditLog]: the parsing of audit lines ([ExtractAuditLine]), and records as
      the kernel logs them.
    - [Filters]: the filters of the log enricher.
    - [LogEnricher]: the state of the log enricher and what a line, a change of
      the pods and a request do to it.
    - [ProcessInfo]: what is read of a process under /proc, and its cache.
    - [JsonEnricher]: the JSON enricher as a step relation of its loop, the cache
      of buckets (ttlcache) and the goroutines that write them; timestamps.
    - [Delivered]: the programs, the ring buffer, the event loop and the profile
      together.
    - [Seccomp]: the [SeccompRecorder], and the programs and it together.
    - [ContainerKeys], [ContainerProfiles]: the two tables.
    - [Collect]: [SyscallsForProfile], [ApparmorForProfile] and their resets.
    - [InitConfig]: [initGlobals] and what [Load] writes into the read-only
      variables of the programs, and the programs with it.
    - [LostEvents]: [checkLostEvents], which reads the loss counters.
    - [ProcCache]: the cache of executed processes.
    - [ProcFs]: start times and container IDs from /proc, [ContainerIDForPID],
      [verifyProcess].
    - [Recorder]: the state of [BpfRecorder] and the lookups on it.
    - [Rely]: a rely-guarantee logic for programs of [Bpf].
    - [Sessions]: [handleNewPidEvent] and what it calls, [StopRecording];
      [Handlers] has the theorems about any number of them at once.
    - [Selected]: the handlers and the selection of processes in the programs
      together.
    - [Exits]: [WaitForPidExit] and [handleExitEvent] as a step relation.
    - [PidQueue]: [scheduleNewPidEvent], [runPidHandler],
      [reportDroppedPidsAgain] as a step relation.
    - [Maintenance]: [Start], [Stop], [sweepStaleKeys],
      [releaseAbandonedRecording].

    A definition has the name of the function, map or constant it models.  A
    function that touches shared state is a [prog] with the same sequence of
    accesses; one that does not is a plain function.  The parts of a long
    function are definitions of their own, in the order of the source.

    ** What the theorems show

    - End to end: what a workload does is in its profile:
      [made_syscall_in_profile], [used_cap_in_profile],
      [used_socket_in_profile], [opened_file_permitted], each with the
      exceptions its comment lists.
    - Syscalls: [sys_enter_records], [sys_enter_reports], [sys_enter_skips],
      [clear_seccomp_once] and, over interleavings, [syscalls_bitmaps]; the
      names of the profile: [syscalls_exact].
    - Report once, never lose: [cap_capable_once], [socket_once],
      [clear_apparmor_retries], and over all interleavings [marked_is_told] and
      [known_is_told], which hold once no program is under way;
      [clear_window_loses_cap] shows that this condition is needed.
    - Selection: [get_mntns_spec], [is_container_init_spec],
      [matches_filter_spec], [is_number_spec], [cap_capable_ignored]; the
      processes that are followed: [tracking_refines] against the abstract set
      of module [Tracking], [descendants_followed].
    - Files: [d_path_resolves], [d_path_deep] and [d_path_too_long] say which
      path is reported; [file_open_event], [path_mkdir_event],
      [path_unlink_event], [fs_event_repeat], [fs_event_busy] which events are
      sent.
    - Concurrency of the programs: [buffers_exclusive] and [buffers_released]
      (the counter is a lock), [buffers_in_bounds], [hooks_return_0].
    - The boundary: [file_event_roundtrip], [exec_event_roundtrip],
      [audit_event_roundtrip], [socket_dedup_lossless] (and its limit,
      [socket_upper_half_hidden]), [structures_packed],
      [reads_in_bounds], [args_offset_iff]; [execve_event] and [audit_ignored].
    - Paths: [normalize_matches] (the rule of a path covers it, if the numbers
      that become variables are values of them) and [normalize_valid] (and is
      accepted); [number_not_covered] shows that the condition is needed.
    - The recorder: [recorder_refines] (it holds exactly what it was told),
      [recorder_bounded]; [exclude_races_event] shows what an exclusion in the
      middle of an event leaves.
    - The profile: [profile_allows], [used_file_permitted],
      [allow_any_files_narrow], [profile_valid], and two limits,
      [directory_rule_lost] and [dotted_executable_rejected].
    - The text of a profile: [profile_reads_back] (it says what the abstract
      profile says, whatever bytes that has), [recorded_profile_printed] (it has
      exactly the rules of the processed recording) and [used_file_printed] (it
      has a rule for what the recorder was told, with the exceptions of the
      recorder); [deny_hides_recorded] shows that a deny rule of an enforcing
      profile can take a recorded access back.
    - The log enricher: [fields_roundtrip] and [seccomp_line_roundtrip] (records
      are read as they were logged, no process can forge a field),
      [filter_of_priority] (which filter decides), [log_recording_exact] and
      [logged_syscall_recorded] (the log recording is complete and exact) and
      [backlog_bounded].
    - The JSON enricher: [json_log_exact] (no line is lost between the loop and the
      goroutines, and no record tells what was not read), [json_stops] (it can
      always stop), [process_info_own] (no process is told the details of another);
      [nested_filters_dead] shows that filters on nested fields never match.
    - Keys, containers and profiles: [container_keys_refine],
      [container_profiles_refine], [requests_in_order],
      [reset_apparmor_isolated], [reset_syscalls_isolated].
    - Sessions, over all interleavings of handlers: a handled process is
      collected with a profile of its container ([handled_is_collected]), what
      is recorded is never excluded ([recorded_never_excluded]) nor skipped by
      the programs ([recorded_process_selected]), and a stop
      leaves a fresh start ([stop_starts_afresh]).  [late_handler_unties],
      [late_key_stays] and [late_lookup_excludes] are what a handler that is
      under way while a session ends can still do.
    - New processes and exits: [no_process_forgotten] and [queue_bounded];
      [exit_wakes] and [wait_truthful], with [shared_channel_lost] for several
      waiters of one PID.
    - Maintenance: [sweep_drops_stale] (exactly what two sweeps found stale),
      [release_patient] and [abandoned_released], [requests_counted] and
      [failed_stop_sticks].
    - Containers of processes: [start_time_any_comm], [container_id_cached].
    - The other parts with the programs: [exec_cmdline], [exec_env] and
      [stale_bytes_told] (the cache of processes: the arguments of an exec, all
      of them up to the limit), [container_init_recognized],
      [program_filtered] and [fallback_keys_reused] (the configuration),
      [losses_reported] (the loss counters).

    ** Bounds and assumptions

    All loops of the programs are bounded, as the verifier of the kernel
    demands, and their number of iterations in the model is the one of the
    source: [PROBE_CWD_READ_ITERATIONS] (128) steps of path resolution,
    [TASK_COMM_LEN] (16) characters of a name, [MAX_ARGS] and [MAX_ENV] strings
    of an exec.  The loops of the daemon run over finite lists.  No theorem
    depends on other fuel, except for the search of members in anonymous
    structures ([find_member]), which goes 8 levels deep, where all members the
    programs read are found, and the printing of numbers ([decimal]) with 20
    digits, enough for 64 bits.  The loops over a text that do not take one byte
    at a time ([parse_fields], [peer_rest], [match_path]) have the length of the
    text as fuel, and every round takes at least one byte of it.

    The results of map updates, the evictions of LRU maps, the room in the ring
    buffer and the memory the probe helpers read are arbitrary, restricted by
    [KernelOk] only; [tick] numbers the decisions so that each can differ.  A
    pointer to an entry of a map that is deleted meanwhile writes to memory that
    is not reused while the program runs.  [buffers_exclusive] and
    [buffers_released] assume fewer than 2^32 programs running at once, as a
    counter of 32 bits must.

    The recorder drops data beyond its limits (1000 keys, 10000 paths of a key, 6
    MiB of paths in a profile); the theorems about completeness say so
    ([within_limits], and the size of the paths).  Those of [Delivered] are about
    the events of the ring buffer handled by the event loop in order, without
    requests in between.  Those of [Collect] take the requests one at a time, on
    tables in step, with every container that has keys resolved to its profiles.
    Those of [Handlers] fix which container a key belongs to and which pod a
    container, and /proc, the cgroups and the index of pods may fail but not lie
    about it ([cluster_ok], [answers_ok]).  [no_process_forgotten] is up to the
    losses the code accepts, which the model notes in [lostPids]; [exit_wakes] is
    about the only waiter of its PID.  [recorded_process_selected] takes the map
    of excluded keys to be the one the handlers write, and the excluded mount
    namespaces as written when the programs were loaded.

    The matcher of AppArmor and its tunables are not part of the repository.
    [gmatch] is the documented meaning of the few patterns the code makes; the
    values of [@{pid}] and [@{tid}] are a parameter ([Tunables]), of which is
    assumed that they are sequences of digits and that every process number is
    one ([TunablesOk], with [kernelvars] as an instance).  The theorems about
    files except those of which the code replaces a number that is no value
    ([pids_only]), directories, the files of /sys/devices, deleted files, and the
    accesses the code leaves out on purpose: to the files of its own lists of
    known prefixes, which it takes to be allowed by the abstractions, to the
    program itself ([left_out]), and writes to a file that is executed
    ([overridden], [executed_too]).

    [ToLower] and [TrimSpace] of text that is not ASCII are parameters;
    [profile_reads_back] assumes that converting twice is converting once
    ([converts_once]).  The records of [fields_roundtrip] are those the kernel
    writes: untrusted strings quoted, or in hexadecimal digits if they have a
    space, a quote or a byte that is not printable.  [log_recording_exact] is
    about lines, changes of the pods and expiring lookups, in any order; the
    backlog of a container and what is recorded do not expire meanwhile, the
    index of pods may not know a pod yet but does not tell another one
    ([index_ok]), and a container that did more than 3072 different things before
    its pod was known is excepted ([many]).  In [json_log_exact] everything may
    expire at any time; which bucket a full cache evicts is an argument.

    ** What is not modelled

    Of the daemon: loading and attaching the programs, the gRPC services, metrics
    and messages of the logs, following the audit log as a file, and the JSON text
    and the log file of the records.  To the programs the daemon appears as the
    steps [user_step] on the maps.  The names of syscalls
    (libseccomp), the index of the pods, /proc and the cgroups are parameters.
    The other controllers, webhooks and tools of the operator, which reconcile
    objects of Kubernetes through its API.

    Of the programs, the trace output (trace_hook, bpf_printk), which has no
    effect on the state.  The kernel memory in [DPath] is a heap of dentries and
    mounts, and in [KernelTypes] one of bytes; that the second represents the
    first is not stated.  The resolution of a path, with its writes to the path
    buffer, is one access of a program: the buffer is not shared while it is held
    ([buffers_exclusive]).  What the kernel does with a value it returns from a
    helper is only what [KernelOk] says. *)
From stdpp Require Export base tactics list gmap.
From Stdlib Require Ascii String.
From Stdlib Require Export ZArith Lia Bool.

#[export] Set Default Goal Selector "!".
#[export] Set Warnings "-clear-no-such-hyp".

Declare Scope ebpf_scope.
Delimit Scope ebpf_scope with ebpf.
#[global] Open Scope Z_scope.
#[global] Open Scope ebpf_scope.

(** ** Machine integers

    A C integer of width [n] is a [Z]; the conversions below are the ones the
    source performs, written out where a value can leave its range. *)

Definition wrap (n : Z) (z : Z) : Z := z mod 2 ^ n.

Abbreviation u8 := (wrap 8).
Abbreviation u16 := (wrap 16).
Abbreviation u32 := (wrap 32).
Abbreviation u64 := (wrap 64).

(** The value of the bit pattern [z] as a signed integer of width [n]. *)
Definition swrap (n : Z) (z : Z) : Z :=
  let r := wrap n z in if r <? 2 ^ (n - 1) then r else r - 2 ^ n.

Abbreviation s32 := (swrap 32).

Definition in_u (n z : Z) : Prop := 0 <= z < 2 ^ n.

(** [b2z] is the C conversion of [bool] to an integer, [z2b] the truth value
    of an integer in a condition. *)
Definition b2z (b : bool) : Z := if b then 1 else 0.
Definition z2b (z : Z) : bool := negb (z =? 0).

Lemma wrap_small n z : in_u n z → wrap n z = z.
Proof. intros H. by apply Z.mod_small. Qed.

Lemma wrap_range n z : 0 <= n → in_u n (wrap n z).
Proof. intros H. apply Z.mod_pos_bound. lia. Qed.

Lemma wrap_wrap n z : 0 <= n → wrap n (wrap n z) = wrap n z.
Proof. intros Hn. apply wrap_small, wrap_range, Hn. Qed.

Lemma swrap_small n z : 0 < n → 0 <= z < 2 ^ (n - 1) → swrap n z = z.
Proof.
  intros Hn Hz. unfold swrap.
  assert (2 ^ n = 2 * 2 ^ (n - 1)) as Hp.
  { rewrite <- Z.pow_succ_r by lia. f_equal. lia. }
  rewrite wrap_small by (unfold in_u; lia).
  destruct (Z.ltb_spec z (2 ^ (n - 1))); lia.
Qed.

Lemma wrap_add_l n a b : wrap n (wrap n a + b) = wrap n (a + b).
Proof. unfold wrap. by rewrite Zplus_mod_idemp_l. Qed.

Lemma z2b_true z : z2b z = true ↔ z ≠ 0.
Proof. unfold z2b. destruct (Z.eqb_spec z 0); simpl; naive_solver. Qed.

Lemma z2b_false z : z2b z = false ↔ z = 0.
Proof. unfold z2b. destruct (Z.eqb_spec z 0); simpl; naive_solver. Qed.

(** ** Bit masks *)

(** [subset_bits a b]: every bit of [a] is a bit of [b]. *)
Definition subset_bits (a b : Z) : Prop :=
  ∀ i, 0 <= i → Z.testbit a i = true → Z.testbit b i = true.

Lemma lor_subset a b : Z.lor a b = b ↔ subset_bits a b.
Proof.
  split.
  - intros H i Hi Ha. rewrite <- H, Z.lor_spec, Ha. done.
  - intros H. apply Z.bits_inj'. intros i Hi. rewrite Z.lor_spec.
    destruct (Z.testbit a i) eqn:Ha; simpl; [|done].
    symmetry. by apply H.
Qed.

Lemma land_pow2 m i : 0 <= i →
  Z.land m (2 ^ i) = if Z.testbit m i then 2 ^ i else 0.
Proof.
  intros Hi. apply Z.bits_inj'. intros j Hj.
  rewrite Z.land_spec, Z.pow2_bits_eqb by lia.
  destruct (Z.eqb_spec i j) as [->|Hne].
  - rewrite andb_true_r. destruct (Z.testbit m j) eqn:E.
    + by rewrite Z.pow2_bits_true by lia.
    + by rewrite Z.testbit_0_l.
  - rewrite andb_false_r. destruct (Z.testbit m i).
    + rewrite Z.pow2_bits_false; [done|lia].
    + by rewrite Z.testbit_0_l.
Qed.

Lemma land_pow2_nonzero m i : 0 <= i →
  negb (Z.land m (2 ^ i) =? 0) = Z.testbit m i.
Proof.
  intros Hi. rewrite land_pow2 by done.
  destruct (Z.testbit m i); [|done].
  assert (0 < 2 ^ i) by lia. destruct (Z.eqb_spec (2 ^ i) 0); [lia|done].
Qed.

Lemma lor_pow2_testbit m i j : 0 <= i → 0 <= j →
  Z.testbit (Z.lor m (2 ^ i)) j = Z.testbit m j || (i =? j).
Proof. intros. by rewrite Z.lor_spec, Z.pow2_bits_eqb by lia. Qed.

(** Two values that occupy different bits. *)
Lemma lor_shiftl_add a b n :
  0 <= n → 0 <= b < 2 ^ n → Z.lor (Z.shiftl a n) b = Z.shiftl a n + b.
Proof.
  intros Hn Hb. rewrite <- Z.add_lor_land.
  enough (Z.land (Z.shiftl a n) b = 0) as -> by lia.
  apply Z.bits_inj'. intros i Hi. rewrite Z.land_spec, Z.testbit_0_l.
  destruct (Z.lt_ge_cases i n).
  - by rewrite Z.shiftl_spec_low by done.
  - rewrite <- (Z.mod_small b (2 ^ n)) by done.
    rewrite Z.mod_pow2_bits_high by lia. apply andb_false_r.
Qed.

(** ** Little endian integers in byte lists *)

Fixpoint le_bytes (n : nat) (z : Z) : list Z :=
  match n with
  | O => []
  | S n => z mod 256 :: le_bytes n (z / 256)
  end.

Fixpoint le_value (l : list Z) : Z :=
  match l with
  | [] => 0
  | b :: l => b + 256 * le_value l
  end.

Lemma length_le_bytes n z : length (le_bytes n z) = n.
Proof. revert z. induction n as [|n IH]; intros z; simpl; [done|]. by rewrite IH. Qed.

Lemma le_value_bytes n z : le_value (le_bytes n z) = z mod 256 ^ Z.of_nat n.
Proof.
  revert z. induction n as [|n IH]; intros z; simpl le_bytes; simpl le_value.
  - by rewrite Z.mod_1_r.
  - rewrite IH, Nat2Z.inj_succ, Z.pow_succ_r by lia.
    rewrite Z.rem_mul_r by lia. done.
Qed.

Lemma le_value_bytes_u n z :
  0 <= z < 256 ^ Z.of_nat n → le_value (le_bytes n z) = z.
Proof. intros H. rewrite le_value_bytes. by apply Z.mod_small. Qed.

Lemma le_bytes_range n z : Forall (λ b, 0 <= b < 256) (le_bytes n z).
Proof.
  revert z. induction n as [|n IH]; intros z; simpl; constructor; [|done].
  apply Z.mod_pos_bound. lia.
Qed.

Lemma le_value_range l :
  Forall (λ b, 0 <= b < 256) l → 0 <= le_value l < 256 ^ Z.of_nat (length l).
Proof.
  induction 1 as [|b l Hb _ IH]; [simpl; lia|]. cbn [le_value length].
  rewrite Nat2Z.inj_succ, Z.pow_succ_r by lia. lia.
Qed.

(** ** Byte buffers

    An array of characters is a [list Z] of its length; reading past its end
    is what the verifier rules out, so [nthb] has a default only to be total.
    [write_at buf off bs] overwrites [length bs] bytes from [off] on. *)

Definition nthb (l : list Z) (i : Z) : Z := nth (Z.to_nat i) l 0.

Definition write_at (buf : list Z) (off : Z) (bs : list Z) : list Z :=
  take (Z.to_nat off) buf ++ bs ++ drop (Z.to_nat off + length bs) buf.

Definition sub_bytes (buf : list Z) (off len : Z) : list Z :=
  take (Z.to_nat len) (drop (Z.to_nat off) buf).

Lemma length_write_at buf off bs :
  (Z.to_nat off + length bs <= length buf)%nat →
  length (write_at buf off bs) = length buf.
Proof.
  intros H. unfold write_at. rewrite !length_app, length_take, length_drop. lia.
Qed.

(** The bytes written are read back, and the bytes after them are kept. *)
Lemma drop_write_at buf off bs :
  (Z.to_nat off + length bs <= length buf)%nat →
  drop (Z.to_nat off) (write_at buf off bs) =
  bs ++ drop (Z.to_nat off + length bs) buf.
Proof.
  intros H. unfold write_at. rewrite drop_app_ge; rewrite length_take; [|lia].
  by replace (Z.to_nat off - _)%nat with 0%nat by lia.
Qed.

Lemma take_write_at_lt buf off bs n :
  (n <= Z.to_nat off)%nat → (Z.to_nat off + length bs <= length buf)%nat →
  take n (write_at buf off bs) = take n buf.
Proof.
  intros Hn H. unfold write_at. rewrite take_app_le by (rewrite length_take; lia).
  rewrite take_take. f_equal. lia.
Qed.

(** Two writes next to each other are one. *)
Lemma write_at_adjacent buf off a b :
  0 <= off → (Z.to_nat off + length a + length b <= length buf)%nat →
  write_at (write_at buf off a) (off + Z.of_nat (length a)) b = write_at buf off (a ++ b).
Proof.
  intros H0 H. unfold write_at.
  replace (Z.to_nat (off + Z.of_nat (length a))) with (Z.to_nat off + length a)%nat by lia.
  assert (length (take (Z.to_nat off) buf ++ a) = (Z.to_nat off + length a)%nat) as Hl
    by (rewrite length_app, length_take; lia).
  rewrite !(app_assoc (take _ buf) a).
  rewrite take_app_length' by done.
  rewrite drop_app_ge by lia. rewrite Hl, drop_drop, length_app, <- !app_assoc.
  do 3 f_equal. f_equal. lia.
Qed.

(** ** C strings *)

(** The string a NUL terminated buffer holds: the bytes before the first NUL. *)
Fixpoint cstr (l : list Z) : list Z :=
  match l with
  | [] => []
  | c :: l => if c =? 0 then [] else c :: cstr l
  end.

(** The bytes of a literal, and a buffer of [n] bytes that holds them. *)
Fixpoint bytes (s : String.string) : list Z :=
  match s with
  | String.EmptyString => []
  | String.String c s => Z.of_N (Ascii.N_of_ascii c) :: bytes s
  end.

Definition char_array (n : nat) (s : String.string) : list Z :=
  take n (bytes s) ++ replicate (n - length (bytes s)) 0.

Definition no_nul (l : list Z) : Prop := Forall (λ c, c ≠ 0) l.

Lemma cstr_no_nul l : no_nul (cstr l).
Proof.
  induction l as [|c l IH]; simpl; [constructor|].
  destruct (Z.eqb_spec c 0); constructor; done.
Qed.

Lemma cstr_app_nul s r : no_nul s → cstr (s ++ 0 :: r) = s.
Proof.
  induction s as [|c s IH]; intros H; simpl; [done|].
  inversion H; subst. destruct (Z.eqb_spec c 0); [done|]. by rewrite IH.
Qed.

Lemma cstr_id s : no_nul s → cstr s = s.
Proof.
  induction s as [|c s IH]; intros H; simpl; [done|].
  inversion H; subst. destruct (Z.eqb_spec c 0); [done|]. by rewrite IH.
Qed.

Lemma length_cstr l : (length (cstr l) <= length l)%nat.
Proof. induction l as [|c l IH]; simpl; [done|]. destruct (c =? 0); simpl; lia. Qed.

(** A buffer with a NUL in it is its string, the NUL, and what follows. *)
Lemma cstr_split l : 0 ∈ l → ∃ r, l = cstr l ++ 0 :: r.
Proof.
  induction l as [|c l IH]; intros H; [by apply elem_of_nil in H|].
  simpl. destruct (Z.eqb_spec c 0) as [->|Hc].
  - by exists l.
  - apply elem_of_cons in H as [H|H]; [congruence|].
    destruct (IH H) as [r Hr]. exists r. simpl. by rewrite <- Hr.
Qed.

(** The string of such a buffer with its NUL. *)
Lemma take_cstr l : 0 ∈ l → take (S (length (cstr l))) l = cstr l ++ [0].
Proof.
  intros H. destruct (cstr_split l H) as [r Hr]. revert Hr. generalize (cstr l).
  intros s ->. rewrite cons_middle, app_assoc, take_app_length'; [done|].
  rewrite length_app. simpl. lia.
Qed.

Lemma length_cstr_lt l : 0 ∈ l → (length (cstr l) < length l)%nat.
Proof.
  intros H. destruct (cstr_split l H) as [r Hr]. revert Hr. generalize (cstr l).
  intros s ->. rewrite length_app. simpl. lia.
Qed.

Lemma lookup_nthb l (i : nat) c : l !! i = Some c → nthb l (Z.of_nat i) = c.
Proof.
  intros H. unfold nthb. rewrite Nat2Z.id. by apply nth_lookup_Some.
Qed.

(** ** Finite maps *)

Lemma map_Forall_subseteq `{Countable K} {A} (P : K → A → Prop) (m m' : gmap K A) :
  m' ⊆ m → map_Forall P m → map_Forall P m'.
Proof. intros Hs HP k v Hk. apply HP. by eapply lookup_weaken. Qed.

(** ** Automation *)

Create HintDb ebpf discriminated.
#[export] Hint Resolve wrap_range cstr_no_nul : ebpf.
Create Rewrite HintDb len_db.
#[export] Hint Rewrite length_le_bytes @length_app @length_take @length_drop
  @length_replicate @length_insert : len_db.

(** Split the conjunctions and case analyses of a hypothesis-free goal. *)
Ltac zbool :=
  repeat match goal with
  | H : (_ =? _) = true |- _ => apply Z.eqb_eq in H
  | H : (_ =? _) = false |- _ => apply Z.eqb_neq in H
  | H : (_ <? _) = true |- _ => apply Z.ltb_lt in H
  | H : (_ <? _) = false |- _ => apply Z.ltb_ge in H
  | H : (_ <=? _) = true |- _ => apply Z.leb_le in H
  | H : (_ <=? _) = false |- _ => apply Z.leb_gt in H
  | H : negb _ = true |- _ => apply negb_true_iff in H
  | H : negb _ = false |- _ => apply negb_false_iff in H
  | H : _ && _ = true |- _ => apply andb_true_iff in H; destruct H
  | H : _ || _ = false |- _ => apply orb_false_iff in H; destruct H
  end.
