(* ===== verification/CLayout.v ===== *)
(** * The layout of C types

    The programs read the structures of the kernel at the offsets the compiler
    gives their members, and exchange packed structures with the userspace.
    This file defines the types of C as far as the sources declare them, and
    their layout for the 64 bit little endian targets the programs are compiled
    for: natural alignment, bit fields packed into units of their type. *)
From S2P Require Import Prelude.
From Stdlib Require Import Sorted.
Import String.StringSyntax.
#[local] Open Scope string_scope.
#[local] Open Scope Z_scope.

(** ** Types

    [Int n] is an integer or enumeration of [n] bytes.  A member of a structure
    or union is a field, whose name is empty if it is anonymous, or a bit field
    of some width. *)
Abbreviation string := String.string.

Inductive ctype : Type :=
| Int (size : Z)
| Ptr
| Arr (n : Z) (t : ctype)
| Struct (packed : bool) (fs : list cfield)
| Union (packed : bool) (fs : list cfield)
with cfield : Type :=
| Field (name : string) (t : ctype)
| Bits (name : string) (t : ctype) (width : Z).

Abbreviation struct := (Struct false).
Abbreviation packed_struct := (Struct true).
Abbreviation union := (Union false).
Abbreviation packed_union := (Union true).
Abbreviation Anon := (Field "").

(** ** Sizes

    Offsets within a structure are in bits. *)
Definition round_up (n a : Z) : Z := (n + a - 1) / a * a.

(** Where a bit field of [w] bits in units of [u] bits goes after [cur]: it does
    not cross the boundary of a unit, and one of width zero ends the unit. *)
Definition bits_start (packed : bool) (u w cur : Z) : Z :=
  if packed then cur
  else if w =? 0 then round_up cur u
  else if cur / u =? (cur + w - 1) / u then cur else round_up cur u.

(** The place of a member of size [size] and alignment [align] after [cur]. *)
Definition field_start (packed : bool) (size align : Z) (w : option Z) (cur : Z) : Z :=
  match w with
  | None => if packed then round_up cur 8 else round_up cur (8 * align)
  | Some w => bits_start packed (8 * size) w cur
  end.

Definition field_bits (size : Z) (w : option Z) : Z :=
  match w with None => 8 * size | Some w => w end.

(** An unnamed bit field does not align the structure. *)
Definition field_align (n : string) (align : Z) (w : option Z) : Z :=
  match w with Some _ => if String.eqb n "" then 1 else align | None => align end.

(** The end of the members and their largest alignment, given their sizes. *)
Fixpoint struct_end (packed : bool) (fs : list (string * (Z * Z) * option Z)) (cur align : Z)
    : Z * Z :=
  match fs with
  | [] => (cur, align)
  | (n, (size, al), w) :: fs =>
      struct_end packed fs (field_start packed size al w cur + field_bits size w)
        (Z.max align (field_align n al w))
  end.

Fixpoint union_end (fs : list (string * (Z * Z) * option Z)) (cur align : Z) : Z * Z :=
  match fs with
  | [] => (cur, align)
  | (n, (size, al), w) :: fs =>
      union_end fs (Z.max cur (field_bits size w)) (Z.max align (field_align n al w))
  end.

(** The size in bytes from the end of the members. *)
Definition whole (packed : bool) (e : Z * Z) : Z * Z :=
  let align := if packed then 1 else e.2 in
  (round_up (round_up e.1 8) (8 * align) / 8, align).

(** The size and alignment of a type. *)
Fixpoint measure (t : ctype) : Z * Z :=
  let measures := map (λ f, match f with
    | Field n t => (n, measure t, None)
    | Bits n t w => (n, measure t, Some w)
    end) in
  match t with
  | Int n => (n, n)
  | Ptr => (8, 8)
  | Arr n t => let '(size, align) := measure t in (n * size, align)
  | Struct packed fs => whole packed (struct_end packed (measures fs) 0 1)
  | Union packed fs => whole packed (union_end (measures fs) 0 1)
  end.

Definition sizeof (t : ctype) : Z := (measure t).1.
Definition alignof (t : ctype) : Z := (measure t).2.

(** ** Members

    The members of a type with their byte offset; those of an anonymous member
    belong to the type itself.  Bit fields have no address. *)
Fixpoint place (packed : bool) (fs : list cfield) (cur : Z) : list (Z * (string * ctype)) :=
  match fs with
  | [] => []
  | Field n t :: fs =>
      let start := field_start packed (sizeof t) (alignof t) None cur in
      (start / 8, (n, t)) :: place packed fs (start + 8 * sizeof t)
  | Bits _ t w :: fs =>
      place packed fs (field_start packed (sizeof t) (alignof t) (Some w) cur + w)
  end.

Definition direct (t : ctype) : list (Z * (string * ctype)) :=
  match t with
  | Struct packed fs => place packed fs 0
  | Union _ fs => omap (λ f, match f with Field n t => Some (0, (n, t)) | Bits _ _ _ => None end) fs
  | _ => []
  end.

(** The member with a name; the levels of anonymous members are bounded by
    [fuel]. *)
Fixpoint find_member (fuel : nat) (name : string) (ms : list (Z * (string * ctype)))
    : option (Z * ctype) :=
  match fuel with
  | O => None
  | S fuel =>
      foldr (λ m rest,
        let '(off, (n, t)) := m in
        if String.eqb n name then Some (off, t)
        else if String.eqb n "" then
          match find_member fuel name (direct t) with
          | Some (off', t') => Some (off + off', t')
          | None => rest
          end
        else rest) None ms
  end.

Definition member (t : ctype) (name : string) : option (Z * ctype) :=
  find_member 8 name (direct t).

(** offsetof of a designator, a list of member names. *)
Fixpoint access (t : ctype) (path : list string) : option (Z * ctype) :=
  match path with
  | [] => Some (0, t)
  | n :: path =>
      match member t n with
      | Some (off, t') =>
          match access t' path with
          | Some (off', t'') => Some (off + off', t'')
          | None => None
          end
      | None => None
      end
  end.

Definition offsetof (t : ctype) (path : list string) : option Z := fst <$> access t path.

(** bpf_core_field_exists. *)
Definition field_exists (t : ctype) (path : list string) : bool :=
  bool_decide (is_Some (offsetof t path)).

(** ** Soundness of the layout *)

Definition f_type (f : cfield) : ctype := match f with Field _ t => t | Bits _ t _ => t end.

(** Induction over a type and the types of its members. *)
Section induction.
Context (P : ctype → Prop).
Context (HInt : ∀ n, P (Int n)) (HPtr : P Ptr) (HArr : ∀ n t, P t → P (Arr n t)).
Context (HStruct : ∀ p fs, Forall (λ f, P (f_type f)) fs → P (Struct p fs)).
Context (HUnion : ∀ p fs, Forall (λ f, P (f_type f)) fs → P (Union p fs)).

Fixpoint ctype_rect' (t : ctype) : P t :=
  let all := fix all (fs : list cfield) : Forall (λ f, P (f_type f)) fs :=
    match fs with
    | [] => Forall_nil_2 _
    | f :: fs => Forall_cons_2 _ f fs
        (match f return P (f_type f) with
         | Field _ t => ctype_rect' t
         | Bits _ t _ => ctype_rect' t
         end) (all fs)
    end in
  match t with
  | Int n => HInt n
  | Ptr => HPtr
  | Arr n t => HArr n t (ctype_rect' t)
  | Struct p fs => HStruct p fs (all fs)
  | Union p fs => HUnion p fs (all fs)
  end.
End induction.

(** A type a compiler accepts: integers have a size, and a bit field is not
    wider than its type. *)
Fixpoint wf (t : ctype) : bool :=
  let wfs := forallb (λ f, match f with
    | Field _ t => wf t
    | Bits _ t w => wf t && (0 <=? w) && (w <=? 8 * sizeof t) && (0 <? sizeof t)
    end) in
  match t with
  | Int n => 0 <? n
  | Ptr => true
  | Arr n t => (0 <=? n) && wf t
  | Struct _ fs => wfs fs
  | Union _ fs => wfs fs
  end.

Definition wf_field (f : cfield) : bool :=
  match f with
  | Field _ t => wf t
  | Bits _ t w => wf t && (0 <=? w) && (w <=? 8 * sizeof t) && (0 <? sizeof t)
  end.

Definition f_measure (f : cfield) : string * (Z * Z) * option Z :=
  match f with
  | Field n t => (n, measure t, None)
  | Bits n t w => (n, measure t, Some w)
  end.

Lemma round_up_spec n a : 0 < a → n <= round_up n a < n + a ∧ (a | round_up n a).
Proof.
  intros Ha. unfold round_up. pose proof (Z.mod_pos_bound (n + a - 1) a Ha).
  pose proof (Z.div_mod (n + a - 1) a ltac:(lia)). split; [lia|]. by eexists.
Qed.

Lemma round_up_divide n a : 0 < a → (a | n) → round_up n a = n.
Proof.
  intros Ha [k ->]. unfold round_up. replace (k * a + a - 1) with ((a - 1) + k * a) by lia.
  rewrite Z.div_add by lia. rewrite Z.div_small by lia. lia.
Qed.

Lemma round_up_eq n a q : 0 < a → (q - 1) * a < n <= q * a → round_up n a = q * a.
Proof.
  intros Ha Hn. destruct (round_up_spec n a Ha) as [H1 [k Hk]]. rewrite Hk in *.
  assert (q - 1 < k) by nia. assert (k < q + 1) by nia. f_equal. lia.
Qed.

Lemma bits_start_ge packed u w cur : 0 < u → cur <= bits_start packed u w cur.
Proof.
  intros Hu. unfold bits_start. pose proof (round_up_spec cur u Hu).
  repeat case_match; lia.
Qed.

Lemma field_start_ge packed size align w cur :
  0 < align → (w ≠ None → 0 < size) → cur <= field_start packed size align w cur.
Proof.
  intros Ha Hs. destruct w as [w|]; simpl.
  - apply bits_start_ge. specialize (Hs ltac:(done)). lia.
  - destruct packed; apply round_up_spec; lia.
Qed.

(** What the layout needs to know of a member. *)
Definition measured (m : string * (Z * Z) * option Z) : Prop :=
  let '(_, (size, align), w) := m in
  0 <= size ∧ 0 < align ∧ match w with Some w => 0 <= w ∧ 0 < size | None => True end.

Lemma field_align_pos n align w : 0 < align → 0 < field_align n align w.
Proof. intros. unfold field_align. repeat case_match; lia. Qed.

Lemma struct_end_ge packed ms cur align :
  Forall measured ms → 0 <= cur → 0 < align →
  cur <= (struct_end packed ms cur align).1 ∧ 0 < (struct_end packed ms cur align).2.
Proof.
  intros Hms. revert cur align. induction Hms as [|[[n [size al]] w] ms (H1 & H2 & H3) _ IH];
    intros cur align Hc Ha; simpl; [lia|].
  pose proof (field_start_ge packed size al w cur H2) as Hs.
  assert (cur <= field_start packed size al w cur) by (apply Hs; by destruct w as [w|]; [lia|]).
  assert (0 <= field_bits size w) by (destruct w; simpl; lia).
  pose proof (field_align_pos n al w H2).
  destruct (IH (field_start packed size al w cur + field_bits size w)
    (Z.max align (field_align n al w))); lia.
Qed.

Lemma union_end_ge ms cur align :
  Forall measured ms → 0 <= cur → 0 < align →
  cur <= (union_end ms cur align).1 ∧ 0 < (union_end ms cur align).2.
Proof.
  intros Hms. revert cur align. induction Hms as [|[[n [size al]] w] ms (H1 & H2 & H3) _ IH];
    intros cur align Hc Ha; simpl; [lia|]. pose proof (field_align_pos n al w H2).
  destruct (IH (Z.max cur (field_bits size w)) (Z.max align (field_align n al w))); lia.
Qed.

Lemma whole_ge packed e : 0 <= e.1 → 0 < e.2 → e.1 <= 8 * (whole packed e).1 ∧ 0 < (whole packed e).2.
Proof.
  intros He Ha. unfold whole. cbn [fst snd].
  set (a := if packed then 1 else e.2). assert (0 < a) by (unfold a; destruct packed; lia).
  split; [|done]. pose proof (round_up_spec e.1 8 ltac:(lia)) as [H1 H2].
  pose proof (round_up_spec (round_up e.1 8) (8 * a) ltac:(lia)) as [H3 [k Hk]].
  assert (round_up (round_up e.1 8) (8 * a) = 8 * (k * a)) as E by lia.
  rewrite E, (Z.mul_comm 8 (k * a)), Z.div_mul by lia. lia.
Qed.

Lemma measure_struct p fs : measure (Struct p fs) = whole p (struct_end p (map f_measure fs) 0 1).
Proof. reflexivity. Qed.
Lemma measure_union p fs : measure (Union p fs) = whole p (union_end (map f_measure fs) 0 1).
Proof. reflexivity. Qed.
Lemma wf_fields p fs : wf (Struct p fs) = forallb wf_field fs ∧ wf (Union p fs) = forallb wf_field fs.
Proof. split; reflexivity. Qed.

Lemma fields_measured fs :
  Forall (λ f, wf (f_type f) = true → 0 <= sizeof (f_type f) ∧ 0 < alignof (f_type f)) fs →
  forallb wf_field fs = true → Forall measured (map f_measure fs).
Proof.
  induction 1 as [|f fs Hf _ IH]; intros Hw; simpl in *; [constructor|].
  apply andb_true_iff in Hw as [Hw1 Hw2]. constructor; [|by apply IH].
  unfold sizeof, alignof in *. destruct f as [n t|n t w]; cbn in *.
  - destruct (Hf Hw1). destruct (measure t) as [size al]. simpl in *. lia.
  - zbool. unfold sizeof in *. destruct Hf; [done|].
    destruct (measure t) as [size al]. simpl in *. lia.
Qed.

(** Every type has a size and an alignment. *)
Lemma measure_ok t : wf t = true → 0 <= sizeof t ∧ 0 < alignof t.
Proof.
  induction t as [n| |n t IH|p fs IH|p fs IH] using ctype_rect'; intros Hw.
  - simpl in Hw. zbool. unfold sizeof, alignof. simpl. lia.
  - unfold sizeof, alignof. simpl. lia.
  - simpl in Hw. zbool. destruct IH; [done|]. unfold sizeof, alignof in *. simpl.
    destruct (measure t). simpl in *. nia.
  - unfold sizeof, alignof. rewrite measure_struct. rewrite (proj1 (wf_fields _ _)) in Hw.
    destruct (struct_end_ge p (map f_measure fs) 0 1) as [H1 H2]; [by apply fields_measured|lia..|].
    destruct (whole_ge p _ H1 H2). lia.
  - unfold sizeof, alignof. rewrite measure_union. rewrite (proj2 (wf_fields p _)) in Hw.
    destruct (union_end_ge (map f_measure fs) 0 1) as [H1 H2]; [by apply fields_measured|lia..|].
    destruct (whole_ge p _ H1 H2). lia.
Qed.

Lemma wf_field_type f : wf_field f = true → wf (f_type f) = true.
Proof. destruct f; simpl; [done|]. intros. by zbool. Qed.

Lemma wf_measured fs : forallb wf_field fs = true → Forall measured (map f_measure fs).
Proof.
  intros Hw. apply fields_measured; [|done]. apply Forall_forall. intros f Hf Hwf.
  by apply measure_ok.
Qed.

(** A member that starts at [off] bytes in a type of [8 * size] bits. *)
Definition fits (packed : bool) (lo hi : Z) (m : Z * (string * ctype)) : Prop :=
  let '(off, (_, t)) := m in
  lo <= 8 * off ∧ 8 * (off + sizeof t) <= hi ∧ wf t = true ∧
  (packed = false → (alignof t | off)).

Lemma place_fits packed fs cur align :
  forallb wf_field fs = true → 0 <= cur → 0 < align →
  let e := (struct_end packed (map f_measure fs) cur align).1 in
  Forall (fits packed cur e) (place packed fs cur).
Proof.
  intros Hw. revert cur align. induction fs as [|f fs IH]; intros cur align Hc Ha; [constructor|].
  cbv zeta. simpl in Hw. apply andb_true_iff in Hw as [Hf Hw].
  pose proof (wf_measured fs Hw) as Hms. pose proof (measure_ok _ (wf_field_type _ Hf)) as [Hs Hal].
  destruct f as [n t|n t w]; cbn [map f_measure f_type place struct_end] in *.
  - unfold sizeof, alignof in *. destruct (measure t) as [size al] eqn:Em. cbn [fst snd] in *.
    set (start := field_start packed size al None cur).
    assert (cur <= start ∧ (8 | start) ∧ (packed = false → (8 * al | start))) as (H1 & H2 & H3).
    { unfold start, field_start. destruct packed.
      - destruct (round_up_spec cur 8) as [? ?]; [lia|]. split_and!; [lia|done|done].
      - destruct (round_up_spec cur (8 * al)) as [? [k Hk]]; [lia|].
        split_and!; [lia| |intros _; by exists k]. exists (k * al). lia. }
    assert (0 < Z.max align (field_align n al None)) as Ha' by (simpl; lia).
    destruct (struct_end_ge packed (map f_measure fs) (start + field_bits size None)
      (Z.max align (field_align n al None)) Hms) as [He _]; [simpl; lia|done|].
    cbn [field_bits] in He |- *. destruct H2 as [q Hq].
    assert (start / 8 = q) as Hdiv by (rewrite Hq; apply Z.div_mul; lia).
    constructor.
    + unfold fits, sizeof, alignof. rewrite Em, Hdiv. cbn [fst snd].
      split_and!; [lia|lia|by apply (wf_field_type (Field n t))|].
      intros Hp. destruct (H3 Hp) as [k Hk]. exists k. lia.
    + pose proof (IH Hw (start + 8 * size) (Z.max align (field_align n al None))) as HF.
      eapply Forall_impl; [apply HF; lia|]. intros [off [n' t']] (G1 & G2 & G3 & G4).
      split_and!; try done; lia.
  - simpl in Hf. zbool. unfold sizeof, alignof in *. destruct (measure t) as [size al] eqn:Em.
    cbn [fst snd] in *. set (start := field_start packed size al (Some w) cur).
    assert (cur <= start) by (apply field_start_ge; [done|lia]).
    pose proof (IH Hw (start + w) (Z.max align (field_align n al (Some w)))) as HF.
    eapply Forall_impl; [apply HF; lia|]. intros [off [n' t']] (G1 & G2 & G3 & G4).
    split_and!; try done; lia.
Qed.

(** A member within the bounds of a type of [size] bytes. *)
Definition inside_of (size : Z) (m : Z * ctype) : Prop :=
  0 <= m.1 ∧ m.1 + sizeof m.2 <= size ∧ wf m.2 = true.

Lemma union_covers ms cur align n size al w :
  (n, (size, al), w) ∈ ms → field_bits size w <= (union_end ms cur align).1.
Proof.
  assert (∀ ms cur align, cur <= (union_end ms cur align).1) as Hmono.
  { clear. intros ms. induction ms as [|[[n [size al]] w] ms IH]; intros cur align; simpl; [lia|].
    specialize (IH (Z.max cur (field_bits size w)) (Z.max align (field_align n al w))). lia. }
  revert cur align. induction ms as [|[[n' [size' al']] w'] ms IH]; intros cur align Hin; simpl.
  - by apply elem_of_nil in Hin.
  - apply elem_of_cons in Hin as [[= <- <- <- <-]|Hin]; [|by apply IH].
    specialize (Hmono ms (Z.max cur (field_bits size w)) (Z.max align (field_align n al w))). lia.
Qed.

(** The members of a type lie within it. *)
Lemma direct_inside t :
  wf t = true → Forall (λ m, inside_of (sizeof t) (m.1, m.2.2)) (direct t).
Proof.
  intros Hw. destruct t as [| | |p fs|p fs]; try constructor.
  - rewrite (proj1 (wf_fields p fs)) in Hw. cbn [direct].
    pose proof (place_fits p fs 0 1 Hw ltac:(lia) ltac:(lia)) as HF. cbv zeta in HF.
    destruct (struct_end_ge p (map f_measure fs) 0 1 (wf_measured fs Hw)) as [H1 H2]; [lia..|].
    destruct (whole_ge p _ H1 H2) as [H3 _].
    eapply Forall_impl; [exact HF|]. intros [off [n t]] (G1 & G2 & G3 & _).
    unfold inside_of. cbn [fst snd]. unfold sizeof at 2. rewrite measure_struct. split_and!; [lia|lia|done].
  - rewrite (proj2 (wf_fields p fs)) in Hw. cbn [direct].
    destruct (union_end_ge (map f_measure fs) 0 1 (wf_measured fs Hw)) as [H1 H2]; [lia..|].
    destruct (whole_ge p _ H1 H2) as [H3 _].
    apply Forall_forall. intros [off [n t]] Hin.
    apply list_elem_of_omap in Hin as (f & Hf & E).
    destruct f as [n' t'|]; [|done]. injection E as <- <- <-.
    assert (wf t' = true) as Ht.
    { rewrite forallb_forall in Hw. apply (Hw (Field n' t')). by apply list_elem_of_In. }
    unfold inside_of. cbn [fst snd]. split_and!; [lia| |done].
    assert ((n', measure t', None) ∈ map f_measure fs) as Hin.
    { apply list_elem_of_In, in_map_iff. exists (Field n' t'). split; [done|].
      by apply list_elem_of_In. }
    unfold sizeof. rewrite measure_union. destruct (measure t') as [size al].
    apply (union_covers _ 0 1) in Hin. cbn [field_bits fst] in *. lia.
Qed.

Lemma inside_trans size m off t :
  inside_of size m → inside_of (sizeof m.2) (off, t) → inside_of size (m.1 + off, t).
Proof. unfold inside_of. cbn [fst snd]. intros (H1 & H2 & _) (H3 & H4 & H5). split_and!; [lia|lia|done]. Qed.

Lemma find_member_inside fuel name ms size r :
  Forall (λ m, inside_of size (m.1, m.2.2)) ms →
  find_member fuel name ms = Some r → inside_of size r.
Proof.
  revert name ms size r. induction fuel as [|fuel IH]; intros name ms size r HF; [done|].
  cbn [find_member]. induction HF as [|[off [n t]] ms Hm _ IHms]; [done|]. cbn [foldr].
  destruct (String.eqb n name); [intros [= <-]; exact Hm|].
  destruct (String.eqb n ""); [|exact IHms].
  destruct (find_member fuel name (direct t)) as [[off' t']|] eqn:E; [|exact IHms].
  intros [= <-]. apply (inside_trans size (off, t)); [exact Hm|].
  eapply IH; [|exact E]. apply direct_inside. by destruct Hm as (_ & _ & ?).
Qed.

Lemma access_inside t path r :
  wf t = true → access t path = Some r → inside_of (sizeof t) r.
Proof.
  revert t r. induction path as [|n path IH]; intros t r Hw; cbn [access].
  - intros [= <-]. unfold inside_of. cbn [fst snd]. split_and!; [lia|lia|done].
  - destruct (member t n) as [[off t']|] eqn:Em; [|done].
    apply find_member_inside with (size := sizeof t) in Em; [|by apply direct_inside].
    destruct (access t' path) as [[off' t'']|] eqn:Ea; [|done]. intros [= <-].
    apply (inside_trans (sizeof t) (off, t')); [done|]. apply IH; [|done].
    by destruct Em as (_ & _ & ?).
Qed.

(** The members of a structure follow each other without overlap. *)
Definition before (m m' : Z * (string * ctype)) : Prop := m.1 + sizeof m.2.2 <= m'.1.

Lemma place_ordered packed fs cur :
  forallb wf_field fs = true → 0 <= cur → StronglySorted before (place packed fs cur).
Proof.
  intros Hw. revert cur. induction fs as [|f fs IH]; intros cur Hc; [constructor|].
  simpl in Hw. apply andb_true_iff in Hw as [Hf Hw].
  pose proof (measure_ok _ (wf_field_type _ Hf)) as [Hs Hal].
  destruct f as [n t|n t w]; cbn [place f_type] in *.
  - assert (cur <= field_start packed (sizeof t) (alignof t) None cur) as Hge
      by (by apply field_start_ge).
    constructor; [apply IH; [done|lia]|].
    pose proof (place_fits packed fs (field_start packed (sizeof t) (alignof t) None cur +
      8 * sizeof t) 1 Hw ltac:(lia) ltac:(lia)) as HF.
    eapply Forall_impl; [exact HF|]. intros [off [n' t']] (G1 & _). unfold before. cbn [fst snd].
    pose proof (Z.mul_div_le (field_start packed (sizeof t) (alignof t) None cur) 8). lia.
  - simpl in Hf. zbool.
    assert (cur <= field_start packed (sizeof t) (alignof t) (Some w) cur) as Hge
      by (apply field_start_ge; [done|lia]).
    apply IH; [done|lia].
Qed.
