(* ===== verification/VmlinuxArm64.v ===== *)
(** * Kernel types on arm64

    The structures of the kernel the programs read, and the types they embed,
    as [vmlinux/arm64/vmlinux.h] declares them.  Enumerations are integers of
    their size, and the target of a pointer does not matter for the layout. *)
From S2P Require Import Prelude CLayout.
Import String.StringSyntax.
#[local] Open Scope string_scope.
#[local] Open Scope Z_scope.

Definition __u64 : ctype := Int 8.

Definition u64 : ctype := __u64.

Definition __u32 : ctype := Int 4.

Definition u32 : ctype := __u32.

Definition thread_info : ctype := struct [
  Field "flags" (Int 8);
  Anon (union [
    Field "preempt_count" u64;
    Field "preempt" (struct [
      Field "count" u32;
      Field "need_resched" u32 ]) ]);
  Field "cpu" u32 ].

Definition atomic_t : ctype := struct [
  Field "counter" (Int 4) ].

Definition refcount_struct : ctype := struct [
  Field "refs" atomic_t ].

Definition refcount_t : ctype := refcount_struct.

Definition llist_node : ctype := struct [
  Field "next" Ptr ].

Definition __u16 : ctype := Int 2.

Definition u16 : ctype := __u16.

Definition __call_single_node : ctype := struct [
  Field "llist" llist_node;
  Anon (union [
    Field "u_flags" (Int 4);
    Field "a_flags" atomic_t ]);
  Field "src" u16;
  Field "dst" u16 ].

Definition load_weight : ctype := struct [
  Field "weight" (Int 8);
  Field "inv_weight" u32 ].

Definition rb_node : ctype := struct [
  Field "__rb_parent_color" (Int 8);
  Field "rb_right" Ptr;
  Field "rb_left" Ptr ].

Definition list_head : ctype := struct [
  Field "next" Ptr;
  Field "prev" Ptr ].

Definition __s64 : ctype := Int 8.

Definition s64 : ctype := __s64.

Definition sched_avg : ctype := struct [
  Field "last_update_time" u64;
  Field "load_sum" u64;
  Field "runnable_sum" u64;
  Field "util_sum" u32;
  Field "period_contrib" u32;
  Field "load_avg" (Int 8);
  Field "runnable_avg" (Int 8);
  Field "util_avg" (Int 8);
  Field "util_est" (Int 4) ].

Definition sched_entity : ctype := struct [
  Field "load" load_weight;
  Field "run_node" rb_node;
  Field "deadline" u64;
  Field "min_vruntime" u64;
  Field "min_slice" u64;
  Field "group_node" list_head;
  Field "on_rq" (Int 1);
  Field "sched_delayed" (Int 1);
  Field "rel_deadline" (Int 1);
  Field "custom_slice" (Int 1);
  Field "exec_start" u64;
  Field "sum_exec_runtime" u64;
  Field "prev_sum_exec_runtime" u64;
  Field "vruntime" u64;
  Field "vlag" s64;
  Field "slice" u64;
  Field "nr_migrations" u64;
  Field "depth" (Int 4);
  Field "parent" Ptr;
  Field "cfs_rq" Ptr;
  Field "my_q" Ptr;
  Field "runnable_weight" (Int 8);
  Bits "" (Int 8) 64;
  Field "avg" sched_avg ].

Definition sched_rt_entity : ctype := struct [
  Field "run_list" list_head;
  Field "timeout" (Int 8);
  Field "watchdog_stamp" (Int 8);
  Field "time_slice" (Int 4);
  Field "on_rq" (Int 2);
  Field "on_list" (Int 2);
  Field "back" Ptr ].

Definition ktime_t : ctype := s64.

Definition timerqueue_node : ctype := struct [
  Field "node" rb_node;
  Field "expires" ktime_t ].

Definition __u8 : ctype := Int 1.

Definition u8 : ctype := __u8.

Definition hrtimer : ctype := struct [
  Field "node" timerqueue_node;
  Field "_softexpires" ktime_t;
  Field "function" Ptr;
  Field "base" Ptr;
  Field "state" u8;
  Field "is_rel" u8;
  Field "is_soft" u8;
  Field "is_hard" u8 ].

Definition dl_server_has_tasks_f : ctype := Ptr.

Definition dl_server_pick_f : ctype := Ptr.

Definition sched_dl_entity : ctype := struct [
  Field "rb_node" rb_node;
  Field "dl_runtime" u64;
  Field "dl_deadline" u64;
  Field "dl_period" u64;
  Field "dl_bw" u64;
  Field "dl_density" u64;
  Field "runtime" s64;
  Field "deadline" u64;
  Field "flags" (Int 4);
  Bits "dl_throttled" (Int 4) 1;
  Bits "dl_yielded" (Int 4) 1;
  Bits "dl_non_contending" (Int 4) 1;
  Bits "dl_overrun" (Int 4) 1;
  Bits "dl_server" (Int 4) 1;
  Bits "dl_server_active" (Int 4) 1;
  Bits "dl_defer" (Int 4) 1;
  Bits "dl_defer_armed" (Int 4) 1;
  Bits "dl_defer_running" (Int 4) 1;
  Field "dl_timer" hrtimer;
  Field "inactive_timer" hrtimer;
  Field "rq" Ptr;
  Field "server_has_tasks" dl_server_has_tasks_f;
  Field "server_pick_task" dl_server_pick_f;
  Field "pi_se" Ptr ].

Definition sched_statistics : ctype := struct [
  Field "wait_start" u64;
  Field "wait_max" u64;
  Field "wait_count" u64;
  Field "wait_sum" u64;
  Field "iowait_count" u64;
  Field "iowait_sum" u64;
  Field "sleep_start" u64;
  Field "sleep_max" u64;
  Field "sum_sleep_runtime" s64;
  Field "block_start" u64;
  Field "block_max" u64;
  Field "sum_block_runtime" s64;
  Field "exec_max" s64;
  Field "slice_max" u64;
  Field "nr_migrations_cold" u64;
  Field "nr_failed_migrations_affine" u64;
  Field "nr_failed_migrations_running" u64;
  Field "nr_failed_migrations_hot" u64;
  Field "nr_forced_migrations" u64;
  Field "nr_wakeups" u64;
  Field "nr_wakeups_sync" u64;
  Field "nr_wakeups_migrate" u64;
  Field "nr_wakeups_local" u64;
  Field "nr_wakeups_remote" u64;
  Field "nr_wakeups_affine" u64;
  Field "nr_wakeups_affine_attempts" u64;
  Field "nr_wakeups_passive" u64;
  Field "nr_wakeups_idle" u64;
  Bits "" (Int 8) 64;
  Bits "" (Int 8) 64;
  Bits "" (Int 8) 64;
  Bits "" (Int 8) 64 ].

Definition hlist_head : ctype := struct [
  Field "first" Ptr ].

Definition cpumask : ctype := struct [
  Field "bits" (Arr 8 (Int 8)) ].

Definition cpumask_t : ctype := cpumask.

Definition rcu_special : ctype := union [
  Field "b" (struct [
    Field "blocked" u8;
    Field "need_qs" u8;
    Field "exp_hint" u8;
    Field "need_mb" u8 ]);
  Field "s" u32 ].

Definition sched_info : ctype := struct [
  Field "pcount" (Int 8);
  Field "run_delay" (Int 8);
  Field "last_arrival" (Int 8);
  Field "last_queued" (Int 8) ].

Definition plist_node : ctype := struct [
  Field "prio" (Int 4);
  Field "prio_list" list_head;
  Field "node_list" list_head ].

Definition __kernel_clockid_t : ctype := Int 4.

Definition clockid_t : ctype := __kernel_clockid_t.

Definition restart_block : ctype := struct [
  Field "arch_data" (Int 8);
  Field "fn" Ptr;
  Anon (union [
    Field "futex" (struct [
      Field "uaddr" Ptr;
      Field "val" u32;
      Field "flags" u32;
      Field "bitset" u32;
      Field "time" u64;
      Field "uaddr2" Ptr ]);
    Field "nanosleep" (struct [
      Field "clockid" clockid_t;
      Field "type" (Int 4);
      Anon (union [
        Field "rmtp" Ptr;
        Field "compat_rmtp" Ptr ]);
      Field "expires" u64 ]);
    Field "poll" (struct [
      Field "ufds" Ptr;
      Field "nfds" (Int 4);
      Field "has_timeout" (Int 4);
      Field "tv_sec" (Int 8);
      Field "tv_nsec" (Int 8) ]) ]) ].

Definition __kernel_pid_t : ctype := Int 4.

Definition pid_t : ctype := __kernel_pid_t.

Definition hlist_node : ctype := struct [
  Field "next" Ptr;
  Field "pprev" Ptr ].

Definition qspinlock : ctype := struct [
  Anon (union [
    Field "val" atomic_t;
    Anon (struct [
      Field "locked" u8;
      Field "pending" u8 ]);
    Anon (struct [
      Field "locked_pending" u16;
      Field "tail" u16 ]) ]) ].

Definition arch_spinlock_t : ctype := qspinlock.

Definition raw_spinlock : ctype := struct [
  Field "raw_lock" arch_spinlock_t ].

Definition raw_spinlock_t : ctype := raw_spinlock.

Definition prev_cputime : ctype := struct [
  Field "utime" u64;
  Field "stime" u64;
  Field "lock" raw_spinlock_t ].

Definition seqcount : ctype := struct [
  Field "sequence" (Int 4) ].

Definition seqcount_t : ctype := seqcount.

Definition vtime : ctype := struct [
  Field "seqcount" seqcount_t;
  Field "starttime" (Int 8);
  Field "state" (Int 4);
  Field "cpu" (Int 4);
  Field "utime" u64;
  Field "stime" u64;
  Field "gtime" u64 ].

Definition rb_root : ctype := struct [
  Field "rb_node" Ptr ].

Definition rb_root_cached : ctype := struct [
  Field "rb_root" rb_root;
  Field "rb_leftmost" Ptr ].

Definition timerqueue_head : ctype := struct [
  Field "rb_root" rb_root_cached ].

Definition posix_cputimer_base : ctype := struct [
  Field "nextevt" u64;
  Field "tqhead" timerqueue_head ].

Definition posix_cputimers : ctype := struct [
  Field "bases" (Arr 3 posix_cputimer_base);
  Field "timers_active" (Int 4);
  Field "expiry_active" (Int 4) ].

Definition callback_head : ctype := struct [
  Field "next" Ptr;
  Field "func" Ptr ].

Definition atomic64_t : ctype := struct [
  Field "counter" s64 ].

Definition atomic_long_t : ctype := atomic64_t.

Definition optimistic_spin_queue : ctype := struct [
  Field "tail" atomic_t ].

Definition mutex : ctype := struct [
  Field "owner" atomic_long_t;
  Field "wait_lock" raw_spinlock_t;
  Field "osq" optimistic_spin_queue;
  Field "wait_list" list_head ].

Definition posix_cputimers_work : ctype := struct [
  Field "work" callback_head;
  Field "mutex" mutex;
  Field "scheduled" (Int 4) ].

Definition sysv_sem : ctype := struct [
  Field "undo_list" Ptr ].

Definition sysv_shm : ctype := struct [
  Field "shm_clist" list_head ].

Definition sigset_t : ctype := struct [
  Field "sig" (Arr 1 (Int 8)) ].

Definition sigpending : ctype := struct [
  Field "list" list_head;
  Field "signal" sigset_t ].

Definition __kernel_ulong_t : ctype := Int 8.

Definition __kernel_size_t : ctype := __kernel_ulong_t.

Definition size_t : ctype := __kernel_size_t.

Definition __kernel_uid32_t : ctype := Int 4.

Definition uid_t : ctype := __kernel_uid32_t.

Definition kuid_t : ctype := struct [
  Field "val" uid_t ].

Definition seccomp : ctype := struct [
  Field "mode" (Int 4);
  Field "filter_count" atomic_t;
  Field "filter" Ptr ].

Definition syscall_user_dispatch : ctype := struct [].

Definition spinlock : ctype := struct [
  Anon (union [
    Field "rlock" raw_spinlock ]) ].

Definition spinlock_t : ctype := spinlock.

Definition wake_q_node : ctype := struct [
  Field "next" Ptr ].

Definition task_io_accounting : ctype := struct [
  Field "rchar" u64;
  Field "wchar" u64;
  Field "syscr" u64;
  Field "syscw" u64;
  Field "read_bytes" u64;
  Field "write_bytes" u64;
  Field "cancelled_write_bytes" u64 ].

Definition nodemask_t : ctype := struct [
  Field "bits" (Arr 1 (Int 8)) ].

Definition seqcount_spinlock : ctype := struct [
  Field "seqcount" seqcount_t ].

Definition seqcount_spinlock_t : ctype := seqcount_spinlock.

Definition arch_tlbflush_unmap_batch : ctype := struct [].

Definition tlbflush_unmap_batch : ctype := struct [
  Field "arch" arch_tlbflush_unmap_batch;
  Field "flush_required" (Int 1);
  Field "writable" (Int 1) ].

Definition page_frag : ctype := struct [
  Field "page" Ptr;
  Field "offset" __u32;
  Field "size" __u32 ].

Definition kmap_ctrl : ctype := struct [].

Definition timer_list : ctype := struct [
  Field "entry" hlist_node;
  Field "expires" (Int 8);
  Field "function" Ptr;
  Field "flags" u32 ].

Definition llist_head : ctype := struct [
  Field "first" Ptr ].

Definition cpu_context : ctype := struct [
  Field "x19" (Int 8);
  Field "x20" (Int 8);
  Field "x21" (Int 8);
  Field "x22" (Int 8);
  Field "x23" (Int 8);
  Field "x24" (Int 8);
  Field "x25" (Int 8);
  Field "x26" (Int 8);
  Field "x27" (Int 8);
  Field "x28" (Int 8);
  Field "fp" (Int 8);
  Field "sp" (Int 8);
  Field "pc" (Int 8) ].

Definition user_fpsimd_state : ctype := struct [
  Field "vregs" (Arr 32 (Int 16));
  Field "fpsr" __u32;
  Field "fpcr" __u32;
  Field "__reserved" (Arr 2 __u32) ].

Definition debug_info : ctype := struct [
  Field "suspended_step" (Int 4);
  Field "bps_disabled" (Int 4);
  Field "wps_disabled" (Int 4);
  Field "hbp_break" (Arr 16 Ptr);
  Field "hbp_watch" (Arr 16 Ptr) ].

Definition ptrauth_key : ctype := struct [
  Field "lo" (Int 8);
  Field "hi" (Int 8) ].

Definition ptrauth_keys_user : ctype := struct [
  Field "apia" ptrauth_key;
  Field "apib" ptrauth_key;
  Field "apda" ptrauth_key;
  Field "apdb" ptrauth_key;
  Field "apga" ptrauth_key ].

Definition ptrauth_keys_kernel : ctype := struct [
  Field "apia" ptrauth_key ].

Definition thread_struct : ctype := struct [
  Field "cpu_context" cpu_context;
  Bits "" (Int 8) 64;
  Field "uw" (struct [
    Field "tp_value" (Int 8);
    Field "tp2_value" (Int 8);
    Field "fpmr" u64;
    Field "pad" (Int 8);
    Field "fpsimd_state" user_fpsimd_state ]);
  Field "fp_type" (Int 4);
  Field "fpsimd_cpu" (Int 4);
  Field "sve_state" Ptr;
  Field "sme_state" Ptr;
  Field "vl" (Arr 2 (Int 4));
  Field "vl_onexec" (Arr 2 (Int 4));
  Field "fault_address" (Int 8);
  Field "fault_code" (Int 8);
  Field "debug" debug_info;
  Bits "" (Int 8) 64;
  Field "kernel_fpsimd_state" user_fpsimd_state;
  Field "kernel_fpsimd_cpu" (Int 4);
  Field "keys_user" ptrauth_keys_user;
  Field "keys_kernel" ptrauth_keys_kernel;
  Field "mte_ctrl" u64;
  Field "sctlr_user" u64;
  Field "svcr" u64;
  Field "tpidr2_el0" u64;
  Field "por_el0" u64 ].

Definition task_struct_head : list cfield := [
  Field "thread_info" thread_info;
  Field "__state" (Int 4);
  Field "saved_state" (Int 4);
  Field "stack" Ptr;
  Field "usage" refcount_t;
  Field "flags" (Int 4);
  Field "ptrace" (Int 4);
  Field "on_cpu" (Int 4);
  Field "wake_entry" __call_single_node;
  Field "wakee_flips" (Int 4);
  Field "wakee_flip_decay_ts" (Int 8);
  Field "last_wakee" Ptr;
  Field "recent_used_cpu" (Int 4);
  Field "wake_cpu" (Int 4);
  Field "on_rq" (Int 4);
  Field "prio" (Int 4);
  Field "static_prio" (Int 4);
  Field "normal_prio" (Int 4);
  Field "rt_priority" (Int 4);
  Field "se" sched_entity;
  Field "rt" sched_rt_entity;
  Field "dl" sched_dl_entity;
  Field "dl_server" Ptr;
  Field "sched_class" Ptr;
  Field "sched_task_group" Ptr;
  Field "stats" sched_statistics;
  Field "preempt_notifiers" hlist_head;
  Field "btrace_seq" (Int 4);
  Field "policy" (Int 4);
  Field "max_allowed_capacity" (Int 8);
  Field "nr_cpus_allowed" (Int 4);
  Field "cpus_ptr" Ptr;
  Field "user_cpus_ptr" Ptr;
  Field "cpus_mask" cpumask_t;
  Field "migration_pending" Ptr;
  Field "migration_disabled" (Int 2);
  Field "migration_flags" (Int 2);
  Field "trc_reader_nesting" (Int 4);
  Field "trc_ipi_to_cpu" (Int 4);
  Field "trc_reader_special" rcu_special;
  Field "trc_holdout_list" list_head;
  Field "trc_blkd_node" list_head;
  Field "trc_blkd_cpu" (Int 4);
  Field "sched_info" sched_info;
  Field "tasks" list_head;
  Field "pushable_tasks" plist_node;
  Field "pushable_dl_tasks" rb_node;
  Field "mm" Ptr;
  Field "active_mm" Ptr;
  Field "faults_disabled_mapping" Ptr;
  Field "exit_state" (Int 4);
  Field "exit_code" (Int 4);
  Field "exit_signal" (Int 4);
  Field "pdeath_signal" (Int 4);
  Field "jobctl" (Int 8);
  Field "personality" (Int 4);
  Bits "sched_reset_on_fork" (Int 4) 1;
  Bits "sched_contributes_to_load" (Int 4) 1;
  Bits "sched_migrated" (Int 4) 1;
  Bits "sched_task_hot" (Int 4) 1;
  Bits "" (Int 8) 28;
  Bits "sched_remote_wakeup" (Int 4) 1;
  Bits "sched_rt_mutex" (Int 4) 1;
  Bits "in_execve" (Int 4) 1;
  Bits "in_iowait" (Int 4) 1;
  Bits "in_lru_fault" (Int 4) 1;
  Bits "no_cgroup_migration" (Int 4) 1;
  Bits "frozen" (Int 4) 1;
  Bits "use_memdelay" (Int 4) 1;
  Bits "in_memstall" (Int 4) 1;
  Bits "in_eventfd" (Int 4) 1;
  Bits "in_thrashing" (Int 4) 1;
  Field "atomic_flags" (Int 8);
  Field "restart_block" restart_block;
  Field "pid" pid_t;
  Field "tgid" pid_t;
  Field "stack_canary" (Int 8);
  Field "real_parent" Ptr;
  Field "parent" Ptr;
  Field "children" list_head;
  Field "sibling" list_head;
  Field "group_leader" Ptr;
  Field "ptraced" list_head;
  Field "ptrace_entry" list_head;
  Field "thread_pid" Ptr;
  Field "pid_links" (Arr 4 hlist_node);
  Field "thread_node" list_head;
  Field "vfork_done" Ptr;
  Field "set_child_tid" Ptr;
  Field "clear_child_tid" Ptr;
  Field "worker_private" Ptr;
  Field "utime" u64;
  Field "stime" u64;
  Field "gtime" u64;
  Field "prev_cputime" prev_cputime;
  Field "vtime" vtime;
  Field "tick_dep_mask" atomic_t;
  Field "nvcsw" (Int 8);
  Field "nivcsw" (Int 8);
  Field "start_time" u64;
  Field "start_boottime" u64;
  Field "min_flt" (Int 8);
  Field "maj_flt" (Int 8);
  Field "posix_cputimers" posix_cputimers;
  Field "posix_cputimers_work" posix_cputimers_work;
  Field "ptracer_cred" Ptr;
  Field "real_cred" Ptr;
  Field "cred" Ptr;
  Field "cached_requested_key" Ptr;
  Field "comm" (Arr 16 (Int 1));
  Field "nameidata" Ptr;
  Field "sysvsem" sysv_sem;
  Field "sysvshm" sysv_shm;
  Field "last_switch_count" (Int 8);
  Field "last_switch_time" (Int 8);
  Field "fs" Ptr;
  Field "files" Ptr;
  Field "io_uring" Ptr;
  Field "nsproxy" Ptr;
  Field "signal" Ptr;
  Field "sighand" Ptr;
  Field "blocked" sigset_t;
  Field "real_blocked" sigset_t;
  Field "saved_sigmask" sigset_t;
  Field "pending" sigpending;
  Field "sas_ss_sp" (Int 8);
  Field "sas_ss_size" size_t;
  Field "sas_ss_flags" (Int 4);
  Field "task_works" Ptr;
  Field "audit_context" Ptr;
  Field "loginuid" kuid_t;
  Field "sessionid" (Int 4);
  Field "seccomp" seccomp;
  Field "syscall_dispatch" syscall_user_dispatch;
  Field "parent_exec_id" u64;
  Field "self_exec_id" u64;
  Field "alloc_lock" spinlock_t;
  Field "pi_lock" raw_spinlock_t;
  Field "wake_q" wake_q_node;
  Field "pi_waiters" rb_root_cached;
  Field "pi_top_task" Ptr;
  Field "pi_blocked_on" Ptr;
  Field "journal_info" Ptr;
  Field "bio_list" Ptr;
  Field "plug" Ptr;
  Field "reclaim_state" Ptr;
  Field "io_context" Ptr;
  Field "capture_control" Ptr ].

Definition task_struct_tail : list cfield := [
  Field "ptrace_message" (Int 8);
  Field "last_siginfo" Ptr;
  Field "ioac" task_io_accounting;
  Field "psi_flags" (Int 4);
  Field "acct_rss_mem1" u64;
  Field "acct_vm_mem1" u64;
  Field "acct_timexpd" u64;
  Field "mems_allowed" nodemask_t;
  Field "mems_allowed_seq" seqcount_spinlock_t;
  Field "cpuset_mem_spread_rotor" (Int 4);
  Field "cgroups" Ptr;
  Field "cg_list" list_head;
  Field "robust_list" Ptr;
  Field "compat_robust_list" Ptr;
  Field "pi_state_list" list_head;
  Field "pi_state_cache" Ptr;
  Field "futex_exit_mutex" mutex;
  Field "futex_state" (Int 4);
  Field "perf_recursion" (Arr 4 u8);
  Field "perf_event_ctxp" Ptr;
  Field "perf_event_mutex" mutex;
  Field "perf_event_list" list_head;
  Field "mempolicy" Ptr;
  Field "il_prev" (Int 2);
  Field "il_weight" u8;
  Field "pref_node_fork" (Int 2);
  Field "numa_scan_seq" (Int 4);
  Field "numa_scan_period" (Int 4);
  Field "numa_scan_period_max" (Int 4);
  Field "numa_preferred_nid" (Int 4);
  Field "numa_migrate_retry" (Int 8);
  Field "node_stamp" u64;
  Field "last_task_numa_placement" u64;
  Field "last_sum_exec_runtime" u64;
  Field "numa_work" callback_head;
  Field "numa_group" Ptr;
  Field "numa_faults" Ptr;
  Field "total_numa_faults" (Int 8);
  Field "numa_faults_locality" (Arr 3 (Int 8));
  Field "numa_pages_migrated" (Int 8);
  Field "rseq" Ptr;
  Field "rseq_len" u32;
  Field "rseq_sig" u32;
  Field "rseq_event_mask" (Int 8);
  Field "mm_cid" (Int 4);
  Field "last_mm_cid" (Int 4);
  Field "migrate_from_cpu" (Int 4);
  Field "mm_cid_active" (Int 4);
  Field "cid_work" callback_head;
  Field "tlb_ubc" tlbflush_unmap_batch;
  Field "splice_pipe" Ptr;
  Field "task_frag" page_frag;
  Field "delays" Ptr;
  Field "nr_dirtied" (Int 4);
  Field "nr_dirtied_pause" (Int 4);
  Field "dirty_paused_when" (Int 8);
  Field "timer_slack_ns" u64;
  Field "default_timer_slack_ns" u64;
  Field "curr_ret_stack" (Int 4);
  Field "curr_ret_depth" (Int 4);
  Field "ret_stack" Ptr;
  Field "ftrace_timestamp" (Int 8);
  Field "trace_overrun" atomic_t;
  Field "tracing_graph_pause" atomic_t;
  Field "trace_recursion" (Int 8);
  Field "memcg_nr_pages_over_high" (Int 4);
  Field "active_memcg" Ptr;
  Field "objcg" Ptr;
  Field "throttle_disk" Ptr;
  Field "utask" Ptr;
  Field "sequential_io" (Int 4);
  Field "sequential_io_avg" (Int 4);
  Field "kmap_ctrl" kmap_ctrl;
  Field "rcu" callback_head;
  Field "rcu_users" refcount_t;
  Field "pagefault_disabled" (Int 4);
  Field "oom_reaper_list" Ptr;
  Field "oom_reaper_timer" timer_list;
  Field "stack_vm_area" Ptr;
  Field "stack_refcount" refcount_t;
  Field "security" Ptr;
  Field "bpf_storage" Ptr;
  Field "bpf_ctx" Ptr;
  Field "bpf_net_context" Ptr;
  Field "kretprobe_instances" llist_head;
  Bits "" (Int 8) 64;
  Field "thread" thread_struct;
  Bits "" (Int 8) 64;
  Bits "" (Int 8) 64;
  Bits "" (Int 8) 64;
  Bits "" (Int 8) 64 ].

Definition task_struct : ctype := struct (task_struct_head ++ task_struct_tail)%list.

Definition hlist_bl_node : ctype := struct [
  Field "next" Ptr;
  Field "pprev" Ptr ].

Definition qstr : ctype := struct [
  Anon (union [
    Anon (struct [
      Field "hash" u32;
      Field "len" u32 ]);
    Field "hash_len" u64 ]);
  Field "name" Ptr ].

Definition lockref : ctype := struct [
  Anon (union [
    Field "lock_count" __u64;
    Anon (struct [
      Field "lock" spinlock_t;
      Field "count" (Int 4) ]) ]) ].

Definition dentry : ctype := struct [
  Field "d_flags" (Int 4);
  Field "d_seq" seqcount_spinlock_t;
  Field "d_hash" hlist_bl_node;
  Field "d_parent" Ptr;
  Field "d_name" qstr;
  Field "d_inode" Ptr;
  Field "d_iname" (Arr 40 (Int 1));
  Field "d_op" Ptr;
  Field "d_sb" Ptr;
  Field "d_time" (Int 8);
  Field "d_fsdata" Ptr;
  Field "d_lockref" lockref;
  Anon (union [
    Field "d_lru" list_head;
    Field "d_wait" Ptr ]);
  Field "d_sib" hlist_node;
  Field "d_children" hlist_head;
  Field "d_u" (union [
    Field "d_alias" hlist_node;
    Field "d_in_lookup_hash" hlist_bl_node;
    Field "d_rcu" callback_head ]) ].

Definition path : ctype := struct [
  Field "mnt" Ptr;
  Field "dentry" Ptr ].

Definition vfsmount : ctype := struct [
  Field "mnt_root" Ptr;
  Field "mnt_sb" Ptr;
  Field "mnt_flags" (Int 4);
  Field "mnt_idmap" Ptr ].

Definition mount : ctype := struct [
  Field "mnt_hash" hlist_node;
  Field "mnt_parent" Ptr;
  Field "mnt_mountpoint" Ptr;
  Field "mnt" vfsmount;
  Anon (union [
    Field "mnt_node" rb_node;
    Field "mnt_rcu" callback_head;
    Field "mnt_llist" llist_node ]);
  Field "mnt_pcp" Ptr;
  Field "mnt_mounts" list_head;
  Field "mnt_child" list_head;
  Field "mnt_instance" list_head;
  Field "mnt_devname" Ptr;
  Field "mnt_list" list_head;
  Field "mnt_expire" list_head;
  Field "mnt_share" list_head;
  Field "mnt_slave_list" list_head;
  Field "mnt_slave" list_head;
  Field "mnt_master" Ptr;
  Field "mnt_ns" Ptr;
  Field "mnt_mp" Ptr;
  Anon (union [
    Field "mnt_mp_list" hlist_node;
    Field "mnt_umount" hlist_node ]);
  Field "mnt_umounting" list_head;
  Field "mnt_fsnotify_marks" Ptr;
  Field "mnt_fsnotify_mask" __u32;
  Field "mnt_id" (Int 4);
  Field "mnt_id_unique" u64;
  Field "mnt_group_id" (Int 4);
  Field "mnt_expiry_mark" (Int 4);
  Field "mnt_pins" hlist_head;
  Field "mnt_stuck_children" hlist_head ].

Definition umode_t : ctype := Int 2.

Definition __kernel_gid32_t : ctype := Int 4.

Definition gid_t : ctype := __kernel_gid32_t.

Definition kgid_t : ctype := struct [
  Field "val" gid_t ].

Definition __kernel_dev_t : ctype := u32.

Definition dev_t : ctype := __kernel_dev_t.

Definition __kernel_loff_t : ctype := Int 8.

Definition loff_t : ctype := __kernel_loff_t.

Definition time64_t : ctype := __s64.

Definition blkcnt_t : ctype := u64.

Definition rw_semaphore : ctype := struct [
  Field "count" atomic_long_t;
  Field "owner" atomic_long_t;
  Field "osq" optimistic_spin_queue;
  Field "wait_lock" raw_spinlock_t;
  Field "wait_list" list_head ].

Definition gfp_t : ctype := Int 4.

Definition xarray : ctype := struct [
  Field "xa_lock" spinlock_t;
  Field "xa_flags" gfp_t;
  Field "xa_head" Ptr ].

Definition errseq_t : ctype := u32.

Definition address_space : ctype := struct [
  Field "host" Ptr;
  Field "i_pages" xarray;
  Field "invalidate_lock" rw_semaphore;
  Field "gfp_mask" gfp_t;
  Field "i_mmap_writable" atomic_t;
  Field "i_mmap" rb_root_cached;
  Field "nrpages" (Int 8);
  Field "writeback_index" (Int 8);
  Field "a_ops" Ptr;
  Field "flags" (Int 8);
  Field "wb_err" errseq_t;
  Field "i_private_lock" spinlock_t;
  Field "i_private_list" list_head;
  Field "i_mmap_rwsem" rw_semaphore;
  Field "i_private_data" Ptr ].

Definition inode : ctype := struct [
  Field "i_mode" umode_t;
  Field "i_opflags" (Int 2);
  Field "i_uid" kuid_t;
  Field "i_gid" kgid_t;
  Field "i_flags" (Int 4);
  Field "i_acl" Ptr;
  Field "i_default_acl" Ptr;
  Field "i_op" Ptr;
  Field "i_sb" Ptr;
  Field "i_mapping" Ptr;
  Field "i_security" Ptr;
  Field "i_ino" (Int 8);
  Anon (union [
    Field "i_nlink" (Int 4);
    Field "__i_nlink" (Int 4) ]);
  Field "i_rdev" dev_t;
  Field "i_size" loff_t;
  Field "i_atime_sec" time64_t;
  Field "i_mtime_sec" time64_t;
  Field "i_ctime_sec" time64_t;
  Field "i_atime_nsec" u32;
  Field "i_mtime_nsec" u32;
  Field "i_ctime_nsec" u32;
  Field "i_generation" u32;
  Field "i_lock" spinlock_t;
  Field "i_bytes" (Int 2);
  Field "i_blkbits" u8;
  Field "i_write_hint" (Int 1);
  Field "i_blocks" blkcnt_t;
  Field "i_state" u32;
  Field "i_rwsem" rw_semaphore;
  Field "dirtied_when" (Int 8);
  Field "dirtied_time_when" (Int 8);
  Field "i_hash" hlist_node;
  Field "i_io_list" list_head;
  Field "i_wb" Ptr;
  Field "i_wb_frn_winner" (Int 4);
  Field "i_wb_frn_avg_time" u16;
  Field "i_wb_frn_history" u16;
  Field "i_lru" list_head;
  Field "i_sb_list" list_head;
  Field "i_wb_list" list_head;
  Anon (union [
    Field "i_dentry" hlist_head;
    Field "i_rcu" callback_head ]);
  Field "i_version" atomic64_t;
  Field "i_sequence" atomic64_t;
  Field "i_count" atomic_t;
  Field "i_dio_count" atomic_t;
  Field "i_writecount" atomic_t;
  Field "i_readcount" atomic_t;
  Anon (union [
    Field "i_fop" Ptr;
    Field "free_inode" Ptr ]);
  Field "i_flctx" Ptr;
  Field "i_data" address_space;
  Field "i_devices" list_head;
  Anon (union [
    Field "i_pipe" Ptr;
    Field "i_cdev" Ptr;
    Field "i_link" Ptr;
    Field "i_dir_seq" (Int 4) ]);
  Field "i_fsnotify_mask" __u32;
  Field "i_fsnotify_marks" Ptr;
  Field "i_crypt_info" Ptr;
  Field "i_verity_info" Ptr;
  Field "i_private" Ptr ].

Definition hlist_bl_head : ctype := struct [
  Field "first" Ptr ].

Definition qsize_t : ctype := Int 8.

Definition mem_dqinfo : ctype := struct [
  Field "dqi_format" Ptr;
  Field "dqi_fmt_id" (Int 4);
  Field "dqi_dirty_list" list_head;
  Field "dqi_flags" (Int 8);
  Field "dqi_bgrace" (Int 4);
  Field "dqi_igrace" (Int 4);
  Field "dqi_max_spc_limit" qsize_t;
  Field "dqi_max_ino_limit" qsize_t;
  Field "dqi_priv" Ptr ].

Definition quota_info : ctype := struct [
  Field "flags" (Int 4);
  Field "dqio_sem" rw_semaphore;
  Field "files" (Arr 3 Ptr);
  Field "info" (Arr 3 mem_dqinfo);
  Field "ops" (Arr 3 Ptr) ].

Definition wait_queue_head : ctype := struct [
  Field "lock" spinlock_t;
  Field "head" list_head ].

Definition wait_queue_head_t : ctype := wait_queue_head.

Definition rcu_sync : ctype := struct [
  Field "gp_state" (Int 4);
  Field "gp_count" (Int 4);
  Field "gp_wait" wait_queue_head_t;
  Field "cb_head" callback_head ].

Definition rcuwait : ctype := struct [
  Field "task" Ptr ].

Definition percpu_rw_semaphore : ctype := struct [
  Field "rss" rcu_sync;
  Field "read_count" Ptr;
  Field "writer" rcuwait;
  Field "waiters" wait_queue_head_t;
  Field "block" atomic_t ].

Definition sb_writers : ctype := struct [
  Field "frozen" (Int 2);
  Field "freeze_kcount" (Int 4);
  Field "freeze_ucount" (Int 4);
  Field "rw_sem" (Arr 3 percpu_rw_semaphore) ].

Definition uuid_t : ctype := struct [
  Field "b" (Arr 16 __u8) ].

Definition list_lru : ctype := struct [
  Field "node" Ptr;
  Field "list" list_head;
  Field "shrinker_id" (Int 4);
  Field "memcg_aware" (Int 1);
  Field "xa" xarray ].

Definition work_func_t : ctype := Ptr.

Definition work_struct : ctype := struct [
  Field "data" atomic_long_t;
  Field "entry" list_head;
  Field "func" work_func_t ].

Definition super_block : ctype := struct [
  Field "s_list" list_head;
  Field "s_dev" dev_t;
  Field "s_blocksize_bits" (Int 1);
  Field "s_blocksize" (Int 8);
  Field "s_maxbytes" loff_t;
  Field "s_type" Ptr;
  Field "s_op" Ptr;
  Field "dq_op" Ptr;
  Field "s_qcop" Ptr;
  Field "s_export_op" Ptr;
  Field "s_flags" (Int 8);
  Field "s_iflags" (Int 8);
  Field "s_magic" (Int 8);
  Field "s_root" Ptr;
  Field "s_umount" rw_semaphore;
  Field "s_count" (Int 4);
  Field "s_active" atomic_t;
  Field "s_security" Ptr;
  Field "s_xattr" Ptr;
  Field "s_cop" Ptr;
  Field "s_master_keys" Ptr;
  Field "s_vop" Ptr;
  Field "s_encoding" Ptr;
  Field "s_encoding_flags" __u16;
  Field "s_roots" hlist_bl_head;
  Field "s_mounts" list_head;
  Field "s_bdev" Ptr;
  Field "s_bdev_file" Ptr;
  Field "s_bdi" Ptr;
  Field "s_mtd" Ptr;
  Field "s_instances" hlist_node;
  Field "s_quota_types" (Int 4);
  Field "s_dquot" quota_info;
  Field "s_writers" sb_writers;
  Field "s_fs_info" Ptr;
  Field "s_time_gran" u32;
  Field "s_time_min" time64_t;
  Field "s_time_max" time64_t;
  Field "s_fsnotify_mask" u32;
  Field "s_fsnotify_info" Ptr;
  Field "s_id" (Arr 32 (Int 1));
  Field "s_uuid" uuid_t;
  Field "s_uuid_len" u8;
  Field "s_sysfs_name" (Arr 37 (Int 1));
  Field "s_max_links" (Int 4);
  Field "s_vfs_rename_mutex" mutex;
  Field "s_subtype" Ptr;
  Field "s_d_op" Ptr;
  Field "s_shrink" Ptr;
  Field "s_remove_count" atomic_long_t;
  Field "s_readonly_remount" (Int 4);
  Field "s_wb_err" errseq_t;
  Field "s_dio_done_wq" Ptr;
  Field "s_pins" hlist_head;
  Field "s_user_ns" Ptr;
  Field "s_dentry_lru" list_lru;
  Field "s_inode_lru" list_lru;
  Field "rcu" callback_head;
  Field "destroy_work" work_struct;
  Field "s_sync_lock" mutex;
  Field "s_stack_depth" (Int 4);
  Bits "" (Int 8) 64;
  Field "s_inode_list_lock" spinlock_t;
  Field "s_inodes" list_head;
  Field "s_inode_wblist_lock" spinlock_t;
  Field "s_inodes_wb" list_head;
  Bits "" (Int 8) 64;
  Bits "" (Int 8) 64 ].

Definition fmode_t : ctype := Int 4.

Definition file_ra_state : ctype := struct [
  Field "start" (Int 8);
  Field "size" (Int 4);
  Field "async_size" (Int 4);
  Field "ra_pages" (Int 4);
  Field "mmap_miss" (Int 4);
  Field "prev_pos" loff_t ].

Definition freeptr_t : ctype := struct [
  Field "v" (Int 8) ].

Definition file : ctype := struct [
  Field "f_count" atomic_long_t;
  Field "f_lock" spinlock_t;
  Field "f_mode" fmode_t;
  Field "f_op" Ptr;
  Field "f_mapping" Ptr;
  Field "private_data" Ptr;
  Field "f_inode" Ptr;
  Field "f_flags" (Int 4);
  Field "f_iocb_flags" (Int 4);
  Field "f_cred" Ptr;
  Field "f_path" path;
  Anon (union [
    Field "f_pos_lock" mutex;
    Field "f_pipe" u64 ]);
  Field "f_pos" loff_t;
  Field "f_security" Ptr;
  Field "f_owner" Ptr;
  Field "f_wb_err" errseq_t;
  Field "f_sb_err" errseq_t;
  Field "f_ep" Ptr;
  Anon (union [
    Field "f_task_work" callback_head;
    Field "f_llist" llist_node;
    Field "f_ra" file_ra_state;
    Field "f_freeptr" freeptr_t ]) ].

Definition nsproxy : ctype := struct [
  Field "count" refcount_t;
  Field "uts_ns" Ptr;
  Field "ipc_ns" Ptr;
  Field "mnt_ns" Ptr;
  Field "pid_ns_for_children" Ptr;
  Field "net_ns" Ptr;
  Field "time_ns" Ptr;
  Field "time_ns_for_children" Ptr;
  Field "cgroup_ns" Ptr ].

Definition ns_common : ctype := struct [
  Field "stashed" Ptr;
  Field "ops" Ptr;
  Field "inum" (Int 4);
  Field "count" refcount_t ].

Definition mnt_namespace : ctype := struct [
  Field "ns" ns_common;
  Field "root" Ptr;
  Field "mounts" rb_root;
  Field "user_ns" Ptr;
  Field "ucounts" Ptr;
  Field "seq" u64;
  Field "poll" wait_queue_head_t;
  Field "event" u64;
  Field "nr_mounts" (Int 4);
  Field "pending_mounts" (Int 4);
  Field "mnt_ns_tree_node" rb_node;
  Field "passive" refcount_t ].

Definition fs_struct : ctype := struct [
  Field "users" (Int 4);
  Field "lock" spinlock_t;
  Field "seq" seqcount_spinlock_t;
  Field "umask" (Int 4);
  Field "in_exec" (Int 4);
  Field "root" path;
  Field "pwd" path ].

Definition cpu_itimer : ctype := struct [
  Field "expires" u64;
  Field "incr" u64 ].

Definition task_cputime_atomic : ctype := struct [
  Field "utime" atomic64_t;
  Field "stime" atomic64_t;
  Field "sum_exec_runtime" atomic64_t ].

Definition thread_group_cputimer : ctype := struct [
  Field "cputime_atomic" task_cputime_atomic ].

Definition seqlock_t : ctype := struct [
  Field "seqcount" seqcount_spinlock_t;
  Field "lock" spinlock_t ].

Definition rlimit : ctype := struct [
  Field "rlim_cur" __kernel_ulong_t;
  Field "rlim_max" __kernel_ulong_t ].

Definition pacct_struct : ctype := struct [
  Field "ac_flag" (Int 4);
  Field "ac_exitcode" (Int 8);
  Field "ac_mem" (Int 8);
  Field "ac_utime" u64;
  Field "ac_stime" u64;
  Field "ac_minflt" (Int 8);
  Field "ac_majflt" (Int 8) ].

Definition signal_struct : ctype := struct [
  Field "sigcnt" refcount_t;
  Field "live" atomic_t;
  Field "nr_threads" (Int 4);
  Field "quick_threads" (Int 4);
  Field "thread_head" list_head;
  Field "wait_chldexit" wait_queue_head_t;
  Field "curr_target" Ptr;
  Field "shared_pending" sigpending;
  Field "multiprocess" hlist_head;
  Field "group_exit_code" (Int 4);
  Field "notify_count" (Int 4);
  Field "group_exec_task" Ptr;
  Field "group_stop_count" (Int 4);
  Field "flags" (Int 4);
  Field "core_state" Ptr;
  Bits "is_child_subreaper" (Int 4) 1;
  Bits "has_child_subreaper" (Int 4) 1;
  Field "next_posix_timer_id" (Int 4);
  Field "posix_timers" hlist_head;
  Field "real_timer" hrtimer;
  Field "it_real_incr" ktime_t;
  Field "it" (Arr 2 cpu_itimer);
  Field "cputimer" thread_group_cputimer;
  Field "posix_cputimers" posix_cputimers;
  Field "pids" (Arr 4 Ptr);
  Field "tick_dep_mask" atomic_t;
  Field "tty_old_pgrp" Ptr;
  Field "leader" (Int 4);
  Field "tty" Ptr;
  Field "autogroup" Ptr;
  Field "stats_lock" seqlock_t;
  Field "utime" u64;
  Field "stime" u64;
  Field "cutime" u64;
  Field "cstime" u64;
  Field "gtime" u64;
  Field "cgtime" u64;
  Field "prev_cputime" prev_cputime;
  Field "nvcsw" (Int 8);
  Field "nivcsw" (Int 8);
  Field "cnvcsw" (Int 8);
  Field "cnivcsw" (Int 8);
  Field "min_flt" (Int 8);
  Field "maj_flt" (Int 8);
  Field "cmin_flt" (Int 8);
  Field "cmaj_flt" (Int 8);
  Field "inblock" (Int 8);
  Field "oublock" (Int 8);
  Field "cinblock" (Int 8);
  Field "coublock" (Int 8);
  Field "maxrss" (Int 8);
  Field "cmaxrss" (Int 8);
  Field "ioac" task_io_accounting;
  Field "sum_sched_runtime" (Int 8);
  Field "rlim" (Arr 16 rlimit);
  Field "pacct" pacct_struct;
  Field "stats" Ptr;
  Field "audit_tty" (Int 4);
  Field "tty_audit_buf" Ptr;
  Field "oom_flag_origin" (Int 1);
  Field "oom_score_adj" (Int 2);
  Field "oom_score_adj_min" (Int 2);
  Field "oom_mm" Ptr;
  Field "cred_guard_mutex" mutex;
  Field "exec_update_lock" rw_semaphore ].

Definition linux_binprm : ctype := struct [
  Field "vma" Ptr;
  Field "vma_pages" (Int 8);
  Field "argmin" (Int 8);
  Field "mm" Ptr;
  Field "p" (Int 8);
  Bits "have_execfd" (Int 4) 1;
  Bits "execfd_creds" (Int 4) 1;
  Bits "secureexec" (Int 4) 1;
  Bits "point_of_no_return" (Int 4) 1;
  Bits "comm_from_dentry" (Int 4) 1;
  Field "executable" Ptr;
  Field "interpreter" Ptr;
  Field "file" Ptr;
  Field "cred" Ptr;
  Field "unsafe" (Int 4);
  Field "per_clear" (Int 4);
  Field "argc" (Int 4);
  Field "envc" (Int 4);
  Field "filename" Ptr;
  Field "interp" Ptr;
  Field "fdpath" Ptr;
  Field "interp_flags" (Int 4);
  Field "execfd" (Int 4);
  Field "loader" (Int 8);
  Field "exec" (Int 8);
  Field "rlim_stack" rlimit;
  Field "buf" (Arr 256 (Int 1)) ].

Definition trace_entry : ctype := struct [
  Field "type" (Int 2);
  Field "flags" (Int 1);
  Field "preempt_count" (Int 1);
  Field "pid" (Int 4) ].

Definition trace_event_raw_sys_enter : ctype := struct [
  Field "ent" trace_entry;
  Field "id" (Int 8);
  Field "args" (Arr 6 (Int 8));
  Field "__data" (Arr 0 (Int 1)) ].

Definition syscall_trace_enter : ctype := struct [
  Field "ent" trace_entry;
  Field "nr" (Int 4);
  Field "args" (Arr 0 (Int 8)) ].

Definition __s32 : ctype := Int 4.

Definition s32 : ctype := __s32.

Definition int32_t : ctype := s32.

Definition key_serial_t : ctype := int32_t.

Definition common_audit_data : ctype := struct [
  Field "type" (Int 1);
  Field "u" (union [
    Field "path" path;
    Field "dentry" Ptr;
    Field "inode" Ptr;
    Field "net" Ptr;
    Field "cap" (Int 4);
    Field "ipc_id" (Int 4);
    Field "tsk" Ptr;
    Field "key_struct" (struct [
      Field "key" key_serial_t;
      Field "key_desc" Ptr ]);
    Field "kmod_name" Ptr;
    Field "op" Ptr;
    Field "file" Ptr;
    Field "ibpkey" Ptr;
    Field "ibendport" Ptr;
    Field "reason" (Int 4);
    Field "anonclass" Ptr ]);
  Anon (union [
    Field "selinux_audit_data" Ptr;
    Field "apparmor_audit_data" Ptr ]) ].

Definition apparmor_audit_data : ctype := struct [
  Field "error" (Int 4);
  Field "type" (Int 4);
  Field "class" u16;
  Field "op" Ptr;
  Field "subj_cred" Ptr;
  Field "subj_label" Ptr;
  Field "name" Ptr;
  Field "info" Ptr;
  Field "request" u32;
  Field "denied" u32;
  Anon (union [
    Anon (struct [
      Field "peer" Ptr;
      Anon (union [
        Field "fs" (struct [
          Field "target" Ptr;
          Field "ouid" kuid_t ]);
        Field "rlim" (struct [
          Field "rlim" (Int 4);
          Field "max" (Int 8) ]);
        Anon (struct [
          Field "signal" (Int 4);
          Field "unmappedsig" (Int 4) ]);
        Field "net" (struct [
          Field "type" (Int 4);
          Field "protocol" (Int 4);
          Field "peer_sk" Ptr;
          Field "addr" Ptr;
          Field "addrlen" (Int 4) ]) ]) ]);
    Field "iface" (struct [
      Field "profile" Ptr;
      Field "ns" Ptr;
      Field "pos" (Int 8) ]);
    Field "mnt" (struct [
      Field "src_name" Ptr;
      Field "type" Ptr;
      Field "trans" Ptr;
      Field "data" Ptr;
      Field "flags" (Int 8) ]);
    Field "uring" (struct [
      Field "target" Ptr ]) ]);
  Field "common" common_audit_data ].

Definition aa_policy : ctype := struct [
  Field "name" Ptr;
  Field "hname" Ptr;
  Field "list" list_head;
  Field "profiles" list_head ].

Definition aa_attachment : ctype := struct [
  Field "xmatch_str" Ptr;
  Field "xmatch" Ptr;
  Field "xmatch_len" (Int 4);
  Field "xattr_count" (Int 4);
  Field "xattrs" Ptr ].

Definition kref : ctype := struct [
  Field "refcount" refcount_t ].

Definition aa_label : ctype := struct [
  Field "count" kref;
  Field "node" rb_node;
  Field "rcu" callback_head;
  Field "proxy" Ptr;
  Field "hname" Ptr;
  Field "flags" (Int 8);
  Field "secid" u32;
  Field "size" (Int 4);
  Field "vec" (Arr 0 Ptr) ].

Definition aa_profile : ctype := struct [
  Field "base" aa_policy;
  Field "parent" Ptr;
  Field "ns" Ptr;
  Field "rename" Ptr;
  Field "audit" (Int 4);
  Field "mode" (Int 8);
  Field "path_flags" u32;
  Field "disconnected" Ptr;
  Field "attach" aa_attachment;
  Field "rules" list_head;
  Field "rawdata" Ptr;
  Field "hash" Ptr;
  Field "dirname" Ptr;
  Field "dents" (Arr 9 Ptr);
  Field "data" Ptr;
  Field "label" aa_label ].

Definition lockdep_map_p : ctype := struct [].

Definition maple_tree : ctype := struct [
  Anon (union [
    Field "ma_lock" spinlock_t;
    Field "ma_external_lock" lockdep_map_p ]);
  Field "ma_flags" (Int 4);
  Field "ma_root" Ptr ].

Definition percpu_counter : ctype := struct [
  Field "lock" raw_spinlock_t;
  Field "count" s64;
  Field "list" list_head;
  Field "counters" Ptr ].

Definition mm_context_t : ctype := struct [
  Field "id" atomic64_t;
  Field "sigpage" Ptr;
  Field "pinned" refcount_t;
  Field "vdso" Ptr;
  Field "flags" (Int 8);
  Field "pkey_allocation_map" u8 ].

Definition uprobes_state : ctype := struct [
  Field "xol_area" Ptr ].

Definition mm_struct : ctype := struct [
  Anon (struct [
    Anon (struct [
      Field "mm_count" atomic_t;
      Bits "" (Int 8) 64;
      Bits "" (Int 8) 64;
      Bits "" (Int 8) 64;
      Bits "" (Int 8) 64;
      Bits "" (Int 8) 64;
      Bits "" (Int 8) 64;
      Bits "" (Int 8) 64 ]);
    Field "mm_mt" maple_tree;
    Field "mmap_base" (Int 8);
    Field "mmap_legacy_base" (Int 8);
    Field "task_size" (Int 8);
    Field "pgd" Ptr;
    Field "membarrier_state" atomic_t;
    Field "mm_users" atomic_t;
    Field "pcpu_cid" Ptr;
    Field "mm_cid_next_scan" (Int 8);
    Field "pgtables_bytes" atomic_long_t;
    Field "map_count" (Int 4);
    Field "page_table_lock" spinlock_t;
    Field "mmap_lock" rw_semaphore;
    Field "mmlist" list_head;
    Field "mm_lock_seq" (Int 4);
    Field "hiwater_rss" (Int 8);
    Field "hiwater_vm" (Int 8);
    Field "total_vm" (Int 8);
    Field "locked_vm" (Int 8);
    Field "pinned_vm" atomic64_t;
    Field "data_vm" (Int 8);
    Field "exec_vm" (Int 8);
    Field "stack_vm" (Int 8);
    Field "def_flags" (Int 8);
    Field "write_protect_seq" seqcount_t;
    Field "arg_lock" spinlock_t;
    Field "start_code" (Int 8);
    Field "end_code" (Int 8);
    Field "start_data" (Int 8);
    Field "end_data" (Int 8);
    Field "start_brk" (Int 8);
    Field "brk" (Int 8);
    Field "start_stack" (Int 8);
    Field "arg_start" (Int 8);
    Field "arg_end" (Int 8);
    Field "env_start" (Int 8);
    Field "env_end" (Int 8);
    Field "saved_auxv" (Arr 50 (Int 8));
    Field "rss_stat" (Arr 4 percpu_counter);
    Field "binfmt" Ptr;
    Field "context" mm_context_t;
    Field "flags" (Int 8);
    Field "ioctx_lock" spinlock_t;
    Field "ioctx_table" Ptr;
    Field "owner" Ptr;
    Field "user_ns" Ptr;
    Field "exe_file" Ptr;
    Field "notifier_subscriptions" Ptr;
    Field "numa_next_scan" (Int 8);
    Field "numa_scan_offset" (Int 8);
    Field "numa_scan_seq" (Int 4);
    Field "tlb_flush_pending" atomic_t;
    Field "tlb_flush_batched" atomic_t;
    Field "uprobes_state" uprobes_state;
    Field "hugetlb_usage" atomic_long_t;
    Field "async_put_work" work_struct;
    Field "ksm_merging_pages" (Int 8);
    Field "ksm_rmap_items" (Int 8);
    Field "ksm_zero_pages" atomic_long_t;
    Field "lru_gen" (struct [
      Field "list" list_head;
      Field "bitmap" (Int 8);
      Field "memcg" Ptr ]);
    Bits "" (Int 8) 64;
    Bits "" (Int 8) 64;
    Bits "" (Int 8) 64 ]);
  Field "cpu_bitmap" (Arr 0 (Int 8)) ].
