(* ===== verification/Bpf.v ===== *)
(** * Running BPF programs

    A BPF program is a sequence of accesses to state it shares with other
    programs, other CPUs and the userspace: helper calls, loads and stores
    through map value pointers, atomic instructions.  [prog] is such a program,
    one [Act] per access.  It has two readings: [run] executes it without
    interruption, and [pstep] interleaves any number of running programs access
    by access, with the userspace in between.  Invariants proved with
    [preserves] hold in the second reading, and so in the first.

    [Kernel] collects what the kernel side of the helpers decides: the success
    of map updates, the entries an LRU map evicts, the space left in the ring
    buffer, the memory the probe helpers read.  [KernelOk] states what
    bpf(2) and bpf-helpers(7) document of it. *)
From S2P Require Import Prelude.

(** ** Error numbers and update flags *)

Definition ENOENT : Z := 2.
Definition E2BIG : Z := 7.
Definition EFAULT : Z := 14.
Definition EEXIST : Z := 17.

Inductive update_flag := BPF_ANY | BPF_NOEXIST.

#[export] Instance update_flag_eq_dec : EqDecision update_flag.
Proof. solve_decision. Defined.

(** ** Programs *)

Inductive prog (W : Type) (A : Type) : Type :=
| Ret (a : A)
| Act {R : Set} (f : W → R * W) (k : R → prog W A).
Arguments Ret {W A} a.
Arguments Act {W A R} f k.

Fixpoint pbind {W A B} (f : A → prog W B) (p : prog W A) : prog W B :=
  match p with
  | Ret a => f a
  | Act g k => Act g (λ r, pbind f (k r))
  end.

#[export] Instance prog_ret {W} : MRet (prog W) := λ A a, Ret a.
#[export] Instance prog_bind {W} : MBind (prog W) := λ A B f p, pbind f p.

(** One access: [get] reads, [upd] writes, [act] does both. *)
Definition act {W} {R : Set} (f : W → R * W) : prog W R := Act f Ret.
Definition get {W} {R : Set} (f : W → R) : prog W R := act (λ w, (f w, w)).
Definition upd {W} (f : W → W) : prog W unit := act (λ w, (tt, f w)).

(** ** Uninterrupted execution *)

Fixpoint run {W A} (p : prog W A) (w : W) : A * W :=
  match p with
  | Ret a => (a, w)
  | Act f k => let '(r, w') := f w in run (k r) w'
  end.

Definition result {W A} (p : prog W A) (w : W) : A := (run p w).1.
Definition exec {W A} (p : prog W A) (w : W) : W := (run p w).2.

Lemma run_bind {W A B} (p : prog W A) (q : A → prog W B) w :
  run (p ≫= q) w = run (q (result p w)) (exec p w).
Proof.
  unfold result, exec, mbind, prog_bind.
  revert w. induction p as [a|R f k IH]; intros w; simpl; [done|].
  destruct (f w) as [r w']. apply IH.
Qed.

Lemma run_pbind {W A B} (p : prog W A) (q : A → prog W B) w :
  run (pbind q p) w = run (q (result p w)) (exec p w).
Proof. apply run_bind. Qed.

Lemma run_bind_eq {W A B} (p : prog W A) (q : A → prog W B) w a w' :
  run p w = (a, w') → run (p ≫= q) w = run (q a) w'.
Proof. intros H. rewrite run_bind. unfold result, exec. by rewrite H. Qed.

Lemma exec_bind {W A B} (p : prog W A) (q : A → prog W B) w :
  exec (p ≫= q) w = exec (q (result p w)) (exec p w).
Proof. unfold exec at 1. by rewrite run_bind. Qed.

Lemma result_bind {W A B} (p : prog W A) (q : A → prog W B) w :
  result (p ≫= q) w = result (q (result p w)) (exec p w).
Proof. unfold result at 1. by rewrite run_bind. Qed.

Lemma exec_act {W} {R : Set} (f : W → R * W) w : exec (act f) w = (f w).2.
Proof. unfold exec, act. cbn [run]. by destruct (f w). Qed.

Lemma result_act {W} {R : Set} (f : W → R * W) w : result (act f) w = (f w).1.
Proof. unfold result, act. cbn [run]. by destruct (f w). Qed.

(** ** What every access of a program preserves *)

(** [preserves I p]: every access of [p] keeps [I], whatever the others did in
    between as long as they kept [I] too. *)
Inductive preserves {W} (I : W → Prop) {A} : prog W A → Prop :=
| preserves_ret a : preserves I (Ret a)
| preserves_act (R : Set) (f : W → R * W) k :
    (∀ w, I w → I (f w).2) →
    (∀ w, I w → preserves I (k (f w).1)) →
    preserves I (Act f k).

(** [leaves Q p]: whatever the accesses return, the result satisfies [Q]. *)
Inductive leaves {W} {A} (Q : A → Prop) : prog W A → Prop :=
| leaves_ret a : Q a → leaves Q (Ret a)
| leaves_act (R : Set) (f : W → R * W) k :
    (∀ r, leaves Q (k r)) → leaves Q (Act f k).

(** [guar G p]: every access of [p] is a [G] step. *)
Inductive guar {W} (G : W → W → Prop) {A} : prog W A → Prop :=
| guar_ret a : guar G (Ret a)
| guar_act (R : Set) (f : W → R * W) k :
    (∀ w, G w (f w).2) → (∀ r, guar G (k r)) → guar G (Act f k).

Section logic.
Context {W : Type}.
Implicit Types I : W → Prop.
Implicit Types G : W → W → Prop.

(** Inversion of [preserves] and [leaves] on an access. *)
Lemma preserves_act_inv I {A} {R : Set} (f : W → R * W) (k : R → prog W A) :
  preserves I (Act f k) →
  (∀ w, I w → I (f w).2) ∧ (∀ w, I w → preserves I (k (f w).1)).
Proof.
  intros H. exact (match H in preserves _ p return
    match p with
    | Ret _ => True
    | Act f k => (∀ w, I w → I (f w).2) ∧ (∀ w, I w → preserves I (k (f w).1))
    end with
    | preserves_ret _ _ => Logic.I
    | preserves_act _ _ _ _ Hf Hk => conj Hf Hk
    end).
Qed.

Lemma leaves_act_inv {A} (Q : A → Prop) {R : Set} (f : W → R * W) k :
  leaves Q (Act f k) → ∀ r, leaves Q (k r).
Proof.
  intros H. exact (match H in leaves _ p return
    match p with Ret _ => True | Act f k => ∀ r, leaves Q (k r) end with
    | leaves_ret _ _ _ => Logic.I
    | leaves_act _ _ _ _ Hk => Hk
    end).
Qed.

Lemma preserves_bind I {A B} (p : prog W A) (q : A → prog W B) :
  preserves I p → (∀ a, preserves I (q a)) → preserves I (p ≫= q).
Proof.
  intros Hp Hq. unfold mbind, prog_bind.
  induction Hp as [a|R f k Hf Hk IH]; simpl; [apply Hq|]. by constructor.
Qed.

Lemma preserves_get I {R : Set} (f : W → R) : preserves I (get f).
Proof. constructor; [done|]. constructor. Qed.

Lemma preserves_upd I (f : W → W) :
  (∀ w, I w → I (f w)) → preserves I (upd f).
Proof. intros H. constructor; [done|]. constructor. Qed.

Lemma preserves_actI I {R : Set} (f : W → R * W) :
  (∀ w, I w → I (f w).2) → preserves I (act f).
Proof. intros H. constructor; [done|]. constructor. Qed.

(** The rest of a program after an access only has to keep [I] for what the
    access returns in a state with [I]. *)
Lemma preserves_act_bind I {A} {R : Set} (f : W → R * W) (q : R → prog W A) :
  (∀ w, I w → I (f w).2 ∧ preserves I (q (f w).1)) → preserves I (act f ≫= q).
Proof. intros H. constructor; intros w Hw; by apply H. Qed.

Lemma preserves_exec I {A} (p : prog W A) w :
  preserves I p → I w → I (exec p w).
Proof.
  intros Hp. unfold exec. revert w.
  induction Hp as [a|R f k Hf Hk IH]; intros w Hw; simpl; [done|].
  specialize (Hf w Hw). specialize (IH w Hw).
  destruct (f w) as [r w']. by apply IH.
Qed.

Lemma leaves_bind {A B} (Q : B → Prop) (p : prog W A) (q : A → prog W B) :
  (∀ a, leaves Q (q a)) → leaves Q (p ≫= q).
Proof.
  intros Hq. unfold mbind, prog_bind.
  induction p as [a|R f k IH]; simpl; [apply Hq|]. by constructor.
Qed.

Lemma leaves_bind_post {A B} (P : A → Prop) (Q : B → Prop)
    (p : prog W A) (q : A → prog W B) :
  leaves P p → (∀ a, P a → leaves Q (q a)) → leaves Q (p ≫= q).
Proof.
  intros Hp Hq. unfold mbind, prog_bind.
  induction Hp as [a Ha|R f k Hk IH]; simpl; [by apply Hq|]. by constructor.
Qed.

Lemma leaves_result {A} (Q : A → Prop) (p : prog W A) w :
  leaves Q p → Q (result p w).
Proof.
  intros Hp. unfold result. revert w.
  induction Hp as [a Ha|R f k Hk IH]; intros w; simpl; [done|].
  destruct (f w). apply IH.
Qed.

(** The rest of a program only has to keep [I] for results the first part can
    have. *)
Lemma preserves_bind_leaves I {A B} (P : A → Prop) (p : prog W A) (q : A → prog W B) :
  leaves P p → preserves I p → (∀ a, P a → preserves I (q a)) → preserves I (p ≫= q).
Proof.
  intros Hl Hp Hq. unfold mbind, prog_bind.
  induction Hp as [a|R f k Hf Hk IH]; simpl; [inversion Hl; by apply Hq|].
  constructor; [done|]. intros w Hw. apply IH; [done|]. by eapply leaves_act_inv.
Qed.

Lemma guar_bind G {A B} (p : prog W A) (q : A → prog W B) :
  guar G p → (∀ a, guar G (q a)) → guar G (p ≫= q).
Proof.
  intros Hp Hq. unfold mbind, prog_bind.
  induction Hp as [a|R f k Hf Hk IH]; simpl; [apply Hq|]. by constructor.
Qed.

Lemma guar_exec G {A} (p : prog W A) w :
  Reflexive G → Transitive G → guar G p → G w (exec p w).
Proof.
  intros Hr Ht Hp. unfold exec. revert w.
  induction Hp as [a|R f k Hf Hk IH]; intros w; simpl; [done|].
  specialize (Hf w). destruct (f w) as [r w']. simpl in Hf.
  etrans; [exact Hf|]. apply IH.
Qed.

Lemma guar_weaken G G' {A} (p : prog W A) :
  (∀ w w', G w w' → G' w w') → guar G p → guar G' p.
Proof. intros HG Hp. induction Hp; constructor; auto. Qed.

Lemma guar_preserves G I {A} (p : prog W A) :
  (∀ w w', G w w' → I w → I w') → guar G p → preserves I p.
Proof.
  intros HG Hp. induction Hp as [a|R f k Hf Hk IH]; constructor; [|done].
  intros w Hw. eapply HG; [apply Hf|done].
Qed.
End logic.

(** ** Interleaved execution

    The state is the list of the programs running at the moment, on any CPU,
    and the shared state.  A step is one access of one of them, the start of
    another program, or a step [env] of the userspace. *)

Section pool.
Context {W A : Type} (hooks : prog W A → Prop) (env : W → W → Prop).

Inductive pstep : list (prog W A) * W → list (prog W A) * W → Prop :=
| pstep_access ts w i (R : Set) (f : W → R * W) k :
    ts !! i = Some (Act f k) →
    pstep (ts, w) (<[i := k (f w).1]> ts, (f w).2)
| pstep_start ts w p :
    hooks p → pstep (ts, w) (ts ++ [p], w)
| pstep_user ts w w' :
    env w w' → pstep (ts, w) (ts, w').

Definition reachable (w0 : W) (s : list (prog W A) * W) : Prop :=
  rtc pstep ([], w0) s.

(** An invariant of every access of every program, and of the userspace, is
    an invariant of the interleaved execution; and the programs that are
    still running preserve it. *)
Lemma pool_preserves I w0 ts w :
  (∀ p, hooks p → preserves I p) →
  (∀ w w', I w → env w w' → I w') →
  I w0 → reachable w0 (ts, w) → I w ∧ Forall (preserves I) ts.
Proof.
  intros Hh He H0 Hr. unfold reachable in Hr.
  remember ([], w0) as s0 eqn:E0. remember (ts, w) as s eqn:E.
  assert (∀ s1 s2, pstep s1 s2 →
    I s1.2 ∧ Forall (preserves I) s1.1 → I s2.2 ∧ Forall (preserves I) s2.1)
    as Hstep.
  { intros s1 s2 [ts' w' i R f k Hi|ts' w' p Hp|ts' w' w'' Hw]; simpl;
      intros [HI Hts].
    - pose proof (Forall_lookup_1 _ _ _ _ Hts Hi) as Hact.
      apply preserves_act_inv in Hact as [Hf Hk].
      split; [by apply Hf|]. apply Forall_insert; [done|]. by apply Hk.
    - split; [done|]. apply Forall_app; split; [done|].
      constructor; [by apply Hh|constructor].
    - split; [by eapply He|done]. }
  assert (I s0.2 ∧ Forall (preserves I) s0.1) as Hs0
    by (subst; split; [done|constructor]).
  clear E0. induction Hr as [x|x y z Hxy Hyz IH]; [by subst|].
  apply IH; [done|]. by eapply Hstep.
Qed.

(** Every program that runs returns a value in [Q], if all leaves are. *)
Lemma pool_leaves (Q : A → Prop) w0 ts w i a :
  (∀ p, hooks p → leaves Q p) →
  reachable w0 (ts, w) → ts !! i = Some (Ret a) → Q a.
Proof.
  intros Hh Hr. unfold reachable in Hr.
  enough (Forall (leaves Q) ts) as Hts.
  { intros Hi. pose proof (Forall_lookup_1 _ _ _ _ Hts Hi) as Hl.
    by inversion Hl. }
  remember ([], w0) as s0 eqn:E0.
  change ts with (ts, w).1. generalize dependent (ts, w). clear ts w.
  assert (Forall (leaves Q) s0.1) as H0 by (subst; constructor).
  clear E0. intros s Hr. induction Hr as [x|x y z Hxy Hyz IH]; [done|].
  apply IH. clear IH Hyz z.
  destruct Hxy as [ts w j R f k Hj|ts w p Hp|ts w w' Hw]; simpl in *.
  - pose proof (Forall_lookup_1 _ _ _ _ H0 Hj) as Hl.
    apply Forall_insert; [done|]. by apply leaves_act_inv with (f := f).
  - apply Forall_app; split; [done|]. constructor; [by apply Hh|constructor].
  - done.
Qed.

(** The first [n] accesses of a program without interruption. *)
Fixpoint advance (n : nat) (p : prog W A) (w : W) : prog W A * W :=
  match n, p with
  | S n, Act f k => advance n (k (f w).1) (f w).2
  | _, _ => (p, w)
  end.

Lemma advance_steps n p w ts1 ts2 :
  rtc pstep (ts1 ++ p :: ts2, w)
    (ts1 ++ (advance n p w).1 :: ts2, (advance n p w).2).
Proof.
  revert p w. induction n as [|n IH]; intros p w; simpl; [by destruct p|].
  destruct p as [a|R f k]; [done|]. eapply rtc_l; [|apply IH].
  pose proof (pstep_access (ts1 ++ Act f k :: ts2) w (length ts1) R f k) as Hs.
  rewrite insert_app_r_alt, Nat.sub_diag in Hs by done. apply Hs.
  by rewrite lookup_app_r, Nat.sub_diag by done.
Qed.

(** Running a program without interruption is one of the interleavings. *)
Lemma run_steps p w ts1 ts2 :
  rtc pstep (ts1 ++ p :: ts2, w) (ts1 ++ Ret (result p w) :: ts2, exec p w).
Proof.
  unfold result, exec. revert w. induction p as [a|R f k IH]; intros w; simpl; [done|].
  pose proof (pstep_access (ts1 ++ Act f k :: ts2) w (length ts1) R f k) as Hs.
  rewrite insert_app_r_alt, Nat.sub_diag in Hs by done.
  eapply rtc_l; [apply Hs; by rewrite lookup_app_r, Nat.sub_diag by done|].
  simpl. destruct (f w) as [r w']. apply IH.
Qed.

Lemma run_reachable p w : hooks p → reachable w ([Ret (result p w)], exec p w).
Proof.
  intros Hp. eapply rtc_l; [by apply (pstep_start [])|]. apply (run_steps p w [] []).
Qed.
End pool.

(** ** The kernel side of the helpers

    [t] is the number of map updates and ring buffer reservations made so far:
    an argument of the functions that decide something, so that one [Kernel]
    can decide differently every time, and a theorem for every [Kernel] holds
    for every sequence of decisions.  Pointers are addresses in [Z], with [0]
    the null pointer; the probe helpers return their result and the bytes of
    the destination. *)

Class Kernel := {
  hash_update {K V} `{Countable K} (t : nat) (max : Z) (m : gmap K V)
    (k : K) (v : V) (fl : update_flag) : Z * gmap K V;
  lru_update {K V} `{Countable K} (t : nat) (max : Z) (m : gmap K V)
    (k : K) (v : V) (fl : update_flag) : Z * gmap K V;
  (* whether the ring buffer has room for [size] bytes *)
  rb_room (t : nat) (size : Z) : bool;
  (* what the reserved bytes hold before the program writes them *)
  rb_stale (t : nat) (size : nat) : list Z;
  probe_read_kernel_str (ptr : Z) (size : nat) : Z * list Z;
  probe_read_user_str (ptr : Z) (size : nat) : Z * list Z;
  (* the pointer stored at a user address, [None] for a fault *)
  probe_read_user_ptr (ptr : Z) : option Z;
  (* bpf_d_path of a mount and a dentry *)
  bpf_d_path (mnt dentry : Z) (size : nat) : Z * list Z
}.

(** What a string helper returns: the length of the string with its NUL, and
    a buffer that starts with that string; or a negative error. *)
Definition str_result_ok (size : nat) (r : Z * list Z) : Prop :=
  length r.2 = size ∧
  (0 <= r.1 → 1 <= r.1 <= Z.of_nat size ∧
     nthb r.2 (r.1 - 1) = 0 ∧ no_nul (take (Z.to_nat (r.1 - 1)) r.2)).

Class KernelOk `{Kernel} := {
  (* BPF_MAP_TYPE_HASH: an insert is complete or changes nothing; it fails
     with EEXIST for a key that must not exist, and if the map is full *)
  hash_update_0 {K V} `{Countable K} t max (m m' : gmap K V) k v fl :
    hash_update t max m k v fl = (0, m') →
    m' = <[k := v]> m ∧ (m !! k = None → Z.of_nat (size m) < max);
  hash_update_err {K V} `{Countable K} t max (m m' : gmap K V) k v fl rc :
    hash_update t max m k v fl = (rc, m') → rc ≠ 0 → m' = m ∧ rc < 0;
  hash_update_exist {K V} `{Countable K} t max (m : gmap K V) k v :
    is_Some (m !! k) → (hash_update t max m k v BPF_NOEXIST).1 = - EEXIST;
  hash_update_room {K V} `{Countable K} t max (m : gmap K V) k v fl :
    m !! k = None → Z.of_nat (size m) < max → (hash_update t max m k v fl).1 = 0;
  (* BPF_MAP_TYPE_LRU_HASH: as above, but other entries can be evicted *)
  lru_update_0 {K V} `{Countable K} t max (m m' : gmap K V) k v fl :
    lru_update t max m k v fl = (0, m') →
    m' !! k = Some v ∧ m' ⊆ <[k := v]> m;
  lru_update_err {K V} `{Countable K} t max (m m' : gmap K V) k v fl rc :
    lru_update t max m k v fl = (rc, m') → rc ≠ 0 →
    m' ⊆ m ∧ m' !! k = m !! k ∧ rc < 0;
  lru_update_exist {K V} `{Countable K} t max (m : gmap K V) k v :
    is_Some (m !! k) → (lru_update t max m k v BPF_NOEXIST).1 = - EEXIST;
  (* a reservation is as large as requested *)
  rb_stale_length t size : length (rb_stale t size) = size;
  (* the string helpers terminate what they copy *)
  probe_read_kernel_str_ok ptr size : (0 < size)%nat →
    str_result_ok size (probe_read_kernel_str ptr size);
  probe_read_user_str_ok ptr size : (0 < size)%nat →
    str_result_ok size (probe_read_user_str ptr size);
  bpf_d_path_ok mnt dentry size : (0 < size)%nat →
    str_result_ok size (bpf_d_path mnt dentry size)
}.

(** A kernel that satisfies [KernelOk]: maps that refuse or evict when they
    are full, a ring buffer with room for the first [rb_slots] reservations,
    and memory given by a function from addresses to strings. *)
Section reference.
Context (rb_slots : nat) (strings : Z → option (list Z)) (ptrs : Z → option Z).

Definition ref_hash_update {K V} `{Countable K} (max : Z) (m : gmap K V)
    (k : K) (v : V) (fl : update_flag) : Z * gmap K V :=
  match m !! k with
  | Some _ => if decide (fl = BPF_NOEXIST) then (- EEXIST, m) else (0, <[k:=v]> m)
  | None => if Z.of_nat (size m) <? max then (0, <[k:=v]> m) else (- E2BIG, m)
  end.

(** An LRU map that is full keeps nothing but the new entry. *)
Definition ref_lru_update {K V} `{Countable K} (max : Z) (m : gmap K V)
    (k : K) (v : V) (fl : update_flag) : Z * gmap K V :=
  match m !! k with
  | Some _ => if decide (fl = BPF_NOEXIST) then (- EEXIST, m) else (0, <[k:=v]> m)
  | None => if Z.of_nat (size m) <? max then (0, <[k:=v]> m) else (0, {[k := v]})
  end.

(** Copy at most [size] bytes of [s], the last of them a NUL. *)
Definition ref_read_str (s : option (list Z)) (size : nat) : Z * list Z :=
  match s with
  | None => (- EFAULT, replicate size 0)
  | Some s =>
      let s := take (size - 1) (cstr s) in
      (Z.of_nat (length s) + 1, s ++ replicate (size - length s) 0)
  end.

Definition ref_kernel : Kernel := {|
  hash_update _ _ _ _ _ max m k v fl := ref_hash_update max m k v fl;
  lru_update _ _ _ _ _ max m k v fl := ref_lru_update max m k v fl;
  rb_room t _ := (t <? rb_slots)%nat;
  rb_stale _ n := replicate n 255;
  probe_read_kernel_str ptr := ref_read_str (strings ptr);
  probe_read_user_str ptr := ref_read_str (strings ptr);
  probe_read_user_ptr := ptrs;
  bpf_d_path _ dentry := ref_read_str (strings dentry)
|}.

Lemma ref_read_str_ok s size : (0 < size)%nat →
  str_result_ok size (ref_read_str s size).
Proof.
  intros Hs. unfold ref_read_str, str_result_ok. destruct s as [s|]; simpl.
  2: { split; [by rewrite length_replicate|]. unfold EFAULT. lia. }
  set (t := take (size - 1) (cstr s)).
  assert (length t < size)%nat by (unfold t; rewrite length_take; lia).
  assert (no_nul t) by (apply Forall_take, cstr_no_nul).
  rewrite length_app, length_replicate.
  split; [lia|]. intros _. split; [lia|].
  replace (Z.of_nat (length t) + 1 - 1) with (Z.of_nat (length t)) by lia.
  split.
  - apply lookup_nthb. rewrite lookup_app_r by lia. rewrite Nat.sub_diag.
    by apply lookup_replicate_2; lia.
  - rewrite Nat2Z.id, take_app_length'; done.
Qed.

#[export] Instance ref_kernel_ok : @KernelOk ref_kernel.
Proof.
  split; simpl.
  - intros K V ? ? t max m m' k v fl Hu. unfold ref_hash_update in *.
    repeat case_match; simplify_eq; zbool; done.
  - intros K V ? ? t max m m' k v fl rc Hu Hrc.
    unfold ref_hash_update, E2BIG, EEXIST in *.
    repeat case_match; simplify_eq; done.
  - intros K V ? ? t max m k v [x Hx]. unfold ref_hash_update. by rewrite Hx.
  - intros K V ? ? t max m k v fl Hk Hs. unfold ref_hash_update. rewrite Hk.
    apply Z.ltb_lt in Hs. by rewrite Hs.
  - intros K V ? ? t max m m' k v fl Hu. unfold ref_lru_update in *.
    repeat case_match; simplify_eq; rewrite ?lookup_insert_eq, ?lookup_singleton_eq;
      (split; [done|]); try done.
    rewrite <- insert_empty. by apply insert_mono, map_empty_subseteq.
  - intros K V ? ? t max m m' k v fl rc Hu Hrc.
    unfold ref_lru_update, EEXIST in *. repeat case_match; simplify_eq; done.
  - intros K V ? ? t max m k v [x Hx]. unfold ref_lru_update. by rewrite Hx.
  - intros t n. apply length_replicate.
  - intros. by apply ref_read_str_ok.
  - intros. by apply ref_read_str_ok.
  - intros. by apply ref_read_str_ok.
Qed.
End reference.

#[export] Hint Resolve preserves_get preserves_ret leaves_ret : ebpf.
