(* ===== verification/State.v ===== *)
(** * The state of the recorder

    The constants, structures, maps and read-only data that
    [recorder.bpf.c] declares, and the accesses its programs make to them.
    [World] holds one field per map; [Rodata] what the userspace sets before
    it loads the programs; [Task] what the helpers report about the process a
    program runs for. *)
From S2P Require Import Prelude Bpf.
Import String.StringSyntax.
#[local] Open Scope string_scope.
#[local] Open Scope Z_scope.

(** ** Constants *)

Definition MAX_ENTRIES : Z := 8 * 1024.
Definition MAX_SYSCALLS : Z := 1024.
Definition MAX_CHILD_PIDS : Z := 1024.
Definition MAX_TRACKED_KEYS : Z := 32 * 1024.
Definition MAX_COMM_LEN : Z := 1024.
Definition TASK_COMM_LEN : Z := 16.
Definition PATH_MAX : Z := 4096.

Definition EVENT_TYPE_NEWPID : Z := 0.
Definition EVENT_TYPE_EXIT : Z := 1.
Definition EVENT_TYPE_APPARMOR_FILE : Z := 2.
Definition EVENT_TYPE_APPARMOR_SOCKET : Z := 3.
Definition EVENT_TYPE_APPARMOR_CAP : Z := 4.
Definition EVENT_TYPE_CLEAR_MNTNS : Z := 5.
Definition EVENT_TYPE_EXECVE_ENTER : Z := 6.

Definition FLAG_READ : Z := 0x1.
Definition FLAG_WRITE : Z := 0x2.
Definition FLAG_EXEC : Z := 0x4.
Definition FLAG_SPAWN : Z := 0x8.

Definition FMODE_READ : Z := 0x1.
Definition FMODE_WRITE : Z := 0x2.
Definition FMODE_EXEC : Z := 0x20.

Definition PROT_READ : Z := 0x1.
Definition PROT_WRITE : Z := 0x2.
Definition PROT_EXEC : Z := 0x4.

(** The file types, octal in the source. *)
Definition S_IFMT : Z := 0xf000.
Definition S_IFIFO : Z := 0x1000.
Definition S_IFCHR : Z := 0x2000.
Definition S_IFDIR : Z := 0x4000.
Definition S_IFBLK : Z := 0x6000.
Definition S_IFSOCK : Z := 0xc000.

Definition CAP_OPT_NOAUDIT : Z := 2.
Definition OVERLAYFS_SUPER_MAGIC : Z := 0x794c7630.

Definition AF_UNIX : Z := 1.
Definition AF_INET : Z := 2.
Definition AF_INET6 : Z := 10.

(** The target the programs are compiled for, and its syscall numbers. *)
Inductive arch := x86 | arm64 | other_arch.

#[export] Instance arch_eq_dec : EqDecision arch.
Proof. solve_decision. Defined.

Definition NR_EXECVE (a : arch) : Z :=
  match a with x86 => 59 | arm64 => 221 | other_arch => -1 end.
Definition NR_EXECVEAT (a : arch) : Z :=
  match a with x86 => 322 | arm64 => 281 | other_arch => -1 end.
Definition NR_PRCTL (a : arch) : Z :=
  match a with x86 => 157 | arm64 => 167 | other_arch => -1 end.
Definition NR_SECCOMP (a : arch) : Z :=
  match a with x86 => 317 | arm64 => 277 | other_arch => -1 end.

Definition PR_GET_PDEATHSIG : Z := 2.
Definition PR_SET_SECCOMP : Z := 22.
Definition SECCOMP_SET_MODE_STRICT : Z := 0.
Definition SECCOMP_SET_MODE_FILTER : Z := 1.
Definition SECCOMP_MODE_STRICT : Z := 1.
Definition SECCOMP_MODE_FILTER : Z := 2.

Definition MAX_INIT_COMMS : Z := 4.
Definition INIT_EXE_PREFIX_LEN : Z := 32.
Definition TS_COMPAT : Z := 0x0002.
Definition TIF_32BIT : Z := 22.

Definition LOST_RINGBUF : Z := 0.
Definition LOST_SYSCALLS_MAP_FULL : Z := 1.
Definition LOST_FILE_EVENT_BUSY : Z := 2.
Definition LOST_COMPAT_SYSCALL : Z := 3.

Definition MAX_ARGS : Z := 20.
Definition MAX_ENV : Z := 50.
Definition MAX_FILENAME_LEN : Z := 128.
Definition MAX_ARG_LEN : Z := 64.
Definition MAX_ENV_LEN : Z := 64.

(** ** Structures *)

(** A process together with the key it records under. *)
Record pid_key := PidKey { pk_pid : Z; pk_pad : Z; pk_key : Z }.

#[export] Instance pid_key_eq_dec : EqDecision pid_key.
Proof. solve_decision. Defined.
#[export] Program Instance pid_key_countable : Countable pid_key :=
  inj_countable' (λ p, (pk_pid p, pk_pad p, pk_key p))
    (λ '(a, b, c), PidKey a b c) _.
Next Obligation. by intros []. Qed.

Record event_header := EventHeader {
  eh_pid : Z; eh_mntns : Z; eh_key : Z; eh_type : Z; eh_flags : Z
}.

(** A file event as it is assembled, with its whole path buffer. *)
Record event_data := EventData { ed_hdr : event_header; ed_data : list Z }.

Record exec_event_data := ExecEventData {
  ex_hdr : event_header;
  ex_filename : list Z;
  ex_args : list (list Z);
  ex_env : list (list Z);
  ex_args_len : Z;
  ex_env_len : Z
}.

#[export] Instance event_header_eq_dec : EqDecision event_header.
Proof. solve_decision. Defined.
#[export] Instance event_data_eq_dec : EqDecision event_data.
Proof. solve_decision. Defined.
#[export] Instance exec_event_data_eq_dec : EqDecision exec_event_data.
Proof. solve_decision. Defined.

(** [sizeof] of the packed structures. *)
Definition sizeof_event_header : Z := 4 + 4 + 8 + 1 + 8.
Definition sizeof_event_data : Z := sizeof_event_header + PATH_MAX.
Definition sizeof_exec_event_data : Z :=
  sizeof_event_header + MAX_FILENAME_LEN + MAX_ARGS * MAX_ARG_LEN +
  MAX_ENV * MAX_ENV_LEN + 4 + 4.

Record file_event_state := FileEventState {
  fe_inode : Z; fe_flags : Z; fe_dev : Z; fe_overlay : Z
}.

(** A record of the ring buffer: an event header alone, a file event with the
    part of its path buffer that was sent, or an exec event. *)
Inductive ring_record :=
| HeaderRecord (h : event_header)
| FileRecord (h : event_header) (data : list Z)
| ExecRecord (e : exec_event_data).

#[export] Instance ring_record_eq_dec : EqDecision ring_record.
Proof. solve_decision. Defined.

(** ** Read-only data *)

Record Rodata := {
  target : arch;
  filter_name : list Z;             (* char[MAX_COMM_LEN] *)
  use_cgroup_id : bool;
  use_mntns_seq : bool;
  capture_exec_args : bool;
  init_comms : list (list Z);       (* char[MAX_INIT_COMMS][TASK_COMM_LEN] *)
  init_exe_prefix : list Z;         (* char[INIT_EXE_PREFIX_LEN] *)
  (* bpf_core_field_exists of the two fields for the kernel loaded into *)
  has_mntns_seq : bool;
  has_mntns_ns_id : bool
}.

(** ** The current task

    What bpf_get_current_*() and BPF_CORE_READ of the current task yield. *)
Record Task := {
  cpu : Z;
  pid_tgid : Z;                     (* bpf_get_current_pid_tgid *)
  comm : list Z;                    (* bpf_get_current_comm *)
  raw_cgroup_id : Z;                (* bpf_get_current_cgroup_id *)
  raw_mntns_inum : Z;               (* nsproxy->mnt_ns->ns.inum *)
  raw_mntns_seq : Z;                (* nsproxy->mnt_ns->seq *)
  raw_mntns_ns_id : Z;              (* nsproxy->mnt_ns->ns.ns_id *)
  exe_name : Z;                     (* mm->exe_file->f_path.dentry->d_name.name *)
  ti_status : Z;                    (* thread_info.status *)
  ti_flags : Z;                     (* thread_info.flags *)
  parent_tgid : Z;                  (* real_parent->tgid *)
  live_counter : Z                  (* signal->live.counter *)
}.

(** The thread group and the thread of the current task. *)
Definition cur_pid (t : Task) : Z := u32 (Z.shiftr (pid_tgid t) 32).
Definition cur_tid (t : Task) : Z := u32 (pid_tgid t).

(** The identifiers of its cgroup and mount namespace, in the width of the
    fields and of the result of the helper. *)
Definition cgroup_id (t : Task) : Z := u64 (raw_cgroup_id t).
Definition mntns_inum (t : Task) : Z := u32 (raw_mntns_inum t).
Definition mntns_seq (t : Task) : Z := u64 (raw_mntns_seq t).
Definition mntns_ns_id (t : Task) : Z := u64 (raw_mntns_ns_id t).

(** A configuration without a filter that identifies workloads by cgroup, and
    a process of a workload. *)
Definition demo_cfg : Rodata := {|
  target := x86;
  filter_name := char_array 1024 "";
  use_cgroup_id := true; use_mntns_seq := false; capture_exec_args := true;
  init_comms := char_array 16 "runc:[2:INIT]" :: char_array 16 "crun" ::
    replicate 2 (char_array 16 "");
  init_exe_prefix := char_array 32 "memfd:crun_cloned";
  has_mntns_seq := true; has_mntns_ns_id := false
|}.

Definition demo_task : Task := {|
  cpu := 0; pid_tgid := 42 * 2 ^ 32 + 43; comm := char_array 16 "nginx";
  raw_cgroup_id := 7001; raw_mntns_inum := 4026532000; raw_mntns_seq := 99;
  raw_mntns_ns_id := 0;
  exe_name := 4096; ti_status := 0; ti_flags := 0; parent_tgid := 41;
  live_counter := 0
|}.

Lemma cur_pid_range t : in_u 32 (cur_pid t).
Proof. by apply wrap_range. Qed.
Lemma cur_tid_range t : in_u 32 (cur_tid t).
Proof. by apply wrap_range. Qed.

Lemma cgroup_id_range t : in_u 64 (cgroup_id t).
Proof. by apply wrap_range. Qed.
Lemma mntns_inum_range t : in_u 32 (mntns_inum t).
Proof. by apply wrap_range. Qed.
Lemma mntns_seq_range t : in_u 64 (mntns_seq t).
Proof. by apply wrap_range. Qed.
Lemma mntns_ns_id_range t : in_u 64 (mntns_ns_id t).
Proof. by apply wrap_range. Qed.
#[export] Hint Resolve cur_pid_range cur_tid_range cgroup_id_range mntns_inum_range
  mntns_seq_range mntns_ns_id_range : ebpf.

(** Only their range matters: keep [simpl] from dividing by [2 ^ 32]. *)
#[global] Opaque cur_pid cur_tid cgroup_id mntns_inum mntns_seq mntns_ns_id.

(** ** The shared state *)

Record World := {
  (* the number of decisions the kernel took so far *)
  tick : nat;
  is_recording : list bool;                        (* ARRAY, 1 entry *)
  is_recording_cached : bool;
  exclude_mntns : gmap Z Z;                        (* HASH *)
  recorded_syscalls : gmap Z (list Z);             (* HASH, u8[MAX_SYSCALLS] *)
  exclude_keys : gmap Z Z;                         (* LRU_HASH *)
  active_pids : gmap pid_key Z;                    (* LRU_HASH *)
  seccomp_initialized : gmap Z Z;                  (* LRU_HASH *)
  apparmor_initialized : gmap Z Z;                 (* LRU_HASH *)
  recorded_caps : gmap Z Z;                        (* LRU_HASH *)
  recorded_sockets : gmap Z Z;                     (* LRU_HASH *)
  child_pids : gmap Z bool;                        (* LRU_HASH *)
  (* RINGBUF: the records in the order they were reserved, [None] for one
     that is reserved and not submitted yet *)
  events : list (option ring_record);
  lost_events : gmap (Z * Z) Z;                    (* PERCPU_ARRAY, 4 entries *)
  file_event_scratch : gmap Z event_data;          (* PERCPU_ARRAY, 1 entry *)
  last_file_event : gmap Z file_event_state;       (* LRU_HASH *)
  file_event_busy : gmap Z Z;                      (* PERCPU_ARRAY, 1 entry *)
  buffer_heap_map : gmap Z (list Z)                (* PERCPU_ARRAY, 1 entry *)
}.

Abbreviation bpf := (prog World).

(** The map value an array map starts with. *)
Definition zero_header : event_header := EventHeader 0 0 0 0 0.
Definition zero_event_data : event_data :=
  EventData zero_header (replicate (Z.to_nat PATH_MAX) 0).

Definition MAX_BUF_LEN : Z := 4096.
Definition zero_buffer_heap : list Z := replicate (Z.to_nat (MAX_BUF_LEN + 256)) 0.

Definition init_world (recording : bool) : World := {|
  tick := 0; is_recording := [recording]; is_recording_cached := false;
  exclude_mntns := ∅; recorded_syscalls := ∅; exclude_keys := ∅;
  active_pids := ∅; seccomp_initialized := ∅; apparmor_initialized := ∅;
  recorded_caps := ∅; recorded_sockets := ∅; child_pids := ∅; events := [];
  lost_events := ∅; file_event_scratch := ∅; last_file_event := ∅;
  file_event_busy := ∅; buffer_heap_map := ∅
|}.

(** ** Maps as lenses

    A hash map of the program is the field of the state that holds it, so that
    a function can take a map as its argument, as [already_recorded] does. *)
Record lens (M : Type) := Lens { lget : World → M; lset : M → World → World }.
Arguments Lens {M} _ _.
Arguments lget {M} _ _.
Arguments lset {M} _ _ _.

(** A lens to a map next to the ring buffer: what is written is read back, and
    the ring buffer and its bookkeeping are apart from it. *)
Class LensOk {M} (L : lens M) := {
  lget_lset m w : lget L (lset L m w) = m;
  lget_frame t e l w :
    lget L {| w with tick := t; events := e; lost_events := l |} = lget L w;
  lset_frame m w :
    tick (lset L m w) = tick w ∧ events (lset L m w) = events w ∧
    lost_events (lset L m w) = lost_events w
}.

Definition exclude_mntns_L := Lens exclude_mntns (λ m w, {| w with exclude_mntns := m |}).
Definition recorded_syscalls_L :=
  Lens recorded_syscalls (λ m w, {| w with recorded_syscalls := m |}).
Definition exclude_keys_L := Lens exclude_keys (λ m w, {| w with exclude_keys := m |}).
Definition active_pids_L := Lens active_pids (λ m w, {| w with active_pids := m |}).
Definition seccomp_initialized_L :=
  Lens seccomp_initialized (λ m w, {| w with seccomp_initialized := m |}).
Definition apparmor_initialized_L :=
  Lens apparmor_initialized (λ m w, {| w with apparmor_initialized := m |}).
Definition recorded_caps_L := Lens recorded_caps (λ m w, {| w with recorded_caps := m |}).
Definition recorded_sockets_L :=
  Lens recorded_sockets (λ m w, {| w with recorded_sockets := m |}).
Definition child_pids_L := Lens child_pids (λ m w, {| w with child_pids := m |}).
Definition last_file_event_L :=
  Lens last_file_event (λ m w, {| w with last_file_event := m |}).

#[export] Instance recorded_caps_ok : LensOk recorded_caps_L.
Proof. by split. Qed.
#[export] Instance recorded_sockets_ok : LensOk recorded_sockets_L.
Proof. by split. Qed.

(** ** Accesses to the maps *)

Section accesses.
Context {KR : Kernel}.

Definition ticked (w : World) : World := {| w with tick := S (tick w) |}.

Section hash.
Context {K : Type} {V : Set} `{Countable K} (L : lens (gmap K V)).

(** bpf_map_lookup_elem: the value pointed to, as it is now. *)
Definition bpf_map_lookup_elem (k : K) : bpf (option V) :=
  get (λ w, lget L w !! k).

(** bpf_map_update_elem, for the two kinds of hash maps. *)
Definition bpf_map_update_elem (max : Z) (k : K) (v : V) (fl : update_flag) : bpf Z :=
  act (λ w, let '(rc, m) := hash_update (tick w) max (lget L w) k v fl in
            (rc, ticked (lset L m w))).

Definition bpf_lru_update_elem (max : Z) (k : K) (v : V) (fl : update_flag) : bpf Z :=
  act (λ w, let '(rc, m) := lru_update (tick w) max (lget L w) k v fl in
            (rc, ticked (lset L m w))).

Definition bpf_map_delete_elem (k : K) : bpf Z :=
  act (λ w, match lget L w !! k with
            | Some _ => (0, lset L (delete k (lget L w)) w)
            | None => (- ENOENT, w)
            end).

(** A store through the pointer a lookup of [k] returned. The memory of a
    deleted entry is no longer part of the map. *)
Definition map_store (k : K) (f : V → V) : bpf unit :=
  upd (λ w, lset L (alter f k (lget L w)) w).

(** An atomic read-modify-write through that pointer, which returns the
    old value; [seen] is the value of an entry that is gone by now. *)
Definition map_fetch (k : K) (seen : V) (f : V → V) : bpf V :=
  act (λ w, match lget L w !! k with
            | Some v => (v, lset L (<[k := f v]> (lget L w)) w)
            | None => (seen, w)
            end).
End hash.

(** bpf_ringbuf_reserve: the slot of the record, [None] if it does not fit. *)
Definition bpf_ringbuf_reserve (size : Z) : bpf (option nat) :=
  act (λ w, if rb_room (tick w) size
            then (Some (length (events w)),
                  ticked {| w with events := events w ++ [None] |})
            else (None, ticked w)).

(** The reserved memory is handed to the userspace with its content. *)
Definition bpf_ringbuf_submit (slot : nat) (r : ring_record) : bpf unit :=
  upd (λ w, {| w with events := <[slot := Some r]> (events w) |}).

(** bpf_ringbuf_output: reserve, copy and submit in one helper. *)
Definition bpf_ringbuf_output (size : Z) (r : World → ring_record) : bpf Z :=
  act (λ w, if rb_room (tick w) size
            then (0, ticked {| w with events := events w ++ [Some (r w)] |})
            else (-11, ticked w)).

(** The entries of a per CPU array of [max] entries always exist. *)
Definition percpu_lookup (max : Z) (m : gmap (Z * Z) Z) (c i : Z) : option Z :=
  if (0 <=? i) && (i <? max) then Some (default 0 (m !! (c, i))) else None.
End accesses.

(** ** Events the userspace can read *)

(** The records submitted so far. *)
Definition submitted (w : World) : list ring_record := omap id (events w).

(** A header event of type [ty] for [key]. *)
Definition header_event (w : World) (ty key : Z) (P : event_header → Prop) : Prop :=
  ∃ h, HeaderRecord h ∈ submitted w ∧ eh_type h = ty ∧ eh_key h = key ∧ P h.

Lemma submitted_app l l' : omap id (l ++ l') =@{list ring_record} omap id l ++ omap id l'.
Proof. induction l as [|[x|] l IH]; simpl; [done| |done]. by f_equal. Qed.

Lemma insert_reserved (l : list (option ring_record)) r :
  <[length l := Some r]> (l ++ [None]) = l ++ [Some r].
Proof. rewrite insert_app_r_alt, Nat.sub_diag by done. done. Qed.

(** ** A kernel to run the examples on *)

Definition demo_kernel : Kernel :=
  ref_kernel 1000 (λ _, Some (bytes "/usr/sbin/nginx")) (λ _, None).
Definition demo_kernel_ok : @KernelOk demo_kernel := ref_kernel_ok _ _ _.

(** The state right after a recording was started. *)
Definition demo_world : World :=
  let w := init_world true in {| w with is_recording_cached := true |}.

(** ** Symbolic execution *)

(** Reduce [run] through the accesses, and projections of the state. *)
Ltac brun_step :=
  cbn [run mbind mret prog_bind prog_ret pbind get act upd fst snd
    bpf_map_lookup_elem bpf_map_update_elem bpf_lru_update_elem
    bpf_map_delete_elem map_store map_fetch bpf_ringbuf_reserve
    bpf_ringbuf_submit bpf_ringbuf_output ticked lget lset
    exclude_mntns_L recorded_syscalls_L exclude_keys_L active_pids_L
    seccomp_initialized_L apparmor_initialized_L recorded_caps_L
    recorded_sockets_L child_pids_L last_file_event_L
    tick is_recording is_recording_cached exclude_mntns recorded_syscalls
    exclude_keys active_pids seccomp_initialized apparmor_initialized
    recorded_caps recorded_sockets child_pids events lost_events
    file_event_scratch last_file_event file_event_busy buffer_heap_map
    negb andb orb implb].

Ltac brun :=
  brun_step;
  repeat (progress change (0 =? 0) with true; brun_step);
  repeat (progress change (-1 =? 0) with false; brun_step).

(** Execute the first part of a sequence with the equation [e] for its run. *)
Tactic Notation "rstep" "with" open_constr(e) :=
  first [rewrite run_bind | rewrite run_pbind]; unfold result, exec;
  rewrite e; brun.

(** ** Parts of the state a program leaves alone *)

(** [keeps π p]: no access of [p] changes [π] of the state. *)
Definition keeps {T A} (π : World → T) (p : bpf A) : Prop :=
  guar (λ w w', π w' = π w) p.

Section keeps.
Context {T : Type} (π : World → T).

Lemma keeps_exec {A} (p : bpf A) w : keeps π p → π (exec p w) = π w.
Proof.
  intros Hp. apply (guar_exec (λ w w', π w' = π w)); [done| |done].
  intros w1 w2 w3 H1 H2. by rewrite H2.
Qed.

Lemma keeps_ret {A} (a : A) : keeps π (mret a).
Proof. constructor. Qed.

Lemma keeps_bind {A B} (p : bpf A) (q : A → bpf B) :
  keeps π p → (∀ a, keeps π (q a)) → keeps π (p ≫= q).
Proof. apply guar_bind. Qed.

Lemma keeps_get {R : Set} (f : World → R) : keeps π (get f).
Proof. constructor; [done|]. constructor. Qed.

Lemma keeps_act {R : Set} (f : World → R * World) :
  (∀ w, π (f w).2 = π w) → keeps π (act f).
Proof. intros H. constructor; [done|]. constructor. Qed.

Lemma keeps_upd (f : World → World) : (∀ w, π (f w) = π w) → keeps π (upd f).
Proof. intros H. by apply keeps_act. Qed.
End keeps.

(** The programs to look into; extended by the files that define them. *)
Ltac unfold_progs := fail.

Ltac walk_keeps :=
  repeat match goal with
  | |- ∀ _, _ => intro
  | |- keeps _ (_ ≫= _) => apply keeps_bind
  | |- keeps _ (mret _) => apply keeps_ret
  | |- keeps _ (get _) => apply keeps_get
  | |- keeps _ (bpf_map_lookup_elem _ _) => apply keeps_get
  | |- keeps _ (if ?b then _ else _) => destruct b
  | |- keeps _ (match ?o with Some _ => _ | None => _ end) => destruct o
  | |- keeps _ (let '(_, _) := ?p in _) => destruct p
  | |- keeps _ (upd _) => apply keeps_upd
  | |- keeps _ (act _) => apply keeps_act
  | |- keeps _ (bpf_map_update_elem _ _ _ _ _) => apply keeps_act
  | |- keeps _ (bpf_lru_update_elem _ _ _ _ _) => apply keeps_act
  | |- keeps _ (bpf_map_delete_elem _ _) => apply keeps_act
  | |- keeps _ (map_store _ _ _) => apply keeps_upd
  | |- keeps _ (map_fetch _ _ _ _) => apply keeps_act
  | |- keeps _ (bpf_ringbuf_reserve _) => apply keeps_act
  | |- keeps _ (bpf_ringbuf_submit _ _) => apply keeps_upd
  | |- keeps _ (bpf_ringbuf_output _ _) => apply keeps_act
  | |- keeps _ _ => unfold_progs; cbv zeta
  end.

Ltac solve_keeps :=
  walk_keeps; try (brun; repeat case_match; simplify_eq; reflexivity).
