(* ===== verification/Names.v ===== *)
(** * Process names

    The comparisons of process and executable names in [recorder.bpf.c]:
    the filter on a program name, and the recognition of the process a
    container runtime starts a container with.  Each loop over a fixed number
    of characters is shown to decide a property of the strings the buffers
    hold. *)
From S2P Require Import Prelude Bpf State.
Import String.StringSyntax.
#[local] Open Scope string_scope.
#[local] Open Scope Z_scope.

(** ** Comparisons of characters

    The loop that [matches_filter] and [is_container_init] share: compare [n]
    characters from [i] on, stop at the end of the first string. *)
Fixpoint same_chars (n : nat) (i : Z) (a b : list Z) : bool :=
  match n with
  | O => true
  | S n =>
      if negb (nthb a i =? nthb b i) then false
      else if nthb a i =? 0 then true
      else same_chars n (i + 1) a b
  end.

Definition has_filter (cfg : Rodata) : bool :=
  negb (nthb (filter_name cfg) 0 =? 0).

Definition matches_filter (cfg : Rodata) (comm : list Z) : bool :=
  same_chars (Z.to_nat (TASK_COMM_LEN - 1)) 0 comm (filter_name cfg).

(** [for (int i = 0; i < TASK_COMM_LEN; i++)] of [is_number]. *)
Fixpoint digits_from (n : nat) (i : Z) (comm : list Z) : bool :=
  match n with
  | O => true
  | S n =>
      if nthb comm i =? 0 then true
      else if (nthb comm i <? 48) || (57 <? nthb comm i) then false
      else digits_from n (i + 1) comm
  end.

Definition is_number (comm : list Z) : bool :=
  if nthb comm 0 =? 0 then false
  else digits_from (Z.to_nat TASK_COMM_LEN) 0 comm.

(** [for (int i = 0; i < INIT_EXE_PREFIX_LEN; i++)] of [exe_has_init_prefix]. *)
Fixpoint prefix_from (n : nat) (i : Z) (prefix exe : list Z) : bool :=
  match n with
  | O => true
  | S n =>
      if nthb prefix i =? 0 then true
      else if negb (nthb exe i =? nthb prefix i) then false
      else prefix_from n (i + 1) prefix exe
  end.

Definition exe_has_init_prefix `{!Kernel} (cfg : Rodata) (cur : Task) : bool :=
  if nthb (init_exe_prefix cfg) 0 =? 0 then false
  else if exe_name cur =? 0 then false
  else
    let '(r, exe) :=
      probe_read_kernel_str (exe_name cur) (Z.to_nat INIT_EXE_PREFIX_LEN) in
    if r <? 0 then false
    else prefix_from (Z.to_nat INIT_EXE_PREFIX_LEN) 0 (init_exe_prefix cfg) exe.

(** The outer loop of [is_container_init] over the names from [n] on. *)
Fixpoint matches_init_comm (fuel : nat) (n : Z) (comms : list (list Z)) (comm : list Z) : bool :=
  match fuel with
  | O => false
  | S fuel =>
      let c := nth (Z.to_nat n) comms [] in
      if nthb c 0 =? 0 then false
      else if same_chars (Z.to_nat TASK_COMM_LEN) 0 comm c then true
      else matches_init_comm fuel (n + 1) comms comm
  end.

Definition is_container_init `{!Kernel} (cfg : Rodata) (cur : Task) : bool :=
  if matches_init_comm (Z.to_nat MAX_INIT_COMMS) 0 (init_comms cfg) (comm cur) then true
  else is_number (comm cur) && exe_has_init_prefix cfg cur.

#[global] Arguments has_filter : simpl never.
#[global] Arguments matches_filter : simpl never.
#[global] Arguments is_number : simpl never.
#[global] Arguments exe_has_init_prefix : simpl never.
#[global] Arguments is_container_init : simpl never.

(** ** What the loops decide *)

Lemma nthb_cons_drop l i :
  0 <= i < Z.of_nat (length l) →
  drop (Z.to_nat i) l = nthb l i :: drop (Z.to_nat (i + 1)) l.
Proof.
  intros Hi. destruct (l !! Z.to_nat i) as [c|] eqn:E.
  2: { apply lookup_ge_None in E. lia. }
  rewrite (drop_S _ _ _ E). f_equal.
  - apply lookup_nthb in E. rewrite Z2Nat.id in E by lia. done.
  - f_equal. lia.
Qed.

(** The first [n] characters of two buffers agree up to the end of the string. *)
Lemma same_chars_spec n i a b :
  0 <= i →
  i + Z.of_nat n <= Z.of_nat (length a) →
  i + Z.of_nat n <= Z.of_nat (length b) →
  same_chars n i a b = true ↔
  cstr (take n (drop (Z.to_nat i) a)) = cstr (take n (drop (Z.to_nat i) b)).
Proof.
  revert i. induction n as [|n IH]; intros i Hi Ha Hb; [done|].
  cbn [same_chars].
  rewrite (nthb_cons_drop a i) by lia. rewrite (nthb_cons_drop b i) by lia.
  cbn [take cstr].
  destruct (Z.eqb_spec (nthb a i) (nthb b i)) as [E|E]; cbn [negb].
  - rewrite E. destruct (Z.eqb_spec (nthb b i) 0); [done|].
    rewrite IH by lia. split; [by intros ->|]. intros H. by injection H.
  - destruct (Z.eqb_spec (nthb a i) 0), (Z.eqb_spec (nthb b i) 0);
      split; try congruence; done.
Qed.

Definition is_digit (c : Z) : Prop := 48 <= c <= 57.

Lemma digits_from_spec n i l :
  0 <= i → i + Z.of_nat n <= Z.of_nat (length l) →
  digits_from n i l = true ↔ Forall is_digit (cstr (take n (drop (Z.to_nat i) l))).
Proof.
  revert i. induction n as [|n IH]; intros i Hi Hl; [done|].
  cbn [digits_from]. rewrite (nthb_cons_drop l i) by lia. cbn [take cstr].
  destruct (Z.eqb_spec (nthb l i) 0); [done|].
  rewrite Forall_cons. unfold is_digit at 1.
  destruct ((nthb l i <? 48) || (57 <? nthb l i)) eqn:E.
  - split; [done|]. intros [Hd _]. apply orb_true_iff in E as [E|E]; zbool; lia.
  - zbool. rewrite IH by lia. split; [|by intros []]. intros; split; [lia|done].
Qed.

Lemma prefix_from_spec n i p e :
  0 <= i → i + Z.of_nat n <= Z.of_nat (length p) →
  i + Z.of_nat n <= Z.of_nat (length e) →
  prefix_from n i p e = true ↔
  cstr (take n (drop (Z.to_nat i) p)) `prefix_of` cstr (take n (drop (Z.to_nat i) e)).
Proof.
  revert i. induction n as [|n IH]; intros i Hi Hp He; [done|].
  cbn [prefix_from].
  rewrite (nthb_cons_drop p i) by lia. rewrite (nthb_cons_drop e i) by lia.
  cbn [take cstr].
  destruct (Z.eqb_spec (nthb p i) 0) as [E|E].
  { split; [|done]. intros _. apply prefix_nil. }
  destruct (Z.eqb_spec (nthb e i) (nthb p i)) as [E'|E']; cbn [negb].
  - rewrite E'. destruct (Z.eqb_spec (nthb p i) 0); [done|].
    rewrite IH by lia. split; [by apply prefix_cons|]. apply prefix_cons_inv_2.
  - split; [done|]. destruct (Z.eqb_spec (nthb e i) 0).
    + intros [k Hk]. discriminate Hk.
    + intros H. apply prefix_cons_inv_1 in H. congruence.
Qed.

Lemma cstr_take n l : cstr (take n l) = take n (cstr l).
Proof.
  revert l. induction n as [|n IH]; intros [|c l]; simpl; try done.
  destruct (c =? 0); [done|]. by rewrite IH.
Qed.

(** What bpf_get_current_comm yields: a terminated name of at most 15 characters. *)
Definition comm_ok (comm : list Z) : Prop :=
  Z.of_nat (length comm) = TASK_COMM_LEN ∧ nthb comm 15 = 0.

Lemma comm_ok_short l : comm_ok l → (length (cstr l) <= 15)%nat.
Proof.
  unfold comm_ok, TASK_COMM_LEN. intros [Hl H0].
  assert (Hs : l = take 15 l ++ nthb l 15 :: drop 16 l).
  { change 16%nat with (Z.to_nat (15 + 1)). rewrite <- nthb_cons_drop by lia.
    symmetry. apply take_drop. }
  rewrite Hs, H0.
  assert (∀ s r, (length (cstr (s ++ 0%Z :: r)) <= length s)%nat) as Hc.
  { intros s r. induction s as [|c s IH]; simpl; [lia|].
    destruct (c =? 0); simpl; lia. }
  etrans; [apply Hc|]. rewrite length_take. lia.
Qed.

(** [matches_filter] accepts a process iff its name is the requested
    name cut to the 15 characters the kernel keeps. *)
Theorem matches_filter_spec cfg c :
  comm_ok c → Z.of_nat (length (filter_name cfg)) = MAX_COMM_LEN →
  matches_filter cfg c = true ↔ cstr c = take 15 (cstr (filter_name cfg)).
Proof.
  unfold MAX_COMM_LEN. intros Hc Hf. pose proof (comm_ok_short c Hc) as Hs.
  destruct Hc as [Hl _]. unfold TASK_COMM_LEN in *.
  unfold matches_filter. rewrite same_chars_spec by (unfold TASK_COMM_LEN; lia).
  change (Z.to_nat 0) with 0%nat. rewrite !drop_0.
  change (Z.to_nat (TASK_COMM_LEN - 1)) with 15%nat.
  rewrite !cstr_take. by rewrite take_ge by lia.
Qed.

Lemma matches_filter_spec_witness :
  let cfg := {| demo_cfg with filter_name := char_array 1024 "a-very-long-program" |} in
  let c := char_array 16 "a-very-long-pro" in
  comm_ok c ∧ matches_filter cfg c = true.
Proof.
  split; [by vm_compute|].
  apply matches_filter_spec; by vm_compute.
Defined.

(** [is_number] accepts a process iff its name is a non-empty sequence of
    decimal digits. *)
Theorem is_number_spec c :
  comm_ok c → is_number c = true ↔ cstr c ≠ [] ∧ Forall is_digit (cstr c).
Proof.
  intros Hc. pose proof (comm_ok_short c Hc) as Hs. destruct Hc as [Hl _].
  unfold TASK_COMM_LEN in Hl. unfold is_number.
  pose proof (nthb_cons_drop c 0) as Hd. rewrite drop_0 in Hd.
  destruct (Z.eqb_spec (nthb c 0) 0) as [E|E].
  - split; [done|]. intros [Hne _]. exfalso. apply Hne.
    rewrite Hd by lia. simpl. by rewrite E.
  - rewrite digits_from_spec by (unfold TASK_COMM_LEN; lia).
    change (Z.to_nat 0) with 0%nat. rewrite drop_0, cstr_take.
    rewrite take_ge by (change (Z.to_nat TASK_COMM_LEN) with 16%nat; lia).
    split; [|by intros []]. intros H. split; [|done]. rewrite Hd by lia. simpl.
    by destruct (Z.eqb_spec (nthb c 0) 0).
Qed.

Lemma is_number_spec_witness :
  is_number (char_array 16 "8") = true ∧ is_number (char_array 16 "8a") = false.
Proof.
  split; [apply is_number_spec; [by vm_compute|] |].
  - split; [done|]. by repeat constructor.
  - apply not_true_is_false. rewrite is_number_spec; [|by vm_compute].
    intros [_ H]. inversion H as [|? ? _ H']. inversion H' as [|? ? H'' _].
    by destruct H''.
Defined.

(** The name of the executable the string helper reads for a container init. *)
Definition exe_string `{!Kernel} (cur : Task) : list Z :=
  cstr (probe_read_kernel_str (exe_name cur) (Z.to_nat INIT_EXE_PREFIX_LEN)).2.

(** The names of the container init processes: the entries are filled from
    the start, the first empty one ends the list. *)
Fixpoint init_names (comms : list (list Z)) : list (list Z) :=
  match comms with
  | [] => []
  | c :: comms => if nthb c 0 =? 0 then [] else cstr c :: init_names comms
  end.

Record init_cfg_ok (cfg : Rodata) : Prop := {
  init_comms_len : Z.of_nat (length (init_comms cfg)) = MAX_INIT_COMMS;
  init_comms_ok : Forall comm_ok (init_comms cfg);
  init_prefix_len : Z.of_nat (length (init_exe_prefix cfg)) = INIT_EXE_PREFIX_LEN
}.

Section init.
Context {KR : Kernel} {KRok : KernelOk} (cfg : Rodata) (cur : Task).
Context (Hcfg : init_cfg_ok cfg) (Hcomm : comm_ok (comm cur)).

Lemma same_comm a b :
  comm_ok a → comm_ok b →
  same_chars (Z.to_nat TASK_COMM_LEN) 0 a b = true ↔ cstr a = cstr b.
Proof.
  intros Ha Hb. pose proof (comm_ok_short a Ha). pose proof (comm_ok_short b Hb).
  destruct Ha as [Ha _], Hb as [Hb _]. unfold TASK_COMM_LEN in *.
  rewrite same_chars_spec by lia. change (Z.to_nat 0) with 0%nat.
  rewrite !drop_0, !cstr_take. change (Z.to_nat 16) with 16%nat.
  by rewrite !take_ge by lia.
Qed.

Lemma matches_init_comm_spec fuel n c :
  comm_ok c → Forall comm_ok (init_comms cfg) →
  0 <= n → n + Z.of_nat fuel = Z.of_nat (length (init_comms cfg)) →
  matches_init_comm fuel n (init_comms cfg) c = true ↔
  cstr c ∈ init_names (drop (Z.to_nat n) (init_comms cfg)).
Proof.
  intros Hc Hall. revert n. induction fuel as [|fuel IH]; intros n Hn Hl.
  - rewrite drop_ge by lia. split; [done|]. intros Hin. by apply elem_of_nil in Hin.
  - cbn [matches_init_comm].
    destruct (init_comms cfg !! Z.to_nat n) as [x|] eqn:E.
    2: { apply lookup_ge_None in E. lia. }
    rewrite (nth_lookup_Some _ _ _ _ E), (drop_S _ _ _ E). cbn [init_names].
    pose proof (Forall_lookup_1 _ _ _ _ Hall E) as Hx.
    destruct (nthb x 0 =? 0).
    { split; [done|]. intros Hin. by apply elem_of_nil in Hin. }
    rewrite elem_of_cons, <- same_comm by done.
    replace (S (Z.to_nat n)) with (Z.to_nat (n + 1)) by lia.
    rewrite <- IH by lia.
    destruct (same_chars _ 0 c x); naive_solver.
Qed.

Lemma exe_has_init_prefix_spec :
  exe_has_init_prefix cfg cur = true ↔
  cstr (init_exe_prefix cfg) ≠ [] ∧ exe_name cur ≠ 0 ∧
  0 <= (probe_read_kernel_str (exe_name cur) (Z.to_nat INIT_EXE_PREFIX_LEN)).1 ∧
  cstr (init_exe_prefix cfg) `prefix_of` exe_string cur.
Proof.
  destruct Hcfg as [_ _ Hp]. unfold INIT_EXE_PREFIX_LEN in *.
  unfold exe_has_init_prefix, exe_string, INIT_EXE_PREFIX_LEN.
  pose proof (nthb_cons_drop (init_exe_prefix cfg) 0) as Hd. rewrite drop_0 in Hd.
  destruct (Z.eqb_spec (nthb (init_exe_prefix cfg) 0) 0) as [E|E].
  { split; [done|]. intros [Hne _]. exfalso. apply Hne. rewrite Hd by lia.
    simpl. by rewrite E. }
  destruct (Z.eqb_spec (exe_name cur) 0); [naive_solver|].
  pose proof (probe_read_kernel_str_ok (exe_name cur) (Z.to_nat 32)) as Hr.
  destruct (probe_read_kernel_str _ _) as [r exe]. cbn [fst snd] in *.
  destruct Hr as [Hlen _]; [lia|]. cbn [snd] in Hlen.
  destruct (Z.ltb_spec r 0); [naive_solver lia|].
  rewrite prefix_from_spec by lia. change (Z.to_nat 0) with 0%nat.
  rewrite !drop_0, !take_ge by lia. split; [|naive_solver].
  intros H'. split_and!; try done.
  rewrite Hd by lia. simpl. by destruct (Z.eqb_spec (nthb (init_exe_prefix cfg) 0) 0).
Qed.

(** [is_container_init] recognizes exactly the processes whose name is
    one of the configured names, and those named after a number whose
    executable can be read and starts with the configured prefix. *)
Theorem is_container_init_spec :
  is_container_init cfg cur = true ↔
  cstr (comm cur) ∈ init_names (init_comms cfg) ∨
  (cstr (comm cur) ≠ [] ∧ Forall is_digit (cstr (comm cur)) ∧
   cstr (init_exe_prefix cfg) ≠ [] ∧ exe_name cur ≠ 0 ∧
   0 <= (probe_read_kernel_str (exe_name cur) (Z.to_nat INIT_EXE_PREFIX_LEN)).1 ∧
   cstr (init_exe_prefix cfg) `prefix_of` exe_string cur).
Proof.
  unfold is_container_init. destruct Hcfg as [Hl Hall _].
  pose proof (matches_init_comm_spec (Z.to_nat MAX_INIT_COMMS) 0 (comm cur)
    Hcomm Hall ltac:(done)) as Hm.
  rewrite drop_0 in Hm. unfold MAX_INIT_COMMS in *.
  specialize (Hm ltac:(lia)).
  destruct (matches_init_comm _ _ _ _).
  - naive_solver.
  - rewrite andb_true_iff, exe_has_init_prefix_spec, is_number_spec by done.
    naive_solver.
Qed.
End init.

Lemma is_container_init_spec_witness :
  let K := ref_kernel 1 (λ _, Some (bytes "memfd:crun_cloned:/proc/self/exe")) (λ _, None) in
  @is_container_init K demo_cfg {| demo_task with comm := char_array 16 "crun" |} = true ∧
  @is_container_init K demo_cfg {| demo_task with comm := char_array 16 "5" |} = true.
Proof.
  intros K. assert (init_cfg_ok demo_cfg) as Hcfg
    by (split; [done|by repeat constructor|done]).
  split.
  - apply (@is_container_init_spec K (ref_kernel_ok 1 _ _)); [done|done|].
    left. by right; left.
  - apply (@is_container_init_spec K (ref_kernel_ok 1 _ _)); [done|done|].
    right. repeat split; [done|by repeat constructor|done|done|done|].
    exists (bytes ":/proc/self/ex"). by vm_compute.
Defined.
