(* ===== verification/Keys.v ===== *)
(** * Recording keys

    Which processes are recorded, and under which key: [get_mntns], [get_key]
    and the functions they use, of [recorder.bpf.c]. *)
From S2P Require Import Prelude Bpf State Names.

Section keys.
Context (cfg : Rodata) (cur : Task).

Definition get_mntns_id (mntns : Z) : Z :=
  if has_mntns_seq cfg then mntns_seq cur
  else if has_mntns_ns_id cfg then mntns_ns_id cur
  else mntns.

Definition get_key (mntns : Z) : Z :=
  if use_cgroup_id cfg then cgroup_id cur
  else if use_mntns_seq cfg then get_mntns_id mntns
  else mntns.

Definition unique_keys : bool := use_cgroup_id cfg || use_mntns_seq cfg.

(** The lookup behind [if (unique_keys())]. *)
Definition key_excluded (mntns : Z) : bpf bool :=
  if unique_keys then
    let key := get_key mntns in
    e ← bpf_map_lookup_elem exclude_keys_L key;
    mret (bool_decide (is_Some e))
  else mret false.

(** The condition behind [if (has_filter())]. *)
Definition filtered_out : bpf bool :=
  if has_filter cfg then
    let pid := cur_pid cur in
    c ← bpf_map_lookup_elem child_pids_L pid;
    let is_child := bool_decide (is_Some c) in
    mret (negb is_child && negb (matches_filter cfg (comm cur)))
  else mret false.

Definition get_mntns : bpf Z :=
  let mntns := mntns_inum cur in
  if mntns =? 0 then mret 0
  else
    e ← bpf_map_lookup_elem exclude_mntns_L mntns;
    if bool_decide (is_Some e) then mret 0
    else
      ke ← key_excluded mntns;
      if ke : bool then mret 0
      else
        fo ← filtered_out;
        if fo : bool then mret 0 else mret mntns.

(** The contract of [get_mntns]: the current process is recorded. *)
Definition included (w : World) : bool :=
  negb (mntns_inum cur =? 0) &&
  bool_decide (exclude_mntns w !! mntns_inum cur = None) &&
  implb unique_keys
    (bool_decide (exclude_keys w !! get_key (mntns_inum cur) = None)) &&
  implb (has_filter cfg)
    (bool_decide (is_Some (child_pids w !! cur_pid cur)) ||
     matches_filter cfg (comm cur)).

Lemma is_Some_None_decide {V} (o : option V) :
  bool_decide (is_Some o) = negb (bool_decide (o = None)).
Proof. destruct o; repeat case_bool_decide; naive_solver. Qed.

Lemma run_get_mntns w :
  run get_mntns w = (if included w then mntns_inum cur else 0, w).
Proof.
  unfold get_mntns, included.
  destruct (Z.eqb_spec (mntns_inum cur) 0); brun; [done|].
  rewrite is_Some_None_decide.
  destruct (bool_decide (exclude_mntns w !! _ = None)); brun; [|done].
  assert (run (filtered_out ≫= λ fo : bool, if fo then mret 0 else mret (mntns_inum cur)) w
    = (if implb (has_filter cfg) (bool_decide (is_Some (child_pids w !! cur_pid cur)) ||
         matches_filter cfg (comm cur)) then mntns_inum cur else 0, w)) as Hf.
  { unfold filtered_out. destruct (has_filter cfg); brun; [|done].
    destruct (bool_decide _), (matches_filter cfg (comm cur)); done. }
  unfold key_excluded. destruct unique_keys; brun; [|done].
  rewrite is_Some_None_decide.
  by destruct (bool_decide (exclude_keys w !! _ = None)).
Qed.

(** [get_mntns] returns the mount namespace of exactly the processes
    whose namespace is known and not excluded, whose key is not excluded if
    keys are never reused, and which pass the filter on the program name if
    there is one; it returns 0 for all others, and changes nothing. *)
Theorem get_mntns_spec w :
  exec get_mntns w = w ∧
  (result get_mntns w = 0 ∨ result get_mntns w = mntns_inum cur) ∧
  (result get_mntns w ≠ 0 ↔
    mntns_inum cur ≠ 0 ∧
    exclude_mntns w !! mntns_inum cur = None ∧
    (unique_keys = true → exclude_keys w !! get_key (mntns_inum cur) = None) ∧
    (has_filter cfg = true →
      is_Some (child_pids w !! cur_pid cur) ∨ matches_filter cfg (comm cur) = true)).
Proof.
  unfold exec, result. rewrite run_get_mntns. brun.
  split; [done|]. split; [destruct (included w); auto|].
  unfold included.
  destruct (Z.eqb_spec (mntns_inum cur) 0) as [->|Hi]; brun; [naive_solver|].
  repeat case_bool_decide; destruct unique_keys, (has_filter cfg),
    (matches_filter cfg (comm cur)); brun; naive_solver.
Qed.

Lemma included_inum w : included w = true → mntns_inum cur ≠ 0.
Proof.
  unfold included. rewrite !andb_true_iff. intros [[[H _] _] _].
  by apply negb_true_iff, Z.eqb_neq in H.
Qed.
End keys.
