(* ===== verification/Report.v ===== *)
(** * Reporting

    The events without data, the count of lost ones, the bit masks by which an
    event is reported once per key, and the clearing of what got recorded
    before the container start, of [recorder.bpf.c]. *)
From S2P Require Import Prelude Bpf State Names Keys.

Section report.
Context {KR : Kernel} (cfg : Rodata) (cur : Task).

(** [*lost += 1] is a load and a store: the map is per CPU, and its entry
    always exists for a known reason. *)
Definition count_lost (reason : Z) : bpf unit :=
  lost ← get (λ w, percpu_lookup 4 (lost_events w) (cpu cur) reason);
  match lost with
  | Some n =>
      upd (λ w, {| w with lost_events :=
        <[(cpu cur, reason) := u64 (n + 1)]> (lost_events w) |})
  | None => mret tt
  end.

Definition submit_event (type mntns key flags : Z) : bpf Z :=
  event ← bpf_ringbuf_reserve sizeof_event_header;
  match event with
  | None => _ ← count_lost LOST_RINGBUF; mret (-1)
  | Some slot =>
      _ ← bpf_ringbuf_submit slot
            (HeaderRecord (EventHeader (cur_pid cur) mntns key type flags));
      mret 0
  end.

(** The first condition of [clear_seccomp] and [clear_apparmor]: the key was
    initialized before. *)
Definition initialized_before (L : lens (gmap Z Z)) (key : Z) : bpf bool :=
  if unique_keys cfg then
    rc ← bpf_lru_update_elem L MAX_TRACKED_KEYS key 1 BPF_NOEXIST;
    mret (negb (rc =? 0))
  else mret false.

Definition clear_seccomp (key : Z) : bpf Z :=
  before ← initialized_before seccomp_initialized_L key;
  if before : bool then mret 0
  else
    _ ← bpf_map_delete_elem recorded_syscalls_L key;
    mret 0.

Definition clear_apparmor (mntns key : Z) : bpf Z :=
  before ← initialized_before apparmor_initialized_L key;
  if before : bool then mret 0
  else
    rc ← submit_event EVENT_TYPE_CLEAR_MNTNS mntns key 0;
    if negb (rc =? 0) then
      _ ← (if unique_keys cfg then bpf_map_delete_elem apparmor_initialized_L key
           else mret 0);
      mret (u32 (-1))
    else
      _ ← bpf_map_delete_elem recorded_caps_L key;
      _ ← bpf_map_delete_elem recorded_sockets_L key;
      mret 0.

(** The atomic or through the pointer to the mask. *)
Definition fetch_or_bit (L : lens (gmap Z Z)) (key mask bit : Z) : bpf bool :=
  old ← map_fetch L key mask (λ m, Z.lor m bit);
  mret (z2b (Z.land old bit)).

Definition already_recorded (L : lens (gmap Z Z)) (key bit : Z) : bpf bool :=
  mask ← bpf_map_lookup_elem L key;
  match mask with
  | Some m => fetch_or_bit L key m bit
  | None =>
      _ ← bpf_lru_update_elem L MAX_ENTRIES key 0 BPF_NOEXIST;
      mask ← bpf_map_lookup_elem L key;
      match mask with
      | None => mret false
      | Some m => fetch_or_bit L key m bit
      end
  end.

Definition report_again (L : lens (gmap Z Z)) (key bit : Z) : bpf unit :=
  mask ← bpf_map_lookup_elem L key;
  match mask with
  | Some m => _ ← map_fetch L key m (λ m, Z.land m (Z.lnot bit)); mret tt
  | None => mret tt
  end.

(** How [sys_enter_socket] and [cap_capable] report: once per bit, and again
    if the event got lost. *)
Definition report_once (L : lens (gmap Z Z)) (type mntns key flags bit : Z) : bpf Z :=
  seen ← already_recorded L key bit;
  if seen : bool then mret 0
  else
    rc ← submit_event type mntns key flags;
    if negb (rc =? 0) then
      _ ← report_again L key bit;
      mret 0
    else mret 0.

(** ** What they do to the state *)

Definition lost_world (reason : Z) (w : World) : World :=
  {| w with lost_events :=
    <[(cpu cur, reason) := u64 (default 0 (lost_events w !! (cpu cur, reason)) + 1)]>
      (lost_events w) |}.

Definition event_world (r : ring_record) (w : World) : World :=
  {| w with tick := S (tick w); events := events w ++ [Some r] |}.

Lemma run_count_lost reason w :
  0 <= reason < 4 → run (count_lost reason) w = (tt, lost_world reason w).
Proof.
  intros Hr. unfold count_lost, percpu_lookup. brun.
  destruct (Z.leb_spec 0 reason), (Z.ltb_spec reason 4); brun; try lia. done.
Qed.

Lemma run_submit_event type mntns key flags w :
  run (submit_event type mntns key flags) w =
  if rb_room (tick w) sizeof_event_header
  then (0, event_world (HeaderRecord (EventHeader (cur_pid cur) mntns key type flags)) w)
  else (-1, lost_world LOST_RINGBUF (ticked w)).
Proof.
  unfold submit_event. rewrite run_bind. unfold result, exec. brun.
  destruct (rb_room (tick w) sizeof_event_header); brun.
  - rewrite insert_reserved. done.
  - by rstep with (run_count_lost LOST_RINGBUF _ ltac:(done)).
Qed.

Lemma run_initialized_before L key w :
  run (initialized_before L key) w =
  if unique_keys cfg then
    let '(rc, m) := lru_update (tick w) MAX_TRACKED_KEYS (lget L w) key 1 BPF_NOEXIST in
    (negb (rc =? 0), ticked (lset L m w))
  else (false, w).
Proof.
  unfold initialized_before. destruct (unique_keys cfg); [|done].
  rewrite run_bind. unfold result, exec. cbn [bpf_lru_update_elem act run].
  destruct (lru_update _ _ _ _ _ _) as [rc m]. done.
Qed.

(** ** Clearing at the container start *)

Context {KRok : KernelOk}.

(** The container start drops the syscalls of its key, and only those;
    with keys that are never reused it does so once, so an exec into the
    running container, which finds the key initialized, keeps them. *)
Theorem clear_seccomp_once key w :
  result (clear_seccomp key) w = 0 ∧
  (∀ k, k ≠ key →
    recorded_syscalls (exec (clear_seccomp key) w) !! k = recorded_syscalls w !! k) ∧
  (unique_keys cfg = true → is_Some (seccomp_initialized w !! key) →
    recorded_syscalls (exec (clear_seccomp key) w) = recorded_syscalls w) ∧
  (unique_keys cfg = false ∨
    (lru_update (tick w) MAX_TRACKED_KEYS (seccomp_initialized w) key 1 BPF_NOEXIST).1 = 0 →
    recorded_syscalls (exec (clear_seccomp key) w) !! key = None ∧
    (unique_keys cfg = true →
      is_Some (seccomp_initialized (exec (clear_seccomp key) w) !! key))).
Proof.
  unfold result, exec, clear_seccomp. rstep with (run_initialized_before _ _ _).
  destruct (unique_keys cfg) eqn:Hu; brun.
  - pose proof (lru_update_exist (tick w) MAX_TRACKED_KEYS (seccomp_initialized w) key 1) as Hex.
    pose proof (λ m', lru_update_0 (tick w) MAX_TRACKED_KEYS (seccomp_initialized w)
      m' key 1 BPF_NOEXIST) as H0.
    destruct (lru_update _ _ _ _ _ _) as [rc m]. cbn [fst snd] in *.
    destruct (Z.eqb_spec rc 0) as [->|Hrc]; brun.
    + destruct (H0 m eq_refl) as [Hm _]. split_and!.
      * by destruct (recorded_syscalls w !! key).
      * intros k Hk. destruct (recorded_syscalls w !! key); brun; [|done].
        by rewrite lookup_delete_ne.
      * intros _ Hi. by specialize (Hex Hi).
      * intros _. destruct (recorded_syscalls w !! key) eqn:E; brun;
          rewrite ?lookup_delete_eq; eauto.
    + split_and!; try done. intros [|]; done.
  - split_and!; [by destruct (recorded_syscalls w !! key)| |done|].
    + intros k Hk. destruct (recorded_syscalls w !! key); brun; [|done].
      by rewrite lookup_delete_ne.
    + intros _. split; [|done].
      destruct (recorded_syscalls w !! key) eqn:E; brun; rewrite ?lookup_delete_eq; eauto.
Qed.

(** If the event that makes the userspace drop its AppArmor data cannot
    be sent, [clear_apparmor] reports an error, keeps the capabilities and
    sockets marked as reported and leaves the key uninitialized, so that the
    next exec of the container init tries again; otherwise the event is the
    last one in the ring buffer and both masks of the key are gone. *)
Theorem clear_apparmor_retries mntns key w :
  unique_keys cfg = true →
  (lru_update (tick w) MAX_TRACKED_KEYS (apparmor_initialized w) key 1 BPF_NOEXIST).1 = 0 →
  let w' := exec (clear_apparmor mntns key) w in
  if rb_room (S (tick w)) sizeof_event_header then
    result (clear_apparmor mntns key) w = 0 ∧
    events w' = events w ++ [Some (HeaderRecord
      (EventHeader (cur_pid cur) mntns key EVENT_TYPE_CLEAR_MNTNS 0))] ∧
    is_Some (apparmor_initialized w' !! key) ∧
    recorded_caps w' = delete key (recorded_caps w) ∧
    recorded_sockets w' = delete key (recorded_sockets w)
  else
    result (clear_apparmor mntns key) w = u32 (-1) ∧
    events w' = events w ∧ apparmor_initialized w' !! key = None ∧
    recorded_caps w' = recorded_caps w ∧ recorded_sockets w' = recorded_sockets w.
Proof.
  intros Hu Hrc. cbv zeta. unfold result, exec, clear_apparmor.
  rstep with (run_initialized_before _ _ _). rewrite Hu.
  pose proof (λ m', lru_update_0 (tick w) MAX_TRACKED_KEYS (apparmor_initialized w)
    m' key 1 BPF_NOEXIST) as H0.
  destruct (lru_update _ _ _ _ _ _) as [rc m]. cbn [fst snd] in *. subst rc.
  destruct (H0 m eq_refl) as [Hm _]. brun.
  rstep with (run_submit_event _ _ _ _ _).
  unfold event_world, lost_world.
  destruct (rb_room (S (tick w)) sizeof_event_header); brun.
  - assert (∀ (m : gmap Z Z), m !! key = None → m = delete key m) as Hd
      by (intros m' Hk; symmetry; by apply delete_id).
    destruct (recorded_caps w !! key) eqn:Ec; brun;
      destruct (recorded_sockets w !! key) eqn:Es; brun; split_and!; eauto.
  - rewrite Hm. brun. split_and!; try done. apply lookup_delete_eq.
Qed.

(** ** Reporting once per key *)

Section masks.
Context (L : lens (gmap Z Z)) {HL : LensOk L}.

(** The bits of the mask of [key]; none if it is not tracked. *)
Definition mask_of (w : World) (key : Z) : Z := default 0 (lget L w !! key).

Lemma run_fetch_or_bit key m bit w :
  lget L w !! key = Some m →
  run (fetch_or_bit L key m bit) w =
  (z2b (Z.land m bit), lset L (<[key := Z.lor m bit]> (lget L w)) w).
Proof. intros Hm. unfold fetch_or_bit. brun. by rewrite Hm. Qed.

Lemma lget_ticked m w : lget L (ticked (lset L m w)) = m.
Proof.
  unfold ticked.
  pose proof (lget_frame (S (tick (lset L m w))) (events (lset L m w))
    (lost_events (lset L m w)) (lset L m w)) as Hf.
  destruct (lset L m w) eqn:E. cbn in *. rewrite Hf, <- E. apply lget_lset.
Qed.

Lemma run_already_recorded key bit w :
  run (already_recorded L key bit) w =
  match lget L w !! key with
  | Some m => (z2b (Z.land m bit), lset L (<[key := Z.lor m bit]> (lget L w)) w)
  | None =>
      let '(rc, m') := lru_update (tick w) MAX_ENTRIES (lget L w) key 0 BPF_NOEXIST in
      let w' := ticked (lset L m' w) in
      match m' !! key with
      | Some m => (z2b (Z.land m bit), lset L (<[key := Z.lor m bit]> m') w')
      | None => (false, w')
      end
  end.
Proof.
  unfold already_recorded. brun.
  destruct (lget L w !! key) as [m|] eqn:E; brun; [by apply run_fetch_or_bit|].
  destruct (lru_update _ _ _ _ _ _) as [rc m']. brun.
  rewrite lget_ticked.
  destruct (m' !! key) as [m|] eqn:E'; brun; [|done].
  unfold fetch_or_bit. brun. by rewrite lget_ticked, E'.
Qed.

(** [already_recorded] reports the bit as it was, sets it if the key is
    tracked, and may make the map forget other keys. *)
Lemma already_recorded_spec key bit w :
  let w' := exec (already_recorded L key bit) w in
  result (already_recorded L key bit) w = z2b (Z.land (mask_of w key) bit) ∧
  (events w' = events w ∧ (tick w <= tick w')%nat) ∧
  (∀ m, lget L w' !! key = Some m → m = Z.lor (mask_of w key) bit) ∧
  (∀ k m, k ≠ key → lget L w' !! k = Some m → lget L w !! k = Some m).
Proof.
  cbv zeta. unfold result, exec, mask_of. rewrite run_already_recorded.
  destruct (lget L w !! key) as [m|] eqn:E; brun.
  { rewrite lget_lset, lookup_insert_eq.
    split_and!; [done|apply lset_frame|by rewrite (proj1 (lset_frame _ _))| |].
    - intros m' [= <-]. done.
    - intros k m' Hk. by rewrite lookup_insert_ne. }
  pose proof (λ m', lru_update_0 (tick w) MAX_ENTRIES (lget L w) m' key 0 BPF_NOEXIST) as H0.
  pose proof (λ m' rc, lru_update_err (tick w) MAX_ENTRIES (lget L w) m' key 0
    BPF_NOEXIST rc) as H1.
  destruct (lru_update _ _ _ _ _ _) as [rc m'].
  assert ((m' !! key = Some 0 ∨ m' !! key = None) ∧ m' ⊆ <[key := 0]> (lget L w))
    as [Hk Hs].
  { destruct (decide (rc = 0)) as [->|Hrc].
    - destruct (H0 _ eq_refl). auto.
    - destruct (H1 _ _ eq_refl Hrc) as (Hsub & Hkey & _). rewrite Hkey, E.
      split; [auto|]. etrans; [done|]. by apply insert_subseteq. }
  assert (∀ k x, k ≠ key → m' !! k = Some x → lget L w !! k = Some x) as Hother.
  { intros k x Hne Hx. apply (lookup_weaken _ _ _ _ Hx) in Hs.
    by rewrite lookup_insert_ne in Hs. }
  assert (tick w <= tick (ticked (lset L m' w)))%nat as Htick.
  { unfold ticked. cbn [tick]. rewrite (proj1 (lset_frame _ _)). lia. }
  destruct Hk as [Hk|Hk]; rewrite Hk; brun.
  - assert (events (ticked (lset L m' w)) = events w) as He by apply lset_frame.
    rewrite lget_lset, lookup_insert_eq. split_and!; [done| | | |].
    + rewrite (proj1 (proj2 (lset_frame _ _))). exact He.
    + rewrite (proj1 (lset_frame _ _)). exact Htick.
    + intros m [= <-]. done.
    + intros k m Hne. rewrite lookup_insert_ne by done. by apply Hother.
  - rewrite lget_ticked, Hk. split_and!; [done|apply lset_frame|exact Htick|done|].
    intros k m Hne. by apply Hother.
Qed.

Lemma report_again_spec key bit w :
  let w' := exec (report_again L key bit) w in
  (events w' = events w ∧ tick w' = tick w) ∧
  (∀ m, lget L w' !! key = Some m →
    ∃ m0, lget L w !! key = Some m0 ∧ m = Z.land m0 (Z.lnot bit)) ∧
  (∀ k m, k ≠ key → lget L w' !! k = Some m → lget L w !! k = Some m).
Proof.
  cbv zeta. unfold exec, report_again. brun.
  destruct (lget L w !! key) as [m|] eqn:E; brun; rewrite ?E; brun.
  - rewrite lget_lset, lookup_insert_eq. split_and!; [apply lset_frame..| |].
    + intros m' [= <-]. eauto.
    + intros k m' Hne. by rewrite lookup_insert_ne.
  - rewrite ?E. split_and!; [done|done| |done]. by intros.
Qed.

(** The contract of [report_once]: a bit that is set sends nothing; a bit
    that is not set sends one event and stays set while the key is
    tracked, or, if the event is lost, is not set afterwards. *)
Lemma report_once_spec type mntns key flags i w :
  0 <= i →
  let w' := exec (report_once L type mntns key flags (2 ^ i)) w in
  let ev := HeaderRecord (EventHeader (cur_pid cur) mntns key type flags) in
  (∀ k m, k ≠ key → lget L w' !! k = Some m → lget L w !! k = Some m) ∧
  if Z.testbit (mask_of w key) i then
    events w' = events w ∧ (∀ m, lget L w' !! key = Some m → m = mask_of w key)
  else
    (events w' = events w ++ [Some ev] ∧
     (∀ m, lget L w' !! key = Some m → m = Z.lor (mask_of w key) (2 ^ i))) ∨
    ((∃ t, (tick w <= t < tick w')%nat ∧ rb_room t sizeof_event_header = false) ∧
     events w' = events w ∧
     (∀ m j, lget L w' !! key = Some m → 0 <= j →
       Z.testbit m j = true → j ≠ i ∧ Z.testbit (mask_of w key) j = true)).
Proof.
  intros Hi. cbv zeta. unfold report_once. rewrite exec_bind.
  destruct (already_recorded_spec key (2 ^ i) w) as (Hr & (He & Htick) & Hk & Ho).
  set (w1 := exec (already_recorded L key (2 ^ i)) w) in *.
  rewrite Hr. unfold z2b. rewrite land_pow2_nonzero by done.
  destruct (Z.testbit (mask_of w key) i) eqn:Hb.
  { split; [done|]. split; [done|]. intros m Hm. rewrite (Hk m Hm).
    rewrite Z.lor_comm. apply lor_subset. intros j Hj Hj'.
    rewrite Z.pow2_bits_eqb in Hj' by done. apply Z.eqb_eq in Hj' as <-. done. }
  set (w2 := lost_world LOST_RINGBUF (ticked w1)).
  match goal with |- context [exec ?p w1] =>
    assert (exec p w1 =
      if rb_room (tick w1) sizeof_event_header
      then event_world (HeaderRecord (EventHeader (cur_pid cur) mntns key type flags)) w1
      else exec (report_again L key (2 ^ i)) w2) as -> end.
  { unfold exec at 1. rstep with (run_submit_event _ _ _ _ _).
    destruct (rb_room (tick w1) sizeof_event_header); brun; [done|].
    rewrite run_bind. done. }
  destruct (rb_room (tick w1) sizeof_event_header) eqn:Hroom.
  - assert (∀ r, lget L (event_world r w1) = lget L w1) as Hg.
    { intros r. exact (lget_frame (S (tick w1)) (events w1 ++ [Some r])
        (lost_events w1) w1). }
    rewrite Hg. split; [done|]. left. split; [|done]. cbn. by rewrite He.
  - assert (lget L w2 = lget L w1) as Hg.
    { exact (lget_frame (S (tick w1)) (events w1) _ w1). }
    destruct (report_again_spec key (2 ^ i) w2) as ((Ha & Hat) & Hak & Hao).
    set (w3 := exec (report_again L key (2 ^ i)) w2) in *.
    split; [intros k m Hne Hm; apply Hao in Hm; [|done]; rewrite Hg in Hm; by apply Ho|].
    right. split.
    { exists (tick w1). split; [|done]. rewrite Hat. change (tick w2) with (S (tick w1)). lia. }
    split; [by rewrite Ha|]. intros m j Hm Hj Hbit.
    destruct (Hak m Hm) as (m0 & Hm0 & ->). rewrite Hg in Hm0. rewrite (Hk m0 Hm0) in Hbit.
    rewrite Z.land_spec, Z.lnot_spec, lor_pow2_testbit, Z.pow2_bits_eqb in Hbit by done.
    destruct (Z.eqb_spec i j) as [->|]; simpl in Hbit.
    + by rewrite andb_false_r in Hbit.
    + rewrite orb_false_r, andb_true_r in Hbit. auto.
Qed.
End masks.
End report.

(** ** The ring buffer only grows

    A program that runs to its end appends records to the ring buffer. *)
Definition grows {A} (p : bpf A) : Prop :=
  ∀ w, ∃ l, events (exec p w) = events w ++ l.

Lemma grows_keeps {A} (p : bpf A) : keeps events p → grows p.
Proof. intros H w. exists []. by rewrite (keeps_exec _ _ _ H), app_nil_r. Qed.

Lemma grows_bind {A B} (p : bpf A) (q : A → bpf B) :
  grows p → (∀ a, grows (q a)) → grows (p ≫= q).
Proof.
  intros Hp Hq w. rewrite exec_bind.
  destruct (Hp w) as [l1 H1]. destruct (Hq (result p w) (exec p w)) as [l2 H2].
  exists (l1 ++ l2). by rewrite H2, H1, app_assoc.
Qed.

Lemma grows_submit_event {KR : Kernel} cur type mntns key flags :
  grows (submit_event cur type mntns key flags).
Proof.
  intros w. unfold exec. rewrite run_submit_event.
  destruct (rb_room _ _); cbn; [by eexists|]. exists []. by rewrite app_nil_r.
Qed.

Lemma grows_submitted {A} (p : bpf A) w r :
  grows p → r ∈ submitted w → r ∈ submitted (exec p w).
Proof.
  intros Hp Hr. destruct (Hp w) as [l Hl]. unfold submitted in *.
  rewrite Hl, submitted_app. by apply elem_of_app; left.
Qed.

Ltac solve_grows :=
  repeat match goal with
  | |- ∀ _, _ => intro
  | |- grows (_ ≫= _) => apply grows_bind
  | |- grows (if ?b then _ else _) => destruct b
  | |- grows (match ?o with Some _ => _ | None => _ end) => destruct o
  | |- grows (submit_event _ _ _ _ _) => apply grows_submit_event
  | |- grows _ => first [apply grows_keeps; solve [solve_keeps] | unfold_progs; cbv zeta]
  end.

(** ** Witnesses *)

Section witnesses.
#[local] Existing Instance demo_kernel.
#[local] Existing Instance demo_kernel_ok.

Lemma clear_seccomp_once_witness :
  recorded_syscalls (exec (clear_seccomp demo_cfg 7001) demo_world) !! 7001 = None ∧
  is_Some (seccomp_initialized (exec (clear_seccomp demo_cfg 7001) demo_world) !! 7001).
Proof.
  destruct (clear_seccomp_once demo_cfg 7001 demo_world) as (_ & _ & _ & H).
  destruct H as [H1 H2]; [right; reflexivity|]. split; [exact H1|apply H2; reflexivity].
Defined.

Lemma clear_apparmor_retries_witness :
  let w' := exec (clear_apparmor demo_cfg demo_task 4026532000 7001) demo_world in
  events w' = [Some (HeaderRecord
    (EventHeader (cur_pid demo_task) 4026532000 7001 EVENT_TYPE_CLEAR_MNTNS 0))] ∧
  is_Some (apparmor_initialized w' !! 7001).
Proof.
  destruct (clear_apparmor_retries demo_cfg demo_task 4026532000 7001 demo_world)
    as (_ & H1 & H2 & _); [reflexivity|reflexivity|]. split; [exact H1|exact H2].
Defined.
End witnesses.
