(* ===== verification/Syscalls.v ===== *)
(** * Recording syscalls

    The program attached to every syscall entry, [sys_enter], with the
    predicates it uses, and [sys_enter_getgid], which refreshes the cached
    recording state, of [recorder.bpf.c]. *)
From S2P Require Import Prelude Bpf State Names Keys Report.

(** The context of raw_syscalls/sys_enter: a syscall number and six arguments. *)
Record sys_enter_ctx := SysEnter { sc_id : Z; sc_args : list Z }.

Definition sc_arg (ctx : sys_enter_ctx) (i : nat) : Z := nth i (sc_args ctx) 0.

Section predicates.
Context (cfg : Rodata) (cur : Task).

Definition is_exec_syscall (syscall_id : Z) : bool :=
  (syscall_id =? u32 (NR_EXECVE (target cfg))) ||
  (syscall_id =? u32 (NR_EXECVEAT (target cfg))).

Definition is_seccomp_install (syscall_id : Z) (args : sys_enter_ctx) : bool :=
  if syscall_id =? u32 (NR_SECCOMP (target cfg)) then
    let operation := sc_arg args 0 in
    if operation =? SECCOMP_SET_MODE_STRICT then
      (sc_arg args 1 =? 0) && (sc_arg args 2 =? 0)
    else (operation =? SECCOMP_SET_MODE_FILTER) && negb (sc_arg args 2 =? 0)
  else if syscall_id =? u32 (NR_PRCTL (target cfg)) then
    let option := sc_arg args 0 in
    if option =? PR_SET_SECCOMP then
      (sc_arg args 1 =? SECCOMP_MODE_STRICT) ||
      ((sc_arg args 1 =? SECCOMP_MODE_FILTER) && negb (sc_arg args 2 =? 0))
    else option =? PR_GET_PDEATHSIG
  else false.

Definition is_compat_task : bool :=
  match target cfg with
  | x86 => negb (Z.land (ti_status cur) TS_COMPAT =? 0)
  | arm64 => negb (Z.land (ti_flags cur) (Z.shiftl 1 TIF_32BIT) =? 0)
  | other_arch => false
  end.
End predicates.

#[global] Arguments is_exec_syscall : simpl never.
#[global] Arguments is_seccomp_install : simpl never.
#[global] Arguments is_compat_task : simpl never.

Section sys_enter.
Context {KR : Kernel} (cfg : Rodata) (cur : Task).

(** Report a process under a key it was not seen with: [true] if the event
    was sent. *)
Definition report_process (mntns key : Z) : bpf bool :=
  let active := PidKey (cur_pid cur) 0 key in
  known ← bpf_map_lookup_elem active_pids_L active;
  if bool_decide (is_Some known) then mret false
  else
    rc ← bpf_lru_update_elem active_pids_L MAX_ENTRIES active 1 BPF_NOEXIST;
    if negb (rc =? 0) then mret false
    else
      rc ← submit_event cur EVENT_TYPE_NEWPID mntns key 0;
      if negb (rc =? 0) then
        _ ← bpf_map_delete_elem active_pids_L active;
        mret false
      else mret true.

(** Drop what got recorded before the container started. *)
Definition container_start (mntns key syscall_id : Z) (args : sys_enter_ctx) : bpf Z :=
  if (is_exec_syscall cfg syscall_id || is_seccomp_install cfg syscall_id args) &&
     is_container_init cfg cur
  then
    if is_exec_syscall cfg syscall_id then clear_apparmor cfg cur mntns key
    else clear_seccomp cfg key
  else mret 0.

Definition no_syscalls : list Z := replicate (Z.to_nat MAX_SYSCALLS) 0.

(** [value] points to the recorded syscalls of [key]: [false] if it stays null. *)
Definition syscalls_value (mntns key : Z) (reported : bool) : bpf bool :=
  value ← bpf_map_lookup_elem recorded_syscalls_L key;
  if bool_decide (is_Some value) then mret true
  else
    err ← bpf_map_update_elem recorded_syscalls_L MAX_ENTRIES key no_syscalls BPF_NOEXIST;
    if negb (err =? 0) && negb (err =? - EEXIST) then
      _ ← count_lost cur LOST_SYSCALLS_MAP_FULL;
      mret false
    else
      _ ← (if (err =? 0) && negb reported
           then submit_event cur EVENT_TYPE_NEWPID mntns key 0 else mret 0);
      value ← bpf_map_lookup_elem recorded_syscalls_L key;
      mret (bool_decide (is_Some value)).

Definition mark_syscall (syscall_id : Z) (value : list Z) : list Z :=
  <[Z.to_nat syscall_id := 1]> value.

Definition sys_enter (args : sys_enter_ctx) : bpf Z :=
  recording ← get is_recording_cached;
  if negb recording then mret 0
  else
    let syscall_id := u32 (sc_id args) in
    if (syscall_id <? 0) || (MAX_SYSCALLS <=? syscall_id) then mret 0
    else
      mntns ← get_mntns cfg cur;
      if mntns =? 0 then mret 0
      else
        let key := get_key cfg cur mntns in
        reported ← report_process mntns key;
        if is_compat_task cfg cur then
          _ ← count_lost cur LOST_COMPAT_SYSCALL;
          mret 0
        else
          _ ← container_start mntns key syscall_id args;
          value ← syscalls_value mntns key reported;
          if negb value then mret 0
          else
            _ ← map_store recorded_syscalls_L key (mark_syscall syscall_id);
            mret 0.

Definition sys_enter_getgid : bpf Z :=
  value ← get (λ w, is_recording w !! 0%nat);
  _ ← upd (λ w, {| w with is_recording_cached :=
                     match value with Some b => b | None => false end |});
  mret 0.
End sys_enter.

Ltac unfold_progs ::=
  progress unfold get_mntns, key_excluded, filtered_out, count_lost, submit_event,
    initialized_before, clear_seccomp, clear_apparmor, fetch_or_bit,
    already_recorded, report_again, report_process, container_start,
    syscalls_value, sys_enter, sys_enter_getgid.

Section facts.
Context {KR : Kernel} {KRok : KernelOk} (cfg : Rodata) (cur : Task).

Lemma report_process_syscalls mntns key :
  keeps recorded_syscalls (report_process cur mntns key).
Proof. solve_keeps. Qed.

Lemma clear_apparmor_syscalls mntns key :
  keeps recorded_syscalls (clear_apparmor cfg cur mntns key).
Proof. solve_keeps. Qed.

(** What [container_start] leaves of the syscalls of [key]. *)
Definition seccomp_start (syscall_id : Z) (args : sys_enter_ctx) : bool :=
  negb (is_exec_syscall cfg syscall_id) && is_seccomp_install cfg syscall_id args &&
  is_container_init cfg cur.

Lemma clear_seccomp_syscalls key w :
  let w' := exec (clear_seccomp cfg key) w in
  (recorded_syscalls w' = recorded_syscalls w ∨
   recorded_syscalls w' = delete key (recorded_syscalls w)) ∧
  (unique_keys cfg = true → is_Some (seccomp_initialized w !! key) →
   recorded_syscalls w' = recorded_syscalls w) ∧
  (unique_keys cfg = false → recorded_syscalls w' = delete key (recorded_syscalls w)).
Proof.
  cbv zeta. unfold exec, clear_seccomp. rstep with (run_initialized_before _ _ _ _).
  assert (∀ m : gmap Z (list Z), m !! key = None → delete key m = m) as Hd
    by (intros; by apply delete_id).
  destruct (unique_keys cfg) eqn:Hu; brun.
  - pose proof (lru_update_exist (tick w) MAX_TRACKED_KEYS (seccomp_initialized w) key 1) as Hex.
    destruct (lru_update _ _ _ _ _ _) as [rc m]. cbn [fst snd] in *.
    destruct (Z.eqb_spec rc 0) as [->|Hrc]; brun.
    + split_and!; [|intros _ Hi; by specialize (Hex Hi)|done].
      destruct (recorded_syscalls w !! key) eqn:E; brun; auto.
    + by split_and!; auto.
  - destruct (recorded_syscalls w !! key) eqn:E; brun; split_and!; auto; try done.
    intros _. by rewrite Hd.
Qed.

Lemma container_start_syscalls mntns key id args w :
  let w' := exec (container_start cfg cur mntns key id args) w in
  (recorded_syscalls w' = recorded_syscalls w ∨
   recorded_syscalls w' = delete key (recorded_syscalls w)) ∧
  (seccomp_start id args = false → recorded_syscalls w' = recorded_syscalls w) ∧
  (unique_keys cfg = true → is_Some (seccomp_initialized w !! key) →
   recorded_syscalls w' = recorded_syscalls w) ∧
  (seccomp_start id args = true → unique_keys cfg = false →
   recorded_syscalls w' = delete key (recorded_syscalls w)).
Proof.
  cbv zeta. unfold container_start, seccomp_start.
  destruct (is_exec_syscall cfg id); cbn [orb andb negb].
  - destruct (is_container_init cfg cur); [|by split_and!; auto].
    rewrite (keeps_exec _ _ _ (clear_apparmor_syscalls _ _)). by split_and!; auto.
  - destruct (is_seccomp_install cfg id args), (is_container_init cfg cur);
      cbn [andb]; try by split_and!; auto.
    destruct (clear_seccomp_syscalls key w) as (H1 & H2 & H3). by split_and!; auto.
Qed.

Lemma syscalls_value_spec mntns key reported w :
  let w' := exec (syscalls_value cur mntns key reported) w in
  let r := result (syscalls_value cur mntns key reported) w in
  match recorded_syscalls w !! key with
  | Some v => r = true ∧ recorded_syscalls w' = recorded_syscalls w
  | None =>
      if (hash_update (tick w) MAX_ENTRIES (recorded_syscalls w) key no_syscalls
            BPF_NOEXIST).1 =? 0
      then r = true ∧ recorded_syscalls w' = <[key := no_syscalls]> (recorded_syscalls w)
      else r = false ∧ recorded_syscalls w' = recorded_syscalls w
  end.
Proof.
  cbv zeta. unfold result, exec, syscalls_value. brun.
  destruct (recorded_syscalls w !! key) as [v|] eqn:E.
  { by rewrite bool_decide_eq_true_2 by eauto. }
  rewrite bool_decide_eq_false_2 by (intros [? ?]; done). brun.
  pose proof (λ m', hash_update_0 (tick w) MAX_ENTRIES (recorded_syscalls w) m' key
    no_syscalls BPF_NOEXIST) as H0.
  pose proof (λ m' rc, hash_update_err (tick w) MAX_ENTRIES (recorded_syscalls w) m' key
    no_syscalls BPF_NOEXIST rc) as H1.
  destruct (hash_update _ _ _ _ _ _) as [err m]. cbn [fst snd] in *.
  destruct (Z.eqb_spec err 0) as [->|Herr]; brun.
  - destruct (H0 m eq_refl) as [-> _]. destruct reported; brun.
    + by rewrite lookup_insert_eq, bool_decide_eq_true_2 by eauto.
    + rstep with (run_submit_event _ _ _ _ _ _). unfold event_world, lost_world.
      destruct (rb_room _ _); brun; rewrite lookup_insert_eq;
        by rewrite bool_decide_eq_true_2 by eauto.
  - destruct (H1 m err eq_refl Herr) as [-> _].
    destruct (Z.eqb_spec err (- EEXIST)) as [->|]; brun.
    + change (- EEXIST =? 0) with false. brun. rewrite E.
      by rewrite bool_decide_eq_false_2 by (intros [? ?]; done).
    + by rstep with (run_count_lost _ LOST_SYSCALLS_MAP_FULL _ ltac:(done)).
Qed.

(** A syscall the recorder takes into account: its program runs while
    recording, for a syscall number the bit map covers, in a process that is
    included. *)
Record taken (args : sys_enter_ctx) (w : World) : Prop := {
  taken_recording : is_recording_cached w = true;
  taken_id : u32 (sc_id args) < MAX_SYSCALLS;
  taken_included : included cfg cur w = true
}.

Abbreviation mntns := (mntns_inum cur).
Abbreviation key := (get_key cfg cur (mntns_inum cur)).

Lemma sys_enter_guards args w :
  taken args w →
  run (sys_enter cfg cur args) w =
  run (reported ← report_process cur mntns key;
       if is_compat_task cfg cur then
         _ ← count_lost cur LOST_COMPAT_SYSCALL; mret 0
       else
         _ ← container_start cfg cur mntns key (u32 (sc_id args)) args;
         value ← syscalls_value cur mntns key reported;
         if negb value then mret 0
         else
           _ ← map_store recorded_syscalls_L key (mark_syscall (u32 (sc_id args)));
           mret 0) w.
Proof.
  intros [Hr Hid Hi]. unfold sys_enter. cbv zeta.
  rewrite run_bind. unfold result, exec. cbn [get act run fst snd].
  rewrite Hr. cbn [negb].
  pose proof (wrap_range 32 (sc_id args)) as [H0 _]; [lia|].
  destruct (Z.ltb_spec (u32 (sc_id args)) 0); [lia|].
  destruct (Z.leb_spec MAX_SYSCALLS (u32 (sc_id args))); [lia|]. cbn [orb].
  rewrite run_bind. unfold result, exec. rewrite run_get_mntns. cbn [fst snd].
  rewrite Hi. pose proof (included_inum cfg cur w Hi).
  by destruct (Z.eqb_spec (mntns_inum cur) 0).
Qed.

Lemma report_process_initialized :
  keeps seccomp_initialized (report_process cur mntns key).
Proof. solve_keeps. Qed.

(** The bit map of a key can be stored: the map holds less than
    [MAX_ENTRIES] other keys. *)
Definition has_room (w : World) (k : Z) : Prop :=
  Z.of_nat (size (delete k (recorded_syscalls w))) < MAX_ENTRIES.

Lemma syscalls_value_room mntns k rep w m :
  Z.of_nat (size (delete k m)) < MAX_ENTRIES →
  recorded_syscalls w = m ∨ recorded_syscalls w = delete k m →
  result (syscalls_value cur mntns k rep) w = true ∧
  recorded_syscalls (exec (syscalls_value cur mntns k rep) w) =
    <[k := default no_syscalls (recorded_syscalls w !! k)]> m.
Proof.
  intros Hroom Hw. pose proof (syscalls_value_spec mntns k rep w) as Hv.
  cbv zeta in Hv. destruct Hw as [Hw|Hw]; rewrite Hw in *.
  - destruct (m !! k) as [v|] eqn:E.
    + destruct Hv as [-> ->]. by rewrite insert_id.
    + rewrite delete_id in Hroom by done.
      rewrite hash_update_room in Hv by done. by destruct Hv as [-> ->].
  - rewrite lookup_delete_eq in *.
    rewrite hash_update_room in Hv by (done || apply lookup_delete_eq).
    destruct Hv as [-> ->]. by rewrite insert_delete_eq.
Qed.

Lemma mark_syscall_lookup (id : Z) v :
  0 <= id < MAX_SYSCALLS → Z.of_nat (length v) = MAX_SYSCALLS →
  mark_syscall id v !! Z.to_nat id = Some 1 ∧
  (∀ i, i ≠ Z.to_nat id → mark_syscall id v !! i = v !! i).
Proof.
  intros Hid Hv. unfold mark_syscall. split.
  - apply list_lookup_insert_eq. lia.
  - intros i Hi. by apply list_lookup_insert_ne.
Qed.

(** A syscall of a recorded process is marked in the bit map of its key,
    in addition to what was marked there, as long as the map has room for
    the key; the bit maps of all other keys stay the same.  Only the install
    of a seccomp filter by a container init starts over from an empty bit
    map: always if keys can be reused, and never again once the key is
    initialized if they cannot. *)
Lemma sys_enter_records args w :
  taken args w → is_compat_task cfg cur = false → has_room w key →
  let w' := exec (sys_enter cfg cur args) w in
  let old := default no_syscalls (recorded_syscalls w !! key) in
  let id := u32 (sc_id args) in
  Z.of_nat (length old) = MAX_SYSCALLS →
  ∃ base marked,
    recorded_syscalls w' = <[key := marked]> (recorded_syscalls w) ∧
    marked !! Z.to_nat id = Some 1 ∧
    (∀ i, i ≠ Z.to_nat id → marked !! i = base !! i) ∧
    (base = old ∨ base = no_syscalls) ∧
    (seccomp_start id args = false → base = old) ∧
    (unique_keys cfg = true → is_Some (seccomp_initialized w !! key) → base = old) ∧
    (seccomp_start id args = true → unique_keys cfg = false → base = no_syscalls).
Proof.
  intros Ht Hc Hroom w' old id Hlen. unfold w', exec. rewrite sys_enter_guards by done.
  rewrite run_bind, Hc. set (w1 := exec (report_process cur mntns key) w).
  assert (recorded_syscalls w1 = recorded_syscalls w) as E1
    by apply (keeps_exec _ _ _ (report_process_syscalls _ _)).
  assert (seccomp_initialized w1 = seccomp_initialized w) as E1'
    by apply (keeps_exec _ _ _ report_process_initialized).
  rewrite run_bind.
  pose proof (container_start_syscalls mntns key id args w1) as (Hs & Hs1 & Hs2 & Hs3).
  rewrite E1 in Hs, Hs1, Hs2, Hs3. fold id.
  set (w2 := exec (container_start cfg cur mntns key id args) w1) in *.
  rewrite run_bind.
  destruct (syscalls_value_room mntns key (result (report_process cur mntns key) w) w2
    (recorded_syscalls w) Hroom Hs) as [Hr Hb].
  rewrite Hr. brun. rewrite Hb, alter_insert_eq.
  set (base := default no_syscalls (recorded_syscalls w2 !! key)).
  assert (base = old ∨ base = no_syscalls) as Hbase.
  { unfold base. destruct Hs as [->| ->]; rewrite ?lookup_delete_eq; auto. }
  assert (Z.of_nat (length base) = MAX_SYSCALLS) as Hlb
    by (destruct Hbase as [->| ->]; [done|]; unfold no_syscalls; by rewrite length_replicate).
  destruct (mark_syscall_lookup id base) as [M1 M2]; [|done|].
  { destruct Ht as [_ Hid _]. pose proof (wrap_range 32 (sc_id args)) as [H0 _]; [lia|].
    unfold id. lia. }
  exists base, (mark_syscall id base). split; [done|]. split; [done|]. split; [done|].
  split; [done|]. unfold base. split_and!.
  - intros H. by rewrite Hs1.
  - intros H H'. by rewrite Hs2 by (rewrite ?E1'; done).
  - intros H H'. by rewrite Hs3, lookup_delete_eq.
Qed.

(** Nothing happens at all while the recorder is not recording, for a
    syscall number beyond the bit map, or in a process that is not
    included. *)
Theorem sys_enter_skips args w :
  is_recording_cached w = false ∨ MAX_SYSCALLS <= u32 (sc_id args) ∨
    included cfg cur w = false →
  run (sys_enter cfg cur args) w = (0, w).
Proof.
  intros H. unfold sys_enter. cbv zeta.
  rewrite run_bind. unfold result, exec. cbn [get act run fst snd].
  destruct (is_recording_cached w); cbn [negb]; [|done].
  destruct (Z.ltb_spec (u32 (sc_id args)) 0); [done|].
  destruct (Z.leb_spec MAX_SYSCALLS (u32 (sc_id args))); [done|]. cbn [orb].
  rewrite run_bind. unfold result, exec. rewrite run_get_mntns. cbn [fst snd].
  destruct H as [H|[H|H]]; [done|lia|]. by rewrite H.
Qed.

(** A process is known under a key, and the event that reports it. *)
Definition active_key (k : Z) : pid_key := PidKey (cur_pid cur) 0 k.
Definition newpid_record (mntns k : Z) : ring_record :=
  HeaderRecord (EventHeader (cur_pid cur) mntns k EVENT_TYPE_NEWPID 0).

(** The outcomes of [report_process]. *)
Lemma report_process_cases mntns k w :
  let w' := exec (report_process cur mntns k) w in
  let r := result (report_process cur mntns k) w in
  match active_pids w !! active_key k with
  | Some _ => r = false ∧ w' = w
  | None =>
      let upd := lru_update (tick w) MAX_ENTRIES (active_pids w) (active_key k) 1 BPF_NOEXIST in
      if negb (upd.1 =? 0) then
        r = false ∧ w' = ticked {| w with active_pids := upd.2 |}
      else if rb_room (S (tick w)) sizeof_event_header then
        r = true ∧ active_pids w' = upd.2 ∧ events w' = events w ++ [Some (newpid_record mntns k)]
      else
        r = false ∧ active_pids w' = delete (active_key k) upd.2 ∧ events w' = events w
  end.
Proof.
  cbv zeta. unfold result, exec, report_process, active_key, newpid_record. brun.
  destruct (active_pids w !! _) as [v|] eqn:E.
  { by rewrite bool_decide_eq_true_2 by eauto. }
  rewrite bool_decide_eq_false_2 by (intros [? ?]; done). brun.
  pose proof (λ m', lru_update_0 (tick w) MAX_ENTRIES (active_pids w) m'
    (PidKey (cur_pid cur) 0 k) 1 BPF_NOEXIST) as H0.
  destruct (lru_update _ _ _ _ _ _) as [rc m]. cbn [fst snd] in *.
  destruct (Z.eqb_spec rc 0) as [->|Hrc]; brun; [|done].
  destruct (H0 m eq_refl) as [Hm _].
  rstep with (run_submit_event _ _ _ _ _ _). unfold event_world, lost_world.
  destruct (rb_room _ _); brun; [done|]. by rewrite Hm.
Qed.

Lemma later_active mntns k id args rep :
  keeps active_pids (container_start cfg cur mntns k id args) ∧
  keeps active_pids (syscalls_value cur mntns k rep).
Proof. split; solve_keeps. Qed.

(** The first syscall of a process under a key reports the process: the
    event is in the ring buffer and the process is remembered.  If the event
    does not fit the process is not remembered, so that its next syscall
    reports it. *)
Theorem sys_enter_reports args w :
  taken args w → active_pids w !! active_key key = None →
  (lru_update (tick w) MAX_ENTRIES (active_pids w) (active_key key) 1 BPF_NOEXIST).1 = 0 →
  let w' := exec (sys_enter cfg cur args) w in
  if rb_room (S (tick w)) sizeof_event_header then
    newpid_record mntns key ∈ submitted w' ∧ active_pids w' !! active_key key = Some 1
  else active_pids w' !! active_key key = None.
Proof.
  intros Ht Hk Hrc. cbv zeta. unfold exec at 1 2 3. rewrite sys_enter_guards by done.
  rewrite run_bind.
  pose proof (report_process_cases mntns key w) as Hc. cbv zeta in Hc.
  rewrite Hk, Hrc in Hc. cbn [negb] in Hc. change (0 =? 0) with true in Hc.
  cbn [negb] in Hc.
  set (w1 := exec (report_process cur mntns key) w) in *.
  set (rep := result (report_process cur mntns key) w) in *.
  match goal with |- context [run ?p w1] => set (p1 := p) end.
  assert (keeps active_pids p1) as Ha.
  { unfold p1. destruct (is_compat_task cfg cur); [solve_keeps|].
    apply keeps_bind; [apply (later_active _ _ _ _ rep)|intros _].
    apply keeps_bind; [apply (later_active _ _ 0 args)|intros v]. solve_keeps. }
  assert (grows p1) as He by (unfold p1; solve_grows).
  change (run p1 w1).2 with (exec p1 w1). rewrite (keeps_exec _ _ _ Ha).
  destruct (rb_room (S (tick w)) sizeof_event_header).
  - destruct Hc as (_ & Hact & Hev). split.
    + apply grows_submitted; [done|]. unfold submitted. rewrite Hev, submitted_app.
      apply elem_of_app; right. by left.
    + rewrite Hact. destruct (lru_update _ _ _ _ _ _) as [rc m] eqn:E.
      cbn [fst snd] in *. subst rc. by apply lru_update_0 in E as [? _].
  - destruct Hc as (_ & -> & _). apply lookup_delete_eq.
Qed.
End facts.

(** ** Witnesses *)

Section witnesses.
#[local] Existing Instance demo_kernel.
#[local] Existing Instance demo_kernel_ok.

(** A write of the demo process. *)
Definition demo_write : sys_enter_ctx := SysEnter 1 [1; 4096; 10; 0; 0; 0].

Lemma sys_enter_skips_witness :
  run (sys_enter demo_cfg demo_task (SysEnter 5000 [])) demo_world = (0, demo_world).
Proof. apply sys_enter_skips. right; left. vm_compute. discriminate. Defined.

Lemma sys_enter_reports_witness :
  let w' := exec (sys_enter demo_cfg demo_task demo_write) demo_world in
  newpid_record demo_task 4026532000 7001 ∈ submitted w' ∧
  active_pids w' !! active_key demo_task 7001 = Some 1.
Proof.
  destruct (sys_enter_reports demo_cfg demo_task demo_write demo_world) as [H1 H2].
  - split; [reflexivity|reflexivity|reflexivity].
  - reflexivity.
  - reflexivity.
  - split; [exact H1|exact H2].
Defined.
End witnesses.
