(* ===== verification/Activity.v ===== *)
(** * Sockets, capabilities, programs and processes

    The programs of [recorder.bpf.c] that report sockets and capabilities, send
    the arguments of an exec, and follow the processes of a filtered program. *)
From S2P Require Import Prelude Bpf State Names Keys Report.

(** The context of a per syscall tracepoint: what reading each of its
    arguments yields, [None] if that fails. *)
Definition tp_ctx := list (option Z).
Definition tp_arg (ctx : tp_ctx) (i : nat) : option Z := default None (ctx !! i).

Section sockets.
Definition socket_group (domain : Z) : Z :=
  if domain =? AF_UNIX then 0
  else if domain =? AF_INET then 1
  else if domain =? AF_INET6 then 2
  else 3.

Definition socket_bit (domain type : Z) : Z :=
  Z.shiftl 1 (socket_group domain * 16 + Z.land type 0xf).

Definition socket_flags (domain type : Z) : Z :=
  Z.lor (u64 (Z.shiftl domain 32)) (Z.land type 0xffffffff).
End sockets.

Section hooks.
Context {KR : Kernel} (cfg : Rodata) (cur : Task).

Definition sys_enter_socket (ctx : tp_ctx) : bpf Z :=
  recording ← get is_recording_cached;
  if negb recording then mret 0
  else
    mntns ← get_mntns cfg cur;
    if mntns =? 0 then mret 0
    else
      match tp_arg ctx 0, tp_arg ctx 1 with
      | Some domain, Some type =>
          let key := get_key cfg cur mntns in
          report_once cur recorded_sockets_L EVENT_TYPE_APPARMOR_SOCKET mntns key
            (socket_flags domain type) (socket_bit domain type)
      | _, _ => mret 0
      end.

(** [cap] and [cap_opt] are the third and fourth argument of the probed
    function. *)
Definition cap_capable (cap cap_opt : Z) : bpf Z :=
  recording ← get is_recording_cached;
  if negb recording then mret 0
  else
    mntns ← get_mntns cfg cur;
    if mntns =? 0 then mret 0
    else if z2b (Z.land cap_opt CAP_OPT_NOAUDIT) then mret 0
    else if is_container_init cfg cur then mret 0
    else if 64 <=? cap then mret 0
    else
      let bit := Z.shiftl 1 cap in
      let key := get_key cfg cur mntns in
      report_once cur recorded_caps_L EVENT_TYPE_APPARMOR_CAP mntns key cap bit.

(** ** The arguments of an exec

    The loop over the pointers at [base]: copy up to [n] strings of at most
    [len] bytes into the slots, stop at the null pointer or a fault.  It
    returns the slots and the number of strings copied. *)
Fixpoint read_strings (n : nat) (i : Z) (len : nat) (base : Z)
    (slots : list (list Z)) (count : Z) : list (list Z) * Z :=
  match n with
  | O => (slots, count)
  | S n =>
      match probe_read_user_ptr (u64 (base + 8 * i)) with
      | None => (slots, count)
      | Some ptr =>
          if ptr =? 0 then (slots, count)
          else
            let '(ret, str) := probe_read_user_str ptr len in
            let slots := <[Z.to_nat i := str]> slots in
            if ret <? 0 then (slots, count)
            else read_strings n (i + 1) len base slots (u32 (count + 1))
      end
  end.

(** The reserved memory, cut into the slots of an array of strings. *)
Definition slots_of (n len : nat) (mem : list Z) : list (list Z) :=
  (λ i, take len (drop (i * len)%nat mem)) <$> seq 0 n.

Definition submit_exec_event (filename argv envp mntns : Z) : bpf unit :=
  exec_event ← bpf_ringbuf_reserve sizeof_exec_event_data;
  match exec_event with
  | None => count_lost cur LOST_RINGBUF
  | Some slot =>
      stale ← get (λ w, rb_stale (tick w) (Z.to_nat sizeof_exec_event_data));
      let mem := drop (Z.to_nat (sizeof_event_header + MAX_FILENAME_LEN)) stale in
      let hdr := EventHeader (cur_pid cur) mntns (get_key cfg cur mntns)
        EVENT_TYPE_EXECVE_ENTER 0 in
      let name := (probe_read_user_str filename (Z.to_nat MAX_FILENAME_LEN)).2 in
      let '(args, args_len) :=
        read_strings (Z.to_nat MAX_ARGS) 0 (Z.to_nat MAX_ARG_LEN) argv
          (slots_of (Z.to_nat MAX_ARGS) (Z.to_nat MAX_ARG_LEN) mem) 0 in
      let '(env, env_len) :=
        read_strings (Z.to_nat MAX_ENV) 0 (Z.to_nat MAX_ENV_LEN) envp
          (slots_of (Z.to_nat MAX_ENV) (Z.to_nat MAX_ENV_LEN)
             (drop (Z.to_nat (MAX_ARGS * MAX_ARG_LEN)) mem)) 0 in
      bpf_ringbuf_submit slot
        (ExecRecord (ExecEventData hdr name args env args_len env_len))
  end.

(** The two exec tracepoints differ in which arguments they read. *)
Definition sys_enter_execve (arg0 arg1 arg2 : Z) : bpf Z :=
  recording ← get is_recording_cached;
  if negb recording then mret 0
  else if negb (capture_exec_args cfg) then mret 0
  else
    mntns ← get_mntns cfg cur;
    if mntns =? 0 then mret 0
    else
      _ ← submit_exec_event arg0 arg1 arg2 mntns;
      mret 0.

Definition sys_enter_execveat (arg1 arg2 arg3 : Z) : bpf Z :=
  recording ← get is_recording_cached;
  if negb recording then mret 0
  else if negb (capture_exec_args cfg) then mret 0
  else
    mntns ← get_mntns cfg cur;
    if mntns =? 0 then mret 0
    else
      _ ← submit_exec_event arg1 arg2 arg3 mntns;
      mret 0.

(** ** Following the processes of a filtered program *)

Definition sched_process_exec : bpf Z :=
  recording ← get is_recording_cached;
  if negb recording then mret 0
  else if negb (has_filter cfg) then mret 0
  else
    parent ← bpf_map_lookup_elem child_pids_L (parent_tgid cur);
    let is_child := bool_decide (is_Some parent) in
    if is_child || matches_filter cfg (comm cur) then
      _ ← bpf_lru_update_elem child_pids_L MAX_CHILD_PIDS (cur_pid cur) true BPF_ANY;
      mret 0
    else mret 0.

Definition sched_process_exit : bpf Z :=
  recording ← get is_recording_cached;
  if negb recording then mret 0
  else if negb (live_counter cur =? 0) then mret 0
  else
    mntns ← get_mntns cfg cur;
    if mntns =? 0 then mret 0
    else
      let active := PidKey (cur_pid cur) 0 (get_key cfg cur mntns) in
      rc ← bpf_map_delete_elem active_pids_L active;
      if negb (rc =? 0) then mret 0
      else
        _ ← bpf_map_delete_elem child_pids_L (cur_pid cur);
        _ ← submit_event cur EVENT_TYPE_EXIT mntns (get_key cfg cur mntns) 0;
        mret 0.

(** The arguments are the pid and tgid of the child and the tgid of the
    parent, read from their task structures. *)
Definition sched_process_fork (parent_tgid child_pid child_tgid : Z) : bpf Z :=
  recording ← get is_recording_cached;
  if negb recording then mret 0
  else if negb (has_filter cfg) then mret 0
  else if negb (child_pid =? child_tgid) then mret 0
  else
    parent ← bpf_map_lookup_elem child_pids_L parent_tgid;
    if bool_decide (is_Some parent) then
      _ ← bpf_lru_update_elem child_pids_L MAX_CHILD_PIDS child_pid true BPF_ANY;
      mret 0
    else mret 0.
End hooks.

(** ** Sockets and capabilities are reported once *)

Lemma socket_group_range d : 0 <= socket_group d <= 3.
Proof. unfold socket_group. repeat case_match; lia. Qed.

Lemma land_15_range t : 0 <= Z.land t 0xf <= 15.
Proof.
  change (Z.land t 0xf) with (Z.land t (Z.ones 4)). rewrite Z.land_ones by lia.
  change (2 ^ 4) with 16. pose proof (Z.mod_pos_bound t 16). lia.
Qed.

(** The bit of a kind of socket, as an index into the mask. *)
Definition socket_index (domain type : Z) : Z :=
  socket_group domain * 16 + Z.land type 0xf.

Lemma socket_index_range d t : 0 <= socket_index d t < 64.
Proof.
  unfold socket_index. pose proof (socket_group_range d). pose proof (land_15_range t). lia.
Qed.

Lemma socket_bit_pow d t : socket_bit d t = 2 ^ socket_index d t.
Proof.
  unfold socket_bit. pose proof (socket_index_range d t). unfold socket_index in *.
  by rewrite Z.shiftl_mul_pow2, Z.mul_1_l by lia.
Qed.

(** Two sockets share a bit of the mask iff they have the same kind of domain
    and the same type without its flags.  The bit always fits into the 64 bits
    of the mask. *)
Lemma socket_bit_groups d1 t1 d2 t2 :
  in_u 64 (socket_bit d1 t1) ∧
  (socket_bit d1 t1 = socket_bit d2 t2 ↔
   socket_group d1 = socket_group d2 ∧ Z.land t1 0xf = Z.land t2 0xf).
Proof.
  rewrite !socket_bit_pow.
  pose proof (socket_index_range d1 t1) as H1. pose proof (socket_index_range d2 t2) as H2.
  split.
  { unfold in_u. split; [apply Z.pow_nonneg; lia|]. apply Z.pow_lt_mono_r; lia. }
  pose proof (land_15_range t1). pose proof (land_15_range t2).
  split.
  - intros H'. apply Z.pow_inj_r in H'; [|lia..]. unfold socket_index in H'. lia.
  - unfold socket_index. by intros [-> ->].
Qed.

(** The domain and the type of a socket are the halves of the flags. *)
Lemma socket_flags_halves d t :
  in_u 32 d →
  Z.shiftr (socket_flags d t) 32 = d ∧
  Z.land (socket_flags d t) 0xffffffff = wrap 32 t ∧
  in_u 64 (socket_flags d t).
Proof.
  intros Hd. unfold in_u in Hd. unfold socket_flags.
  assert (Z.shiftl d 32 = d * 2 ^ 32) as Hs by (apply Z.shiftl_mul_pow2; lia).
  rewrite (wrap_small 64) by (unfold in_u; lia).
  change 0xffffffff with (Z.ones 32). rewrite !Z.land_ones by lia. fold (wrap 32 t).
  pose proof (wrap_range 32 t ltac:(lia)) as Hw. unfold in_u in Hw.
  rewrite lor_shiftl_add, Hs by lia. split_and!.
  - rewrite Z.shiftr_div_pow2 by lia. rewrite Z.div_add_l by lia.
    rewrite (Z.div_small (u32 t)) by lia. lia.
  - rewrite Z.add_comm, Z_mod_plus_full. by rewrite Z.mod_small.
  - unfold in_u. lia.
Qed.

Section activity.
Context {KR : Kernel} {KRok : KernelOk} (cfg : Rodata) (cur : Task).
Abbreviation mntns := (mntns_inum cur).
Abbreviation key := (get_key cfg cur (mntns_inum cur)).

(** The common start of the programs that run for an included process. *)
Lemma exec_included (p : Z → bpf Z) w :
  is_recording_cached w = true → included cfg cur w = true →
  run (recording ← get is_recording_cached;
       if negb recording then mret 0
       else mntns ← get_mntns cfg cur; if mntns =? 0 then mret 0 else p mntns) w =
  run (p mntns) w.
Proof.
  intros Hr Hi. rewrite run_bind. unfold result, exec. cbn [get act run fst snd].
  rewrite Hr. cbn [negb]. rewrite run_bind. unfold result, exec.
  rewrite run_get_mntns, Hi. cbn [fst snd].
  pose proof (included_inum cfg cur w Hi). by destruct (Z.eqb_spec mntns 0).
Qed.

(** A capability check that is reported: audited, of the workload itself, and
    of a capability the mask covers. *)
Record reported_cap (cap opt : Z) (w : World) : Prop := {
  rc_recording : is_recording_cached w = true;
  rc_included : included cfg cur w = true;
  rc_audited : Z.land opt CAP_OPT_NOAUDIT = 0;
  rc_workload : is_container_init cfg cur = false;
  rc_cap : 0 <= cap < 64
}.

Lemma exec_cap_capable cap opt w :
  reported_cap cap opt w →
  exec (cap_capable cfg cur cap opt) w =
  exec (report_once cur recorded_caps_L EVENT_TYPE_APPARMOR_CAP mntns key cap (2 ^ cap)) w.
Proof.
  intros [Hr Hi Ha Hc Hcap]. unfold exec, cap_capable. rewrite exec_included by done.
  rewrite Ha, Hc. change (z2b 0) with false. cbv iota.
  destruct (Z.leb_spec 64 cap); [lia|]. cbv zeta.
  by rewrite Z.shiftl_mul_pow2, Z.mul_1_l by lia.
Qed.

(** A capability is reported once per key: nothing is sent if its bit is
    set; otherwise exactly one event with the capability is sent and the bit
    stays set while the key is tracked.  Only if the ring buffer is full
    nothing is sent, and then the bit is not set, so that the next check
    reports the capability. *)
Theorem cap_capable_once cap opt w :
  reported_cap cap opt w →
  let w' := exec (cap_capable cfg cur cap opt) w in
  let ev := HeaderRecord (EventHeader (cur_pid cur) mntns key EVENT_TYPE_APPARMOR_CAP cap) in
  if Z.testbit (mask_of recorded_caps_L w key) cap then events w' = events w
  else
    (events w' = events w ++ [Some ev] ∧
     (∀ m, recorded_caps w' !! key = Some m → Z.testbit m cap = true)) ∨
    ((∃ t, (tick w <= t < tick w')%nat ∧ rb_room t sizeof_event_header = false) ∧
     events w' = events w ∧
     (∀ m, recorded_caps w' !! key = Some m → Z.testbit m cap = false)).
Proof.
  intros Hc. cbv zeta. rewrite exec_cap_capable by done.
  pose proof (rc_cap _ _ _ Hc) as Hcap.
  destruct (report_once_spec cur recorded_caps_L EVENT_TYPE_APPARMOR_CAP mntns key cap
    cap w ltac:(lia)) as [_ Hs].
  destruct (Z.testbit (mask_of recorded_caps_L w key) cap); [by destruct Hs|].
  destruct Hs as [[He Hm]|(Hroom & He & Hm)]; [left|right].
  - split; [done|]. intros m Hk. rewrite (Hm m Hk), lor_pow2_testbit by lia.
    by rewrite Z.eqb_refl, orb_true_r.
  - split_and!; [done|done|]. intros m Hk. apply not_true_is_false. intros Hb.
    by destruct (Hm m cap Hk ltac:(lia) Hb).
Qed.

(** The checks that are no use of a capability by the workload are not
    reported: the ones that are not audited, those of the container runtime
    before and after it starts the container, and capability numbers the
    kernel does not have. *)
Theorem cap_capable_ignored cap opt w :
  is_recording_cached w = false ∨ included cfg cur w = false ∨
    Z.land opt CAP_OPT_NOAUDIT ≠ 0 ∨ is_container_init cfg cur = true ∨ 64 <= cap →
  run (cap_capable cfg cur cap opt) w = (0, w).
Proof.
  intros Hc. unfold cap_capable.
  rewrite run_bind. unfold result, exec. cbn [get act run fst snd].
  destruct (is_recording_cached w); cbn [negb]; [|done].
  rewrite run_bind. unfold result, exec. rewrite run_get_mntns. cbn [fst snd].
  destruct (included cfg cur w); [|done].
  destruct (mntns =? 0); [done|].
  destruct (z2b (Z.land opt CAP_OPT_NOAUDIT)) eqn:Ha; [done|].
  apply z2b_false in Ha. destruct (is_container_init cfg cur); [done|].
  destruct (Z.leb_spec 64 cap); [done|]. exfalso. naive_solver lia.
Qed.

(** A kind of socket is reported once per key, with its domain and type:
    as for capabilities, with the bit of the group the socket belongs to. *)
Theorem socket_once domain type rest w :
  is_recording_cached w = true → included cfg cur w = true →
  let w' := exec (sys_enter_socket cfg cur (Some domain :: Some type :: rest)) w in
  let ev := HeaderRecord (EventHeader (cur_pid cur) mntns key
    EVENT_TYPE_APPARMOR_SOCKET (socket_flags domain type)) in
  let i := socket_index domain type in
  if Z.testbit (mask_of recorded_sockets_L w key) i then events w' = events w
  else
    (events w' = events w ++ [Some ev] ∧
     (∀ m, recorded_sockets w' !! key = Some m → Z.testbit m i = true)) ∨
    ((∃ t, (tick w <= t < tick w')%nat ∧ rb_room t sizeof_event_header = false) ∧
     events w' = events w ∧
     (∀ m, recorded_sockets w' !! key = Some m → Z.testbit m i = false)).
Proof.
  intros Hr Hi. cbv zeta. unfold exec, sys_enter_socket. rewrite exec_included by done.
  change (tp_arg (Some domain :: Some type :: rest) 0) with (Some domain).
  change (tp_arg (Some domain :: Some type :: rest) 1) with (Some type).
  cbv iota zeta. rewrite socket_bit_pow.
  pose proof (socket_index_range domain type) as Hx.
  destruct (report_once_spec cur recorded_sockets_L EVENT_TYPE_APPARMOR_SOCKET mntns key
    (socket_flags domain type) (socket_index domain type) w ltac:(lia)) as [_ Hs].
  unfold exec in Hs.
  destruct (Z.testbit (mask_of recorded_sockets_L w key) _); [by destruct Hs|].
  destruct Hs as [[He Hm]|(Hroom & He & Hm)]; [left|right].
  - split; [done|]. intros m Hk. rewrite (Hm m Hk), lor_pow2_testbit by lia.
    by rewrite Z.eqb_refl, orb_true_r.
  - split_and!; [done|done|]. intros m Hk. apply not_true_is_false. intros Hb.
    by destruct (Hm m (socket_index domain type) Hk ltac:(lia) Hb).
Qed.

(** ** The arguments of an exec *)

(** A slot that holds a string: a buffer of [len] bytes with a NUL in it. *)
Definition slot_ok (len : nat) (s : list Z) : Prop := length s = len ∧ 0 ∈ s.

Lemma str_result_slot len ptr :
  (0 < len)%nat → 0 <= (probe_read_user_str ptr len).1 →
  slot_ok len (probe_read_user_str ptr len).2.
Proof.
  intros Hlen Hr. destruct (probe_read_user_str_ok ptr len Hlen) as [Hl H].
  destruct (H Hr) as (H1 & H2 & _). split; [done|].
  set (s := (probe_read_user_str ptr len).2) in *.
  set (r := (probe_read_user_str ptr len).1) in *.
  destruct (s !! Z.to_nat (r - 1)) as [c|] eqn:E.
  - apply list_elem_of_lookup. exists (Z.to_nat (r - 1)). rewrite E. f_equal.
    apply lookup_nthb in E. rewrite Z2Nat.id in E by lia. congruence.
  - apply lookup_ge_None in E. lia.
Qed.

(** The string the pointer with an index leads to, in a buffer of [len] bytes:
    none if the pointer is null, or it or the string cannot be read. *)
Definition string_at (len : nat) (base j : Z) : option (list Z) :=
  match probe_read_user_ptr (u64 (base + 8 * j)) with
  | None => None
  | Some ptr =>
      if (ptr =? 0) || ((probe_read_user_str ptr len).1 <? 0) then None
      else Some (probe_read_user_str ptr len).2
  end.

Lemma string_at_slot len base j s : (0 < len)%nat → string_at len base j = Some s → slot_ok len s.
Proof.
  intros Hlen. unfold string_at. destruct (probe_read_user_ptr _) as [ptr|]; [|done].
  destruct (ptr =? 0); [done|]. cbn. destruct (Z.ltb_spec (probe_read_user_str ptr len).1 0); [done|].
  intros [= <-]. by apply str_result_slot.
Qed.

(** The loop copies the strings of the pointers up to the first one without a
    string, and counts them. *)
Lemma read_strings_spec n i len base slots count slots' count' :
  0 <= i → count = i → i + Z.of_nat n < 2 ^ 32 →
  i + Z.of_nat n = Z.of_nat (length slots) →
  read_strings n i len base slots count = (slots', count') →
  i <= count' <= i + Z.of_nat n ∧ length slots' = length slots ∧
  (∀ j, (j < Z.to_nat i)%nat → slots' !! j = slots !! j) ∧
  (∀ j, i <= j < count' → ∃ s, string_at len base j = Some s ∧ slots' !! Z.to_nat j = Some s) ∧
  (count' = i + Z.of_nat n ∨ string_at len base count' = None).
Proof.
  revert i slots count.
  induction n as [|n IH]; intros i slots count Hi Hc Hb Hl; cbn [read_strings].
  { intros [= <- <-]. subst. split_and!; try done; try lia; left; lia. }
  assert (∀ slots1, length slots1 = length slots → string_at len base i = None →
    (∀ j, (j < Z.to_nat i)%nat → slots1 !! j = slots !! j) →
    (slots1, count) = (slots', count') →
    i <= count' <= i + Z.of_nat (S n) ∧ length slots' = length slots ∧
    (∀ j, (j < Z.to_nat i)%nat → slots' !! j = slots !! j) ∧
    (∀ j, i <= j < count' → ∃ s, string_at len base j = Some s ∧ slots' !! Z.to_nat j = Some s) ∧
    (count' = i + Z.of_nat (S n) ∨ string_at len base count' = None)) as Hstop.
  { intros slots1 Hl1 Hnone Hsame [= <- <-]. subst. split_and!; try done; try lia. by right. }
  unfold string_at at 1 in Hstop.
  destruct (probe_read_user_ptr _) as [ptr|] eqn:Ep; [|by apply Hstop].
  destruct (Z.eqb_spec ptr 0) as [|Hptr]; [by apply Hstop|].
  destruct (probe_read_user_str ptr len) as [ret str] eqn:Es. cbn in Hstop.
  destruct (Z.ltb_spec ret 0).
  { apply Hstop; [by rewrite length_insert|done|].
    intros j Hj. apply list_lookup_insert_ne. lia. }
  rewrite wrap_small by (unfold in_u; lia). intros Hr.
  apply IH in Hr as (Hr1 & Hr2 & Hr3 & Hr4 & Hr5); [|rewrite ?length_insert; lia..].
  rewrite length_insert in Hr2. split_and!; [lia|lia|done| | |].
  - intros j Hj. rewrite Hr3 by lia. apply list_lookup_insert_ne. lia.
  - intros j Hj. destruct (decide (j = i)) as [->|Hji]; [|apply Hr4; lia].
    exists str. rewrite Hr3 by lia. split; [|apply list_lookup_insert_eq; lia].
    unfold string_at. rewrite Ep, Es. cbn. destruct (Z.eqb_spec ptr 0), (Z.ltb_spec ret 0); done || lia.
  - destruct Hr5; [left; lia|by right].
Qed.

(** The strings the pointers at [base] lead to are what an event holds of them,
    in its first [count] slots: all of them up to the first pointer without one,
    and at most [n]. *)
Definition holds_strings (n : Z) (len : nat) (base : Z) (slots : list (list Z)) (count : Z) : Prop :=
  0 <= count <= n ∧
  (∀ j, 0 <= j < count → ∃ s, string_at len base j = Some s ∧ slots !! Z.to_nat j = Some s) ∧
  (count = n ∨ string_at len base count = None).

Lemma read_strings_all n len base mem slots' count' :
  Z.of_nat n < 2 ^ 32 →
  read_strings n 0 len base (slots_of n len mem) 0 = (slots', count') →
  length slots' = n ∧ holds_strings (Z.of_nat n) len base slots' count'.
Proof.
  intros Hn Hr.
  assert (length (slots_of n len mem) = n) as Hl
    by (unfold slots_of; by rewrite length_fmap, length_seq).
  apply read_strings_spec in Hr as (H1 & H2 & _ & H4 & H5); try lia; try done.
  unfold holds_strings. split_and!; try done; try lia.
Qed.

(** The slots keep their size. *)
Lemma read_strings_sizes n i len base slots count :
  (0 < len)%nat → Forall (λ s, length s = len) slots →
  Forall (λ s, length s = len) (read_strings n i len base slots count).1.
Proof.
  intros Hlen. revert i slots count. induction n as [|n IH]; intros i slots count Hs; [done|].
  cbn [read_strings]. destruct (probe_read_user_ptr _) as [ptr|]; [|done].
  destruct (ptr =? 0); [done|]. destruct (probe_read_user_str_ok ptr len Hlen) as [Hl _].
  destruct (probe_read_user_str ptr len) as [ret str]. cbn in Hl.
  assert (Forall (λ s, length s = len) (<[Z.to_nat i := str]> slots)) by (by apply Forall_insert).
  destruct (ret <? 0); [done|]. by apply IH.
Qed.

Lemma slots_of_sizes n len mem :
  (n * len <= length mem)%nat →
  length (slots_of n len mem) = n ∧ Forall (λ s, length s = len) (slots_of n len mem).
Proof.
  intros Hm. unfold slots_of. rewrite length_fmap, length_seq. split; [done|].
  apply Forall_fmap, Forall_forall. intros i [_ Hi]%elem_of_seq. cbn.
  rewrite length_take, length_drop. nia.
Qed.

(** An exec that is captured sends one event: its process and key, and the
    strings its arguments and environment variables lead to, all of them up to
    the first pointer without one, and at most [MAX_ARGS] and [MAX_ENV].  If the
    event does not fit, the loss is counted instead. *)
Theorem execve_event filename argv envp w :
  is_recording_cached w = true → included cfg cur w = true →
  capture_exec_args cfg = true →
  let w' := exec (sys_enter_execve cfg cur filename argv envp) w in
  if rb_room (tick w) sizeof_exec_event_data then
    ∃ e, events w' = events w ++ [Some (ExecRecord e)] ∧
      ex_hdr e = EventHeader (cur_pid cur) mntns key EVENT_TYPE_EXECVE_ENTER 0 ∧
      holds_strings MAX_ARGS (Z.to_nat MAX_ARG_LEN) argv (ex_args e) (ex_args_len e) ∧
      holds_strings MAX_ENV (Z.to_nat MAX_ENV_LEN) envp (ex_env e) (ex_env_len e) ∧
      length (ex_filename e) = Z.to_nat MAX_FILENAME_LEN ∧
      (length (ex_args e) = Z.to_nat MAX_ARGS ∧
       Forall (λ s, length s = Z.to_nat MAX_ARG_LEN) (ex_args e)) ∧
      length (ex_env e) = Z.to_nat MAX_ENV ∧
      Forall (λ s, length s = Z.to_nat MAX_ENV_LEN) (ex_env e)
  else
    events w' = events w ∧
    lost_events w' = lost_events (lost_world cur LOST_RINGBUF w).
Proof.
  intros Hr Hi Hcap. cbv zeta. unfold exec, sys_enter_execve. rewrite Hcap. cbn [negb].
  rewrite exec_included by done. rewrite run_bind. brun. unfold submit_exec_event.
  unfold exec. brun. destruct (rb_room (tick w) sizeof_exec_event_data); brun.
  - destruct (read_strings (Z.to_nat MAX_ARGS) _ _ _ _ _) as [args args_len] eqn:Ea.
    destruct (read_strings (Z.to_nat MAX_ENV) _ _ _ _ _) as [env env_len] eqn:Ee.
    assert (Forall (λ s, length s = Z.to_nat MAX_ARG_LEN) args) as Sa.
    { change args with (args, args_len).1. rewrite <- Ea. apply read_strings_sizes; [unfold MAX_ARG_LEN; lia|].
      apply slots_of_sizes. rewrite length_drop, rb_stale_length. by apply Nat.leb_le. }
    assert (Forall (λ s, length s = Z.to_nat MAX_ENV_LEN) env) as Se.
    { change env with (env, env_len).1. rewrite <- Ee. apply read_strings_sizes; [unfold MAX_ENV_LEN; lia|].
      apply slots_of_sizes. rewrite !length_drop, rb_stale_length. by apply Nat.leb_le. }
    assert (length (probe_read_user_str filename (Z.to_nat MAX_FILENAME_LEN)).2 =
      Z.to_nat MAX_FILENAME_LEN) as Lf by (apply probe_read_user_str_ok; unfold MAX_FILENAME_LEN; lia).
    apply read_strings_all in Ea as (La' & Ha'); [|unfold MAX_ARGS; lia].
    apply read_strings_all in Ee as (Le' & He'); [|unfold MAX_ENV; lia].
    rewrite Z2Nat.id in Ha', He' by done.
    brun. rewrite insert_reserved. eexists; split; [done|]. cbn [ex_hdr ex_args ex_env
      ex_args_len ex_env_len ex_filename]. split_and!; try done; lia.
  - rewrite run_count_lost by done. done.
Qed.
End activity.

(** ** The processes of a filtered program

    The contract of the three scheduler programs: the set of the processes that
    are followed. *)
Module Tracking.
Definition fork (S : gset Z) (parent child child_tgid : Z) : gset Z :=
  if decide (child = child_tgid ∧ parent ∈ S) then {[child]} ∪ S else S.

Definition exec (S : gset Z) (parent pid : Z) (matches : bool) : gset Z :=
  if decide (parent ∈ S ∨ matches = true) then {[pid]} ∪ S else S.

Definition exit (S : gset Z) (pid : Z) (last known : bool) : gset Z :=
  if last && known then S ∖ {[pid]} else S.
End Tracking.

Section tracking.
Context {KR : Kernel} {KRok : KernelOk} (cfg : Rodata).

(** An LRU map below its size does not evict. *)
Definition lru_keeps : Prop :=
  ∀ t (m : gmap Z bool) p, Z.of_nat (size m) < MAX_CHILD_PIDS →
    lru_update t MAX_CHILD_PIDS m p true BPF_ANY = (0, <[p := true]> m).

(** The followed processes of a state. *)
Definition followed (w : World) : gset Z := dom (child_pids w).

Context (Hlru : lru_keeps).

(** While recording with a filter, and with room in the map. *)
Record following (w : World) : Prop := {
  fo_recording : is_recording_cached w = true;
  fo_filter : has_filter cfg = true;
  fo_room : Z.of_nat (size (child_pids w)) < MAX_CHILD_PIDS
}.

Lemma fork_follows parent child child_tgid w :
  following w →
  followed (exec (sched_process_fork cfg parent child child_tgid) w) =
  Tracking.fork (followed w) parent child child_tgid.
Proof.
  intros [Hr Hf Hroom]. unfold Tracking.fork, followed, exec, sched_process_fork.
  brun. rewrite Hr, Hf. brun.
  destruct (Z.eqb_spec child child_tgid) as [<-|Hne]; brun.
  2: { by rewrite decide_False by naive_solver. }
  case_bool_decide as Hp; brun.
  - rewrite Hlru by done. brun. rewrite dom_insert_L.
    by rewrite decide_True by (by rewrite elem_of_dom).
  - rewrite decide_False; [done|]. intros [_ Hd]. by rewrite elem_of_dom in Hd.
Qed.

Lemma exec_follows cur w :
  following w →
  followed (exec (sched_process_exec cfg cur) w) =
  Tracking.exec (followed w) (parent_tgid cur) (cur_pid cur)
    (matches_filter cfg (comm cur)).
Proof.
  intros [Hr Hf Hroom]. unfold Tracking.exec, followed, exec, sched_process_exec.
  brun. rewrite Hr, Hf. brun.
  case_bool_decide as Hp; brun; rewrite <- elem_of_dom in Hp.
  - rewrite Hlru by done. brun. rewrite dom_insert_L. by rewrite decide_True by auto.
  - destruct (matches_filter cfg (comm cur)); brun.
    + rewrite Hlru by done. brun. rewrite dom_insert_L. by rewrite decide_True by auto.
    + by rewrite decide_False by naive_solver.
Qed.

(** The process is known to the recorder under its key. *)
Definition known (cur : Task) (w : World) : bool :=
  included cfg cur w && bool_decide (is_Some (active_pids w !!
    PidKey (cur_pid cur) 0 (get_key cfg cur (mntns_inum cur)))).

Lemma exit_follows cur w :
  is_recording_cached w = true →
  followed (exec (sched_process_exit cfg cur) w) =
  Tracking.exit (followed w) (cur_pid cur) (live_counter cur =? 0) (known cur w).
Proof.
  intros Hr. unfold Tracking.exit, known, exec, sched_process_exit.
  brun. rewrite Hr. brun. destruct (live_counter cur =? 0); brun; [|done].
  rstep with (run_get_mntns _ _ _). destruct (included cfg cur w) eqn:Hi; brun; [|done].
  pose proof (included_inum cfg cur w Hi).
  destruct (Z.eqb_spec (mntns_inum cur) 0); [done|]. brun.
  destruct (active_pids w !! _) as [v|]; brun.
  - rewrite bool_decide_eq_true_2 by eauto. brun. unfold followed.
    destruct (child_pids w !! cur_pid cur) eqn:Ec; brun;
      rstep with (run_submit_event _ _ _ _ _ _); unfold event_world, lost_world;
      destruct (rb_room _ _); brun; rewrite ?dom_delete_L; try done.
    all: apply not_elem_of_dom in Ec; set_solver.
  - change (- ENOENT =? 0) with false. brun.
    by rewrite bool_decide_eq_false_2 by (intros [? ?]; done).
Qed.

(** C35 The scheduler programs implement the contract, while recording with a
    filter and with room in the map of followed processes: a process is followed
    from the exec of the filtered program or the fork by a followed process
    on, threads and the exit of a thread make no difference, and the last
    thread of a known process ends it. *)
Theorem tracking_refines w :
  following w →
  (∀ parent child child_tgid,
    followed (exec (sched_process_fork cfg parent child child_tgid) w) =
    Tracking.fork (followed w) parent child child_tgid) ∧
  (∀ cur, followed (exec (sched_process_exec cfg cur) w) =
    Tracking.exec (followed w) (parent_tgid cur) (cur_pid cur)
      (matches_filter cfg (comm cur))) ∧
  (∀ cur, followed (exec (sched_process_exit cfg cur) w) =
    Tracking.exit (followed w) (cur_pid cur) (live_counter cur =? 0) (known cur w)).
Proof.
  intros Hf. split_and!; intros.
  - by apply fork_follows.
  - by apply exec_follows.
  - by apply exit_follows, Hf.
Qed.

(** The descendants of [root] after the forks [l] of processes, in order. *)
Inductive descends : list (Z * Z) → Z → Z → Prop :=
| descends_root l root : descends l root root
| descends_later l f root p : descends l root p → descends (l ++ [f]) root p
| descends_fork l root p c : descends l root p → descends (l ++ [(p, c)]) root c.

Definition run_forks (l : list (Z * Z)) (w : World) : World :=
  foldl (λ w '(p, c), exec (sched_process_fork cfg p c c) w) w l.

Lemma fork_following parent child w :
  following w →
  let w' := exec (sched_process_fork cfg parent child child) w in
  is_recording_cached w' = true ∧ (size (child_pids w') <= S (size (child_pids w)))%nat.
Proof.
  intros [Hr Hf Hroom]. cbv zeta. unfold exec, sched_process_fork.
  brun. rewrite Hr, Hf, Z.eqb_refl. brun. case_bool_decide; brun; [|by auto].
  rewrite Hlru by done. brun. split; [done|]. rewrite map_size_insert.
  case_match; simpl; lia.
Qed.

Lemma run_forks_following l w :
  following w → Z.of_nat (size (child_pids w) + length l) < MAX_CHILD_PIDS →
  following (run_forks l w).
Proof.
  revert w. induction l as [|[p c] l IH]; intros w Hw Hs; [done|].
  simpl. pose proof (fork_following p c w Hw) as [Hr Hsz]. destruct Hw as [_ Hf _].
  simpl in Hs. apply IH; [split; [done|done|lia]|lia].
Qed.

(** All descendants of a followed process are followed: processes forked
    by it, or by one of them, in any order of forks. *)
Theorem descendants_followed l root w p :
  following w → Z.of_nat (size (child_pids w) + length l) < MAX_CHILD_PIDS →
  root ∈ followed w → descends l root p → p ∈ followed (run_forks l w).
Proof.
  intros Hw Hs Hroot Hd. revert Hs.
  assert (∀ (l : list (Z * Z)) f, (size (child_pids w) + length l <=
    size (child_pids w) + length (l ++ [f]))%nat) as Hlen
    by (intros; rewrite length_app; lia).
  assert (∀ (l : list (Z * Z)) p, p ∈ followed w → Z.of_nat (size (child_pids w) + length l) < MAX_CHILD_PIDS →
    p ∈ followed (run_forks l w)) as Hmono.
  { intros l' q Hq. induction l' as [|[x c] l' IH] using rev_ind; intros Hs; [done|].
    unfold run_forks. rewrite foldl_app. simpl.
    rewrite fork_follows by (apply run_forks_following; [done|];
      specialize (Hlen l' (x, c)); lia).
    specialize (IH ltac:(specialize (Hlen l' (x, c)); lia)).
    unfold Tracking.fork. case_decide; set_solver. }
  induction Hd as [l root|l [x c] root p Hd IH|l root p c Hd IH]; intros Hs.
  - by apply Hmono.
  - specialize (Hlen l (x, c)). unfold run_forks. rewrite foldl_app. simpl.
    rewrite fork_follows by (apply run_forks_following; [done|lia]).
    specialize (IH Hroot ltac:(lia)). unfold Tracking.fork, run_forks in *.
    case_decide; set_solver.
  - specialize (Hlen l (p, c)). unfold run_forks. rewrite foldl_app. simpl.
    rewrite fork_follows by (apply run_forks_following; [done|lia]).
    specialize (IH Hroot ltac:(lia)). unfold Tracking.fork, run_forks in *.
    rewrite decide_True by done. set_solver.
Qed.
End tracking.

(** ** Witnesses *)

Section witnesses.
#[local] Existing Instance demo_kernel.
#[local] Existing Instance demo_kernel_ok.

Abbreviation demo_key := (get_key demo_cfg demo_task (mntns_inum demo_task)).

Lemma demo_reported_cap : reported_cap demo_cfg demo_task 12 0 demo_world.
Proof. split; [reflexivity|reflexivity|reflexivity|reflexivity|lia]. Defined.

(** CAP_NET_ADMIN, and the check of a capability that is not audited. *)
Lemma cap_capable_once_witness :
  let w' := exec (cap_capable demo_cfg demo_task 12 0) demo_world in
  (events w' = [Some (HeaderRecord (EventHeader (cur_pid demo_task) (mntns_inum demo_task)
      demo_key EVENT_TYPE_APPARMOR_CAP 12))] ∧
    (∀ m, recorded_caps w' !! demo_key = Some m → Z.testbit m 12 = true)) ∨
  ((∃ t, (0 <= t < tick w')%nat ∧ rb_room t sizeof_event_header = false) ∧ events w' = [] ∧
    (∀ m, recorded_caps w' !! demo_key = Some m → Z.testbit m 12 = false)).
Proof. exact (cap_capable_once demo_cfg demo_task 12 0 demo_world demo_reported_cap). Defined.

Lemma cap_capable_ignored_witness :
  run (cap_capable demo_cfg demo_task 12 2) demo_world = (0, demo_world).
Proof. apply cap_capable_ignored. right; right; left. discriminate. Defined.

Lemma socket_once_witness :
  let w' := exec (sys_enter_socket demo_cfg demo_task [Some 2; Some 1]) demo_world in
  (events w' = [Some (HeaderRecord (EventHeader (cur_pid demo_task) (mntns_inum demo_task)
      demo_key EVENT_TYPE_APPARMOR_SOCKET (socket_flags 2 1)))] ∧
    (∀ m, recorded_sockets w' !! demo_key = Some m → Z.testbit m (socket_index 2 1) = true)) ∨
  ((∃ t, (0 <= t < tick w')%nat ∧ rb_room t sizeof_event_header = false) ∧ events w' = [] ∧
    (∀ m, recorded_sockets w' !! demo_key = Some m → Z.testbit m (socket_index 2 1) = false)).
Proof. exact (socket_once demo_cfg demo_task 2 1 [] demo_world eq_refl eq_refl). Defined.

Lemma execve_event_witness :
  ∃ e, events (exec (sys_enter_execve demo_cfg demo_task 4096 8192 9216) demo_world) =
    [Some (ExecRecord e)] ∧ 0 <= ex_args_len e <= MAX_ARGS.
Proof.
  destruct (execve_event demo_cfg demo_task 4096 8192 9216 demo_world) as (e & H1 & _ & [H2 _] & _).
  - reflexivity.
  - reflexivity.
  - reflexivity.
  - exists e. split; [exact H1|exact H2].
Defined.

(** A recording of a program by its name. *)
Definition filter_cfg : Rodata := {| demo_cfg with filter_name := comm demo_task |}.
Definition filter_world : World := {| demo_world with child_pids := {[ 42 := true ]} |}.

Lemma demo_lru_keeps : lru_keeps.
Proof.
  intros t m p Hm. cbn. unfold ref_lru_update.
  destruct (m !! p); cbn; [done|]. apply Z.ltb_lt in Hm. by rewrite Hm.
Qed.

Lemma demo_following : following filter_cfg filter_world.
Proof. split; reflexivity. Qed.

Lemma tracking_refines_witness :
  followed (exec (sched_process_fork filter_cfg 42 50 50) filter_world) =
  Tracking.fork {[ 42 ]} 42 50 50.
Proof.
  destruct (tracking_refines filter_cfg demo_lru_keeps filter_world demo_following) as [H _].
  exact (H 42 50 50).
Defined.

Lemma descendants_followed_witness :
  60 ∈ followed (run_forks filter_cfg [(42, 50); (7, 8); (50, 60)] filter_world).
Proof.
  apply (descendants_followed filter_cfg demo_lru_keeps _ 42).
  - exact demo_following.
  - reflexivity.
  - apply elem_of_dom. by exists true.
  - apply (descends_fork [(42, 50); (7, 8)] 42 50 60).
    apply (descends_later [(42, 50)] (7, 8)). apply (descends_fork [] 42 42 50).
    constructor.
Defined.
End witnesses.
