(* ===== verification/InitConfig.v ===== *)
(** * The configuration of the programs ([bpfrecorder.go])

    [Load] and [initGlobals] fill the read-only variables of [recorder.bpf.c]
    before the programs are loaded: the filter on a program name, which identifier
    of a workload is the key, and the names of the init processes of the
    container runtimes.  The composition with the kernel side: the init processes
    that are recognized are those of the configured runtimes
    ([container_init_recognized]), and the filter takes the processes of the
    program ([program_filtered]). *)
From S2P Require Import Prelude Bpf State Names Keys Activity.
Import String.StringSyntax.
#[local] Open Scope string_scope.
#[local] Open Scope list_scope.
#[local] Open Scope Z_scope.

Definition maxInitComms : nat := 4.
Definition taskCommLen : nat := 16.
Definition initExePrefixLen : nat := 32.
Definition maxCommLen : nat := 64.

Definition containerInitComms : list (list Z) :=
  [bytes "runc:[2:INIT]"; bytes "youki:[2:INIT]"; bytes "crun"; bytes "memfd:crun_clon"].

Definition containerInitExePrefix : list Z := bytes "memfd:crun_cloned".

(** [copy(value[off:], s)]: no more bytes are copied than there is room for. *)
Definition copy_at (off : nat) (s value : list Z) : list Z :=
  take off value ++ take (length value - off) s ++ drop (off + length s) value.

(** The loop over the names, from the name [i] on. *)
Fixpoint lay_out (i : nat) (comms : list (list Z)) (value : list Z) : option (list Z) :=
  match comms with
  | [] => Some value
  | comm :: comms =>
      if bool_decide (comm = []) || (taskCommLen <=? length comm)%nat then None
      else lay_out (S i) comms (copy_at (i * taskCommLen) comm value)
  end.

Definition initCommsValue (comms : list (list Z)) : option (list Z) :=
  if (maxInitComms <? length comms)%nat then None
  else lay_out 0 comms (replicate (maxInitComms * taskCommLen) 0).

Definition initExePrefixValue (prefix : list Z) : option (list Z) :=
  if (initExePrefixLen <=? length prefix)%nat then None
  else Some (copy_at 0 prefix (replicate initExePrefixLen 0)).

(** [filepath.Base]. *)
Definition SLASH : Z := 47.

Fixpoint strip_slashes (s : list Z) : list Z :=
  match s with
  | c :: s' => if c =? SLASH then strip_slashes s' else s
  | [] => []
  end.

Fixpoint until_slash (s : list Z) : list Z :=
  match s with
  | c :: s' => if c =? SLASH then [] else c :: until_slash s'
  | [] => []
  end.

Definition Base (path : list Z) : list Z :=
  if bool_decide (path = []) then bytes "."
  else
    let name := reverse (until_slash (strip_slashes (reverse path))) in
    if bool_decide (name = []) then bytes "/" else name.

(** The part of [Load] that sets the filter: what is written over the start of the
    variable. *)
Definition filter_value (programName : list Z) : list Z :=
  let name := Base programName in
  (if (maxCommLen <=? length name)%nat then take (maxCommLen - 1) name else name) ++ [0].

Definition set_filter (programName : list Z) (cfg : Rodata) : Rodata :=
  if bool_decide (programName = []) then cfg
  else {| cfg with filter_name := copy_at 0 (filter_value programName) (filter_name cfg) |}.

(** [initGlobals]: the variables, and [uniqueKeys] and [cgroupKeys] of the recorder.
    A variable may fail to be set, which ends it. *)
Definition initGlobals (clientset cgroupV2 set_ok : bool) (cfg : Rodata) : option (Rodata * bool * bool) :=
  if negb set_ok then None
  else
    let '(cfg, uniqueKeys, cgroupKeys) :=
      if negb clientset then (cfg, false, false)
      else if cgroupV2 then ({| cfg with use_cgroup_id := true |}, true, true)
      else ({| cfg with use_mntns_seq := true |}, true, false) in
    match initCommsValue containerInitComms with
    | None => None
    | Some comms =>
        match initExePrefixValue containerInitExePrefix with
        | None => None
        | Some prefix =>
            Some ({| cfg with init_comms := slots_of maxInitComms taskCommLen comms;
                              init_exe_prefix := prefix |}, uniqueKeys, cgroupKeys)
        end
    end.

(** ** The layout of the names *)

(** A name in a row of the array. *)
Definition row (s : list Z) : list Z := s ++ replicate (taskCommLen - length s) 0.

Lemma copy_at_zeros p s n :
  (length s <= n)%nat →
  copy_at (length p) s (p ++ replicate n 0) = p ++ s ++ replicate (n - length s) 0.
Proof.
  intros Hs. unfold copy_at. rewrite take_app_length, length_app, length_replicate.
  rewrite take_ge by lia. f_equal. f_equal. rewrite drop_app, drop_ge by lia. cbn.
  rewrite drop_replicate. f_equal. lia.
Qed.

Lemma copy_at_start s n :
  (length s <= n)%nat → copy_at 0 s (replicate n 0) = s ++ replicate (n - length s) 0.
Proof. apply (copy_at_zeros []). Qed.

Definition name_ok (s : list Z) : Prop := s ≠ [] ∧ (length s < taskCommLen)%nat ∧ no_nul s.

Lemma length_row s : (length s < taskCommLen)%nat → length (row s) = taskCommLen.
Proof. intros Hs. unfold row. rewrite length_app, length_replicate. lia. Qed.

Lemma lay_out_rows comms p n v :
  Forall no_nul comms → (length comms <= n)%nat →
  lay_out (length p) comms (concat p ++ replicate (n * taskCommLen) 0) = Some v →
  Forall (λ s, length s = taskCommLen) p →
  Forall name_ok comms ∧ v = concat (p ++ map row comms) ++ replicate ((n - length comms) * taskCommLen) 0.
Proof.
  revert p n. induction comms as [|c comms IH]; intros p n Hnul Hn Hv Hp; cbn [lay_out map length] in *.
  { injection Hv as <-. by rewrite app_nil_r, Nat.sub_0_r. }
  apply Forall_cons in Hnul as [Hc Hnul]. case_bool_decide as Hne; [done|]. cbn [orb] in Hv.
  destruct (Nat.leb_spec taskCommLen (length c)) as [?|Hl]; [done|].
  assert (length (concat p) = (length p * taskCommLen)%nat) as Hlp.
  { clear -Hp. induction Hp as [|x l Hx Hl IH]; [done|]. cbn. rewrite length_app, Hx, IH. done. }
  destruct n as [|n]; [lia|]. rewrite <- Hlp, copy_at_zeros in Hv by (unfold taskCommLen in *; lia).
  specialize (IH (p ++ [row c]) n Hnul). rewrite length_app, Nat.add_comm in IH. cbn [length Nat.add] in IH.
  rewrite concat_app in IH. cbn [concat] in IH. rewrite app_nil_r in IH. destruct IH as [Hok ->].
  - lia.
  - rewrite <- Hv. f_equal. rewrite <- !app_assoc. f_equal. unfold row. rewrite <- app_assoc. f_equal.
    rewrite <- replicate_add. f_equal. unfold taskCommLen in *. lia.
  - apply Forall_app. split; [done|]. constructor; [by apply length_row|constructor].
  - split; [by constructor|]. by rewrite <- app_assoc.
Qed.

Lemma slots_of_concat l n len :
  Forall (λ s, length s = len) l → length l = n → slots_of n len (concat l) = l.
Proof.
  intros Hl <-. unfold slots_of. apply list_eq. intros i. rewrite list_lookup_fmap.
  destruct (decide (i < length l)%nat) as [Hi|Hi].
  - rewrite lookup_seq_lt by done. cbn. destruct (lookup_lt_is_Some_2 l i Hi) as [x Hx]. rewrite Hx. f_equal.
    rewrite <- (take_drop_middle l i x Hx), concat_app at 1.
    assert (length (concat (take i l)) = (i * len)%nat) as Hlen.
    { clear x Hx. assert (∀ k, Forall (λ s : list Z, length s = len) k → length (concat k) = (length k * len)%nat) as Hk.
      { induction 1 as [|y k Hy Hk IH]; [done|]. cbn. rewrite length_app, Hy, IH. done. }
      rewrite Hk by (by apply Forall_take). rewrite length_take. f_equal. lia. }
    rewrite drop_app_length' by done. cbn [concat]. rewrite take_app_length'; [done|].
    symmetry. by apply (Forall_lookup_1 _ _ _ _ Hl Hx).
  - rewrite (proj2 (lookup_ge_None l i)) by lia. rewrite (proj2 (lookup_ge_None (seq 0 (length l)) i)); [done|].
    rewrite length_seq. lia.
Qed.

Lemma init_names_rows comms m :
  Forall name_ok comms → init_names (map row comms ++ replicate m (replicate taskCommLen 0)) = comms.
Proof.
  induction 1 as [|c comms (Hne & Hl & Hc) Hok IH]; cbn [map app init_names].
  - by destruct m.
  - assert ((nthb (row c) 0 =? 0) = false) as ->.
    { destruct c as [|x c]; [done|]. apply Forall_cons in Hc as [Hx _]. by apply Z.eqb_neq. }
    rewrite IH. f_equal. unfold row.
    replace (taskCommLen - length c)%nat with (S (taskCommLen - length c - 1)) by lia. cbn [replicate].
    by apply cstr_app_nul.
Qed.

Lemma row_comm_ok c : (length c < taskCommLen)%nat → comm_ok (row c).
Proof.
  intros Hl. split; [by rewrite length_row|]. apply (lookup_nthb (row c) 15%nat 0).
  unfold row. rewrite lookup_app_r by (unfold taskCommLen in *; lia). apply lookup_replicate_2.
  unfold taskCommLen in *. lia.
Qed.

Lemma zero_rows m : concat (replicate m (replicate taskCommLen 0)) = replicate (m * taskCommLen) 0.
Proof. induction m as [|m IH]; [done|]. cbn [Nat.mul]. by rewrite replicate_add, <- IH. Qed.

(** What the kernel finds in the array is the list of the names. *)
Lemma init_comms_layout comms v :
  initCommsValue comms = Some v → Forall no_nul comms →
  length (slots_of maxInitComms taskCommLen v) = maxInitComms ∧
  Forall comm_ok (slots_of maxInitComms taskCommLen v) ∧
  init_names (slots_of maxInitComms taskCommLen v) = comms.
Proof.
  unfold initCommsValue. destruct (Nat.ltb_spec maxInitComms (length comms)) as [?|Hl]; [done|].
  intros Hv Hn. destruct (lay_out_rows comms [] maxInitComms v Hn Hl Hv (Forall_nil_2 _)) as [Hok ->].
  set (m := (maxInitComms - length comms)%nat).
  assert (concat ([] ++ map row comms) ++ replicate (m * taskCommLen) 0 =
    concat (map row comms ++ replicate m (replicate taskCommLen 0))) as ->.
  { cbn [app]. by rewrite concat_app, zero_rows. }
  assert (∀ c, name_ok c → length (row c) = taskCommLen) as Hrow by (intros c (_ & ? & _); by apply length_row).
  rewrite slots_of_concat.
  - split; [rewrite length_app, length_map, length_replicate; lia|]. split.
    + apply Forall_app. split; [|apply Forall_replicate; by vm_compute].
      apply Forall_fmap. eapply Forall_impl; [exact Hok|]. intros c (_ & ? & _). by apply row_comm_ok.
    + by apply init_names_rows.
  - apply Forall_app. split; [|apply Forall_replicate; by rewrite length_replicate].
    apply Forall_fmap. eapply Forall_impl; [exact Hok|]. exact Hrow.
  - rewrite length_app, length_map, length_replicate. lia.
Qed.

(** ** Container init processes *)

Section init.
Context {KR : Kernel} {KRok : KernelOk}.

(** C32 With the configuration the recorder sets, the kernel takes exactly the init
    processes of runc, youki and crun for the start of a container: those with
    one of the configured names, and those named after a number whose
    executable is the memfd of crun.  The recorder never fails to lay the
    configuration out. *)
Theorem container_init_recognized clientset cgroupV2 cfg :
  ∃ cfg' u c, initGlobals clientset cgroupV2 true cfg = Some (cfg', u, c) ∧
    unique_keys cfg' = (unique_keys cfg || clientset) ∧
    ∀ cur, comm_ok (comm cur) →
      is_container_init cfg' cur = true ↔
      cstr (comm cur) ∈ containerInitComms ∨
      (cstr (comm cur) ≠ [] ∧ Forall is_digit (cstr (comm cur)) ∧ exe_name cur ≠ 0 ∧
       0 <= (probe_read_kernel_str (exe_name cur) initExePrefixLen).1 ∧
       containerInitExePrefix `prefix_of` exe_string cur).
Proof.
  destruct (initCommsValue containerInitComms) as [v|] eqn:Hv; [|by vm_compute in Hv].
  destruct (init_comms_layout containerInitComms v Hv) as (H1 & H2 & H3); [by repeat constructor|].
  destruct (initExePrefixValue containerInitExePrefix) as [p|] eqn:Hp; [|by vm_compute in Hp].
  unfold initGlobals. rewrite Hv, Hp. cbn [negb].
  set (g := if negb clientset then _ else _). destruct g as [[cfg1 u] c] eqn:Hg.
  eexists _, u, c. split; [reflexivity|]. split.
  { unfold unique_keys. subst g. destruct clientset, cgroupV2; injection Hg as <- <- <-; cbn;
      by rewrite ?orb_true_r, ?orb_false_r. }
  intros cur Hcomm. assert (length p = 32%nat ∧ cstr p = containerInitExePrefix) as [Hlp Hcp].
  { vm_compute in Hp. injection Hp as <-. by vm_compute. }
  rewrite is_container_init_spec; [|split|done]; cbn [init_comms init_exe_prefix].
  - rewrite H3, Hcp. split; [naive_solver|]. intros [?|(? & ? & ? & ? & ?)]; [by left|right].
    by split_and!.
  - by rewrite H1.
  - done.
  - by rewrite Hlp.
Qed.

Lemma Base_no_nul path : no_nul path → no_nul (Base path).
Proof.
  intros Hn. unfold Base. repeat case_bool_decide; [by repeat constructor|by repeat constructor|].
  apply Forall_reverse.
  assert (∀ s, no_nul s → no_nul (strip_slashes s)) as H1.
  { induction 1 as [|x s Hx Hs IH]; [constructor|]. cbn. destruct (_ =? _); [done|by constructor]. }
  assert (∀ s, no_nul s → no_nul (until_slash s)) as H2.
  { induction 1 as [|x s Hx Hs IH]; [constructor|]. cbn. destruct (_ =? _); [constructor|by constructor]. }
  by apply H2, H1, Forall_reverse.
Qed.

Lemma filter_value_length name : (length (filter_value name) <= maxCommLen)%nat.
Proof.
  unfold filter_value. rewrite length_app. cbn [length].
  destruct (Nat.leb_spec maxCommLen (length (Base name))); [|lia].
  rewrite length_take. unfold maxCommLen in *. lia.
Qed.

(** A recording of a program takes the processes named like the file of the
    program, as far as the kernel keeps the name of a process: at most 15
    bytes. *)
Theorem program_filtered programName cfg c :
  filter_name cfg = replicate (Z.to_nat MAX_COMM_LEN) 0 → programName ≠ [] → no_nul programName → comm_ok c →
  matches_filter (set_filter programName cfg) c = true ↔ cstr c = take 15 (Base programName).
Proof.
  intros Hf Hne Hn Hc. unfold set_filter. rewrite bool_decide_eq_false_2 by done.
  pose proof (Base_no_nul programName Hn) as Hb. pose proof (filter_value_length programName) as Hl.
  rewrite matches_filter_spec; [|done|]; cbn [filter_name]; rewrite Hf.
  - rewrite copy_at_start by (unfold MAX_COMM_LEN, maxCommLen in *; lia).
    unfold filter_value. rewrite <- app_assoc. cbn [app]. destruct (Nat.leb_spec maxCommLen (length (Base programName))).
    + rewrite cstr_app_nul by (by apply Forall_take). by rewrite take_take.
    + by rewrite cstr_app_nul.
  - rewrite copy_at_start by (unfold MAX_COMM_LEN, maxCommLen in *; lia).
    rewrite length_app, length_replicate. unfold MAX_COMM_LEN, maxCommLen in *. lia.
Qed.
End init.

(** A key that is taken for unique may not be: a kernel with neither a sequence
    number nor an ID of mount namespaces identifies workloads by inode numbers,
    which are reused, while both sides exclude keys for good. *)
Theorem fallback_keys_reused cfg cur :
  has_mntns_seq cfg = false → has_mntns_ns_id cfg = false → use_cgroup_id cfg = false →
  ∃ cfg', initGlobals true false true cfg = Some (cfg', true, false) ∧
    unique_keys cfg' = true ∧ ∀ mntns, get_key cfg' cur mntns = mntns.
Proof.
  intros H1 H2 H3. eexists. split; [reflexivity|]. unfold unique_keys, get_key, get_mntns_id. cbn.
  by rewrite H1, H2, H3.
Qed.

(** ** Examples *)

Lemma program_filtered_witness :
  let cfg := {| demo_cfg with filter_name := replicate (Z.to_nat MAX_COMM_LEN) 0 |} in
  matches_filter (set_filter (bytes "/usr/bin/a-very-long-program") cfg) (char_array 16 "a-very-long-pro") = true.
Proof. apply program_filtered; [done|done|by repeat constructor|by vm_compute|by vm_compute]. Defined.

Lemma container_init_recognized_witness :
  let K := ref_kernel 1 (λ _, Some (bytes "memfd:crun_cloned:/proc/self/exe")) (λ _, None) in
  ∃ cfg' u c, initGlobals true true true demo_cfg = Some (cfg', u, c) ∧
    @is_container_init K cfg' {| demo_task with comm := char_array 16 "youki:[2:INIT]" |} = true ∧
    @is_container_init K cfg' {| demo_task with comm := char_array 16 "5" |} = true.
Proof.
  intros K. destruct (@container_init_recognized K (ref_kernel_ok 1 _ _) true true demo_cfg)
    as (cfg' & u & c & Hi & _ & H).
  exists cfg', u, c. split; [exact Hi|]. split.
  - apply H; [by vm_compute|]. left. apply (bool_decide_unpack _). by vm_compute.
  - apply H; [by vm_compute|]. right. split; [done|]. split; [by repeat constructor|]. split; [done|].
    split; [by vm_compute|]. exists (bytes ":/proc/self/ex"). by vm_compute.
Defined.
