(* ===== verification/DPath.v ===== *)
(** * Path resolution

    The path of a dentry as [bpf_d_path_tetragon.h] computes it: from the
    dentry up to the root of the process, each name prepended to what is in a
    per CPU buffer already.  The kernel memory it walks is [kmem]; a pointer
    into the buffer is its offset from the start of the buffer. *)
From S2P Require Import Prelude Bpf State.

Definition ENAMETOOLONG : Z := 36.
Definition UNRESOLVED_PATH_COMPONENTS : Z := 2.
Definition PROBE_CWD_READ_ITERATIONS : nat := 128.

(** ** Kernel memory

    The fields of the dentries and mounts that are read.  [mnt_root] belongs
    to the [struct vfsmount] embedded in the mount. *)
Record kdentry := KDentry {
  d_parent : Z; d_name_name : Z; d_name_len : Z; d_hash_pprev : Z
}.

Record kmount := KMount { mnt_parent : Z; mnt_mountpoint : Z; mnt_mnt_root : Z }.

Record kmem := {
  dentries : gmap Z kdentry;
  mounts : gmap Z kmount;
  chars : Z → Z;
  (* offsetof(struct mount, mnt), as relocated for the running kernel *)
  off_mnt : Z
}.

Record path := Path { p_mnt : Z; p_dentry : Z }.

Section dpath.
Context (k : kmem).

(** probe_read of a field: memory that cannot be read is zeroed. *)
Definition zero_dentry : kdentry := KDentry 0 0 0 0.
Definition zero_mount : kmount := KMount 0 0 0.
Definition read_dentry (d : Z) : kdentry := default zero_dentry (dentries k !! d).
Definition read_mount (m : Z) : kmount := default zero_mount (mounts k !! m).
Definition read_chars (ptr len : Z) : list Z :=
  (λ i, chars k (ptr + Z.of_nat i)) <$> seq 0 (Z.to_nat len).

Definition real_mount (mnt : Z) : Z := mnt - off_mnt k.

Definition IS_ROOT (dentry : Z) : bool := dentry =? d_parent (read_dentry dentry).

Definition hlist_bl_unhashed (dentry : Z) : bool :=
  d_hash_pprev (read_dentry dentry) =? 0.

Definition d_unhashed (dentry : Z) : bool := hlist_bl_unhashed dentry.

Definition d_unlinked (dentry : Z) : bool := d_unhashed dentry && negb (IS_ROOT dentry).

(** [prepend_name] returns its result, the buffer, [*bufptr] and [*buflen].
    The comparison and the subtractions are unsigned, as [namelen] is. *)
Definition prepend_name (buf : list Z) (bufptr buflen name namelen : Z)
    : Z * list Z * Z * Z :=
  let namelen := u32 namelen in
  let buffer_offset := u64 bufptr in
  let '(name, namelen, write_slash) :=
    if u32 buflen <=? namelen
    then (name + u32 (namelen - buflen), u32 buflen, 0)
    else (name, namelen, 1) in
  let buflen := s32 (buflen - u32 (namelen + write_slash)) in
  if buffer_offset <? u32 (namelen + write_slash)
  then (- ENAMETOOLONG, buf, bufptr, buflen)
  else
    let buffer_offset := u64 (buffer_offset - u32 (namelen + write_slash)) in
    if MAX_BUF_LEN <=? buffer_offset
    then (- ENAMETOOLONG, buf, bufptr, buflen)
    else
      let buf := if z2b write_slash then write_at buf buffer_offset [47] else buf in
      let namelen := Z.land namelen 0xff in
      let buf := write_at buf (buffer_offset + write_slash) (read_chars name namelen) in
      ((if z2b write_slash then 0 else - ENAMETOOLONG), buf, buffer_offset, buflen).

Definition prepend (buf : list Z) (buffer buflen : Z) (str : list Z) (namelen : Z)
    : Z * list Z * Z * Z :=
  if (namelen <? 0) || (MAX_BUF_LEN <? namelen)
  then (- ENAMETOOLONG, buf, buffer, buflen)
  else
    let buflen := s32 (buflen - namelen) in
    if buflen <? 0 then (- ENAMETOOLONG, buf, buffer, buflen)
    else
      let buffer := buffer - namelen in
      (0, write_at buf buffer (take (Z.to_nat namelen) str), buffer, buflen).

Record cwd_read_data := CwdReadData {
  c_root_dentry : Z; c_root_mnt : Z;
  c_bf : list Z;
  c_dentry : Z; c_vfsmnt : Z; c_mnt : Z;
  c_bptr : Z; c_blen : Z;
  c_resolved : bool
}.

Definition cwd_read (data : cwd_read_data) : Z * cwd_read_data :=
  let dentry := c_dentry data in
  let vfsmnt := c_vfsmnt data in
  let mnt := c_mnt data in
  if negb (negb (dentry =? c_root_dentry data) || negb (vfsmnt =? c_root_mnt data))
  then (1, {| data with c_resolved := true |})
  else
    let vfsmnt_mnt_root := mnt_mnt_root (read_mount (real_mount vfsmnt)) in
    if (dentry =? vfsmnt_mnt_root) || IS_ROOT dentry then
      let parent := mnt_parent (read_mount mnt) in
      if negb (c_mnt data =? parent) then
        (0, {| data with c_dentry := mnt_mountpoint (read_mount mnt);
                         c_mnt := parent; c_vfsmnt := parent + off_mnt k |})
      else (1, {| data with c_resolved := true |})
    else
      let parent := d_parent (read_dentry dentry) in
      let '(error, bf, bptr, blen) :=
        prepend_name (c_bf data) (c_bptr data) (c_blen data)
          (d_name_name (read_dentry dentry)) (d_name_len (read_dentry dentry)) in
      let data := {| data with c_bf := bf; c_bptr := bptr; c_blen := blen |} in
      if z2b error then (1, data)
      else (0, {| data with c_dentry := parent |}).

(** bpf_loop: at most [n] calls, until one returns 1. *)
Fixpoint cwd_loop (n : nat) (data : cwd_read_data) : cwd_read_data :=
  match n with
  | O => data
  | S n => let '(r, data) := cwd_read data in
           if r =? 0 then cwd_loop n data else data
  end.

(** Returns the error, the buffer, [*buffer] and [*buflen]. *)
Definition prepend_path (p root : path) (bf : list Z) (buffer buflen : Z)
    : Z * list Z * Z * Z :=
  let data := {|
    c_root_dentry := p_dentry root; c_root_mnt := p_mnt root;
    c_bf := bf;
    c_dentry := p_dentry p; c_vfsmnt := p_mnt p; c_mnt := real_mount (p_mnt p);
    c_bptr := buffer; c_blen := buflen; c_resolved := false
  |} in
  let data := cwd_loop PROBE_CWD_READ_ITERATIONS data in
  if c_bptr data =? buffer then (0, c_bf data, buffer, 0)
  else
    let error := if negb (c_resolved data) then UNRESOLVED_PATH_COMPONENTS else 0 in
    (error, c_bf data, c_bptr data, c_blen data).

(** The characters of the literal that marks an unlinked file. *)
Definition deleted_str : list Z := [32; 40; 100; 101; 108; 101; 116; 101; 100; 41].

Definition path_with_deleted (p root : path) (bf : list Z) (buf buflen : Z)
    : Z * list Z * Z * Z :=
  if d_unlinked (p_dentry p) then
    let '(error, bf, buf, buflen) := prepend bf buf buflen deleted_str 10 in
    if z2b error then (error, bf, buf, buflen)
    else prepend_path p root bf buf buflen
  else prepend_path p root bf buf buflen.

(** [root] is the root of the current process, task->fs->root. *)
Definition __d_path_local (p root : path) (buf : list Z) (buflen : Z)
    : Z * list Z * Z * Z :=
  let res := buflen in
  path_with_deleted p root buf res buflen.

(** [heap] is the entry of the buffer map, if the lookup finds one.  Returns
    its content, the start of the path in it, [*buflen] and [*error]. *)
Definition d_path_local (p root : path) (heap : option (list Z))
    : option (list Z * Z * Z * Z) :=
  match heap with
  | None => None
  | Some heap =>
      let '(error, buf, res, buflen) := __d_path_local p root heap MAX_BUF_LEN in
      let buflen := if 0 <? buflen then MAX_BUF_LEN - buflen else buflen in
      Some (buf, res, buflen, error)
  end.

(** Copies the path into [data]: the result, [data], and the entry of the
    buffer map. *)
Definition bpf_d_path_tetragon (p root : path) (heap : option (list Z)) (data : list Z)
    : Z * list Z * option (list Z) :=
  match d_path_local p root heap with
  | None => (-1, data, heap)
  | Some (heap, fullpath, size, error) =>
      let size := Z.land size 0xfff in
      let data := write_at data 0 (sub_bytes heap fullpath size) in
      let data := write_at data size [0] in
      (size + 1, data, Some heap)
  end.
End dpath.

(** ** The path of a dentry

    The contract: the names on the way from a dentry of a mount up to the root
    of the process, or to the root of the mount tree.  The last argument
    counts the steps. *)
Fixpoint join (cs : list (list Z)) : list Z :=
  match cs with
  | [] => []
  | c :: cs => 47 :: c ++ join cs
  end.

Section resolves.
Context (k : kmem) (root : path).

Definition name_of (d : Z) : list Z :=
  read_chars k (d_name_name (read_dentry k d)) (d_name_len (read_dentry k d)).

Definition at_root (d m : Z) : Prop := d = p_dentry root ∧ m + off_mnt k = p_mnt root.

(** The root dentry of the mount, or of a file system. *)
Definition mount_top (d m : Z) : Prop :=
  d = mnt_mnt_root (read_mount k m) ∨ IS_ROOT k d = true.

(** [climbs d m cs n d' m']: [n] steps up from [d] lead to [d'] and pass the
    names [cs], the last one first. *)
Inductive climbs : Z → Z → list (list Z) → nat → Z → Z → Prop :=
| climbs_here d m : climbs d m [] 0 d m
| climbs_mount d m cs n d' m' :
    ¬ at_root d m → mount_top d m → mnt_parent (read_mount k m) ≠ m →
    climbs (mnt_mountpoint (read_mount k m)) (mnt_parent (read_mount k m)) cs n d' m' →
    climbs d m cs (S n) d' m'
| climbs_name d m cs n d' m' :
    ¬ at_root d m → ¬ mount_top d m →
    0 <= d_name_len (read_dentry k d) <= 255 →
    climbs (d_parent (read_dentry k d)) m cs n d' m' →
    climbs d m (cs ++ [name_of d]) (S n) d' m'.

(** Nothing is above: the root of the process, or of the mount tree. *)
Definition is_top (d m : Z) : Prop :=
  at_root d m ∨ mount_top d m ∧ mnt_parent (read_mount k m) = m.

(** The names from the top down to [d], which [n] steps find. *)
Definition resolves (d m : Z) (cs : list (list Z)) (n : nat) : Prop :=
  ∃ d' m', climbs d m cs n d' m' ∧ is_top d' m'.

Lemma join_app cs cs' : join (cs ++ cs') = join cs ++ join cs'.
Proof.
  induction cs as [|c cs IH]; simpl; [done|]. by rewrite IH, app_assoc.
Qed.

Lemma length_read_chars ptr len : length (read_chars k ptr len) = Z.to_nat len.
Proof. unfold read_chars. by rewrite length_fmap, length_seq. Qed.

(** A name that fits with its slash is put in front of the path. *)
Lemma prepend_name_fits buf o name len :
  (4352 <= length buf)%nat → 0 <= len <= 255 → len < o <= MAX_BUF_LEN →
  ∃ buf', prepend_name k buf o o name len = (0, buf', o - len - 1, o - len - 1) ∧
    length buf' = length buf ∧
    drop (Z.to_nat (o - len - 1)) buf' = 47 :: read_chars k name len ++ drop (Z.to_nat o) buf.
Proof.
  unfold MAX_BUF_LEN. intros Hb Hl Ho. unfold prepend_name.
  assert (∀ x, 0 <= x <= 5000 → u32 x = x ∧ u64 x = x ∧ s32 x = x) as Hw.
  { intros x Hx. rewrite !wrap_small, swrap_small by (unfold in_u; lia). done. }
  destruct (Hw len) as (-> & _ & _); [lia|]. cbv zeta.
  destruct (Hw o) as (-> & -> & _); [lia|].
  destruct (Z.leb_spec o len); [lia|]. cbv zeta.
  destruct (Hw (len + 1)) as (-> & _ & _); [lia|].
  destruct (Z.ltb_spec o (len + 1)); [lia|].
  replace (o - (len + 1)) with (o - len - 1) by lia.
  destruct (Hw (o - len - 1)) as (_ & -> & ->); [lia|].
  unfold MAX_BUF_LEN. destruct (Z.leb_spec 4096 (o - len - 1)); [lia|].
  change (z2b 1) with true. cbv iota.
  change 0xff with (Z.ones 8). rewrite Z.land_ones by lia.
  rewrite Z.mod_small by lia.
  set (q := o - len - 1).
  assert (length (read_chars k name len) = Z.to_nat len) by apply length_read_chars.
  replace (q + 1) with (q + Z.of_nat (length [47])) by done.
  rewrite write_at_adjacent by (simpl; lia).
  eexists; split; [done|].
  assert (Z.to_nat q + length (47%Z :: read_chars k name len) <= length buf)%nat
    by (simpl; lia).
  split; [by apply length_write_at|].
  cbn [app]. rewrite drop_write_at by done. cbn [app]. do 3 f_equal. simpl. lia.
Qed.

(** The data of the loop at the dentry [d] of the mount [m], with the path
    from offset [o] on in the buffer. *)
Definition data_at (d m : Z) (buf : list Z) (o : Z) (res : bool) : cwd_read_data :=
  CwdReadData (p_dentry root) (p_mnt root) buf d (m + off_mnt k) m o o res.

Lemma at_root_dec d m :
  negb (negb (d =? p_dentry root) || negb (m + off_mnt k =? p_mnt root)) = true ↔
  at_root d m.
Proof.
  unfold at_root. rewrite negb_orb, !negb_involutive, andb_true_iff, !Z.eqb_eq. done.
Qed.

Lemma mount_top_dec d m :
  (d =? mnt_mnt_root (read_mount k (real_mount k (m + off_mnt k)))) || IS_ROOT k d = true ↔
  mount_top d m.
Proof.
  unfold mount_top, real_mount. replace (m + off_mnt k - off_mnt k) with m by lia.
  by rewrite orb_true_iff, Z.eqb_eq.
Qed.

Lemma cwd_read_root d m buf o res :
  at_root d m → cwd_read k (data_at d m buf o res) = (1, data_at d m buf o true).
Proof.
  intros H. apply at_root_dec in H. unfold cwd_read, data_at. cbn.
  by rewrite H.
Qed.

Lemma cwd_read_top d m buf o res :
  ¬ at_root d m → mount_top d m →
  cwd_read k (data_at d m buf o res) =
  if m =? mnt_parent (read_mount k m) then (1, data_at d m buf o true)
  else (0, data_at (mnt_mountpoint (read_mount k m)) (mnt_parent (read_mount k m)) buf o res).
Proof.
  intros Hr Ht. rewrite <- at_root_dec in Hr. apply not_true_is_false in Hr.
  apply mount_top_dec in Ht. unfold cwd_read, data_at. cbn. rewrite Hr, Ht.
  by destruct (m =? mnt_parent (read_mount k m)).
Qed.

Lemma cwd_read_name d m buf o res :
  ¬ at_root d m → ¬ mount_top d m →
  cwd_read k (data_at d m buf o res) =
  let '(error, bf, bptr, blen) :=
    prepend_name k buf o o (d_name_name (read_dentry k d)) (d_name_len (read_dentry k d)) in
  let data d := CwdReadData (p_dentry root) (p_mnt root) bf d (m + off_mnt k) m bptr blen res in
  if z2b error then (1, data d) else (0, data (d_parent (read_dentry k d))).
Proof.
  intros Hr Ht. rewrite <- at_root_dec in Hr. apply not_true_is_false in Hr.
  rewrite <- mount_top_dec in Ht. apply not_true_is_false in Ht.
  unfold cwd_read, data_at. cbn. rewrite Hr, Ht.
  destruct (prepend_name _ _ _ _ _ _) as [[[error bf] bptr] blen].
  by destruct (z2b error).
Qed.

Lemma at_root_decide d m : at_root d m ∨ ¬ at_root d m.
Proof.
  rewrite <- (at_root_dec d m). destruct (negb _); naive_solver.
Qed.

Lemma cwd_loop_top d m buf o res fuel :
  is_top d m → cwd_loop k (S fuel) (data_at d m buf o res) = data_at d m buf o true.
Proof.
  intros Htop. cbn [cwd_loop].
  destruct (at_root_decide d m) as [Hr|Hr]; [by rewrite cwd_read_root|].
  destruct Htop as [|[Ht Hp]]; [done|].
  by rewrite cwd_read_top, Hp, Z.eqb_refl.
Qed.

Lemma length_join_name cs d : 0 <= d_name_len (read_dentry k d) →
  Z.of_nat (length (join (cs ++ [name_of d]))) =
  Z.of_nat (length (join cs)) + d_name_len (read_dentry k d) + 1.
Proof.
  intros Hl. rewrite join_app, length_app. simpl. rewrite app_nil_r.
  unfold name_of. rewrite length_read_chars. lia.
Qed.

(** As long as they fit, the loop puts the names it passes in front of what
    is in the buffer. *)
Lemma cwd_loop_climbs d m cs n d' m' :
  climbs d m cs n d' m' →
  ∀ fuel buf o res,
  (4352 <= length buf)%nat → Z.of_nat (length (join cs)) <= o <= MAX_BUF_LEN →
  ∃ buf', let o' := o - Z.of_nat (length (join cs)) in
    cwd_loop k (n + fuel) (data_at d m buf o res) =
      cwd_loop k fuel (data_at d' m' buf' o' res) ∧
    length buf' = length buf ∧
    drop (Z.to_nat o') buf' = join cs ++ drop (Z.to_nat o) buf.
Proof.
  induction 1 as [d m|d m cs n d' m' Hr Ht Hp Hn IH|d m cs n d' m' Hr Ht Hl Hn IH];
    intros fuel buf o res Hb Ho.
  - exists buf. simpl in *. by rewrite Z.sub_0_r.
  - cbn [cwd_loop Nat.add]. rewrite cwd_read_top by done.
    destruct (Z.eqb_spec m (mnt_parent (read_mount k m))); [congruence|].
    by apply IH.
  - rewrite length_join_name in * by lia. cbn [cwd_loop Nat.add].
    rewrite cwd_read_name by done.
    destruct (prepend_name_fits buf o (d_name_name (read_dentry k d))
      (d_name_len (read_dentry k d)) Hb Hl) as (buf1 & E & Hb1 & Hd1); [lia|].
    rewrite E. cbv zeta. change (z2b 0) with false. cbv iota. change (0 =? 0) with true.
    cbv iota. set (o1 := o - d_name_len (read_dentry k d) - 1) in *.
    destruct (IH fuel buf1 o1 res) as (buf' & E' & Hb' & Hd'); [lia|lia|].
    exists buf'.
    replace (o - _) with (o1 - Z.of_nat (length (join cs))) by lia.
    split; [exact E'|]. split; [congruence|].
    rewrite Hd', Hd1, join_app. cbn [join]. rewrite app_nil_r, <- app_assoc. done.
Qed.

(** Whatever the name, the bytes written are within the buffer, and the
    offset and the room left stay the same number. *)
Lemma prepend_name_bounds buf o name len :
  length buf = 4352%nat → 0 <= o <= MAX_BUF_LEN →
  let '(_, buf', bufptr, buflen) := prepend_name k buf o o name len in
  length buf' = 4352%nat ∧ bufptr = buflen ∧ 0 <= buflen <= o.
Proof.
  unfold MAX_BUF_LEN. intros Hb Ho. unfold prepend_name. cbv zeta.
  pose proof (wrap_range 32 len ltac:(lia)) as Hl. set (n := u32 len) in *. clearbody n.
  unfold in_u in Hl.
  assert (∀ x, 0 <= x <= 5000 → u32 x = x ∧ u64 x = x ∧ s32 x = x) as Hw.
  { intros x Hx. rewrite !wrap_small, swrap_small by (unfold in_u; lia). done. }
  assert (∀ x, 0 <= Z.land x 0xff <= 255) as Hff.
  { intros x. change (Z.land x 0xff) with (Z.land x (Z.ones 8)). rewrite Z.land_ones by lia.
    change (2 ^ 8) with 256. pose proof (Z.mod_pos_bound x 256). lia. }
  destruct (Hw o) as (-> & -> & _); [lia|].
  destruct (Z.leb_spec o n) as [Hn|Hn].
  - rewrite Z.add_0_r. destruct (Hw o) as (-> & _ & _); [lia|].
    rewrite Z.ltb_irrefl, Z.sub_diag. destruct (Hw 0) as (_ & -> & ->); [lia|].
    change (MAX_BUF_LEN <=? 0) with false. change (z2b 0) with false. cbv iota.
    split; [|lia]. rewrite length_write_at; [done|]. rewrite length_read_chars.
    specialize (Hff o). lia.
  - destruct (Hw (n + 1)) as (-> & _ & _); [lia|].
    destruct (Z.ltb_spec o (n + 1)); [lia|].
    destruct (Hw (o - (n + 1))) as (_ & -> & ->); [lia|].
    destruct (Z.leb_spec MAX_BUF_LEN (o - (n + 1))); [unfold MAX_BUF_LEN in *; lia|].
    change (z2b 1) with true. cbv iota. split; [|lia].
    assert (length (write_at buf (o - (n + 1)) [47]) = 4352%nat) as Hb'
      by (rewrite length_write_at; [done|simpl; lia]).
    rewrite length_write_at; [done|]. rewrite length_read_chars. specialize (Hff n). lia.
Qed.

(** The data of the loop whose offset is in the buffer. *)
Definition bounded (data : cwd_read_data) : Prop :=
  length (c_bf data) = 4352%nat ∧ c_bptr data = c_blen data ∧ 0 <= c_blen data <= MAX_BUF_LEN.

Lemma cwd_loop_bounded n data : bounded data → bounded (cwd_loop k n data).
Proof.
  revert data. induction n as [|n IH]; intros data Hd; [done|].
  cbn [cwd_loop]. enough (bounded (cwd_read k data).2).
  { destruct (cwd_read k data) as [r data']. destruct (r =? 0); [by apply IH|done]. }
  destruct Hd as (Hb & He & Ho). unfold cwd_read. cbv zeta.
  destruct (negb _); [done|]. destruct (_ || IS_ROOT k _).
  { destruct (negb _); done. }
  pose proof (prepend_name_bounds (c_bf data) (c_blen data)
    (d_name_name (read_dentry k (c_dentry data))) (d_name_len (read_dentry k (c_dentry data)))
    Hb Ho) as Hp.
  rewrite He. destruct (prepend_name _ _ _ _ _ _) as [[[error bf] bptr] blen].
  destruct Hp as (H1 & H2 & H3). destruct (z2b error); split_and!; cbn; lia.
Qed.

(** A name that does not fit ends the loop with nothing left of the buffer. *)
Lemma prepend_name_cut buf o name len :
  (4352 <= length buf)%nat → 0 <= len <= 255 → 0 <= o <= len →
  ∃ buf', prepend_name k buf o o name len = (- ENAMETOOLONG, buf', 0, 0) ∧
    length buf' = length buf.
Proof.
  intros Hb Hl Ho. unfold prepend_name.
  assert (∀ x, 0 <= x <= 5000 → u32 x = x ∧ u64 x = x ∧ s32 x = x) as Hw.
  { intros x Hx. rewrite !wrap_small, swrap_small by (unfold in_u; lia). done. }
  destruct (Hw len) as (-> & _ & _); [lia|]. cbv zeta.
  destruct (Hw o) as (-> & -> & _); [lia|].
  destruct (Z.leb_spec o len); [|lia]. cbv zeta. rewrite Z.add_0_r.
  destruct (Hw o) as (-> & _ & _); [lia|]. rewrite Z.ltb_irrefl, Z.sub_diag.
  destruct (Hw 0) as (_ & -> & ->); [lia|].
  change (MAX_BUF_LEN <=? 0) with false. change (z2b 0) with false. cbv iota.
  eexists; split; [done|]. apply length_write_at. rewrite length_read_chars.
  change 0xff with (Z.ones 8). rewrite Z.land_ones by lia.
  rewrite Z.mod_small by lia. lia.
Qed.

Lemma cwd_loop_cut d m cs n d' m' :
  climbs d m cs n d' m' →
  ∀ fuel buf o res,
  (4352 <= length buf)%nat → 0 <= o <= MAX_BUF_LEN →
  o < Z.of_nat (length (join cs)) →
  let data := cwd_loop k (n + fuel) (data_at d m buf o res) in
  c_bptr data = 0 ∧ c_blen data = 0 ∧ length (c_bf data) = length buf.
Proof.
  induction 1 as [d m|d m cs n d' m' Hr Ht Hp Hn IH|d m cs n d' m' Hr Ht Hl Hn IH];
    intros fuel buf o res Hb Ho Hlen; cbv zeta.
  - simpl in Hlen. lia.
  - cbn [cwd_loop Nat.add]. rewrite cwd_read_top by done.
    destruct (Z.eqb_spec m (mnt_parent (read_mount k m))); [congruence|].
    by apply IH.
  - rewrite length_join_name in Hlen by lia. cbn [cwd_loop Nat.add].
    rewrite cwd_read_name by done.
    destruct (decide (d_name_len (read_dentry k d) < o)).
    + destruct (prepend_name_fits buf o (d_name_name (read_dentry k d))
        (d_name_len (read_dentry k d)) Hb Hl) as (buf1 & E & Hb1 & Hd1); [lia|].
      rewrite E. cbv zeta. change (z2b 0) with false. cbv iota.
      change (0 =? 0) with true. cbv iota. rewrite <- Hb1. apply IH; lia.
    + destruct (prepend_name_cut buf o (d_name_name (read_dentry k d))
        (d_name_len (read_dentry k d)) Hb Hl) as (buf1 & E & Hb1); [lia|].
      rewrite E. done.
Qed.

(** The mark of an unlinked file, which is in the buffer before the names. *)
Definition deleted_mark (d : Z) : list Z := if d_unlinked k d then deleted_str else [].

(** The loop leaves the names [cs] in the buffer: it gets to the top, or has
    made all of its steps. *)
Definition collects (p : path) (cs : list (list Z)) : Prop :=
  (∃ n, resolves (p_dentry p) (real_mount k (p_mnt p)) cs n ∧
     (n < PROBE_CWD_READ_ITERATIONS)%nat) ∨
  (∃ d' m', climbs (p_dentry p) (real_mount k (p_mnt p)) cs
     PROBE_CWD_READ_ITERATIONS d' m').

Definition initial_data (p : path) (buf : list Z) (o : Z) : cwd_read_data :=
  data_at (p_dentry p) (real_mount k (p_mnt p)) buf o false.

Lemma cwd_loop_collects p cs buf o :
  collects p cs → (4352 <= length buf)%nat →
  Z.of_nat (length (join cs)) <= o <= MAX_BUF_LEN →
  let data := cwd_loop k PROBE_CWD_READ_ITERATIONS (initial_data p buf o) in
  c_bptr data = o - Z.of_nat (length (join cs)) ∧ c_blen data = c_bptr data ∧
  length (c_bf data) = length buf ∧
  drop (Z.to_nat (c_bptr data)) (c_bf data) = join cs ++ drop (Z.to_nat o) buf.
Proof.
  intros [(n & (d' & m' & Hc & Ht) & Hn)|(d' & m' & Hc)] Hb Ho; cbv zeta.
  - replace PROBE_CWD_READ_ITERATIONS with (n + S (PROBE_CWD_READ_ITERATIONS - n - 1))%nat
      by lia.
    destruct (cwd_loop_climbs _ _ _ _ _ _ Hc (S (PROBE_CWD_READ_ITERATIONS - n - 1))
      buf o false Hb Ho) as (buf' & E & Hl & Hd).
    unfold initial_data. rewrite E, cwd_loop_top by done. done.
  - replace PROBE_CWD_READ_ITERATIONS with (PROBE_CWD_READ_ITERATIONS + 0)%nat by lia.
    destruct (cwd_loop_climbs _ _ _ _ _ _ Hc 0%nat buf o false Hb Ho)
      as (buf' & E & Hl & Hd).
    unfold initial_data. by rewrite E.
Qed.

Lemma cwd_loop_overflows p cs buf o :
  collects p cs → (4352 <= length buf)%nat → 0 <= o <= MAX_BUF_LEN →
  o <= Z.of_nat (length (join cs)) →
  let data := cwd_loop k PROBE_CWD_READ_ITERATIONS (initial_data p buf o) in
  c_bptr data = 0 ∧ c_blen data = 0 ∧ length (c_bf data) = length buf.
Proof.
  intros Hc Hb Ho Hle. destruct (decide (o = Z.of_nat (length (join cs)))) as [He|Hne].
  - destruct (cwd_loop_collects p cs buf o Hc Hb) as (H1 & H2 & H3 & _); [lia|].
    cbv zeta in *. rewrite H2, H1. split_and!; [lia|lia|done].
  - destruct Hc as [(n & (d' & m' & Hc & _) & Hn)|(d' & m' & Hc)].
    + replace PROBE_CWD_READ_ITERATIONS with (n + (PROBE_CWD_READ_ITERATIONS - n))%nat
        by lia.
      apply (cwd_loop_cut _ _ _ _ _ _ Hc); lia.
    + replace PROBE_CWD_READ_ITERATIONS with (PROBE_CWD_READ_ITERATIONS + 0)%nat by lia.
      apply (cwd_loop_cut _ _ _ _ _ _ Hc); lia.
Qed.

Lemma prepend_path_eq p buf o :
  prepend_path k p root buf o o =
  let data := cwd_loop k PROBE_CWD_READ_ITERATIONS (initial_data p buf o) in
  if c_bptr data =? o then (0, c_bf data, o, 0)
  else ((if negb (c_resolved data) then UNRESOLVED_PATH_COMPONENTS else 0),
        c_bf data, c_bptr data, c_blen data).
Proof.
  unfold prepend_path, initial_data, data_at.
  replace (real_mount k (p_mnt p) + off_mnt k) with (p_mnt p)
    by (unfold real_mount; lia). done.
Qed.

(** The start of the loop: the mark of an unlinked file is in the buffer. *)
Lemma path_with_deleted_start p heap :
  length heap = 4352%nat →
  let o := MAX_BUF_LEN - Z.of_nat (length (deleted_mark (p_dentry p))) in
  ∃ buf, path_with_deleted k p root heap MAX_BUF_LEN MAX_BUF_LEN =
      prepend_path k p root buf o o ∧
    length buf = 4352%nat ∧
    drop (Z.to_nat o) buf =
      deleted_mark (p_dentry p) ++ drop (Z.to_nat MAX_BUF_LEN) heap.
Proof.
  intros Hh. cbv zeta. unfold deleted_mark, path_with_deleted.
  destruct (d_unlinked k (p_dentry p)).
  - assert (prepend heap MAX_BUF_LEN MAX_BUF_LEN deleted_str 10 =
      (0, write_at heap 4086 deleted_str, 4086, 4086)) as -> by done.
    change (z2b 0) with false. cbv iota.
    exists (write_at heap 4086 deleted_str). split; [done|]. split.
    + rewrite length_write_at; [done|]. rewrite Hh. simpl. lia.
    + change (Z.to_nat (MAX_BUF_LEN - _)) with (Z.to_nat 4086).
      by rewrite drop_write_at by (rewrite Hh; simpl; lia).
  - exists heap. cbn [length]. rewrite Z.sub_0_r. done.
Qed.

Lemma d_path_collects p cs heap data :
  collects p cs → cs ≠ [] → length heap = 4352%nat → length data = 4096%nat →
  let full := join cs ++ deleted_mark (p_dentry p) in
  Z.of_nat (length full) < MAX_BUF_LEN →
  ∃ data' heap',
    bpf_d_path_tetragon k p root (Some heap) data =
      (Z.of_nat (length full) + 1, data', Some heap') ∧
    length data' = 4096%nat ∧ length heap' = 4352%nat ∧
    take (length full + 1) data' = full ++ [0].
Proof.
  intros Hc Hcs Hh Hd full Hf.
  destruct (path_with_deleted_start p heap Hh) as (buf & E & Hl & Hb). cbv zeta in E, Hb.
  set (o := MAX_BUF_LEN - Z.of_nat (length (deleted_mark (p_dentry p)))) in *.
  assert (Z.of_nat (length full) = Z.of_nat (length (join cs)) + (MAX_BUF_LEN - o))
    as Hfull by (unfold full, o; rewrite length_app; lia).
  destruct (cwd_loop_collects p cs buf o Hc) as (H1 & H2 & H3 & H4); [lia|unfold o; lia|].
  rewrite prepend_path_eq in E. cbv zeta in E.
  assert (0 < Z.of_nat (length (join cs))) by (destruct cs; [done|simpl; lia]).
  destruct (Z.eqb_spec (c_bptr (cwd_loop k PROBE_CWD_READ_ITERATIONS (initial_data p buf o))) o);
    [lia|].
  unfold bpf_d_path_tetragon, d_path_local, __d_path_local. cbv zeta. rewrite E.
  rewrite H2, H1 in *. clear E. unfold MAX_BUF_LEN in *.
  destruct (Z.ltb_spec 0 (o - Z.of_nat (length (join cs)))); [|lia].
  replace (4096 - (o - Z.of_nat (length (join cs)))) with (Z.of_nat (length full)) by lia.
  change 0xfff with (Z.ones 12). rewrite Z.land_ones, Z.mod_small by lia.
  assert (sub_bytes (c_bf (cwd_loop k PROBE_CWD_READ_ITERATIONS (initial_data p buf o)))
    (o - Z.of_nat (length (join cs))) (Z.of_nat (length full)) = full) as ->.
  { unfold sub_bytes. rewrite H4, Hb, app_assoc, Nat2Z.id. by apply take_app_length'. }
  replace (Z.of_nat (length full)) with (0 + Z.of_nat (length full)) at 2 by lia.
  rewrite write_at_adjacent by (simpl; lia).
  eexists _, _. split; [done|]. split_and!; [|by rewrite H3|].
  - rewrite length_write_at; [done|]. rewrite length_app. simpl. lia.
  - unfold write_at. change (Z.to_nat 0) with 0%nat. rewrite take_0, app_nil_l.
    apply take_app_length'. rewrite length_app. simpl. lia.
Qed.

Lemma prepend_path_bounds p buf o :
  length buf = 4352%nat → 0 <= o <= MAX_BUF_LEN →
  ∃ error buf' o' left,
    prepend_path k p root buf o o = (error, buf', o', left) ∧
    length buf' = 4352%nat ∧ 0 <= o' <= MAX_BUF_LEN ∧ (left = o' ∨ left = 0).
Proof.
  intros Hb Ho. rewrite prepend_path_eq. cbv zeta.
  destruct (cwd_loop_bounded PROBE_CWD_READ_ITERATIONS (initial_data p buf o))
    as (H1 & H2 & H3); [done|].
  destruct (_ =? o); do 4 eexists; (split; [done|]); [by auto|].
  rewrite H2. by auto.
Qed.

(** For any kernel memory, also one that links the dentries in a circle, the
    resolution writes within the two buffers only and reads within the per
    CPU one, and what it returns is the length of a NUL terminated part of
    the caller's buffer. *)
Lemma d_path_in_bounds p heap data :
  length heap = 4352%nat → length data = 4096%nat →
  ∃ heap' start size error data',
    d_path_local k p root (Some heap) = Some (heap', start, size, error) ∧
    length heap' = 4352%nat ∧ 0 <= start ∧ 0 <= size < MAX_BUF_LEN ∧
    start + size <= MAX_BUF_LEN ∧
    bpf_d_path_tetragon k p root (Some heap) data = (size + 1, data', Some heap') ∧
    length data' = 4096%nat ∧ nthb data' size = 0.
Proof.
  intros Hh Hd. unfold bpf_d_path_tetragon, d_path_local, __d_path_local. cbv zeta.
  destruct (path_with_deleted_start p heap Hh) as (buf & E & Hl & _). cbv zeta in E.
  set (o := MAX_BUF_LEN - Z.of_nat (length (deleted_mark (p_dentry p)))) in *.
  assert (0 < o <= MAX_BUF_LEN).
  { unfold o, deleted_mark, MAX_BUF_LEN. destruct (d_unlinked _ _); simpl; lia. }
  destruct (prepend_path_bounds p buf o Hl) as (error & buf' & o' & left & E' & Hl' & Ho' & Hleft);
    [lia|].
  rewrite E, E'. set (size := if 0 <? left then MAX_BUF_LEN - left else left).
  assert (0 <= size < MAX_BUF_LEN ∧ o' + size <= MAX_BUF_LEN) as [Hs1 Hs2].
  { unfold size, MAX_BUF_LEN in *. destruct (Z.ltb_spec 0 left); lia. }
  change 0xfff with (Z.ones 12). rewrite Z.land_ones by lia. unfold MAX_BUF_LEN in *.
  rewrite Z.mod_small by lia.
  exists buf', o', size, error. eexists. split; [done|].
  assert (length (sub_bytes buf' o' size) = Z.to_nat size) as Hsub.
  { unfold sub_bytes. rewrite length_take, length_drop. lia. }
  assert (write_at (write_at data 0 (sub_bytes buf' o' size)) size [0] =
    write_at data 0 (sub_bytes buf' o' size ++ [0])) as ->.
  { rewrite <- write_at_adjacent by (simpl; lia). by rewrite Hsub, Z.add_0_l, Z2Nat.id by lia. }
  split_and!; try done; try lia.
  - rewrite length_write_at; [done|]. rewrite length_app. simpl. lia.
  - unfold nthb, write_at. rewrite <- app_assoc. cbn [app].
    change (Z.to_nat 0) with 0%nat. rewrite take_0, app_nil_l.
    rewrite app_nth2 by lia. by rewrite Hsub, Nat.sub_diag.
Qed.

(** C6 A path that fits is reported in full: for a dentry whose names up to
    the root, each preceded by a slash and followed by the mark of an
    unlinked file, are shorter than the buffer and take less than 128 steps,
    the caller's buffer starts with exactly these bytes and a NUL, whatever
    the buffers held before, and their number is returned. *)
Theorem d_path_resolves p cs n heap data :
  resolves (p_dentry p) (real_mount k (p_mnt p)) cs n →
  (n < PROBE_CWD_READ_ITERATIONS)%nat → cs ≠ [] →
  length heap = 4352%nat → length data = 4096%nat →
  let full := join cs ++ deleted_mark (p_dentry p) in
  Z.of_nat (length full) < MAX_BUF_LEN →
  ∃ data' heap',
    bpf_d_path_tetragon k p root (Some heap) data =
      (Z.of_nat (length full) + 1, data', Some heap') ∧
    length data' = 4096%nat ∧ length heap' = 4352%nat ∧
    take (length full + 1) data' = full ++ [0].
Proof. intros Hr Hn. apply d_path_collects. left. by exists n. Qed.

(** A file more than 128 steps below the root is reported under the
    path of its last components: the error the resolution returns for it is
    not looked at. *)
Theorem d_path_deep p cs d' m' heap data :
  climbs (p_dentry p) (real_mount k (p_mnt p)) cs PROBE_CWD_READ_ITERATIONS d' m' →
  cs ≠ [] → length heap = 4352%nat → length data = 4096%nat →
  let full := join cs ++ deleted_mark (p_dentry p) in
  Z.of_nat (length full) < MAX_BUF_LEN →
  ∃ data' heap',
    bpf_d_path_tetragon k p root (Some heap) data =
      (Z.of_nat (length full) + 1, data', Some heap') ∧
    take (length full + 1) data' = full ++ [0].
Proof.
  intros Hc Hcs Hh Hd full Hf.
  destruct (d_path_collects p cs heap data) as (data' & heap' & E & _ & _ & Ht); eauto.
  right. eauto.
Qed.

(** A path that fills the buffer or does not fit into it is reported as
    the empty path, not as the part of it that fits. *)
Theorem d_path_too_long p cs heap data :
  collects p cs → length heap = 4352%nat → length data = 4096%nat →
  MAX_BUF_LEN <= Z.of_nat (length (join cs ++ deleted_mark (p_dentry p))) →
  ∃ data' heap',
    bpf_d_path_tetragon k p root (Some heap) data = (1, data', Some heap') ∧
    take 1 data' = [0].
Proof.
  intros Hc Hh Hd Hf. rewrite length_app in Hf.
  destruct (path_with_deleted_start p heap Hh) as (buf & E & Hl & Hb). cbv zeta in E, Hb.
  set (o := MAX_BUF_LEN - Z.of_nat (length (deleted_mark (p_dentry p)))) in *.
  assert (0 < o <= MAX_BUF_LEN).
  { unfold o, deleted_mark, MAX_BUF_LEN. destruct (d_unlinked _ _); simpl; lia. }
  destruct (cwd_loop_overflows p cs buf o Hc) as (H1 & H2 & H3); [lia|lia|lia|].
  rewrite prepend_path_eq in E. cbv zeta in E. rewrite H1, H2 in E.
  destruct (Z.eqb_spec 0 o); [lia|].
  unfold bpf_d_path_tetragon, d_path_local, __d_path_local. cbv zeta. rewrite E.
  change (0 <? 0) with false. cbv iota. change (Z.land 0 0xfff) with 0.
  unfold sub_bytes. change (Z.to_nat 0) with 0%nat. rewrite take_0.
  eexists _, _. split; [done|].
  unfold write_at. change (Z.to_nat 0) with 0%nat.
  rewrite !take_0, !app_nil_l, drop_0. simpl. by rewrite take_0.
Qed.
End resolves.

(** ** A chain of directories

    Two hundred directories below each other, with names of [len] characters,
    to exercise the theorems above. *)
Section chain.
Context (len : Z).

Definition chain_dentry (i : nat) : Z * kdentry :=
  (2000 + Z.of_nat i, KDentry (2000 + Z.of_nat (i - 1)) 0 len 1).

Definition chain_kmem : kmem := {|
  dentries := list_to_map (chain_dentry <$> seq 0 200);
  mounts := {[ 500 := KMount 500 500 2000 ]};
  chars := λ _, 97;
  off_mnt := 32
|}.

Definition chain_root : path := Path 532 2000.

Lemma chain_lookup i : (i < 200)%nat →
  read_dentry chain_kmem (2000 + Z.of_nat i) =
  KDentry (2000 + Z.of_nat (i - 1)) 0 len 1.
Proof.
  intros Hi. unfold read_dentry.
  enough (dentries chain_kmem !! (2000 + Z.of_nat i) =
    Some (KDentry (2000 + Z.of_nat (i - 1)) 0 len 1)) as H by (by rewrite H).
  cbn [dentries chain_kmem].
  apply elem_of_list_to_map_1.
  - rewrite <- list_fmap_compose. apply NoDup_fmap_2_strong; [|apply NoDup_seq].
    intros x y _ _. unfold chain_dentry. simpl. lia.
  - apply (list_elem_of_fmap_2' _ _ i); [|done]. apply elem_of_seq. lia.
Qed.

Lemma chain_climbs n i : 0 <= len <= 255 → (n + i < 200)%nat →
  climbs chain_kmem chain_root (2000 + Z.of_nat (n + i)) 500
    (replicate n (replicate (Z.to_nat len) 97)) n (2000 + Z.of_nat i) 500.
Proof.
  intros Hl. induction n as [|n IH]; intros Hn; [constructor|].
  assert (replicate (S n) (replicate (Z.to_nat len) 97) =
    replicate n (replicate (Z.to_nat len) 97) ++
      [name_of chain_kmem (2000 + Z.of_nat (S n + i))]) as ->.
  { rewrite replicate_S_end. f_equal. unfold name_of. rewrite chain_lookup by lia.
    cbn [d_name_name d_name_len]. unfold read_chars. cbn [chars chain_kmem].
    assert (∀ l : list nat, ((λ _, 97) <$> l) = replicate (length l) 97) as Hc
      by (intros l; induction l as [|x l IHl]; simpl; [done|by f_equal]).
    by rewrite Hc, length_seq. }
  apply climbs_name.
  - intros [H _]. cbn [p_dentry chain_root] in H. lia.
  - intros [H|H].
    + change (mnt_mnt_root (read_mount chain_kmem 500)) with 2000 in H. lia.
    + unfold IS_ROOT in H. rewrite chain_lookup in H by lia. cbn [d_parent] in H.
      apply Z.eqb_eq in H. lia.
  - rewrite chain_lookup by lia. done.
  - rewrite chain_lookup by lia. cbn [d_parent].
    replace (S n + i - 1)%nat with (n + i)%nat by lia. apply IH. lia.
Qed.

Lemma chain_resolves n : 0 <= len <= 255 → (n < 200)%nat →
  resolves chain_kmem chain_root (2000 + Z.of_nat n) 500
    (replicate n (replicate (Z.to_nat len) 97)) n.
Proof.
  intros Hl Hn. exists 2000, 500. split; [|by left].
  pose proof (chain_climbs n 0 Hl) as H. rewrite Nat.add_0_r in H. by apply H.
Qed.
End chain.

Lemma d_path_resolves_witness :
  ∃ data' heap',
    bpf_d_path_tetragon (chain_kmem 2) (Path 532 2003) chain_root
      (Some (replicate 4352 255)) (replicate 4096 255) = (10, data', Some heap') ∧
    take 10 data' = [47; 97; 97; 47; 97; 97; 47; 97; 97; 0].
Proof.
  destruct (d_path_resolves (chain_kmem 2) chain_root (Path 532 2003)
    (replicate 3 (replicate 2 97)) 3 (replicate 4352 255) (replicate 4096 255))
    as (data' & heap' & E & _ & _ & Ht).
  - apply (chain_resolves 2 3); lia.
  - unfold PROBE_CWD_READ_ITERATIONS. lia.
  - done.
  - by rewrite length_replicate.
  - by rewrite length_replicate.
  - by vm_compute.
  - exists data', heap'. split; [exact E|exact Ht].
Defined.

Lemma d_path_deep_witness :
  ∃ data' heap',
    bpf_d_path_tetragon (chain_kmem 1) (Path 532 2150) chain_root
      (Some (replicate 4352 255)) (replicate 4096 255) = (257, data', Some heap') ∧
    take 257 data' = join (replicate 128 [97]) ++ [0].
Proof.
  apply (d_path_deep (chain_kmem 1) chain_root (Path 532 2150)
    (replicate 128 (replicate 1 97)) 2022 500 (replicate 4352 255) (replicate 4096 255)).
  - apply (chain_climbs 1 128 22); lia.
  - done.
  - by rewrite length_replicate.
  - by rewrite length_replicate.
  - by vm_compute.
Defined.

Lemma d_path_too_long_witness :
  ∃ data' heap',
    bpf_d_path_tetragon (chain_kmem 255) (Path 532 2016) chain_root
      (Some (replicate 4352 255)) (replicate 4096 255) = (1, data', Some heap') ∧
    take 1 data' = [0].
Proof.
  apply (d_path_too_long (chain_kmem 255) chain_root (Path 532 2016)
    (replicate 16 (replicate 255 97))).
  - left. exists 16%nat. split; [apply (chain_resolves 255 16); lia|].
    unfold PROBE_CWD_READ_ITERATIONS. lia.
  - by rewrite length_replicate.
  - by rewrite length_replicate.
  - by vm_compute.
Defined.
