(* ===== verification/FsEvents.v ===== *)
(** * File events

    The LSM programs of [recorder.bpf.c] and the file events they send: the
    repeated accesses of a thread that are discarded, the path resolved into a
    per CPU buffer, and the counter that keeps a second program on the same
    CPU from using that buffer. *)
From S2P Require Import Prelude Bpf State Names Keys Report DPath.

(** What is read of the file an event is about: the path, and the inode, super
    block device and super block magic behind its dentry, zero if there is no
    inode yet. *)
Record fs_target := FsTarget {
  ft_path : path; ft_inode : Z; ft_dev : Z; ft_magic : Z
}.

(** What is read of a [struct file]. *)
Record kfile := KFile { f_target : fs_target; f_mode : Z; f_i_mode : Z }.

(** Whether an array map of [max] entries has an entry [i]. *)
Definition array_entry (max i : Z) : bool := (0 <=? i) && (i <? max).

Section fs.
Context {KR : Kernel} (cfg : Rodata) (cur : Task).
(* the memory the path resolution walks, and task->fs->root *)
Context (k : kmem) (root : path).

Definition make_path (dentry : Z) (dir : path) : path := Path (p_mnt dir) dentry.

Definition scratch (w : World) : event_data :=
  default zero_event_data (file_event_scratch w !! cpu cur).
Definition set_scratch (e : event_data) (w : World) : World :=
  {| w with file_event_scratch := <[cpu cur := e]> (file_event_scratch w) |}.
Definition heap_buffer (w : World) : option (list Z) :=
  if array_entry 1 0 then Some (default zero_buffer_heap (buffer_heap_map w !! cpu cur))
  else None.

(** The path of [filename] in [event->data], by one of the two routines. *)
Definition resolve_path (filename : path) (custom_bpf_d_path : bool) : bpf Z :=
  act (λ w,
    let e := scratch w in
    if custom_bpf_d_path then
      let '(r, data, heap) :=
        bpf_d_path_tetragon k filename root (heap_buffer w) (ed_data e) in
      let w := set_scratch (EventData (ed_hdr e) data) w in
      (r, {| w with buffer_heap_map :=
             match heap with
             | Some h => <[cpu cur := h]> (buffer_heap_map w)
             | None => buffer_heap_map w
             end |})
    else
      let '(r, data) :=
        bpf_d_path (p_mnt filename) (p_dentry filename) (Z.to_nat PATH_MAX) in
      (r, set_scratch (EventData (ed_hdr e) data) w)).

(** [event->data] with a slash after the path of a directory. *)
Definition append_slash (idx : Z) : bpf unit :=
  upd (λ w, set_scratch
    (EventData (ed_hdr (scratch w)) (write_at (ed_data (scratch w)) idx [47; 0])) w).

Definition set_header (h : event_header) : bpf unit :=
  upd (λ w, set_scratch (EventData h (ed_data (scratch w))) w).

Definition same_file (last : option file_event_state) (inode dev : Z) (overlay : bool) : bool :=
  match last with
  | None => false
  | Some l =>
      z2b inode && (inode =? fe_inode l) &&
      ((dev =? fe_dev l) || (z2b (fe_overlay l) && negb overlay))
  end.

(** The length of the path once it is in [event->data], with the slash of a
    directory; [None] if it cannot be sent. *)
Definition event_path (filename : path) (i_mode : Z) (custom : bool) : bpf (option Z) :=
  pathlen ← resolve_path filename custom;
  if pathlen <? 0 then mret None
  else if Z.land i_mode S_IFMT =? S_IFDIR then
    let idx := u16 (pathlen - 1) in
    if idx <? PATH_MAX - 2 then
      _ ← append_slash idx;
      mret (Some (pathlen + 1))
    else mret None
  else mret (Some pathlen).

(** The number of bytes of [event] that are sent. *)
Definition event_size (pathlen : Z) : Z :=
  let size := Z.land (u64 (sizeof_event_header + pathlen)) 0x1fff in
  if sizeof_event_data <? size then sizeof_event_data else size.

Definition file_record (size : Z) (w : World) : ring_record :=
  FileRecord (ed_hdr (scratch w))
    (take (Z.to_nat (size - sizeof_event_header)) (ed_data (scratch w))).

(** Remember the event that was sent for the thread. *)
Definition remember (tid : Z) (last : option file_event_state) (same : bool)
    (inode flags dev : Z) (overlay : bool) : bpf unit :=
  match last with
  | Some _ =>
      map_store last_file_event_L tid (λ l,
        FileEventState inode (if same then Z.lor flags (fe_flags l) else flags)
          dev (b2z overlay))
  | None =>
      _ ← bpf_lru_update_elem last_file_event_L MAX_ENTRIES tid
            (FileEventState inode flags dev (b2z overlay)) BPF_ANY;
      mret tt
  end.

Definition register_fs_event_locked (t : fs_target) (i_mode flags : Z)
    (custom : bool) (mntns pid inode dev : Z) (overlay : bool) : bpf unit :=
  let tid := cur_tid cur in
  last ← bpf_map_lookup_elem last_file_event_L tid;
  let same := same_file last inode dev overlay in
  if same && match last with
             | Some l => Z.lor flags (fe_flags l) =? fe_flags l
             | None => false
             end
  then mret tt
  else
    pathlen ← event_path (ft_path t) i_mode custom;
    match pathlen with
    | None => mret tt
    | Some pathlen =>
        _ ← set_header (EventHeader pid mntns (get_key cfg cur mntns)
              EVENT_TYPE_APPARMOR_FILE flags);
        let size := event_size pathlen in
        rc ← bpf_ringbuf_output size (file_record size);
        if negb (rc =? 0) then count_lost cur LOST_RINGBUF
        else if inode =? 0 then mret tt
        else remember tid last same inode flags dev overlay
    end.

Definition busy (w : World) : Z := default 0 (file_event_busy w !! cpu cur).

(** __sync_fetch_and_add of the counter. *)
Definition add_busy (n : Z) : bpf unit :=
  upd (λ w, {| w with file_event_busy :=
    <[cpu cur := u32 (busy w + n)]> (file_event_busy w) |}).

Definition register_fs_event (t : fs_target) (i_mode flags : Z) (custom : bool) : bpf Z :=
  if Z.land i_mode S_IFMT =? S_IFIFO then mret 0
  else
    mntns ← get_mntns cfg cur;
    if mntns =? 0 then mret 0
    else
      let overlay := ft_magic t =? OVERLAYFS_SUPER_MAGIC in
      let pid := cur_pid cur in
      if negb (array_entry 1 0) then mret 0
      else
        _ ← add_busy 1;
        b ← get busy;
        if negb (b =? 1) then
          _ ← add_busy (-1);
          _ ← count_lost cur LOST_FILE_EVENT_BUSY;
          mret 0
        else
          _ ← register_fs_event_locked t i_mode flags custom mntns pid
                (ft_inode t) (ft_dev t) overlay;
          _ ← add_busy (-1);
          mret 0.

(** [None] is the null pointer. *)
Definition register_file_event (file : option kfile) (flags : Z) : bpf Z :=
  match file with
  | None => mret 0
  | Some f => register_fs_event (f_target f) (f_i_mode f) flags false
  end.

(** ** The hooks *)

Definition flag_if (v mask flag : Z) (flags : Z) : Z :=
  if z2b (Z.land v mask) then Z.lor flags flag else flags.

Definition open_flags (mode : Z) : Z :=
  flag_if mode FMODE_EXEC FLAG_EXEC
    (flag_if mode FMODE_WRITE FLAG_WRITE (flag_if mode FMODE_READ FLAG_READ 0)).

Definition mmap_flags (prot : Z) : Z :=
  flag_if prot PROT_EXEC FLAG_EXEC
    (flag_if prot PROT_WRITE FLAG_WRITE (flag_if prot PROT_READ FLAG_READ 0)).

(** Every program returns at once while the recorder is not recording. *)
Definition when_recording (p : bpf Z) : bpf Z :=
  recording ← get is_recording_cached;
  if negb recording then mret 0 else p.

Definition file_open (file : kfile) : bpf Z :=
  when_recording (register_file_event (Some file) (open_flags (f_mode file))).

Definition file_lock (file : option kfile) : bpf Z :=
  when_recording (register_file_event file FLAG_WRITE).

Definition mmap_file (file : option kfile) (prot : Z) : bpf Z :=
  when_recording (register_file_event file (mmap_flags prot)).

Definition bprm_check_security (file : option kfile) : bpf Z :=
  when_recording (register_file_event file FLAG_SPAWN).

(** The target of a path hook is a dentry of a directory; [t] holds what is
    read of its inode. *)
Definition path_mkdir (dir : path) (dentry : Z) (t : fs_target) (mode : Z) : bpf Z :=
  let filename := make_path dentry dir in
  when_recording (register_fs_event {| t with ft_path := filename |}
    (u16 (Z.lor mode S_IFDIR)) (Z.lor FLAG_READ FLAG_WRITE) true).

Definition path_mknod (dir : path) (dentry : Z) (t : fs_target) (mode : Z) : bpf Z :=
  let filetype := Z.land mode S_IFMT in
  let not_a_regular_file :=
    (filetype =? S_IFCHR) || (filetype =? S_IFBLK) ||
    (filetype =? S_IFIFO) || (filetype =? S_IFSOCK) in
  let file_flags :=
    if not_a_regular_file then Z.lor FLAG_WRITE FLAG_READ else FLAG_WRITE in
  when_recording (register_fs_event {| t with ft_path := make_path dentry dir |}
    0 file_flags true).

Definition path_unlink (dir : path) (dentry : Z) (t : fs_target) : bpf Z :=
  when_recording (register_fs_event {| t with ft_path := make_path dentry dir |}
    0 (Z.lor FLAG_READ FLAG_WRITE) true).
End fs.

#[global] Arguments same_file : simpl never.
#[global] Arguments event_size : simpl never.

Ltac unfold_progs ::=
  progress unfold count_lost, resolve_path, append_slash, set_header, event_path,
    remember, register_fs_event_locked.

(** ** What a file event is *)

Section facts.
Context {KR : Kernel} {KRok : KernelOk} (cfg : Rodata) (cur : Task).
Context (k : kmem) (root : path).

Lemma scratch_set e w : scratch cur (set_scratch cur e w) = e.
Proof. unfold scratch, set_scratch. cbn. by rewrite lookup_insert_eq. Qed.

(** Everything but the two per CPU buffers. *)
Definition same_but_buffers (w w' : World) : Prop :=
  tick w' = tick w ∧ events w' = events w ∧ last_file_event w' = last_file_event w ∧
  lost_events w' = lost_events w ∧ file_event_busy w' = file_event_busy w.

Lemma land_fff_range z : 0 <= Z.land z 0xfff <= 4095.
Proof.
  change (Z.land z 0xfff) with (Z.land z (Z.ones 12)). rewrite Z.land_ones by lia.
  change (2 ^ 12) with 4096. pose proof (Z.mod_pos_bound z 4096). lia.
Qed.

Lemma resolve_path_spec filename custom w :
  let r := result (resolve_path cur k root filename custom) w in
  let w' := exec (resolve_path cur k root filename custom) w in
  same_but_buffers w w' ∧ (0 <= r → 1 <= r <= PATH_MAX) ∧
  ed_hdr (scratch cur w') = ed_hdr (scratch cur w).
Proof.
  cbv zeta. unfold result, exec, resolve_path. cbn [act run].
  destruct custom.
  - unfold bpf_d_path_tetragon.
    destruct (d_path_local _ _ _ _) as [[[[heap fullpath] size] error]|]; brun.
    + split_and!; try done.
      * intros _. pose proof (land_fff_range size). unfold PATH_MAX. lia.
      * unfold scratch. cbn. by rewrite lookup_insert_eq.
    + split_and!; try done. unfold scratch. cbn. by rewrite lookup_insert_eq.
  - pose proof (bpf_d_path_ok (p_mnt filename) (p_dentry filename) (Z.to_nat PATH_MAX)) as Hd.
    destruct (bpf_d_path _ _ _) as [r data]. brun. split_and!; try done.
    + intros Hr. destruct Hd as [_ Hd]; [unfold PATH_MAX; lia|].
      destruct (Hd Hr) as [Hr' _]. rewrite Z2Nat.id in Hr' by done. done.
    + by rewrite scratch_set.
Qed.

Lemma event_path_spec filename i_mode custom w :
  let r := result (event_path cur k root filename i_mode custom) w in
  let w' := exec (event_path cur k root filename i_mode custom) w in
  same_but_buffers w w' ∧ (∀ n, r = Some n → 1 <= n <= PATH_MAX).
Proof.
  cbv zeta. unfold event_path. rewrite exec_bind, result_bind.
  destruct (resolve_path_spec filename custom w) as (Hs & Hr & _).
  set (n := result (resolve_path cur k root filename custom) w) in *.
  set (w1 := exec (resolve_path cur k root filename custom) w) in *.
  destruct (Z.ltb_spec n 0); [by split|]. specialize (Hr ltac:(lia)).
  unfold PATH_MAX in *.
  destruct (_ =? S_IFDIR); [|split; [done|]; intros m [= <-]; lia].
  rewrite wrap_small by (unfold in_u; lia).
  destruct (Z.ltb_spec (n - 1) (4096 - 2)); [|by split].
  split; [done|]. intros m [= <-]. lia.
Qed.

Lemma event_size_exact n : 1 <= n <= PATH_MAX → event_size n = sizeof_event_header + n.
Proof.
  unfold PATH_MAX. intros Hn. unfold event_size, sizeof_event_data, sizeof_event_header, PATH_MAX.
  rewrite wrap_small by (unfold in_u; lia).
  change (Z.land _ 0x1fff) with (Z.land (4 + 4 + 8 + 1 + 8 + n) (Z.ones 13)).
  rewrite Z.land_ones, Z.mod_small by lia.
  destruct (Z.ltb_spec (4 + 4 + 8 + 1 + 8 + 4096) (4 + 4 + 8 + 1 + 8 + n)); lia.
Qed.

(** The event that is sent for an access: its header, and the bytes of the
    path buffer in use. *)
Definition access_record (mntns flags : Z) (data : list Z) : ring_record :=
  FileRecord (EventHeader (cur_pid cur) mntns (get_key cfg cur mntns)
    EVENT_TYPE_APPARMOR_FILE flags) data.

(** A repeated access: the thread's last event covers it. *)
Definition covered (last : option file_event_state) (inode dev flags : Z) (overlay : bool) : bool :=
  same_file last inode dev overlay &&
  match last with Some l => Z.lor flags (fe_flags l) =? fe_flags l | None => false end.

Section locked.
Context (t : fs_target) (i_mode flags : Z) (custom : bool) (mntns : Z) (overlay : bool).
Abbreviation locked := (register_fs_event_locked cfg cur k root t i_mode flags custom
  mntns (cur_pid cur) (ft_inode t) (ft_dev t) overlay).
Abbreviation path_of := (event_path cur k root (ft_path t) i_mode custom).

Lemma locked_covered w :
  covered (last_file_event w !! cur_tid cur) (ft_inode t) (ft_dev t) flags overlay = true →
  run locked w = (tt, w).
Proof.
  unfold covered, register_fs_event_locked. cbv zeta. brun. intros H. by rewrite H.
Qed.

Lemma locked_no_path w :
  covered (last_file_event w !! cur_tid cur) (ft_inode t) (ft_dev t) flags overlay = false →
  result path_of w = None → exec locked w = exec path_of w.
Proof.
  unfold covered, register_fs_event_locked. cbv zeta. intros H Hp. unfold exec. brun.
  rewrite H. rewrite run_bind. by rewrite Hp.
Qed.

(** A sent event, and what is remembered of it. *)
Lemma locked_sent w n :
  covered (last_file_event w !! cur_tid cur) (ft_inode t) (ft_dev t) flags overlay = false →
  result path_of w = Some n →
  let w' := exec locked w in
  let data := take (Z.to_nat n) (ed_data (scratch cur (exec path_of w))) in
  let last := last_file_event w !! cur_tid cur in
  let new := FileEventState (ft_inode t)
    (if same_file last (ft_inode t) (ft_dev t) overlay
     then Z.lor flags (default 0 (fe_flags <$> last)) else flags)
    (ft_dev t) (b2z overlay) in
  file_event_busy w' = file_event_busy w ∧
  if rb_room (tick w) (sizeof_event_header + n) then
    events w' = events w ++ [Some (access_record mntns flags data)] ∧
    (ft_inode t = 0 → last_file_event w' = last_file_event w) ∧
    (ft_inode t ≠ 0 → ∀ l, last_file_event w' !! cur_tid cur = Some l → l = new)
  else
    events w' = events w ∧ last_file_event w' = last_file_event w ∧
    lost_events w' = lost_events (lost_world cur LOST_RINGBUF w).
Proof.
  intros Hc Hp. cbv zeta. unfold covered in Hc. unfold register_fs_event_locked, exec.
  cbv zeta. brun. rewrite Hc.
  destruct (event_path_spec (ft_path t) i_mode custom w) as [(Ht & He & Hl & Hlost & Hb) Hr].
  specialize (Hr n Hp). rewrite run_bind, Hp.
  set (w1 := exec path_of w) in *. fold w1. change (run path_of w).2 with w1.
  rewrite event_size_exact by done. unfold set_header. brun.
  set (w2 := set_scratch cur _ w1).
  change (tick w2) with (tick w1). rewrite Ht.
  assert (events w2 = events w ∧ last_file_event w2 = last_file_event w ∧
    lost_events w2 = lost_events w ∧ file_event_busy w2 = file_event_busy w)
    as (He2 & Hl2 & Hlost2 & Hb2) by done.
  destruct (rb_room (tick w) (sizeof_event_header + n)); brun.
  - unfold file_record, access_record.
    assert (scratch cur w2 = EventData (EventHeader (cur_pid cur) mntns
      (get_key cfg cur mntns) EVENT_TYPE_APPARMOR_FILE flags)
      (ed_data (scratch cur w1))) as -> by apply scratch_set.
    cbn [ed_hdr ed_data].
    replace (sizeof_event_header + n - sizeof_event_header) with n by lia.
    rewrite He2. destruct (Z.eqb_spec (ft_inode t) 0) as [Hi|Hi]; brun; [done|].
    unfold remember. destruct (last_file_event w !! cur_tid cur) as [l|] eqn:E; brun.
    + rewrite Hl2, lookup_alter_eq, E. cbn.
      split_and!; [done|done|done|]. by intros _ l' [= <-].
    + rewrite Hl2. destruct (lru_update _ _ _ _ _ _) as [rc m] eqn:Eu. brun.
      split_and!; [done|done|done|]. intros _ l Hm.
      destruct (decide (rc = 0)) as [->|Hrc].
      * apply lru_update_0 in Eu as [Hk _]. rewrite Hk in Hm. by injection Hm as <-.
      * apply lru_update_err in Eu as (_ & Hk & _); [|done]. congruence.
  - change (-11 =? 0) with false. brun. rewrite run_count_lost by done. unfold lost_world. brun. by rewrite He2, Hl2, Hlost2.
Qed.
End locked.

(** ** The counter around the buffers *)

Definition bump (n : Z) (w : World) : World :=
  {| w with file_event_busy := <[cpu cur := u32 (busy cur w + n)]> (file_event_busy w) |}.

Definition busy_ok (w : World) : Prop := 0 <= busy cur w < 2 ^ 32 - 1.

Lemma busy_bump n w : busy cur (bump n w) = u32 (busy cur w + n).
Proof. unfold busy, bump. cbn. by rewrite lookup_insert_eq. Qed.

Section event.
Context (t : fs_target) (i_mode flags : Z) (custom : bool).
Context (Hfifo : Z.land i_mode S_IFMT ≠ S_IFIFO).
Abbreviation mntns := (mntns_inum cur).
Abbreviation overlay := (ft_magic t =? OVERLAYFS_SUPER_MAGIC).

Lemma run_register_fs_event w :
  included cfg cur w = true → busy_ok w →
  run (register_fs_event cfg cur k root t i_mode flags custom) w =
  if busy cur w =? 0 then
    (0, bump (-1) (exec (register_fs_event_locked cfg cur k root t i_mode flags custom
      mntns (cur_pid cur) (ft_inode t) (ft_dev t) overlay) (bump 1 w)))
  else (0, lost_world cur LOST_FILE_EVENT_BUSY (bump (-1) (bump 1 w))).
Proof.
  intros Hi Hb. unfold busy_ok in Hb. unfold register_fs_event.
  destruct (Z.eqb_spec (Z.land i_mode S_IFMT) S_IFIFO); [done|].
  rstep with (run_get_mntns _ _ _). rewrite Hi.
  pose proof (included_inum cfg cur w Hi). destruct (Z.eqb_spec mntns 0); [done|].
  change (array_entry 1 0) with true. unfold add_busy. brun.
  fold (bump 1 w). rewrite busy_bump, wrap_small by (unfold in_u; lia).
  destruct (Z.eqb_spec (busy cur w) 0) as [E|E].
  - rewrite E. change (0 + 1 =? 1) with true. brun. rewrite run_bind. done.
  - destruct (Z.eqb_spec (busy cur w + 1) 1); [lia|]. brun.
    fold (bump (-1) (bump 1 w)). rewrite run_bind. unfold result, exec.
    by rewrite run_count_lost by done.
Qed.

Lemma locked_keeps_busy pid inode dev ov :
  keeps file_event_busy (register_fs_event_locked cfg cur k root t i_mode flags custom
    mntns pid inode dev ov).
Proof. solve_keeps. Qed.

Lemma register_keeps_busy w :
  included cfg cur w = true → busy_ok w →
  busy cur (exec (register_fs_event cfg cur k root t i_mode flags custom) w) = busy cur w.
Proof.
  intros Hi Hb. unfold exec. rewrite run_register_fs_event by done.
  unfold busy_ok in Hb. destruct (Z.eqb_spec (busy cur w) 0) as [E|E]; brun.
  - rewrite busy_bump. unfold busy at 1.
    rewrite (keeps_exec _ _ _ (locked_keeps_busy _ _ _ _)).
    change (default 0 (file_event_busy (bump 1 w) !! cpu cur)) with (busy cur (bump 1 w)).
    by rewrite busy_bump, E.
  - change (busy cur (lost_world cur LOST_FILE_EVENT_BUSY ?w)) with (busy cur w).
    rewrite !busy_bump, wrap_add_l, wrap_small by (unfold in_u; lia). lia.
Qed.

(** The counter of a CPU is the same after a file event as before it.
    If another program holds the buffer of the CPU, nothing but the count
    of lost events changes: no event is sent, the buffer is not written,
    and the thread's last event is kept, so that a retry is not taken for
    a repetition. *)
Theorem fs_event_busy w :
  included cfg cur w = true → busy_ok w →
  let w' := exec (register_fs_event cfg cur k root t i_mode flags custom) w in
  busy cur w' = busy cur w ∧
  (busy cur w ≠ 0 →
    events w' = events w ∧ last_file_event w' = last_file_event w ∧
    file_event_scratch w' = file_event_scratch w ∧
    buffer_heap_map w' = buffer_heap_map w ∧
    lost_events w' = lost_events (lost_world cur LOST_FILE_EVENT_BUSY w)).
Proof.
  intros Hi Hb. split; [by apply register_keeps_busy|]. intros E.
  unfold exec. rewrite run_register_fs_event by done.
  by destruct (Z.eqb_spec (busy cur w) 0).
Qed.
End event.

(** ** Repeated accesses *)

Lemma same_file_refl inode flags dev overlay :
  inode ≠ 0 →
  same_file (Some (FileEventState inode flags dev (b2z overlay))) inode dev overlay = true.
Proof.
  intros Hi. unfold same_file. cbn. rewrite !Z.eqb_refl. apply z2b_true in Hi.
  by rewrite Hi.
Qed.

Lemma lor_subset_trans a b c : Z.lor a b = b → Z.lor a (Z.lor b c) = Z.lor b c.
Proof. intros H. by rewrite Z.lor_assoc, H. Qed.

(** Once an access of a file was sent, the same thread accessing the same
    file with no more flags sends nothing, as long as the map still holds
    the thread's last event; and nothing else changes either. *)
Theorem fs_event_repeat t i_mode flags custom i_mode' flags' custom' w :
  let w1 := exec (register_fs_event cfg cur k root t i_mode flags custom) w in
  Z.land i_mode S_IFMT ≠ S_IFIFO → Z.land i_mode' S_IFMT ≠ S_IFIFO →
  included cfg cur w = true → included cfg cur w1 = true → busy cur w = 0 →
  ft_inode t ≠ 0 → Z.lor flags' flags = flags →
  events w1 ≠ events w → is_Some (last_file_event w1 !! cur_tid cur) →
  exec (register_fs_event cfg cur k root t i_mode' flags' custom') w1 =
  bump (-1) (bump 1 w1).
Proof.
  intros w1 Hf Hf' Hi Hi1 Hb Hino Hsub Hsent [l Hl].
  assert (busy_ok w) as Hbw by (unfold busy_ok; lia).
  pose proof (register_keeps_busy t i_mode flags custom Hf w Hi Hbw) as Hb1.
  fold w1 in Hb1. rewrite Hb in Hb1.
  unfold exec. rewrite run_register_fs_event by (done || (unfold busy_ok; lia)).
  rewrite Hb1. change (0 =? 0) with true. cbv iota. cbn [snd]. f_equal.
  unfold exec. rewrite locked_covered; [done|].
  change (last_file_event (bump 1 w1)) with (last_file_event w1). rewrite Hl.
  revert Hl Hsent. unfold w1, exec. rewrite run_register_fs_event by done.
  rewrite Hb. change (0 =? 0) with true. cbv iota. cbn [snd].
  match goal with |- context [exec ?p (bump 1 w)] => set (p1 := p); set (w2 := exec p1 (bump 1 w)) end.
  change (last_file_event (bump (-1) w2)) with (last_file_event w2).
  change (events (bump (-1) w2)) with (events w2). intros Hl Hsent.
  change (events w) with (events (bump 1 w)) in Hsent.
  set (ov := ft_magic t =? OVERLAYFS_SUPER_MAGIC) in *.
  destruct (covered (last_file_event (bump 1 w) !! cur_tid cur) (ft_inode t) (ft_dev t) flags ov)
    eqn:Hc.
  { exfalso. apply Hsent. unfold w2, exec, p1. by rewrite locked_covered. }
  destruct (result (event_path cur k root (ft_path t) i_mode custom) (bump 1 w)) as [n|] eqn:Hp.
  2: { exfalso. apply Hsent. unfold w2, p1. rewrite locked_no_path by done.
    destruct (event_path_spec (ft_path t) i_mode custom (bump 1 w)) as [(_ & He & _) _]. done. }
  destruct (locked_sent t i_mode flags custom (mntns_inum cur) ov (bump 1 w) n Hc Hp)
    as [_ Hs].
  destruct (rb_room _ _); [|exfalso; apply Hsent; apply Hs].
  destruct Hs as (_ & _ & Hs). rewrite (Hs Hino l Hl).
  unfold covered. rewrite same_file_refl by done. cbn [fe_flags andb].
  apply Z.eqb_eq. destruct (same_file _ _ _ _); [by apply lor_subset_trans|done].
Qed.
End facts.

(** ** Witnesses *)

Section witnesses.
#[local] Existing Instance demo_kernel.
#[local] Existing Instance demo_kernel_ok.

Definition demo_target : fs_target := FsTarget (Path 532 2003) 77 1 0.
Definition demo_file : kfile := KFile demo_target 1 0x8000.
Definition busy_world : World := {| demo_world with file_event_busy := {[ 0 := 1 ]} |}.

(** A second program on the CPU. *)
Lemma fs_event_busy_witness :
  let w' := exec (register_fs_event demo_cfg demo_task (chain_kmem 2) chain_root demo_target
    0x8000 1 false) busy_world in
  busy demo_task w' = 1 ∧ events w' = [] ∧ file_event_scratch w' = ∅.
Proof.
  destruct (fs_event_busy demo_cfg demo_task (chain_kmem 2) chain_root demo_target
    0x8000 1 false ltac:(discriminate) busy_world) as [H1 H2].
  - reflexivity.
  - split; [discriminate|reflexivity].
  - destruct H2 as (H2 & _ & H3 & _); [discriminate|].
    split; [exact H1|]. split; [exact H2|exact H3].
Defined.

(** Opening a file for reading twice. *)
Lemma fs_event_repeat_witness :
  let p := register_fs_event demo_cfg demo_task (chain_kmem 2) chain_root demo_target
    0x8000 1 false in
  let w1 := exec p demo_world in
  exec p w1 = bump demo_task (-1) (bump demo_task 1 w1).
Proof.
  apply (fs_event_repeat demo_cfg demo_task (chain_kmem 2) chain_root demo_target
    0x8000 1 false 0x8000 1 false demo_world).
  - discriminate.
  - discriminate.
  - reflexivity.
  - vm_compute. reflexivity.
  - reflexivity.
  - discriminate.
  - reflexivity.
  - vm_compute. discriminate.
  - vm_compute. by eexists.
Defined.
End witnesses.
