(* ===== verification/Hooks.v ===== *)
(** * All programs together

    The programs [recorder.bpf.c] attaches, the steps of the userspace, and
    what holds of any interleaving of them. *)
From S2P Require Import Prelude Bpf State Names Keys Report Syscalls Activity DPath FsEvents.

(** ** The programs and the userspace *)

Section hooks.
Context {KR : Kernel} (cfg : Rodata).

(** An instance of a program: for some process, with some arguments, those of
    the probed function in registers of 64 bits. *)
Inductive hook : bpf Z → Prop :=
| hook_file_open cur k root f : hook (file_open cfg cur k root f)
| hook_file_lock cur k root f : hook (file_lock cfg cur k root f)
| hook_mmap_file cur k root f prot : hook (mmap_file cfg cur k root f prot)
| hook_bprm_check cur k root f : hook (bprm_check_security cfg cur k root f)
| hook_path_mkdir cur k root dir d t mode : hook (path_mkdir cfg cur k root dir d t mode)
| hook_path_mknod cur k root dir d t mode : hook (path_mknod cfg cur k root dir d t mode)
| hook_path_unlink cur k root dir d t : hook (path_unlink cfg cur k root dir d t)
| hook_socket cur ctx : hook (sys_enter_socket cfg cur ctx)
| hook_capable cur cap opt : in_u 64 cap → hook (cap_capable cfg cur cap opt)
| hook_execve cur a b c : hook (sys_enter_execve cfg cur a b c)
| hook_execveat cur a b c : hook (sys_enter_execveat cfg cur a b c)
| hook_exec cur : hook (sched_process_exec cfg cur)
| hook_exit cur : hook (sched_process_exit cfg cur)
| hook_fork p c t : hook (sched_process_fork cfg p c t)
| hook_sys_enter cur args : hook (sys_enter cfg cur args)
| hook_getgid : hook sys_enter_getgid.
End hooks.

(** The userspace switches the recording, sets the exclusions, and removes
    entries: the syscalls of a profile it has collected, and the bookkeeping
    when a recording starts or stops. *)
Inductive user_step : World → World → Prop :=
| user_recording w b : user_step w {| w with is_recording := [b] |}
| user_exclude_mntns w m : user_step w {| w with exclude_mntns := m |}
| user_exclude_keys w m : user_step w {| w with exclude_keys := m |}
| user_syscalls w key :
    user_step w {| w with recorded_syscalls := delete key (recorded_syscalls w) |}
| user_active w a : user_step w {| w with active_pids := delete a (active_pids w) |}
| user_child w p : user_step w {| w with child_pids := delete p (child_pids w) |}
| user_caps w key : user_step w {| w with recorded_caps := delete key (recorded_caps w) |}
| user_sockets w key :
    user_step w {| w with recorded_sockets := delete key (recorded_sockets w) |}.

Ltac unfold_progs ::=
  progress unfold get_mntns, key_excluded, filtered_out, count_lost, submit_event,
    initialized_before, clear_seccomp, clear_apparmor, fetch_or_bit,
    already_recorded, report_again, report_once, report_process, container_start,
    syscalls_value, sys_enter, sys_enter_getgid, sys_enter_socket, cap_capable,
    submit_exec_event, sys_enter_execve, sys_enter_execveat, sched_process_exec,
    sched_process_exit, sched_process_fork, resolve_path, append_slash, set_header,
    event_path, remember, register_fs_event_locked, add_busy, register_fs_event,
    register_file_event, when_recording, file_open, file_lock, mmap_file,
    bprm_check_security, path_mkdir, path_mknod, path_unlink.

(** ** Results *)

Ltac solve_leaves :=
  repeat match goal with
  | |- ∀ _, _ => intro
  | |- leaves _ (_ ≫= _) => apply leaves_bind
  | |- leaves _ (mret _) => constructor; reflexivity
  | |- leaves _ (if ?b then _ else _) => destruct b
  | |- leaves _ (match ?o with Some _ => _ | None => _ end) => destruct o
  | |- leaves _ (let '(_, _) := ?p in _) => destruct p
  | |- leaves _ _ => unfold_progs; cbv zeta
  end.

Section results.
Context {KR : Kernel} (cfg : Rodata).

Lemma hook_leaves p : hook cfg p → leaves (λ r, r = 0) p.
Proof. intros []; solve_leaves. Qed.

(** C8 No program ever returns anything but 0, whatever the map updates,
    reservations and reads in it return and however the programs interleave:
    an LSM program never denies the operation it observes. *)
Theorem hooks_return_0 w0 ts w i r :
  reachable (hook cfg) user_step w0 (ts, w) → ts !! i = Some (Ret r) → r = 0.
Proof.
  apply (pool_leaves (hook cfg) user_step (λ r, r = 0)). apply hook_leaves.
Qed.
End results.

(** ** Invariants of any interleaving *)

Lemma keeps_preserves {T A} (π : World → T) (P : T → Prop) (p : bpf A) :
  keeps π p → preserves (λ w, P (π w)) p.
Proof. intros H. eapply guar_preserves; [|exact H]. simpl. intros w w' ->. done. Qed.

Ltac walk_preserves :=
  repeat match goal with
  | |- ∀ _, _ => intro
  | |- preserves (λ w, ?P (?π w)) ?p => apply (keeps_preserves π P p); solve [solve_keeps]
  | |- preserves _ (_ ≫= _) => apply preserves_bind
  | |- preserves _ (mret _) => apply preserves_ret
  | |- preserves _ (if ?b then _ else _) => destruct b
  | |- preserves _ (match ?o with Some _ => _ | None => _ end) => destruct o
  | |- preserves _ (let '(_, _) := ?p in _) => destruct p
  | |- preserves _ (upd _) => apply preserves_upd; intros ? ?
  | |- preserves _ (act _) => apply preserves_actI; intros ? ?
  | |- preserves _ (bpf_map_update_elem _ _ _ _ _) => apply preserves_actI; intros ? ?
  | |- preserves _ (bpf_lru_update_elem _ _ _ _ _) => apply preserves_actI; intros ? ?
  | |- preserves _ (bpf_map_delete_elem _ _) => apply preserves_actI; intros ? ?
  | |- preserves _ (map_store _ _ _) => apply preserves_upd; intros ? ?
  | |- preserves _ (map_fetch _ _ _ _) => apply preserves_actI; intros ? ?
  | |- preserves _ _ => unfold_progs; cbv zeta
  end.

Section invariants.
Context {KR : Kernel} {KRok : KernelOk} (cfg : Rodata).

(** Every recorded entry is a bit map of [MAX_SYSCALLS] zeros and ones, and
    there are at most [MAX_ENTRIES] of them. *)
Definition syscalls_ok (m : gmap Z (list Z)) : Prop :=
  Z.of_nat (size m) <= MAX_ENTRIES ∧
  ∀ k v, m !! k = Some v →
    Z.of_nat (length v) = MAX_SYSCALLS ∧ Forall (λ b, b = 0 ∨ b = 1) v.

Lemma syscalls_ok_delete k m : syscalls_ok m → syscalls_ok (delete k m).
Proof.
  intros [Hs Hv]. split.
  - enough (size (delete k m) <= size m)%nat by lia.
    apply map_subseteq_size, delete_subseteq.
  - intros k' v Hk. apply lookup_delete_Some in Hk as [_ Hk]. eauto.
Qed.

Lemma syscalls_ok_mark k id m :
  syscalls_ok m → syscalls_ok (alter (mark_syscall id) k m).
Proof.
  intros [Hs Hv]. split; [by rewrite <- (size_dom (alter _ _ _)), dom_alter_L, size_dom|].
  intros k' v. rewrite lookup_alter_Some.
  intros [(-> & v' & Hk & ->)|(_ & Hk)]; [|eauto].
  destruct (Hv _ _ Hk) as [Hl Hf]. unfold mark_syscall. rewrite length_insert.
  split; [done|]. apply Forall_insert; auto.
Qed.

Lemma syscalls_ok_update t k m :
  syscalls_ok m →
  syscalls_ok (hash_update t MAX_ENTRIES m k no_syscalls BPF_NOEXIST).2.
Proof.
  intros [Hs Hv]. destruct (hash_update _ _ _ _ _ _) as [rc m'] eqn:E. simpl.
  destruct (decide (rc = 0)) as [->|Hrc].
  - destruct (decide (is_Some (m !! k))) as [Hk|Hk].
    { pose proof (hash_update_exist t MAX_ENTRIES m k no_syscalls Hk) as Hx.
      by rewrite E in Hx. }
    apply eq_None_not_Some in Hk.
    apply hash_update_0 in E as [-> Hroom]. specialize (Hroom Hk). split.
    + rewrite map_size_insert_None by done. lia.
    + intros k' v [[_ <-]|[_ Hk']]%lookup_insert_Some; [|eauto].
      unfold no_syscalls. rewrite length_replicate. split; [done|].
      apply Forall_replicate. auto.
  - apply hash_update_err in E as [-> _]; done.
Qed.

Lemma hook_syscalls_ok p :
  hook cfg p → preserves (λ w, syscalls_ok (recorded_syscalls w)) p.
Proof.
  intros []; walk_preserves.
  all: try (brun; repeat case_match; simplify_eq; brun;
    auto using syscalls_ok_delete, syscalls_ok_mark; fail).
  brun. match goal with |- context [hash_update ?t ?m ?r ?k ?v ?f] =>
    pose proof (syscalls_ok_update t k r ltac:(assumption)) as Hu end.
  by destruct (hash_update _ _ _ _ _ _).
Qed.

(** No program excludes anything. *)
Lemma hook_keeps_excluded p : hook cfg p → keeps (λ w, (exclude_mntns w, exclude_keys w)) p.
Proof. intros []; solve_keeps. Qed.

(** In every interleaving of the programs on any number of CPUs with the
    userspace, the recorded syscalls of a key are a bit map of
    [MAX_SYSCALLS] zeros and ones, and the map does not exceed its size. *)
Lemma syscalls_bitmaps w0 ts w :
  syscalls_ok (recorded_syscalls w0) →
  reachable (hook cfg) user_step w0 (ts, w) → syscalls_ok (recorded_syscalls w).
Proof.
  intros H0 Hr.
  apply (pool_preserves (hook cfg) user_step (λ w, syscalls_ok (recorded_syscalls w)))
    in Hr as [? _]; [done|apply hook_syscalls_ok| |done].
  intros w1 w2 H Hu. destruct Hu; brun; auto using syscalls_ok_delete.
Qed.
End invariants.

(** ** Witnesses *)

Section witnesses.
#[local] Existing Instance demo_kernel.
#[local] Existing Instance demo_kernel_ok.

Lemma hooks_return_0_witness :
  result (file_open demo_cfg demo_task (chain_kmem 2) chain_root demo_file) demo_world = 0.
Proof.
  apply (hooks_return_0 demo_cfg demo_world
    [Ret (result (file_open demo_cfg demo_task (chain_kmem 2) chain_root demo_file) demo_world)]
    (exec (file_open demo_cfg demo_task (chain_kmem 2) chain_root demo_file) demo_world) 0).
  - apply run_reachable. constructor.
  - reflexivity.
Defined.
End witnesses.
