(* ===== verification/Inflight.v ===== *)
(** * Marks and the events they stand for

    The programs mark something as reported and send the event for it in two
    different accesses, or more, and other programs run in between.  This file
    has the protocol they follow for that, as a transition system of phases,
    and its invariant: a mark stands for an event the userspace has, or for
    one that a running program is about to send, or about to give up.

    The protocol is stated for facts of any type [X]: [marked w x] is the mark,
    [tells r x] a record that tells the userspace, [kills r x] a record that
    makes the userspace forget it. *)
From S2P Require Import Prelude Bpf State Names Keys Report Activity.

Section protocol.
Context {X : Type} (marked : World → X → Prop) (tells kills : ring_record → X → Prop).
Context {kills_dec : ∀ r x, Decision (kills r x)}.

(** ** Phases *)

Inductive phase :=
| Idle
| Pending (s : nat)                (* a record that kills nothing is reserved *)
| Marked (x : X)                   (* marked, and nothing reserved yet *)
| Reserved (x : X) (s : nat)       (* marked, and the record reserved *)
| Failed (x : X)                   (* marked, and the reservation failed *)
| Killing (r : ring_record) (s : nat) (* about to submit [r], which kills *)
| Killed (r : ring_record).        (* submitted, and the marks still there *)

Definition slot (ph : phase) : option nat :=
  match ph with Pending s | Reserved _ s | Killing _ s => Some s | _ => None end.

(** No record after the slot [s] makes the userspace forget [x]. *)
Definition safe_after (w : World) (x : X) (s : nat) : Prop :=
  ∀ s' r, (s < s')%nat → events w !! s' = Some (Some r) → ¬ kills r x.

Definition told (w : World) (x : X) : Prop :=
  ∃ s r, events w !! s = Some (Some r) ∧ tells r x ∧ safe_after w x s.

(** A program in this phase accounts for the mark of [x]. *)
Definition accounts (ph : phase) (w : World) (x : X) : Prop :=
  match ph with
  | Marked y | Failed y => x = y
  | Reserved y s => x = y ∧ safe_after w x s
  | Killing r _ | Killed r => kills r x
  | Idle | Pending _ => False
  end.

Definition own_slot (ph : phase) (w : World) : Prop :=
  ∀ s, slot ph = Some s → events w !! s = Some None.

(** ** Transitions *)

Inductive transition : phase → World → World → phase → Prop :=
| t_skip ph w w' :
    (∀ x, marked w' x → marked w x) → events w' = events w → transition ph w w' ph
| t_output ph w w' r :
    (∀ x, marked w' x → marked w x) → events w' = events w ++ [Some r] →
    (∀ x, ¬ kills r x) → transition ph w w' ph
| t_mark x w w' :
    (∀ y, marked w' y → marked w y ∨ y = x) → events w' = events w →
    transition Idle w w' (Marked x)
| t_reserve ph w w' ph' :
    (∀ x, marked w' x → marked w x) → events w' = events w ++ [None] →
    match ph, ph' with
    | Idle, Pending s => s = length (events w)
    | Idle, Killing _ s => s = length (events w)
    | Marked x, Reserved y s => y = x ∧ s = length (events w)
    | _, _ => False
    end → transition ph w w' ph'
| t_fail x w w' :
    (∀ y, marked w' y → marked w y) → events w' = events w →
    transition (Marked x) w w' (Failed x)
| t_unmark x w w' :
    (∀ y, marked w' y → marked w y ∧ y ≠ x) → events w' = events w →
    transition (Failed x) w w' Idle
| t_submit ph w w' s r ph' :
    (∀ x, marked w' x → marked w x) → events w' = <[s := Some r]> (events w) →
    match ph, ph' with
    | Pending s', Idle => s' = s ∧ ∀ x, ¬ kills r x
    | Reserved x s', Idle => s' = s ∧ tells r x ∧ ∀ y, ¬ kills r y
    | Killing r' s', Killed r'' => s' = s ∧ r' = r ∧ r'' = r
    | _, _ => False
    end → transition ph w w' ph'
| t_killed r w w' :
    (∀ x, marked w' x → marked w x ∧ ¬ kills r x) → events w' = events w →
    transition (Killed r) w w' Idle.

(** A program follows the protocol from a phase on, with [Q] at its end,
    whatever the others do between its accesses. *)
Fixpoint follows {A} (p : bpf A) (ph : phase) (Q : A → phase → Prop) : Prop :=
  match p with
  | Ret a => Q a ph
  | Act f k => ∀ w, own_slot ph w →
      ∃ ph', transition ph w (f w).2 ph' ∧ follows (k (f w).1) ph' Q
  end.

Definition idle {A} (p : bpf A) : Prop := follows p Idle (λ _ ph, ph = Idle).

Lemma follows_bind {A B} (p : bpf A) (q : A → bpf B) ph Q Q' :
  follows p ph Q → (∀ a ph', Q a ph' → follows (q a) ph' Q') → follows (p ≫= q) ph Q'.
Proof.
  unfold mbind, prog_bind. revert ph. induction p as [a|R f k IH]; intros ph Hp Hq; [by apply Hq|].
  intros w Hw. destruct (Hp w Hw) as (ph' & Ht & Hk). exists ph'. split; [done|]. by apply IH.
Qed.

Lemma idle_bind {A B} (p : bpf A) (q : A → bpf B) :
  idle p → (∀ a, idle (q a)) → idle (p ≫= q).
Proof. intros Hp Hq. eapply follows_bind; [exact Hp|]. intros a ph ->. apply Hq. Qed.

Lemma follows_act {R : Set} (f : World → R * World) ph (Q : R → phase → Prop) :
  (∀ w, own_slot ph w → ∃ ph', transition ph w (f w).2 ph' ∧ Q (f w).1 ph') →
  follows (act f) ph Q.
Proof. done. Qed.

(** An access that marks nothing and sends nothing. *)
Lemma follows_skip {R : Set} (f : World → R * World) ph :
  (∀ w x, marked (f w).2 x → marked w x) → (∀ w, events (f w).2 = events w) →
  follows (act f) ph (λ _ ph', ph' = ph).
Proof. intros Hm He. apply follows_act. intros w _. exists ph. split; [|done]. by apply t_skip; [apply Hm|]. Qed.

(** ** The invariant *)

Record accounted (phs : list phase) (w : World) : Prop := {
  ac_slot i ph : phs !! i = Some ph → own_slot ph w;
  ac_distinct i j ph ph' s : i ≠ j → phs !! i = Some ph → phs !! j = Some ph' →
    slot ph = Some s → slot ph' = Some s → False;
  ac_mark x : marked w x → told w x ∨ ∃ i ph, phs !! i = Some ph ∧ accounts ph w x
}.

(** *** What an append and a submit leave as it was *)

Definition appended (w w' : World) (l : list (option ring_record)) : Prop :=
  events w' = events w ++ l ∧ ∀ r x, Some r ∈ l → ¬ kills r x.

Lemma safe_appended w w' l x s :
  appended w w' l → safe_after w x s → safe_after w' x s.
Proof.
  intros [He Hl] Hs s' r Hlt. rewrite He, lookup_app_Some.
  intros [Hr|[_ Hr]]; [by eapply Hs|]. apply Hl. by eapply list_elem_of_lookup_2.
Qed.

Lemma told_appended w w' l x : appended w w' l → told w x → told w' x.
Proof.
  intros Ha (s & r & Hr & Ht & Hs). exists s, r. split_and!; [|done|by eapply safe_appended].
  destruct Ha as [-> _]. by apply lookup_app_l_Some.
Qed.

Lemma accounts_appended w w' l ph x : appended w w' l → accounts ph w x → accounts ph w' x.
Proof. intros Ha. destruct ph; simpl; try done. intros [-> Hs]. by eauto using safe_appended. Qed.

Lemma own_slot_appended w w' l ph : events w' = events w ++ l → own_slot ph w → own_slot ph w'.
Proof. intros He Hw s Hs. rewrite He. by apply lookup_app_l_Some, Hw. Qed.

Lemma safe_submit w w' s0 r0 x s :
  events w' = <[s0 := Some r0]> (events w) → ¬ kills r0 x → safe_after w x s → safe_after w' x s.
Proof.
  intros He Hr0 Hs s' r Hlt. rewrite He. destruct (decide (s' = s0)) as [->|Hne].
  - intros Hr. apply list_lookup_insert_Some in Hr as [(_ & [= ->] & _)|[? _]]; done.
  - rewrite list_lookup_insert_ne by done. by apply Hs.
Qed.

Lemma told_submit w w' s0 r0 x :
  events w' = <[s0 := Some r0]> (events w) → events w !! s0 = Some None → ¬ kills r0 x →
  told w x → told w' x.
Proof.
  intros He H0 Hr0 (s & r & Hr & Ht & Hs). exists s, r.
  split_and!; [|done|by eapply safe_submit]. rewrite He, list_lookup_insert_ne; congruence.
Qed.

Lemma accounts_submit w w' s0 r0 ph x :
  events w' = <[s0 := Some r0]> (events w) → ¬ kills r0 x → accounts ph w x → accounts ph w' x.
Proof. intros He Hr0. destruct ph; simpl; try done. intros [-> Hs]. eauto using safe_submit. Qed.

(** *** Every transition of one program *)

Lemma other_phase (phs : list phase) i ph j p : (<[i := ph]> phs) !! j = Some p →
  i = j ∧ p = ph ∨ i ≠ j ∧ phs !! j = Some p.
Proof.
  intros Hj. apply list_lookup_insert_Some in Hj as [(-> & -> & _)|[Hne Hj]]; auto.
Qed.

(** The marks that are left are accounted for, by the events or by a phase, if
    each way of accounting for them leads to one. *)
Lemma accounted_step phs i ph ph' w w' :
  phs !! i = Some ph → accounted phs w →
  (∀ j p s, phs !! j = Some p → j ≠ i → slot p = Some s → events w' !! s = Some None) →
  own_slot ph' w' →
  (∀ s, slot ph' = Some s → slot ph = Some s ∨ (length (events w) <= s)%nat) →
  (∀ x, marked w' x → told w' x ∨ accounts ph' w' x ∨
    marked w x ∧ (told w x → told w' x) ∧ (∀ p, accounts p w x → accounts p w' x) ∧
      (accounts ph w x → told w' x ∨ accounts ph' w' x)) →
  accounted (<[i := ph']> phs) w'.
Proof.
  intros Hi [Hslot Hdist Hmark] Hold Hnew Hfresh Hx. split.
  - intros j p Hj. apply other_phase in Hj as [[_ ->]|[Hne Hj]]; [done|].
    intros s Hs. by eapply (Hold j).
  - assert (∀ j p s, j ≠ i → phs !! j = Some p → slot p = Some s → slot ph' = Some s → False)
      as Hnone.
    { intros j p s Hj Hp Hs Hs'. destruct (Hfresh s Hs') as [Hs''|Hge].
      - by eapply (Hdist j i).
      - apply Hslot in Hp. apply Hp, lookup_lt_Some in Hs. lia. }
    intros a b p p' s Hab Ha Hb Hsa Hsb.
    apply other_phase in Ha as [[-> ->]|[Hna Ha]], Hb as [[-> ->]|[Hnb Hb]]; [done| | |].
    + by eapply (Hnone b).
    + by eapply (Hnone a).
    + by eapply (Hdist a b).
  - assert (∀ x, accounts ph' w' x → ∃ j p, (<[i := ph']> phs) !! j = Some p ∧ accounts p w' x)
      as Hn by (intros x Ha; exists i, ph'; split; [|done];
        apply list_lookup_insert_eq; by eapply lookup_lt_Some).
    intros x Hm. destruct (Hx x Hm) as [?|[?|(Hw & Ht & Hp & Hph)]]; eauto.
    destruct (Hmark x Hw) as [?|(j & p & Hj & Ha)]; [eauto|].
    destruct (decide (j = i)) as [->|Hne].
    + rewrite Hi in Hj. injection Hj as <-. destruct (Hph Ha); eauto.
    + right. exists j, p. rewrite list_lookup_insert_ne by done. eauto.
Qed.

(** A transition that sends nothing, or appends to the ring buffer. *)
Lemma append_accounted phs i ph ph' w w' l :
  phs !! i = Some ph → accounted phs w → appended w w' l → own_slot ph' w' →
  (∀ s, slot ph' = Some s → slot ph = Some s ∨ (length (events w) <= s)%nat) →
  (∀ x, marked w' x → accounts ph' w' x ∨
    marked w x ∧ (accounts ph w x → accounts ph' w' x)) →
  accounted (<[i := ph']> phs) w'.
Proof.
  intros Hi Hacc Ha Hown Hs Hm. apply (accounted_step phs i ph ph' w); [done|done| |done|done|].
  - intros j p s Hj _ Hp. eapply own_slot_appended; [apply Ha| |exact Hp].
    by apply (ac_slot _ _ Hacc j).
  - intros x Hx. destruct (Hm x Hx) as [?|[Hw Hx']]; [by right; left|]. right; right.
    split_and!; eauto using told_appended, accounts_appended.
Qed.

Lemma appended_nil w w' : events w' = events w → appended w w' [].
Proof. intros He. split; [by rewrite He, app_nil_r|]. intros r x H. by apply elem_of_nil in H. Qed.

Lemma own_slot_same ph w w' : events w' = events w → own_slot ph w → own_slot ph w'.
Proof. intros He H s. rewrite He. apply H. Qed.

(** A submit into the slot of the program. *)
Lemma submit_accounted phs i ph ph' w w' s r :
  phs !! i = Some ph → accounted phs w → slot ph = Some s → slot ph' = None →
  events w' = <[s := Some r]> (events w) →
  (∀ x, marked w' x → accounts ph' w' x ∨
    marked w x ∧ ¬ kills r x ∧ (accounts ph w x → told w' x)) →
  accounted (<[i := ph']> phs) w'.
Proof.
  intros Hi Hacc Hs Hs' He Hm. pose proof (ac_slot _ _ Hacc i ph Hi s Hs) as H0.
  apply (accounted_step phs i ph ph' w); [done|done| |by intros ? ?; congruence|
    by intros ? ?; congruence|].
  - intros j p s' Hj Hne Hp. rewrite He, list_lookup_insert_ne.
    + by apply (ac_slot _ _ Hacc j p Hj).
    + intros ->. by eapply (ac_distinct _ _ Hacc j i).
  - intros x Hx. destruct (Hm x Hx) as [?|(Hw & Hk & Hx')]; [by right; left|]. right; right.
    split_and!; eauto using told_submit, accounts_submit.
Qed.

Lemma transition_accounted phs i ph ph' w w' :
  phs !! i = Some ph → accounted phs w → transition ph w w' ph' →
  accounted (<[i := ph']> phs) w'.
Proof.
  intros Hi Hacc Ht. pose proof (ac_slot _ _ Hacc i ph Hi) as Hown.
  destruct Ht as [ph w w' Hm He|ph w w' r Hm He Hr|x w w' Hm He|ph w w' ph' Hm He Hp
    |x w w' Hm He|x w w' Hm He|ph w w' s r ph' Hm He Hp|r w w' Hm He].
  - apply (append_accounted phs i ph ph w w' []); [done|done|by apply appended_nil|
      by eapply own_slot_same|by auto|]. intros x Hx. right. split; [by apply Hm|].
    by eapply accounts_appended, appended_nil.
  - assert (appended w w' [Some r]) as Ha.
    { split; [done|]. intros r' x Hin. apply list_elem_of_singleton in Hin. naive_solver. }
    apply (append_accounted phs i ph ph w w' [Some r]); [done|done|done|
      by eapply own_slot_appended|by auto|]. intros x Hx. right. split; [by apply Hm|].
    by eapply accounts_appended.
  - apply (append_accounted phs i Idle (Marked x) w w' []); [done|done|by apply appended_nil|
      done|done|]. intros y Hy. destruct (Hm y Hy) as [?| ->]; [right|by left]. done.
  - assert (appended w w' [None]) as Ha.
    { split; [done|]. intros r' x Hin. by apply list_elem_of_singleton in Hin. }
    assert (slot ph' = Some (length (events w))) as Hs by (destruct ph, ph'; naive_solver).
    apply (append_accounted phs i ph ph' w w' [None]); [done|done|done| | |].
    + intros s Hs'. rewrite Hs in Hs'. injection Hs' as <-. rewrite He.
      by rewrite lookup_app_r, Nat.sub_diag by done.
    + intros s Hs'. rewrite Hs in Hs'. injection Hs' as <-. by right.
    + intros x Hx. right. split; [by apply Hm|]. destruct ph, ph'; try done.
      destruct Hp as [-> ->]. intros ->. split; [done|]. intros s' r Hlt. rewrite He.
      intros Hr. apply lookup_lt_Some in Hr. rewrite length_app in Hr. simpl in Hr. lia.
  - apply (append_accounted phs i (Marked x) (Failed x) w w' []); [done|done|
      by apply appended_nil|done|done|]. intros y Hy. right. split; [by apply Hm|done].
  - apply (append_accounted phs i (Failed x) Idle w w' []); [done|done|
      by apply appended_nil|done|done|]. intros y Hy. right. by destruct (Hm y Hy).
  - apply (submit_accounted phs i ph ph' w w' s r); [done|done| | |done|].
    1,2: destruct ph, ph'; naive_solver.
    intros x Hx. apply Hm in Hx. destruct ph as [|s'|y|y s'|y|r' s'|r'], ph'; try done.
    + right. naive_solver.
    + right. destruct Hp as (-> & Ht & Hk). split_and!; [done|done|]. intros [-> Hs].
      exists s, r. split_and!; [|done|eapply safe_submit; [done|done|done]].
      rewrite He. apply list_lookup_insert_eq. eapply lookup_lt_Some. by apply Hown.
    + destruct Hp as (-> & -> & ->). simpl. destruct (decide (kills r x)); [by left|by right].
  - apply (append_accounted phs i (Killed r) Idle w w' []); [done|done|
      by apply appended_nil|done|done|]. intros x Hx. right. by destruct (Hm x Hx).
Qed.

(** ** All interleavings *)

Section pool.
Context (hooks : bpf Z → Prop) (env : World → World → Prop).
Context (Hhooks : ∀ p, hooks p → idle p).
Context (Henv : ∀ w w', env w w' → events w' = events w ∧ ∀ x, marked w' x → marked w x).

Definition in_phase (ph : phase) (p : bpf Z) : Prop := follows p ph (λ _ ph, ph = Idle).

Lemma start_accounted phs w : accounted phs w → accounted (phs ++ [Idle]) w.
Proof.
  intros [Hs Hd Hm]. assert (∀ j ph, (phs ++ [Idle]) !! j = Some ph →
    phs !! j = Some ph ∨ ph = Idle) as Hin.
  { intros j ph. rewrite lookup_app_Some, list_lookup_singleton_Some. naive_solver. }
  split.
  - intros j ph Hj. destruct (Hin j ph Hj) as [?| ->]; [by eapply Hs|done].
  - intros a b ph ph' s Hab Ha Hb. destruct (Hin a ph Ha) as [?| ->]; [|done].
    destruct (Hin b ph' Hb) as [?| ->]; [|done]. by eapply Hd.
  - intros x Hx. destruct (Hm x Hx) as [?|(j & ph & Hj & ?)]; [by left|]. right.
    exists j, ph. split; [by apply lookup_app_l_Some|done].
Qed.

Lemma env_accounted phs w w' : env w w' → accounted phs w → accounted phs w'.
Proof.
  intros Hw [Hs Hd Hmk]. destruct (Henv w w' Hw) as [He Hm]. split; [|done|].
  - intros j ph Hj. eapply own_slot_same; [exact He|by eapply Hs].
  - intros x Hx. destruct (Hmk x (Hm x Hx)) as [Ht|(j & ph & Hj & Ha)]; [left|right].
    + eapply told_appended; [by apply appended_nil|done].
    + exists j, ph. split; [done|]. eapply accounts_appended; [by apply appended_nil|done].
Qed.

Lemma pool_accounted w0 ts w :
  (∀ x, ¬ marked w0 x) → reachable hooks env w0 (ts, w) →
  ∃ phs, accounted phs w ∧ Forall2 in_phase phs ts.
Proof.
  intros H0 Hr. unfold reachable in Hr. remember (ts, w) as s eqn:Es.
  assert (∃ phs, accounted phs s.2 ∧ Forall2 in_phase phs s.1) as H; [|by subst s].
  clear ts w Es.
  assert (∃ phs, accounted phs ([] : list (bpf Z), w0).2 ∧
    Forall2 in_phase phs ([] : list (bpf Z), w0).1) as Hs.
  { exists []. split; [|constructor]. split; [done|done|]. intros x Hx. by destruct (H0 x). }
  revert Hs. generalize dependent ([] : list (bpf Z), w0). intros s0 Hr.
  induction Hr as [s1|s1 s2 s3 Hs _ IH]; [done|]. intros (phs & Hacc & Hph). apply IH. clear IH.
  destruct Hs as [ts w i R f k Hi|ts w p Hp|ts w w' Hw]; cbn [fst snd] in *.
  - destruct (Forall2_lookup_r _ _ _ _ _ Hph Hi) as (ph & Hpi & Hf).
    destruct (Hf w) as (ph' & Ht & Hk); [by apply (ac_slot _ _ Hacc i)|].
    exists (<[i := ph']> phs). split; [by eapply transition_accounted|].
    by apply Forall2_insert.
  - exists (phs ++ [Idle]). split; [by apply start_accounted|].
    apply Forall2_app; [done|]. constructor; [by apply Hhooks|constructor].
  - exists phs. split; [by eapply env_accounted|done].
Qed.

(** Once no program runs, every mark stands for an event the userspace has. *)
Lemma settled_told w0 ts w x :
  (∀ x, ¬ marked w0 x) → reachable hooks env w0 (ts, w) →
  Forall (λ p, ∃ r, p = Ret r) ts → marked w x → told w x.
Proof.
  intros H0 Hr Hts Hx. destruct (pool_accounted w0 ts w H0 Hr) as (phs & Hacc & Hph).
  destruct (ac_mark _ _ Hacc x Hx) as [?|(i & ph & Hi & Ha)]; [done|].
  destruct (Forall2_lookup_l _ _ _ _ _ Hph Hi) as (p & Hp & Hf).
  destruct (Forall_lookup_1 _ _ _ _ Hts Hp) as [r ->]. unfold in_phase in Hf. simpl in Hf.
  by subst ph.
Qed.
End pool.

(** ** The parts of the programs *)

Section parts.
Context {KR : Kernel}.

(** Marks do not depend on the ring buffer. *)
Context (Hframe : ∀ w w' x, (∃ t e l, w' = {| w with tick := t; events := e; lost_events := l |}) →
  marked w' x → marked w x).

Lemma follows_ret {A} (a : A) ph (Q : A → phase → Prop) : Q a ph → follows (mret a) ph Q.
Proof. done. Qed.

Lemma follows_weaken {A} (p : bpf A) ph (Q Q' : A → phase → Prop) :
  follows p ph Q → (∀ a ph', Q a ph' → Q' a ph') → follows p ph Q'.
Proof.
  revert ph. induction p as [a|R f k IH]; intros ph Hp HQ; [by apply HQ|].
  intros w Hw. destruct (Hp w Hw) as (ph' & Ht & Hk). exists ph'. split; [done|]. by apply IH.
Qed.

(** A part that leaves the marks and the ring buffer alone. *)
Lemma follows_guar {A} (p : bpf A) ph :
  guar (λ w w', events w' = events w ∧ ∀ x, marked w' x → marked w x) p →
  follows p ph (λ _ ph', ph' = ph).
Proof.
  intros Hp. induction Hp as [a|R f k Hf Hk IH]; [done|]. intros w _. exists ph.
  destruct (Hf w) as [He Hm]. split; [by apply t_skip|apply IH].
Qed.

Lemma count_lost_follows cur reason ph :
  follows (count_lost cur reason) ph (λ _ ph', ph' = ph).
Proof.
  apply follows_guar. unfold count_lost. apply guar_bind.
  { constructor; [by split; [|intros x]|constructor]. }
  intros [n|]; [|constructor]. constructor; [|constructor]. intros w. split; [done|].
  intros x. apply Hframe. by exists (tick w), (events w),
    (<[(cpu cur, reason) := u64 (n + 1)]> (lost_events w)).
Qed.

(** [submit_event] from a phase [ph]: the record is reserved in [res] and
    submitted to get to [ok], or the reservation fails, to get to [no]. *)
Lemma submit_follows cur type mntns key flags ph res ok no :
  let r := HeaderRecord (EventHeader (cur_pid cur) mntns key type flags) in
  (∀ w w', (∀ x, marked w' x → marked w x) → events w' = events w ++ [None] →
    transition ph w w' (res (length (events w)))) →
  (∀ w w' s, (∀ x, marked w' x → marked w x) → events w' = <[s := Some r]> (events w) →
    transition (res s) w w' ok) →
  (∀ w w', (∀ x, marked w' x → marked w x) → events w' = events w → transition ph w w' no) →
  follows (submit_event cur type mntns key flags) ph
    (λ rc ph', rc = 0 ∧ ph' = ok ∨ rc = -1 ∧ ph' = no).
Proof.
  intros r Hres Hok Hno. unfold submit_event.
  eapply (follows_bind _ _ _ (λ o ph', match o with
    | Some s => ph' = res s | None => ph' = no end)).
  { apply follows_act. intros w _. unfold ticked.
    destruct (rb_room (tick w) sizeof_event_header); cbn [fst snd].
    - exists (res (length (events w))). split; [|done]. apply Hres; [|done]. intros x.
      apply Hframe. by eexists _, _, _.
    - exists no. split; [|done]. apply Hno; [|done]. intros x. apply Hframe. by eexists _, _, _. }
  intros [s|] ph' ->.
  - eapply (follows_bind _ _ _ (λ _ ph', ph' = ok)); [|by intros [] ? ->; left].
    apply follows_act. intros w _. exists ok. split; [|done]. apply Hok; [|done].
    intros x. apply Hframe. by eexists _, _, _.
  - eapply follows_bind; [apply count_lost_follows|]. intros [] ? ->. by right.
Qed.

Lemma submit_idle cur type mntns key flags :
  (∀ x, ¬ kills (HeaderRecord (EventHeader (cur_pid cur) mntns key type flags)) x) →
  idle (submit_event cur type mntns key flags).
Proof.
  intros Hk. eapply follows_weaken; [apply (submit_follows _ _ _ _ _ Idle Pending Idle Idle)|].
  - intros w w' Hm He. by eapply t_reserve.
  - intros w w' s Hm He. by eapply t_submit.
  - intros w w' Hm He. by apply t_skip.
  - naive_solver.
Qed.

Lemma submit_marked cur type mntns key flags x :
  let r := HeaderRecord (EventHeader (cur_pid cur) mntns key type flags) in
  tells r x → (∀ y, ¬ kills r y) →
  follows (submit_event cur type mntns key flags) (Marked x)
    (λ rc ph', rc = 0 ∧ ph' = Idle ∨ rc = -1 ∧ ph' = Failed x).
Proof.
  intros r Ht Hk. apply (submit_follows _ _ _ _ _ (Marked x) (Reserved x) Idle (Failed x)).
  - intros w w' Hm He. by eapply t_reserve.
  - intros w w' s Hm He. by eapply t_submit.
  - intros w w' Hm He. by apply t_fail.
Qed.

Lemma submit_killing cur type mntns key flags :
  let r := HeaderRecord (EventHeader (cur_pid cur) mntns key type flags) in
  follows (submit_event cur type mntns key flags) Idle
    (λ rc ph', rc = 0 ∧ ph' = Killed r ∨ rc = -1 ∧ ph' = Idle).
Proof.
  intros r. apply (submit_follows _ _ _ _ _ Idle (Killing r) (Killed r) Idle).
  - intros w w' Hm He. by eapply t_reserve.
  - intros w w' s Hm He. by eapply t_submit.
  - intros w w' Hm He. by apply t_skip.
Qed.

Lemma output_idle size (r : World → ring_record) :
  (∀ w x, ¬ kills (r w) x) → idle (bpf_ringbuf_output size r).
Proof.
  intros Hr. apply follows_act. intros w _. exists Idle. unfold ticked.
  destruct (rb_room _ _); cbn [fst snd]; (split; [|done]).
  - eapply t_output; [|done|apply Hr]. intros x. apply Hframe. by eexists _, _, _.
  - apply t_skip; [|done]. intros x. apply Hframe. by eexists _, _, _.
Qed.

Lemma exec_event_idle cfg cur filename argv envp mntns :
  (∀ e x, ¬ kills (ExecRecord e) x) →
  idle (submit_exec_event cfg cur filename argv envp mntns).
Proof.
  intros Hr. unfold submit_exec_event, idle.
  eapply (follows_bind _ _ _ (λ o ph, match o with Some s => ph = Pending s | None => ph = Idle end)).
  { apply follows_act. intros w _. unfold ticked. destruct (rb_room _ _); cbn [fst snd].
    - exists (Pending (length (events w))). split; [|done]. eapply t_reserve; [|done|done].
      intros x. apply Hframe. by eexists _, _, _.
    - exists Idle. split; [|done]. apply t_skip; [|done]. intros x. apply Hframe. by eexists _, _, _. }
  intros [s|] ph ->; [|apply count_lost_follows].
  eapply follows_bind; [apply follows_guar; by constructor; [|constructor]|]. intros stale ph ->. cbv zeta.
  destruct (read_strings _ _ _ _ _ _) as [args n]. destruct (read_strings _ _ _ _ _ _) as [env m].
  apply follows_act. intros w _. exists Idle. split; [|done]. eapply t_submit; [|done|by split].
  intros x. apply Hframe. by eexists _, _, _.
Qed.

(** A part that leaves alone what the marks depend on. *)
Lemma proj_follows {T A} (π : World → T) (p : bpf A) ph :
  (∀ w w' x, π w' = π w → marked w' x → marked w x) →
  keeps (λ w, (π w, events w)) p → follows p ph (λ _ ph', ph' = ph).
Proof.
  intros Hπ Hp. apply follows_guar. eapply guar_weaken; [|exact Hp]. simpl.
  intros w w' [= Hl He]. split; [done|]. intros x. by apply Hπ.
Qed.
End parts.
End protocol.

Arguments phase : clear implicits.

(** Walk through a program that is [Idle] at both ends: [unf] unfolds it, [keep]
    disposes of the parts that leave the marks and the ring buffer alone, and
    [frame] is the frame property of the marks. *)
Ltac walk_idle unf keep frame :=
  repeat match goal with
  | |- ∀ _, _ => intro
  | |- idle _ _ _ (_ ≫= _) => apply idle_bind
  | |- idle _ _ _ (mret _) => apply follows_ret; reflexivity
  | |- idle _ _ _ (if ?b then _ else _) => destruct b eqn:?
  | |- idle _ _ _ (match ?o with Some _ => _ | None => _ end) => destruct o eqn:?
  | |- idle _ _ _ (submit_exec_event _ _ _ _ _ _) => apply (exec_event_idle _ _ _ frame); intros ? ? []
  | |- idle _ _ _ (bpf_ringbuf_output _ _) => apply (output_idle _ _ _ frame); intros ? ? []
  | |- idle _ _ _ _ => progress unf; cbv zeta
  | |- idle _ _ _ _ => keep
  end.
