(* ===== verification/Scratch.v ===== *)
(** * The per CPU buffers

    File events are assembled in the scratch buffer of a CPU, and the paths of
    the hooks that cannot use bpf_d_path in its path buffer.  This file shows
    that no program writes outside of them in any interleaving, and what a
    file event with a resolved path consists of. *)
From S2P Require Import Prelude Bpf State Names Keys Report Syscalls Activity DPath FsEvents Hooks.

(** ** The buffers keep their size *)

Definition fs_buffers (w : World) : gmap Z event_data * gmap Z (list Z) :=
  (file_event_scratch w, buffer_heap_map w).

(** A write through [write_at] that leaves the buffer would make it longer. *)
Definition buffers_fit (b : gmap Z event_data * gmap Z (list Z)) : Prop :=
  (∀ c e, b.1 !! c = Some e → Z.of_nat (length (ed_data e)) = PATH_MAX) ∧
  (∀ c h, b.2 !! c = Some h → Z.of_nat (length h) = MAX_BUF_LEN + 256).

Ltac unfold_progs ::=
  progress unfold get_mntns, key_excluded, filtered_out, count_lost, submit_event,
    initialized_before, clear_seccomp, clear_apparmor, fetch_or_bit,
    already_recorded, report_again, report_once, report_process, container_start,
    syscalls_value, sys_enter, sys_enter_getgid, sys_enter_socket, cap_capable,
    submit_exec_event, sys_enter_execve, sys_enter_execveat, sched_process_exec,
    sched_process_exit, sched_process_fork, set_header, remember, register_fs_event_locked, add_busy,
    register_fs_event, register_file_event, when_recording, file_open, file_lock,
    mmap_file, bprm_check_security, path_mkdir, path_mknod, path_unlink.

Section buffers.
Context {KR : Kernel} {KRok : KernelOk} (cfg : Rodata) (cur : Task).
Context (k : kmem) (root : path).

Lemma fit_scratch w :
  buffers_fit (fs_buffers w) → length (ed_data (scratch cur w)) = 4096%nat.
Proof.
  intros [H _]. unfold scratch. cbn [fs_buffers fst] in H.
  destruct (file_event_scratch w !! cpu cur) as [e|] eqn:E.
  - apply H in E. unfold PATH_MAX in E. simpl. lia.
  - reflexivity.
Qed.

Lemma fit_heap w :
  buffers_fit (fs_buffers w) →
  ∃ h, heap_buffer cur w = Some h ∧ length h = 4352%nat.
Proof.
  intros [_ H]. unfold heap_buffer. cbn [fs_buffers snd] in H.
  change (array_entry 1 0) with true. eexists; split; [done|].
  destruct (buffer_heap_map w !! cpu cur) as [h|] eqn:E.
  - apply H in E. unfold MAX_BUF_LEN in E. simpl. lia.
  - reflexivity.
Qed.

Lemma fit_set_scratch e w :
  length (ed_data e) = 4096%nat → buffers_fit (fs_buffers w) →
  buffers_fit (fs_buffers (set_scratch cur e w)).
Proof.
  intros He [H1 H2]. split; [|exact H2]. cbn. intros c e'.
  intros [[_ <-]|[_ Hc]]%lookup_insert_Some; [unfold PATH_MAX; lia|by eapply H1].
Qed.

Lemma resolve_path_fit filename custom w :
  buffers_fit (fs_buffers w) →
  buffers_fit (fs_buffers (exec (resolve_path cur k root filename custom) w)).
Proof.
  intros Hw. unfold exec, resolve_path. cbn [act run].
  pose proof (fit_scratch w Hw) as Hs. destruct (fit_heap w Hw) as (h & Eh & Hh).
  destruct custom.
  - destruct (d_path_in_bounds k root filename h (ed_data (scratch cur w)) Hh Hs)
      as (h' & start & size & err & data' & _ & Hh' & _ & _ & _ & E & Hd & _).
    rewrite Eh, E. cbn [snd]. destruct (fit_set_scratch (EventData
      (ed_hdr (scratch cur w)) data') w Hd Hw) as [H1 H2].
    split; [exact H1|]. cbn. intros c x [[_ <-]|[_ Hc]]%lookup_insert_Some;
      [unfold MAX_BUF_LEN; lia|by eapply H2].
  - pose proof (bpf_d_path_ok (p_mnt filename) (p_dentry filename) (Z.to_nat PATH_MAX)) as Hd.
    destruct (bpf_d_path _ _ _) as [r data]. destruct Hd as [Hl _]; [unfold PATH_MAX; lia|].
    by apply fit_set_scratch.
Qed.

Lemma event_path_fit filename i_mode custom :
  preserves (λ w, buffers_fit (fs_buffers w)) (event_path cur k root filename i_mode custom).
Proof.
  unfold event_path. apply preserves_bind.
  { apply preserves_actI. intros w Hw.
    pose proof (resolve_path_fit filename custom w Hw) as H. unfold exec, resolve_path in H.
    cbn [act run] in H. revert H. by destruct (if custom then _ else _). }
  intros pathlen. destruct (pathlen <? 0); [constructor|].
  destruct (_ =? S_IFDIR); [|constructor]. cbv zeta.
  destruct (Z.ltb_spec (u16 (pathlen - 1)) (PATH_MAX - 2)); [|constructor].
  apply preserves_bind; [|intros _; constructor]. apply preserves_upd. intros w Hw.
  apply fit_set_scratch; [|done]. cbn [ed_data]. unfold PATH_MAX in *.
  pose proof (fit_scratch w Hw). pose proof (wrap_range 16 (pathlen - 1) ltac:(lia)) as [? _].
  rewrite length_write_at; [done|]. simpl. lia.
Qed.
End buffers.

Section safety.
Context {KR : Kernel} {KRok : KernelOk} (cfg : Rodata).

Lemma hook_fit p : hook cfg p → preserves (λ w, buffers_fit (fs_buffers w)) p.
Proof.
  intros []; walk_preserves; try apply event_path_fit.
  all: apply fit_set_scratch; [|done]; by eapply fit_scratch.
Qed.

(** C36 No program ever writes outside of the scratch and path buffers of its
    CPU: in every interleaving, for every content of the kernel memory the
    paths are resolved in, and whatever bpf_d_path returns, both keep the
    size they were created with. *)
Theorem buffers_in_bounds w0 ts w :
  buffers_fit (fs_buffers w0) →
  reachable (hook cfg) user_step w0 (ts, w) → buffers_fit (fs_buffers w).
Proof.
  intros H0 Hr.
  apply (pool_preserves (hook cfg) user_step (λ w, buffers_fit (fs_buffers w)))
    in Hr as [? _]; [done|apply hook_fit| |done].
  intros w1 w2 H Hu. by destruct Hu.
Qed.
End safety.

(** ** What an event with a resolved path holds *)

Section content.
Context {KR : Kernel} {KRok : KernelOk} (cfg : Rodata) (cur : Task).
Context (k : kmem) (root : path).
Abbreviation mntns := (mntns_inum cur).

(** The path of a dentry as an event reports it, for a directory with a slash
    at its end. *)
Definition reported_path (d : Z) (cs : list (list Z)) (i_mode : Z) : list Z :=
  join cs ++ deleted_mark k d ++ (if Z.land i_mode S_IFMT =? S_IFDIR then [47] else []) ++ [0].

(** The names [cs] lead from the root to [filename], and fit into an event. *)
Record resolvable (filename : path) (i_mode : Z) (cs : list (list Z)) : Prop := {
  rs_resolves : ∃ n, resolves k root (p_dentry filename) (real_mount k (p_mnt filename)) cs n ∧
    (n < PROBE_CWD_READ_ITERATIONS)%nat;
  rs_names : cs ≠ [];
  rs_fits : Z.of_nat (length (reported_path (p_dentry filename) cs i_mode)) < PATH_MAX
}.

(** What ends the path of an event. *)
Definition path_end (i_mode : Z) : list Z :=
  (if Z.land i_mode S_IFMT =? S_IFDIR then [47] else []) ++ [0].

(** Either routine leaves the path and a NUL at the start of the scratch
    buffer; a directory gets its slash. *)
Lemma event_path_ends filename i_mode custom full w :
  let r := resolve_path cur k root filename custom in
  let p := event_path cur k root filename i_mode custom in
  let data := full ++ path_end i_mode in
  result r w = Z.of_nat (length full) + 1 →
  take (length full + 1) (ed_data (scratch cur (exec r w))) = full ++ [0] →
  Z.of_nat (length data) < PATH_MAX →
  result p w = Some (Z.of_nat (length data)) ∧
  take (length data) (ed_data (scratch cur (exec p w))) = data.
Proof.
  cbv zeta. intros Hr Ht Hfit. unfold event_path. rewrite result_bind, exec_bind, Hr.
  set (w1 := exec (resolve_path cur k root filename custom) w) in *.
  unfold path_end, PATH_MAX in *.
  destruct (Z.ltb_spec (Z.of_nat (length full) + 1) 0); [lia|].
  destruct (Z.land i_mode S_IFMT =? S_IFDIR); cbn [app] in *;
    rewrite length_app in *; cbn [length] in *.
  2: { by split; [unfold result; simpl; f_equal; lia|]. }
  replace (Z.of_nat (length full) + 1 - 1) with (Z.of_nat (length full)) by lia.
  rewrite wrap_small by (unfold in_u; lia).
  destruct (Z.ltb_spec (Z.of_nat (length full)) (4096 - 2)); [|lia].
  split; [unfold result; simpl; f_equal; lia|].
  unfold exec, append_slash. brun. rewrite scratch_set. cbn [ed_data].
  unfold write_at. rewrite Nat2Z.id.
  assert (take (length full) (ed_data (scratch cur w1)) = full) as ->.
  { apply (f_equal (take (length full))) in Ht. rewrite take_take in Ht.
    rewrite Nat.min_l in Ht by lia. rewrite Ht. by apply take_app_length'. }
  cbn [app]. rewrite take_app_ge by lia. f_equal.
  by replace (length full + 2 - length full)%nat with 2%nat by lia.
Qed.

Lemma event_path_content filename i_mode cs w :
  resolvable filename i_mode cs → buffers_fit (fs_buffers w) →
  let p := event_path cur k root filename i_mode true in
  let data := reported_path (p_dentry filename) cs i_mode in
  result p w = Some (Z.of_nat (length data)) ∧
  take (length data) (ed_data (scratch cur (exec p w))) = data.
Proof.
  intros [Hres Hcs Hfit] Hw. cbv zeta.
  pose proof (fit_scratch cur w Hw) as Hs. destruct (fit_heap cur w Hw) as (h & Eh & Hh).
  unfold reported_path, PATH_MAX in *. rewrite app_assoc in *.
  set (full := join cs ++ deleted_mark k (p_dentry filename)) in *.
  destruct (d_path_collects k root filename cs h (ed_data (scratch cur w)))
    as (data' & h' & E & Hd & _ & Ht); [by left|done|done|done| |].
  { fold full. unfold MAX_BUF_LEN. rewrite !length_app in Hfit. simpl in Hfit. lia. }
  fold full in E, Ht. apply event_path_ends; [| |done].
  - unfold result, resolve_path. cbn [act run]. by rewrite Eh, E.
  - unfold exec, resolve_path. cbn [act run]. rewrite Eh, E. cbn [snd].
    unfold scratch, set_scratch. cbn. by rewrite lookup_insert_eq.
Qed.

(** The path bpf_d_path returns: what is in the buffer before the NUL. *)
Definition d_path_of (filename : path) : list Z :=
  let '(n, buf) := bpf_d_path (p_mnt filename) (p_dentry filename) (Z.to_nat PATH_MAX) in
  take (Z.to_nat (n - 1)) buf.

Lemma event_path_helper filename i_mode w :
  0 <= (bpf_d_path (p_mnt filename) (p_dentry filename) (Z.to_nat PATH_MAX)).1 →
  let p := event_path cur k root filename i_mode false in
  let data := d_path_of filename ++ path_end i_mode in
  Z.of_nat (length data) < PATH_MAX →
  no_nul (d_path_of filename) ∧
  result p w = Some (Z.of_nat (length data)) ∧
  take (length data) (ed_data (scratch cur (exec p w))) = data.
Proof.
  pose proof (bpf_d_path_ok (p_mnt filename) (p_dentry filename) (Z.to_nat PATH_MAX)
    ltac:(unfold PATH_MAX; lia)) as [Hlen Hok].
  intros Hn. destruct (Hok Hn) as (Hr & Hz & Hs). unfold d_path_of.
  destruct (bpf_d_path _ _ _) as [n buf] eqn:E. cbn [fst snd] in *. cbv zeta.
  assert (length (take (Z.to_nat (n - 1)) buf) = Z.to_nat (n - 1)) as Hl
    by (rewrite length_take; lia).
  intros Hfit. split; [done|]. apply event_path_ends; [| |done]; rewrite Hl.
  - unfold result, resolve_path. cbn [act run]. rewrite E. cbn. lia.
  - unfold exec, resolve_path. cbn [act run]. rewrite E. cbn [snd].
    rewrite scratch_set. cbn [ed_data]. rewrite Nat.add_1_r.
    apply take_S_r. unfold nthb in Hz.
    destruct (lookup_lt_is_Some_2 buf (Z.to_nat (n - 1))) as [c Hc]; [lia|].
    rewrite nth_lookup, Hc in Hz. by rewrite Hc, <- Hz.
Qed.

(** The state in which a hook sends an event for a path: recording, an
    included process, a buffer nobody uses, and an access that the thread's
    last event does not cover. *)
Record sends (t : fs_target) (flags : Z) (w : World) : Prop := {
  se_recording : is_recording_cached w = true;
  se_included : included cfg cur w = true;
  se_free : busy cur w = 0;
  se_fit : buffers_fit (fs_buffers w);
  se_new : covered (last_file_event w !! cur_tid cur) (ft_inode t) (ft_dev t) flags
    (ft_magic t =? OVERLAYFS_SUPER_MAGIC) = false
}.

Lemma event_sent t i_mode flags custom data w :
  let p := event_path cur k root (ft_path t) i_mode custom in
  sends t flags w → Z.land i_mode S_IFMT ≠ S_IFIFO →
  (∀ w', fs_buffers w' = fs_buffers w → result p w' = Some (Z.of_nat (length data)) ∧
    take (length data) (ed_data (scratch cur (exec p w'))) = data) →
  events (exec (register_fs_event cfg cur k root t i_mode flags custom) w) =
  if rb_room (tick w) (sizeof_event_header + Z.of_nat (length data))
  then events w ++ [Some (access_record cfg cur mntns flags data)] else events w.
Proof.
  cbv zeta. intros [_ Hi Hb Hf Hn] Hfifo He. unfold exec at 1.
  rewrite run_register_fs_event by (done || (unfold busy_ok; lia)).
  rewrite Hb. change (0 =? 0) with true. cbv iota. cbn [snd].
  change (events (bump cur (-1) ?w)) with (events w).
  destruct (He (bump cur 1 w) eq_refl) as [Hp Hd].
  pose proof (locked_sent cfg cur k root t i_mode flags custom mntns
    (ft_magic t =? OVERLAYFS_SUPER_MAGIC) (bump cur 1 w) _ Hn Hp) as [_ Hs].
  change (tick (bump cur 1 w)) with (tick w) in Hs.
  destruct (rb_room _ _); destruct Hs as [Hs _]; [|exact Hs].
  by rewrite Nat2Z.id, Hd in Hs.
Qed.

Lemma path_event_sent t i_mode flags cs w :
  sends t flags w → Z.land i_mode S_IFMT ≠ S_IFIFO → resolvable (ft_path t) i_mode cs →
  let data := reported_path (p_dentry (ft_path t)) cs i_mode in
  events (exec (register_fs_event cfg cur k root t i_mode flags true) w) =
  if rb_room (tick w) (sizeof_event_header + Z.of_nat (length data))
  then events w ++ [Some (access_record cfg cur mntns flags data)] else events w.
Proof.
  intros Hs Hfifo Hr. apply event_sent; [done|done|]. intros w' Hw'.
  apply event_path_content; [done|]. rewrite Hw'. apply (se_fit _ _ _ Hs).
Qed.

(** The flags of an open: one bit per mode the file is opened with. *)
Lemma open_flags_bits mode i : 0 <= i < 3 →
  Z.testbit (open_flags mode) i =
  z2b (Z.land mode (if i =? 0 then FMODE_READ else if i =? 1 then FMODE_WRITE else FMODE_EXEC)).
Proof.
  intros Hi. unfold open_flags, flag_if.
  assert (i = 0 ∨ i = 1 ∨ i = 2) as [-> | [-> | ->]] by lia; cbn [Z.eqb Pos.eqb];
    repeat destruct (z2b _); reflexivity.
Qed.

(** The event of an opened file. *)
Lemma file_open_sent f w :
  let t := f_target f in let flags := open_flags (f_mode f) in
  let data := d_path_of (ft_path t) ++ path_end (f_i_mode f) in
  sends t flags w → Z.land (f_i_mode f) S_IFMT ≠ S_IFIFO →
  0 <= (bpf_d_path (p_mnt (ft_path t)) (p_dentry (ft_path t)) (Z.to_nat PATH_MAX)).1 →
  Z.of_nat (length data) < PATH_MAX →
  events (exec (file_open cfg cur k root f) w) =
  if rb_room (tick w) (sizeof_event_header + Z.of_nat (length data))
  then events w ++ [Some (access_record cfg cur mntns flags data)] else events w.
Proof.
  intros t flags data Hs Hfifo Hn Hfit. unfold exec, file_open, when_recording. brun.
  rewrite (se_recording _ _ _ Hs). brun. unfold register_file_event.
  apply (event_sent t); [done|done|]. intros w' _. by apply event_path_helper.
Qed.

(** Opening a file is reported with the path bpf_d_path gives for it, NUL
    terminated and with a slash at its end for a directory, and with the flags
    for reading, writing and executing exactly as the file is opened. *)
Theorem file_open_event f w :
  let t := f_target f in let flags := open_flags (f_mode f) in
  let data := d_path_of (ft_path t) ++ path_end (f_i_mode f) in
  sends t flags w → Z.land (f_i_mode f) S_IFMT ≠ S_IFIFO →
  0 <= (bpf_d_path (p_mnt (ft_path t)) (p_dentry (ft_path t)) (Z.to_nat PATH_MAX)).1 →
  Z.of_nat (length data) < PATH_MAX →
  no_nul (d_path_of (ft_path t)) ∧
  (Z.testbit flags 0 = true ↔ Z.land (f_mode f) FMODE_READ ≠ 0) ∧
  (Z.testbit flags 1 = true ↔ Z.land (f_mode f) FMODE_WRITE ≠ 0) ∧
  (Z.testbit flags 2 = true ↔ Z.land (f_mode f) FMODE_EXEC ≠ 0) ∧
  events (exec (file_open cfg cur k root f) w) =
  if rb_room (tick w) (sizeof_event_header + Z.of_nat (length data))
  then events w ++ [Some (access_record cfg cur mntns flags data)] else events w.
Proof.
  intros t flags data Hs Hfifo Hn Hfit. unfold flags.
  rewrite !open_flags_bits, !z2b_true by lia. cbn [Z.eqb Pos.eqb].
  split; [by apply (event_path_helper (ft_path t) (f_i_mode f) w)|].
  split_and!; [done..|]. by apply file_open_sent.
Qed.

(** Creating a directory is reported with its path from the root of the
    process, each name after a slash, and a slash at its end, for reading
    and writing; it is lost only if the ring buffer has no room. *)
Theorem path_mkdir_event dir dentry t mode cs w :
  let t' := {| t with ft_path := Path (p_mnt dir) dentry |} in
  let data := join cs ++ deleted_mark k dentry ++ [47; 0] in
  sends t' (Z.lor FLAG_READ FLAG_WRITE) w →
  0 <= mode → Z.land mode S_IFMT = 0 →
  (∃ n, resolves k root dentry (real_mount k (p_mnt dir)) cs n ∧
    (n < PROBE_CWD_READ_ITERATIONS)%nat) →
  cs ≠ [] → Z.of_nat (length data) < PATH_MAX →
  events (exec (path_mkdir cfg cur k root dir dentry t mode) w) =
  if rb_room (tick w) (sizeof_event_header + Z.of_nat (length data))
  then events w ++ [Some (access_record cfg cur mntns (Z.lor FLAG_READ FLAG_WRITE) data)]
  else events w.
Proof.
  intros t' data Hs Hm Hm' Hr Hcs Hlen.
  assert (Z.land (u16 (Z.lor mode S_IFDIR)) S_IFMT = S_IFDIR) as Hdir.
  { unfold wrap. rewrite <- Z.land_ones, <- Z.land_assoc by lia.
    change (Z.land (Z.ones 16) S_IFMT) with S_IFMT. rewrite Z.land_lor_distr_l, Hm'. done. }
  unfold exec, path_mkdir, when_recording. cbv zeta. brun. rewrite (se_recording _ _ _ Hs). brun.
  pose proof (path_event_sent t' (u16 (Z.lor mode S_IFDIR)) (Z.lor FLAG_READ FLAG_WRITE) cs w Hs)
    as He.
  unfold reported_path in He. rewrite Hdir in He. change (S_IFDIR =? S_IFDIR) with true in He.
  cbv zeta iota in He. cbn [app] in He. apply He; [done|].
  split; [done|done|]. unfold reported_path. by rewrite Hdir.
Qed.

(** Removing a file is reported with its path from the root of the
    process, NUL terminated, for reading and writing. *)
Theorem path_unlink_event dir dentry t cs w :
  let t' := {| t with ft_path := Path (p_mnt dir) dentry |} in
  let data := join cs ++ deleted_mark k dentry ++ [0] in
  sends t' (Z.lor FLAG_READ FLAG_WRITE) w →
  (∃ n, resolves k root dentry (real_mount k (p_mnt dir)) cs n ∧
    (n < PROBE_CWD_READ_ITERATIONS)%nat) →
  cs ≠ [] → Z.of_nat (length data) < PATH_MAX →
  events (exec (path_unlink cfg cur k root dir dentry t) w) =
  if rb_room (tick w) (sizeof_event_header + Z.of_nat (length data))
  then events w ++ [Some (access_record cfg cur mntns (Z.lor FLAG_READ FLAG_WRITE) data)]
  else events w.
Proof.
  intros t' data Hs Hr Hcs Hlen. unfold exec, path_unlink, when_recording. brun.
  rewrite (se_recording _ _ _ Hs). brun.
  by apply (path_event_sent t' 0 (Z.lor FLAG_READ FLAG_WRITE) cs w Hs).
Qed.
End content.

(** ** Witnesses *)

Import String.StringSyntax.
#[local] Open Scope string_scope.
#[local] Open Scope list_scope.
#[local] Open Scope Z_scope.

Section witnesses.
#[local] Existing Instance demo_kernel.
#[local] Existing Instance demo_kernel_ok.

Lemma demo_fit : buffers_fit (fs_buffers demo_world).
Proof. split; intros c x; discriminate. Qed.

Lemma buffers_in_bounds_witness :
  let p := path_mkdir demo_cfg demo_task (chain_kmem 9000) chain_root (Path 532 2149) 2150
    demo_target 0x1ff in
  buffers_fit (fs_buffers (exec p demo_world)).
Proof.
  cbv zeta. eapply (buffers_in_bounds demo_cfg demo_world).
  - exact demo_fit.
  - apply run_reachable. constructor.
Defined.

Definition new_target : fs_target := FsTarget (Path 532 2003) 0 0 0.

Lemma demo_sends : sends demo_cfg demo_task new_target 3 demo_world.
Proof. split; [reflexivity|reflexivity|reflexivity|exact demo_fit|reflexivity]. Qed.

(** mkdir /aa/aa/aa *)
Lemma path_mkdir_event_witness :
  events (exec (path_mkdir demo_cfg demo_task (chain_kmem 2) chain_root (Path 532 2002) 2003
    new_target 0x1ff) demo_world) =
  [Some (access_record demo_cfg demo_task (mntns_inum demo_task) 3
    [47; 97; 97; 47; 97; 97; 47; 97; 97; 47; 0])].
Proof.
  refine (path_mkdir_event demo_cfg demo_task (chain_kmem 2) chain_root (Path 532 2002)
    2003 new_target 0x1ff (replicate 3 (replicate 2 97)) demo_world _ _ _ _ _ _).
  - exact demo_sends.
  - done.
  - reflexivity.
  - exists 3%nat. split; [apply (chain_resolves 2 3); lia|].
    unfold PROBE_CWD_READ_ITERATIONS. lia.
  - done.
  - by vm_compute.
Defined.

(** open("/usr/sbin/nginx", O_RDONLY) *)
Lemma file_open_event_witness :
  let f := KFile (FsTarget (Path 532 2003) 7 1 0) 1 0x81a4 in
  Z.testbit (open_flags 1) 0 = true ∧
  events (exec (file_open demo_cfg demo_task (chain_kmem 2) chain_root f) demo_world) =
  [Some (access_record demo_cfg demo_task (mntns_inum demo_task) 1
    (bytes "/usr/sbin/nginx" ++ [0]))].
Proof.
  cbv zeta. split; [reflexivity|].
  refine (proj2 (proj2 (proj2 (proj2 (file_open_event demo_cfg demo_task (chain_kmem 2) chain_root
    (KFile (FsTarget (Path 532 2003) 7 1 0) 1 0x81a4) demo_world _ _ _ _))))).
  - split; [reflexivity|reflexivity|reflexivity|exact demo_fit|reflexivity].
  - done.
  - by vm_compute.
  - by vm_compute.
Defined.

Lemma path_unlink_event_witness :
  events (exec (path_unlink demo_cfg demo_task (chain_kmem 2) chain_root (Path 532 2002) 2003
    new_target) demo_world) =
  [Some (access_record demo_cfg demo_task (mntns_inum demo_task) 3
    [47; 97; 97; 47; 97; 97; 47; 97; 97; 0])].
Proof.
  refine (path_unlink_event demo_cfg demo_task (chain_kmem 2) chain_root (Path 532 2002)
    2003 new_target (replicate 3 (replicate 2 97)) demo_world _ _ _ _).
  - exact demo_sends.
  - exists 3%nat. split; [apply (chain_resolves 2 3); lia|].
    unfold PROBE_CWD_READ_ITERATIONS. lia.
  - done.
  - by vm_compute.
Defined.
End witnesses.
