(* ===== verification/Lock.v ===== *)
(** * The lock around the per CPU buffers

    [register_fs_event] protects the buffers of a CPU with a counter that is
    only changed by atomic adds.  This file shows that the protocol works in
    every interleaving of the programs, access by access: the programs that use
    the buffers of a CPU do so one after the other, and the counter is back at
    zero when none of them runs. *)
From S2P Require Import Prelude Bpf State Names Keys Report Syscalls Activity DPath FsEvents Hooks.

(** ** Accesses and the buffers *)

Definition counter (w : World) (c : Z) : Z := default 0 (file_event_busy w !! c).

Definition set_buffers (c : Z) (e : event_data) (h : list Z) (w : World) : World :=
  {| w with file_event_scratch := <[c := e]> (file_event_scratch w);
            buffer_heap_map := <[c := h]> (buffer_heap_map w) |}.

(** An access that neither reads nor writes the buffers of the CPU [c]: it does
    the same whatever they hold, and leaves them as they are. *)
Definition ignores (c : Z) {R : Set} (f : World → R * World) : Prop :=
  ∀ w e h, f (set_buffers c e h w) = ((f w).1, set_buffers c e h (f w).2).

(** A program that is about to use the buffers of [c], and one that never
    will. *)
Definition uses (c : Z) (p : bpf Z) : Prop :=
  match p with Ret _ => False | Act f _ => ¬ ignores c f end.

Fixpoint never_uses {A} (c : Z) (p : bpf A) : Prop :=
  match p with
  | Ret _ => True
  | Act f k => ignores c f ∧ ∀ r, never_uses c (k r)
  end.

(** ** The protocol

    The accesses of a program by what they do to the counter and the buffers,
    and the points of [register_fs_event] a program can be at. *)
Definition silent {R : Set} (f : World → R * World) : Prop :=
  (∀ w, file_event_busy (f w).2 = file_event_busy w) ∧ ∀ c, ignores c f.

Definition local (c : Z) {R : Set} (f : World → R * World) : Prop :=
  (∀ w, file_event_busy (f w).2 = file_event_busy w) ∧ ∀ c', c' ≠ c → ignores c' f.

Definition adds (c n : Z) {R : Set} (f : World → R * World) : Prop :=
  (∀ w, file_event_busy (f w).2 = <[c := u32 (counter w c + n)]> (file_event_busy w)) ∧
  ∀ c', ignores c' f.

Fixpoint quiet {A} (p : bpf A) : Prop :=
  match p with
  | Ret _ => True
  | Act f k => silent f ∧ ∀ r, quiet (k r)
  end.

(** It holds the buffers of [c] until it decrements the counter. *)
Fixpoint holding {A} (c : Z) (p : bpf A) : Prop :=
  match p with
  | Ret _ => False
  | Act f k => local c f ∧ (∀ r, holding c (k r)) ∨ adds c (-1) f ∧ ∀ r, quiet (k r)
  end.

(** It found the buffers in use and is about to take its increment back. *)
Definition backing {A} (c : Z) (p : bpf A) : Prop :=
  match p with Ret _ => False | Act f k => adds c (-1) f ∧ ∀ r, quiet (k r) end.

(** It has incremented the counter and is about to look at it. *)
Definition entering {A} (c : Z) (p : bpf A) : Prop :=
  match p with
  | Ret _ => False
  | Act f k => silent f ∧
      (∀ w, counter w c = 1 → holding c (k (f w).1)) ∧
      (∀ w, counter w c ≠ 1 → backing c (k (f w).1))
  end.

Fixpoint outside {A} (p : bpf A) : Prop :=
  match p with
  | Ret _ => True
  | Act f k => silent f ∧ (∀ r, outside (k r)) ∨ ∃ c, adds c 1 f ∧ ∀ r, entering c (k r)
  end.

Inductive phase := Outside | Entering (c : Z) | Holding (c : Z) | Backing (c : Z) | Quiet.

Definition at_phase (ph : phase) (p : bpf Z) : Prop :=
  match ph with
  | Outside => outside p
  | Entering c => entering c p
  | Holding c => holding c p
  | Backing c => backing c p
  | Quiet => quiet p
  end.

Section compose.
Context {A B : Type}.

Lemma quiet_bind (p : bpf A) (q : A → bpf B) :
  quiet p → (∀ a, quiet (q a)) → quiet (p ≫= q).
Proof.
  unfold mbind, prog_bind. induction p as [a|R f k IH]; intros Hp Hq; [by apply Hq|].
  destruct Hp as [Hf Hk]. split; [done|]. intros r. by apply IH.
Qed.

Lemma quiet_outside (p : bpf A) : quiet p → outside p.
Proof.
  induction p as [a|R f k IH]; intros Hp; [done|]. destruct Hp as [Hf Hk].
  left. split; [done|]. intros r. by apply IH.
Qed.

Lemma outside_bind (p : bpf A) (q : A → bpf B) :
  quiet p → (∀ a, outside (q a)) → outside (p ≫= q).
Proof.
  unfold mbind, prog_bind. induction p as [a|R f k IH]; intros Hp Hq; [by apply Hq|].
  destruct Hp as [Hf Hk]. left. split; [done|]. intros r. by apply IH.
Qed.

Lemma quiet_never c (p : bpf A) : quiet p → never_uses c p.
Proof.
  induction p as [a|R f k IH]; intros Hp; [done|]. destruct Hp as [[_ Hf] Hk].
  split; [done|]. intros r. by apply IH.
Qed.

(** The accesses a program makes while it holds the buffers. *)
Fixpoint inside (c : Z) (p : bpf A) : Prop :=
  match p with
  | Ret _ => True
  | Act f k => local c f ∧ ∀ r, inside c (k r)
  end.

Lemma inside_holding c (p : bpf A) (q : A → bpf B) :
  inside c p → (∀ a, holding c (q a)) → holding c (p ≫= q).
Proof.
  unfold mbind, prog_bind. induction p as [a|R f k IH]; intros Hp Hq; [by apply Hq|].
  destruct Hp as [Hf Hk]. left. split; [done|]. intros r. by apply IH.
Qed.
End compose.

Lemma inside_bind {A B} c (p : bpf A) (q : A → bpf B) :
  inside c p → (∀ a, inside c (q a)) → inside c (p ≫= q).
Proof.
  unfold mbind, prog_bind. induction p as [a|R f k IH]; intros Hp Hq; [by apply Hq|].
  destruct Hp as [Hf Hk]. split; [done|]. intros r. by apply IH.
Qed.

Lemma quiet_inside {A} c (p : bpf A) : quiet p → inside c p.
Proof.
  induction p as [a|R f k IH]; intros Hp; [done|]. destruct Hp as [[Hb Hf] Hk].
  split; [by split|]. intros r. by apply IH.
Qed.

Lemma quiet_act {R : Set} (f : World → R * World) : silent f → quiet (act f).
Proof. intros H. by split. Qed.

(** ** The programs follow the protocol *)

Ltac solve_silent :=
  split; [intros ?|intros ? ? ? ?]; unfold set_buffers; brun; repeat case_match;
  simplify_eq; reflexivity.

Ltac unfold_progs ::=
  progress unfold get_mntns, key_excluded, filtered_out, count_lost, submit_event,
    initialized_before, clear_seccomp, clear_apparmor, fetch_or_bit,
    already_recorded, report_again, report_once, report_process, container_start,
    syscalls_value, sys_enter, sys_enter_getgid, sys_enter_socket, cap_capable,
    submit_exec_event, sys_enter_execve, sys_enter_execveat, sched_process_exec,
    sched_process_exit, sched_process_fork, remember.

Ltac walk_quiet :=
  repeat match goal with
  | |- ∀ _, _ => intro
  | |- quiet (_ ≫= _) => apply quiet_bind
  | |- quiet (mret _) => exact I
  | |- quiet (if ?b then _ else _) => destruct b
  | |- quiet (match ?o with Some _ => _ | None => _ end) => destruct o
  | |- quiet (let '(_, _) := ?p in _) => destruct p
  | |- quiet (get _) => apply quiet_act; solve_silent
  | |- quiet (upd _) => apply quiet_act; solve_silent
  | |- quiet (act _) => apply quiet_act; solve_silent
  | |- quiet (bpf_map_lookup_elem _ _) => apply quiet_act; solve_silent
  | |- quiet (bpf_map_update_elem _ _ _ _ _) => apply quiet_act; solve_silent
  | |- quiet (bpf_lru_update_elem _ _ _ _ _) => apply quiet_act; solve_silent
  | |- quiet (bpf_map_delete_elem _ _) => apply quiet_act; solve_silent
  | |- quiet (map_store _ _ _) => apply quiet_act; solve_silent
  | |- quiet (map_fetch _ _ _ _) => apply quiet_act; solve_silent
  | |- quiet (bpf_ringbuf_reserve _) => apply quiet_act; solve_silent
  | |- quiet (bpf_ringbuf_submit _ _) => apply quiet_act; solve_silent
  | |- quiet _ => unfold_progs; cbv zeta
  end.

Section protocol.
Context {KR : Kernel} (cfg : Rodata) (cur : Task) (k : kmem) (root : path).
Abbreviation c := (cpu cur).

Lemma scratch_other c' e h w :
  c' ≠ c → scratch cur (set_buffers c' e h w) = scratch cur w.
Proof. intros Hc. unfold scratch, set_buffers. cbn. by rewrite lookup_insert_ne. Qed.

Lemma heap_other c' e h w :
  c' ≠ c → heap_buffer cur (set_buffers c' e h w) = heap_buffer cur w.
Proof. intros Hc. unfold heap_buffer, set_buffers. cbn. by rewrite lookup_insert_ne. Qed.

Lemma set_scratch_other c' e h e' w :
  c' ≠ c → set_scratch cur e' (set_buffers c' e h w) = set_buffers c' e h (set_scratch cur e' w).
Proof. intros Hc. unfold set_scratch, set_buffers. cbn. by rewrite insert_insert_ne. Qed.

(** A change of the scratch buffer that depends on nothing but itself. *)
Lemma inside_set_scratch (g : event_data → event_data) :
  inside c (upd (λ w, set_scratch cur (g (scratch cur w)) w)).
Proof.
  split; [|done]. split; [done|]. intros c' Hc w e h.
  by rewrite scratch_other, set_scratch_other.
Qed.

Lemma inside_resolve filename custom : inside c (resolve_path cur k root filename custom).
Proof.
  split; [|done]. split.
  - intros w. cbv zeta. destruct custom; [|by destruct (bpf_d_path _ _ _)].
    by destruct (bpf_d_path_tetragon k filename root (heap_buffer cur w)
      (ed_data (scratch cur w))) as [[? ?] ?].
  - intros c' Hc w e h. cbv zeta. rewrite scratch_other, heap_other by done.
    destruct custom.
    + destruct (bpf_d_path_tetragon k filename root (heap_buffer cur w)
        (ed_data (scratch cur w))) as [[r data] heap].
      rewrite set_scratch_other by done. f_equal. unfold set_buffers. cbn.
      destruct heap; [|done]. by rewrite (insert_insert_ne (buffer_heap_map w)).
    + destruct (bpf_d_path _ _ _). rewrite set_scratch_other by done. done.
Qed.

Lemma inside_output size n : inside c (bpf_ringbuf_output size (file_record cur n)).
Proof.
  split; [|done]. split.
  - intros w. by destruct (rb_room (tick w) size).
  - intros c' Hc w e h. unfold file_record. rewrite scratch_other by done.
    change (tick (set_buffers c' e h w)) with (tick w). by destruct (rb_room (tick w) size).
Qed.

Lemma inside_event_path filename i_mode custom :
  inside c (event_path cur k root filename i_mode custom).
Proof.
  unfold event_path. apply inside_bind; [apply inside_resolve|]. intros n.
  destruct (n <? 0); [done|]. destruct (_ =? S_IFDIR); [|done]. cbv zeta.
  destruct (_ <? _); [|done]. apply inside_bind; [|done].
  apply (inside_set_scratch (λ s, EventData (ed_hdr s) (write_at (ed_data s) _ [47; 0]))).
Qed.

Lemma inside_locked t i_mode flags custom mntns pid inode dev overlay :
  inside c (register_fs_event_locked cfg cur k root t i_mode flags custom mntns pid
    inode dev overlay).
Proof.
  unfold register_fs_event_locked. cbv zeta.
  apply inside_bind; [apply quiet_inside; walk_quiet|]. intros last.
  destruct (_ && _); [done|]. apply inside_bind; [apply inside_event_path|].
  intros [n|]; [|done]. apply inside_bind.
  { apply (inside_set_scratch (λ s, EventData _ (ed_data s))). }
  intros _. apply inside_bind; [apply inside_output|]. intros rc.
  apply quiet_inside. walk_quiet.
Qed.

Lemma adds_busy n : adds c n (λ w, (tt, {| w with file_event_busy :=
    <[cpu cur := u32 (busy cur w + n)]> (file_event_busy w) |})).
Proof. done. Qed.

Lemma register_outside t i_mode flags custom :
  outside (register_fs_event cfg cur k root t i_mode flags custom).
Proof.
  unfold register_fs_event. destruct (_ =? S_IFIFO); [done|].
  apply outside_bind; [walk_quiet|]. intros mntns. destruct (mntns =? 0); [done|]. cbv zeta.
  destruct (negb (array_entry 1 0)); [done|].
  right. exists c. split; [apply adds_busy|]. intros []. cbn [mbind prog_bind pbind get act].
  split; [solve_silent|]. split; intros w Hw; cbn [fst].
  - change (busy cur w) with (counter w c). rewrite Hw.
    apply (inside_holding c (register_fs_event_locked _ _ _ _ _ _ _ _ _ _ _ _ _));
      [apply inside_locked|].
    intros _. right. split; [apply adds_busy|done].
  - change (busy cur w) with (counter w c). destruct (Z.eqb_spec (counter w c) 1); [done|].
    split; [apply adds_busy|]. intros []. cbn [negb]. apply quiet_bind; walk_quiet.
Qed.
End protocol.

Lemma hook_outside {KR : Kernel} cfg p : hook cfg p → outside p.
Proof.
  intros []; try (apply quiet_outside; walk_quiet; fail).
  all: apply outside_bind; [walk_quiet|]; intros b; destruct (negb b); [done|].
  all: try apply register_outside.
  all: match goal with |- context [register_file_event _ _ _ _ ?f _] => destruct f as [x|] end.
  all: first [apply register_outside|done].
Qed.

(** ** Counting *)

(** Whether a program has its increment in the counter of [c], and whether it
    holds the buffers of [c]. *)
Definition counted (c : Z) (ph : phase) : nat :=
  match ph with
  | Entering c' | Holding c' | Backing c' => if decide (c' = c) then 1 else 0
  | Outside | Quiet => 0
  end%nat.

Definition held (c : Z) (ph : phase) : nat :=
  match ph with Holding c' => if decide (c' = c) then 1 else 0 | _ => 0 end%nat.

(** The programs that have not returned yet. *)
Definition running (ts : list (bpf Z)) : nat :=
  sum_list_with (λ p, match p with Ret _ => 0 | Act _ _ => 1 end%nat) ts.

Section counting.
Context {T : Type} (f : T → nat).

Lemma sum_insert l i x y :
  l !! i = Some x →
  (sum_list_with f (<[i := y]> l) + f x = sum_list_with f l + f y)%nat.
Proof.
  revert i. induction l as [|z l IH]; intros [|i] H; simpl in *; simplify_eq; [lia|].
  specialize (IH i H). lia.
Qed.

Lemma sum_lookup l i x : l !! i = Some x → (f x <= sum_list_with f l)%nat.
Proof.
  revert i. induction l as [|z l IH]; intros [|i] H; simpl in *; simplify_eq; [lia|].
  specialize (IH i H). lia.
Qed.

Lemma sum_lookup_two l i j x y :
  i ≠ j → l !! i = Some x → l !! j = Some y → (f x + f y <= sum_list_with f l)%nat.
Proof.
  revert i j. induction l as [|z l IH]; intros [|i] [|j] Hij Hi Hj; simpl in *; simplify_eq.
  - pose proof (sum_lookup l j y Hj). lia.
  - pose proof (sum_lookup l i x Hi). lia.
  - specialize (IH i j ltac:(congruence) Hi Hj). lia.
Qed.
End counting.

(** The state of the protocol: the counter of every CPU is the number of
    programs with an increment in it, and one of them at most holds the
    buffers. *)
Record protocol (phs : list phase) (s : list (bpf Z) * World) : Prop := {
  pr_phases : Forall2 at_phase phs s.1;
  pr_counter c : counter s.2 c = Z.of_nat (sum_list_with (counted c) phs);
  pr_single c : (sum_list_with (held c) phs <= 1)%nat
}.

(** How a program goes on: it gives the buffers up for good. *)
Definition phase_next (ph ph' : phase) : Prop :=
  match ph with
  | Holding c => ph' = Holding c ∨ ph' = Quiet
  | Quiet => ph' = Quiet
  | _ => True
  end.

Section exclusion.
Context {KR : Kernel} (cfg : Rodata).

(** A step of the interleaved execution with less than [2 ^ 32] programs
    running at the same time. *)
Definition bstep (s s' : list (bpf Z) * World) : Prop :=
  pstep (hook cfg) user_step s s' ∧ Z.of_nat (running s'.1) < 2 ^ 32.

Lemma counted_running phs ts c :
  Forall2 at_phase phs ts → (sum_list_with (counted c) phs <= running ts)%nat.
Proof.
  unfold running. induction 1 as [|ph p phs ts Hp _ IH]; simpl; [lia|].
  enough (counted c ph <= match p with Ret _ => 0 | Act _ _ => 1 end)%nat by lia.
  destruct p; [|destruct ph; simpl; try case_decide; lia].
  destruct ph; simpl in *; try done; lia.
Qed.

Lemma held_counted phs c :
  (sum_list_with (held c) phs <= sum_list_with (counted c) phs)%nat.
Proof. induction phs as [|[] phs IH]; simpl; repeat case_decide; lia. Qed.

(** An access of a program leaves the counters alone, increments one of
    them, or takes the increment of the program back. *)
Lemma access_phase ph {R : Set} (f : World → R * World) k w :
  at_phase ph (Act f k) →
  let p := k (f w).1 in
  let busy' := file_event_busy (f w).2 in
  (∃ ph', at_phase ph' p ∧ phase_next ph ph' ∧ busy' = file_event_busy w ∧
    (∀ c, counted c ph' = counted c ph) ∧
    (∀ c, (held c ph' <= held c ph)%nat ∨ counter w c = 1 ∧ counted c ph = 1%nat)) ∨
  (∃ c, at_phase (Entering c) p ∧ phase_next ph (Entering c) ∧
    busy' = <[c := u32 (counter w c + 1)]> (file_event_busy w) ∧
    (∀ c', counted c' ph = 0%nat)) ∨
  (∃ c, at_phase Quiet p ∧ phase_next ph Quiet ∧
    busy' = <[c := u32 (counter w c - 1)]> (file_event_busy w) ∧
    (∀ c', counted c' ph = if decide (c = c') then 1%nat else 0%nat)).
Proof.
  cbv zeta. destruct ph as [|c|c|c|]; intros Hp.
  - destruct Hp as [[[Hb _] Hk]|(c & [Hb _] & Hk)]; [left|right; left].
    + exists Outside. split_and!; simpl; try done; auto with lia.
    + exists c. split_and!; simpl; try done; auto with lia.
  - destruct Hp as ([Hb _] & H1 & H2). left. destruct (decide (counter w c = 1)) as [E|E].
    + exists (Holding c). split_and!; simpl; try done; auto with lia.
      intros c'. case_decide; subst; auto with lia.
    + exists (Backing c). split_and!; simpl; try done; auto with lia.
  - destruct Hp as [[[Hb _] Hk]|[[Hb _] Hk]]; [left|right; right].
    + exists (Holding c). split_and!; simpl; try done; auto with lia.
    + exists c. split_and!; simpl; try done; auto with lia.
  - destruct Hp as [[Hb _] Hk]. right; right. exists c. split_and!; simpl; try done; auto with lia.
  - destruct Hp as [[Hb _] Hk]. left. exists Quiet. split_and!; simpl; try done; auto with lia.
Qed.

Lemma counter_insert w c c' v w' :
  file_event_busy w' = <[c := v]> (file_event_busy w) →
  counter w' c' = if decide (c = c') then v else counter w c'.
Proof.
  unfold counter. intros ->. case_decide; subst.
  - by rewrite lookup_insert_eq.
  - by rewrite lookup_insert_ne.
Qed.

Lemma access_protocol phs ts w i {R : Set} (f : World → R * World) k :
  protocol phs (ts, w) → ts !! i = Some (Act f k) →
  let s' := (<[i := k (f w).1]> ts, (f w).2) in
  Z.of_nat (running s'.1) < 2 ^ 32 →
  ∃ ph ph', phs !! i = Some ph ∧ phase_next ph ph' ∧ protocol (<[i := ph']> phs) s'.
Proof.
  intros [Hph Hc Hs] Hi s' Hrun. unfold s' in *. clear s'. cbn [fst snd] in *.
  destruct (Forall2_lookup_r _ _ _ _ _ Hph Hi) as (ph & Hpi & Hat).
  exists ph. pose proof (access_phase ph f k w Hat) as Ha. cbv zeta in Ha.
  assert (∀ ph' c, (sum_list_with (counted c) (<[i := ph']> phs) + counted c ph =
    sum_list_with (counted c) phs + counted c ph')%nat) as Hcnt
    by (intros; by apply sum_insert).
  assert (∀ ph' c, (sum_list_with (held c) (<[i := ph']> phs) + held c ph =
    sum_list_with (held c) phs + held c ph')%nat) as Hheld
    by (intros; by apply sum_insert).
  destruct Ha as [(ph' & Hp' & Hnx & Hb & Hk & Hh)|[(c & Hp' & Hnx & Hb & Hk)|(c & Hp' & Hnx & Hb & Hk)]].
  - exists ph'. split_and!; [done|done|]. split.
    + by apply Forall2_insert.
    + intros c. unfold counter. cbn [snd]. rewrite Hb. specialize (Hcnt ph' c).
      specialize (Hk c). specialize (Hc c). unfold counter in Hc. lia.
    + intros c. specialize (Hheld ph' c). specialize (Hs c). destruct (Hh c) as [|[H1 H2]]; [lia|].
      pose proof (held_counted phs c). pose proof (held_counted (<[i:=ph']> phs) c).
      specialize (Hc c). specialize (Hcnt ph' c). specialize (Hk c). lia.
  - assert (Forall2 at_phase (<[i := Entering c]> phs) (<[i := k (f w).1]> ts)) as Hf
      by (by apply Forall2_insert).
    exists (Entering c). split_and!; [done|done|]. split; [done| |].
    + intros c'. cbn [snd]. rewrite (counter_insert _ _ _ _ _ Hb).
      specialize (Hcnt (Entering c) c'). rewrite Hk in Hcnt. cbn [counted] in Hcnt.
      pose proof (counted_running _ _ c' Hf). rewrite !Hc. case_decide; [subst|lia].
      rewrite wrap_small by (unfold in_u; lia). lia.
    + intros c'. specialize (Hheld (Entering c) c'). specialize (Hs c'). simpl in Hheld. lia.
  - exists Quiet. split_and!; [done|done|]. split; [by apply Forall2_insert| |].
    + intros c'. cbn [snd]. rewrite (counter_insert _ _ _ _ _ Hb).
      specialize (Hcnt Quiet c'). rewrite Hk in Hcnt. cbn [counted] in Hcnt.
      pose proof (counted_running _ _ c' Hph) as Hle.
      rewrite !Hc. case_decide; [subst|lia].
      assert (running (<[i := k (f w).1]> ts) + 1 >= running ts)%nat.
      { unfold running. pose proof (sum_insert (λ p : bpf Z, match p with Ret _ => 0 | Act _ _ => 1 end%nat)
          ts i (Act f k) (k (f w).1) Hi) as Hr. simpl in Hr. lia. }
      rewrite wrap_small by (unfold in_u; lia). lia.
    + intros c'. specialize (Hheld Quiet c'). specialize (Hs c'). simpl in Hheld. lia.
Qed.

Definition phases_next (phs phs' : list phase) : Prop :=
  ∀ i ph, phs !! i = Some ph → ∃ ph', phs' !! i = Some ph' ∧ phase_next ph ph'.

Lemma phase_next_refl ph : phase_next ph ph.
Proof. destruct ph; simpl; auto. Qed.

Lemma phases_next_trans phs1 phs2 phs3 :
  phases_next phs1 phs2 → phases_next phs2 phs3 → phases_next phs1 phs3.
Proof.
  intros H1 H2 i ph Hi. destruct (H1 i ph Hi) as (ph' & Hi' & Hn).
  destruct (H2 i ph' Hi') as (ph'' & Hi'' & Hn'). exists ph''. split; [done|].
  destruct ph, ph'; simpl in *; naive_solver.
Qed.

Lemma bstep_protocol phs s s' :
  protocol phs s → bstep s s' → ∃ phs', protocol phs' s' ∧ phases_next phs phs'.
Proof.
  intros Hp [Hs Hrun]. destruct Hs as [ts w i R f k Hi|ts w p Hh|ts w w' Hu].
  - destruct (access_protocol phs ts w i f k Hp Hi Hrun) as (ph & ph' & Hpi & Hnx & Hp').
    exists (<[i := ph']> phs). split; [done|]. intros j x Hj.
    destruct (decide (i = j)) as [<-|Hij].
    + exists ph'. rewrite list_lookup_insert_eq by (by eapply lookup_lt_Some). naive_solver.
    + exists x. rewrite list_lookup_insert_ne by done. split; [done|apply phase_next_refl].
  - destruct Hp as [H1 H2 H3]. exists (phs ++ [Outside]). split; [split|].
    + apply Forall2_app; [done|]. constructor; [|constructor]. by apply (hook_outside cfg).
    + intros c. cbn in *. rewrite sum_list_with_app. simpl. rewrite H2. lia.
    + intros c. rewrite sum_list_with_app. specialize (H3 c). simpl. lia.
    + intros i x Hi. exists x. split; [by apply lookup_app_l_Some|apply phase_next_refl].
  - exists phs. split; [|intros i x Hi; exists x; split; [done|apply phase_next_refl]].
    destruct Hp as [H1 H2 H3]. split; [done| |done]. intros c. rewrite <- H2. by destruct Hu.
Qed.

Lemma bsteps_protocol phs s s' :
  protocol phs s → rtc bstep s s' → ∃ phs', protocol phs' s' ∧ phases_next phs phs'.
Proof.
  intros Hp Hr. revert phs Hp. induction Hr as [s|s1 s2 s3 H12 _ IH]; intros phs Hp.
  - exists phs. split; [done|]. intros i x Hi. exists x. split; [done|apply phase_next_refl].
  - destruct (bstep_protocol phs s1 s2 Hp H12) as (phs2 & Hp2 & Hn2).
    destruct (IH phs2 Hp2) as (phs3 & Hp3 & Hn3). exists phs3.
    split; [done|]. by eapply phases_next_trans.
Qed.

Lemma uses_held ph p c : at_phase ph p → uses c p → ph = Holding c.
Proof.
  intros Hp Hu. destruct p as [|R f k]; [done|]. simpl in Hu.
  destruct ph as [|c'|c'|c'|]; simpl in Hp.
  - destruct Hp as [[[_ Hi] _]|(c' & [_ Hi] & _)]; by destruct Hu.
  - destruct Hp as ([_ Hi] & _). by destruct Hu.
  - destruct (decide (c' = c)) as [->|Hne]; [done|].
    destruct Hp as [[[_ Hi] _]|[[_ Hi] _]]; destruct Hu; [by apply Hi|done].
  - destruct Hp as [[_ Hi] _]. by destruct Hu.
  - destruct Hp as [[_ Hi] _]. by destruct Hu.
Qed.

(** The programs start with all buffers free. *)
Definition all_free (w : World) : Prop := ∀ c, counter w c = 0.

Lemma initial_protocol w : all_free w → protocol [] ([], w).
Proof. intros H. split; [constructor|done|]. intros c. simpl. lia. Qed.

(** C5 The programs use the buffers of a CPU one after the other, in every
    interleaving of their accesses: once a program [j] is about to read or
    write the buffers of a CPU, another program [i] that was about to do so
    at any time before will not do so again. *)
Theorem buffers_exclusive w0 s s' i j c p q p' :
  all_free w0 → rtc bstep ([], w0) s → rtc bstep s s' → i ≠ j →
  s.1 !! i = Some p → uses c p →
  s'.1 !! j = Some q → uses c q → s'.1 !! i = Some p' →
  never_uses c p'.
Proof.
  intros H0 Hr1 Hr2 Hij Hi Hu Hj Hu' Hi'.
  destruct (bsteps_protocol [] _ _ (initial_protocol w0 H0) Hr1) as (phs & Hp & _).
  destruct (bsteps_protocol phs _ _ Hp Hr2) as (phs' & Hp' & Hn).
  destruct (Forall2_lookup_r _ _ _ _ _ (pr_phases _ _ Hp) Hi) as (ph & Ei & Hat).
  apply (uses_held _ _ _ Hat) in Hu. subst ph.
  destruct (Hn i _ Ei) as (ph' & Ei' & Hnext).
  destruct (Forall2_lookup_r _ _ _ _ _ (pr_phases _ _ Hp') Hj) as (phj & Ej & Hatj).
  apply (uses_held _ _ _ Hatj) in Hu'. subst phj.
  destruct (Forall2_lookup_r _ _ _ _ _ (pr_phases _ _ Hp') Hi') as (ph2 & Ei2 & Hat2).
  assert (ph2 = ph') as -> by congruence. destruct Hnext as [->| ->].
  - pose proof (pr_single _ _ Hp' c) as Hs.
    pose proof (sum_lookup_two (held c) phs' i j _ _ Hij Ei' Ej) as H2. simpl in H2.
    rewrite decide_True in H2 by done. lia.
  - by apply quiet_never.
Qed.

(** The buffers never stay locked: in every interleaving the counter of
    every CPU is zero once no program runs, and otherwise it is at most the
    number of running programs. *)
Theorem buffers_released w0 s c :
  all_free w0 → rtc bstep ([], w0) s →
  0 <= counter s.2 c <= Z.of_nat (running s.1) ∧
  (running s.1 = 0%nat → all_free s.2).
Proof.
  intros H0 Hr. destruct (bsteps_protocol [] _ _ (initial_protocol w0 H0) Hr) as (phs & Hp & _).
  assert (∀ c, 0 <= counter s.2 c <= Z.of_nat (running s.1)) as Hle.
  { intros c'. rewrite (pr_counter _ _ Hp c').
    pose proof (counted_running phs s.1 c' (pr_phases _ _ Hp)). lia. }
  split; [done|]. intros E c'. specialize (Hle c'). lia.
Qed.
End exclusion.

(** ** Bounded executions *)

Section bounded.
Context {KR : Kernel} (cfg : Rodata).

Lemma running_length (ts : list (bpf Z)) : (running ts <= length ts)%nat.
Proof. unfold running. induction ts as [|[|] ts IH]; simpl; lia. Qed.

Lemma pstep_length s s' :
  pstep (hook cfg) user_step s s' → (length s.1 <= length s'.1)%nat.
Proof. intros []; simpl; [by rewrite length_insert|rewrite length_app; lia|lia]. Qed.

Lemma psteps_length s s' :
  rtc (pstep (hook cfg) user_step) s s' → (length s.1 <= length s'.1)%nat.
Proof. induction 1 as [|s1 s2 s3 H _ IH]; [lia|]. apply pstep_length in H. lia. Qed.

(** An execution with few programs in all is one with few at a time. *)
Lemma few_bounded s s' :
  rtc (pstep (hook cfg) user_step) s s' → Z.of_nat (length s'.1) < 2 ^ 32 →
  rtc (bstep cfg) s s'.
Proof.
  intros Hr Hl. induction Hr as [|s1 s2 s3 H Hr IH]; [done|].
  eapply rtc_l; [|by apply IH]. split; [done|].
  pose proof (running_length s2.1). pose proof (psteps_length s2 s3 Hr). lia.
Qed.

(** The first program advances twice, then the second one starts. *)
Lemma two_programs p q n m l w :
  hook cfg p → hook cfg q →
  let a := advance n p w in
  let b := advance m a.1 a.2 in
  let c := advance l q b.2 in
  rtc (bstep cfg) ([], w) ([a.1], a.2) ∧ rtc (bstep cfg) ([a.1], a.2) ([b.1; c.1], c.2).
Proof.
  intros Hp Hq a b c. split; (apply few_bounded; [|done]).
  - eapply rtc_l; [by apply (pstep_start _ _ [] w p)|].
    apply (advance_steps _ _ n p w [] []).
  - etrans; [apply (advance_steps _ _ m a.1 a.2 [] [])|]. fold b.
    eapply rtc_l; [by apply (pstep_start _ _ [b.1] b.2 q)|].
    apply (advance_steps _ _ l q b.2 [b.1] []).
Qed.
End bounded.

(** ** Witnesses *)

Section witnesses.
#[local] Existing Instance demo_kernel.
#[local] Existing Instance demo_kernel_ok.

(** Opening a file for reading, and then for writing. *)
Abbreviation demo_open := (file_open demo_cfg demo_task (chain_kmem 2) chain_root demo_file).
Abbreviation demo_reopen := (file_open demo_cfg demo_task (chain_kmem 2) chain_root
  (KFile demo_target 2 0x8000)).

(** An access that overwrites a marker in the scratch buffer uses it. *)
Definition overwrites (p : bpf Z) : bool :=
  match p with
  | Ret _ => false
  | Act f _ => bool_decide (file_event_scratch
      (f (set_buffers 0 (EventData zero_header []) [] demo_world)).2 !! 0 ≠
      Some (EventData zero_header []))
  end.

Lemma overwrites_uses p : overwrites p = true → uses 0 p.
Proof.
  destruct p as [|R f k]; [done|]. simpl. intros H%bool_decide_eq_true Hi.
  apply H. rewrite Hi. cbn. apply lookup_insert_eq.
Qed.

(** The first program about to resolve the path and at its end, and the
    second one about to resolve the path. *)
Definition opening : bpf Z * World := advance 6 demo_open demo_world.
Definition opened : bpf Z * World := advance 20 opening.1 opening.2.
Definition reopening : bpf Z * World := advance 6 demo_reopen opened.2.

Lemma opening_uses : uses 0 opening.1 ∧ uses 0 reopening.1.
Proof. split; apply overwrites_uses; vm_compute; reflexivity. Qed.

Lemma opening_steps :
  rtc (bstep demo_cfg) ([], demo_world) ([opening.1], opening.2) ∧
  rtc (bstep demo_cfg) ([opening.1], opening.2) ([opened.1; reopening.1], reopening.2).
Proof.
  apply (two_programs demo_cfg demo_open demo_reopen 6 20 6 demo_world); constructor.
Qed.

Lemma buffers_exclusive_witness : never_uses 0 opened.1.
Proof.
  apply (buffers_exclusive demo_cfg demo_world
    ([opening.1], opening.2)
    ([opened.1; reopening.1], reopening.2)
    0 1 0 opening.1 reopening.1).
  - intros c. reflexivity.
  - exact (proj1 opening_steps).
  - exact (proj2 opening_steps).
  - done.
  - reflexivity.
  - apply opening_uses.
  - reflexivity.
  - apply opening_uses.
  - reflexivity.
Defined.

Definition demo_final : list (bpf Z) * World :=
  ([Ret (result demo_open demo_world)], exec demo_open demo_world).

Lemma demo_final_steps : rtc (bstep demo_cfg) ([], demo_world) demo_final.
Proof. apply few_bounded; [|done]. apply run_reachable. constructor. Qed.

Lemma buffers_released_witness : all_free demo_final.2.
Proof.
  apply (buffers_released demo_cfg demo_world demo_final 0).
  - intros c. reflexivity.
  - exact demo_final_steps.
  - reflexivity.
Defined.
End witnesses.
