(* ===== verification/Reported.v ===== *)
(** * What the userspace was told

    The masks and the set of known processes make the programs report something
    once only.  This file shows that nothing is marked as reported that the
    userspace does not have: in every interleaving of the programs and the
    userspace, once no program runs, each event a mark stands for is among the
    events the userspace keeps, which are those after the last event that made
    it drop its data.  The programs follow the protocol of [Inflight]. *)
From S2P Require Import Prelude Bpf State Names Keys Report Syscalls Activity DPath FsEvents Hooks.
From S2P Require Import Inflight.

(** ** The data of the userspace *)

(** One record applied to the events of type [ty] the userspace keeps for
    [key], given by their flags: the clear event drops them all. *)
Definition keep (ty key : Z) (kept : list Z) (r : ring_record) : list Z :=
  match r with
  | HeaderRecord h =>
      if eh_key h =? key then
        if eh_type h =? EVENT_TYPE_CLEAR_MNTNS then []
        else if eh_type h =? ty then kept ++ [eh_flags h]
        else kept
      else kept
  | _ => kept
  end.

Definition collected (ty key : Z) (rs : list ring_record) : list Z := foldl (keep ty key) [] rs.

Lemma collected_snoc ty key rs r :
  collected ty key (rs ++ [r]) = keep ty key (collected ty key rs) r.
Proof. unfold collected. by rewrite foldl_app. Qed.

(** A record that makes the userspace drop the data of [key]. *)
Definition clears (r : ring_record) (key : Z) : Prop :=
  match r with
  | HeaderRecord h => eh_type h = EVENT_TYPE_CLEAR_MNTNS ∧ eh_key h = key
  | _ => False
  end.

#[export] Instance clears_dec r key : Decision (clears r key).
Proof. destruct r; simpl; apply _. Defined.

Lemma keep_elem ty key kept r x :
  ¬ clears r key → x ∈ kept → x ∈ keep ty key kept r.
Proof.
  intros Hr Hx. destruct r as [h| |]; simpl in *; try done.
  destruct (Z.eqb_spec (eh_key h) key); [|done].
  destruct (Z.eqb_spec (eh_type h) EVENT_TYPE_CLEAR_MNTNS); [by destruct Hr|].
  destruct (eh_type h =? ty); [|done]. apply elem_of_app; by left.
Qed.

(** An event is kept if no record after it makes the userspace drop it. *)
Lemma collected_told ty key rs s h :
  ty ≠ EVENT_TYPE_CLEAR_MNTNS → eh_type h = ty → eh_key h = key →
  rs !! s = Some (Some (HeaderRecord h)) →
  (∀ s' r, (s < s')%nat → rs !! s' = Some (Some r) → ¬ clears r key) →
  eh_flags h ∈ collected ty key (omap id rs).
Proof.
  intros Hty Ht Hk. revert s. induction rs as [|o rs IH] using rev_ind; [done|].
  intros s Hs Hafter. rewrite omap_app. apply lookup_app_Some in Hs as [Hs|[Hge Hs]].
  - assert (eh_flags h ∈ collected ty key (omap id rs)) as Hin.
    { apply (IH s Hs). intros s' r Hlt Hr. apply (Hafter s' r Hlt). by apply lookup_app_l_Some. }
    destruct o as [r|]; cbn; [|by rewrite app_nil_r]. rewrite collected_snoc.
    apply keep_elem; [|done]. apply (Hafter (length rs) r); [by apply lookup_lt_Some in Hs|].
    by rewrite lookup_app_r, Nat.sub_diag by done.
  - apply list_lookup_singleton_Some in Hs as [_ ->]. cbn. rewrite collected_snoc. simpl.
    rewrite Hk, Z.eqb_refl, Ht. destruct (Z.eqb_spec ty EVENT_TYPE_CLEAR_MNTNS); [done|].
    rewrite Z.eqb_refl. apply elem_of_app; right. by left.
Qed.

(** ** The masks *)

Section masks.
Context {KR : Kernel} {KRok : KernelOk}.
Context (L : lens (gmap Z Z)) {HL : LensOk L} (ty : Z).
(* the events a bit stands for, by their flags *)
Context (marks : Z → Z → Prop).
Context (Hty : ty ≠ EVENT_TYPE_CLEAR_MNTNS).

(** A fact is a bit of the mask of a key. *)
Definition mask_marked (w : World) (x : Z * Z) : Prop :=
  0 <= x.2 ∧ ∃ m, lget L w !! x.1 = Some m ∧ Z.testbit m x.2 = true.

Definition mask_tells (r : ring_record) (x : Z * Z) : Prop :=
  match r with
  | HeaderRecord h => eh_type h = ty ∧ eh_key h = x.1 ∧ marks (eh_flags h) x.2
  | _ => False
  end.

Definition mask_kills (r : ring_record) (x : Z * Z) : Prop := clears r x.1.

Abbreviation mfollows := (follows mask_marked mask_tells mask_kills).
Abbreviation midle := (idle mask_marked mask_tells mask_kills).

Lemma mask_told_collected w key i :
  told mask_tells mask_kills w (key, i) →
  ∃ flags, flags ∈ collected ty key (submitted w) ∧ marks flags i.
Proof.
  intros (s & r & Hr & Ht & Hs). destruct r as [h| |]; try done. destruct Ht as (Ht & Hk & Hm).
  exists (eh_flags h). split; [|done]. by eapply collected_told.
Qed.

Lemma mask_frame w w' x :
  (∃ t e l, w' = {| w with tick := t; events := e; lost_events := l |}) →
  mask_marked w' x → mask_marked w x.
Proof. intros (t & e & l & ->) [Hx (m & Hm & Hb)]. rewrite lget_frame in Hm. split; eauto. Qed.

(** The marks after a change of the mask. *)
Lemma mask_subset w w' x : lget L w' ⊆ lget L w → mask_marked w' x → mask_marked w x.
Proof. intros Hs [Hx (m & Hm & Hb)]. split; [done|]. exists m. split; [by eapply lookup_weaken|done]. Qed.

Lemma keeps_follows {A} (p : bpf A) ph :
  keeps (λ w, (lget L w, events w)) p → mfollows p ph (λ _ ph', ph' = ph).
Proof.
  apply (proj_follows _ _ _ (lget L)). intros w w' x Hl. apply mask_subset. by rewrite Hl.
Qed.

(** The access that sets the bit: if it was clear, the program has to send the
    event now. *)
Lemma fetch_or_follows key m i :
  0 <= i →
  mfollows (fetch_or_bit L key m (2 ^ i)) Idle
    (λ b ph, b = true ∧ ph = Idle ∨ b = false ∧ ph = Marked (key, i)).
Proof.
  intros Hi. unfold fetch_or_bit. eapply (follows_bind _ _ _ _ _ _ (λ old ph,
    z2b (Z.land old (2 ^ i)) = true ∧ ph = Idle ∨
    z2b (Z.land old (2 ^ i)) = false ∧ ph = Marked (key, i))); [|done].
  apply follows_act. intros w _.
  destruct (lget L w !! key) as [old|] eqn:E; cbn [fst snd].
  2: { destruct (z2b (Z.land m (2 ^ i))); [exists Idle|exists (Marked (key, i))];
    (split; [|auto]); [by apply t_skip|]. apply t_mark; [by left|done]. }
  assert (∀ k j, mask_marked (lset L (<[key := Z.lor old (2 ^ i)]> (lget L w)) w) (k, j) →
    mask_marked w (k, j) ∨ (k, j) = (key, i) ∧ Z.testbit old i = false) as Hm.
  { intros k j [Hj (m' & Hm' & Hb)]. cbn [fst snd] in *. rewrite lget_lset in Hm'.
    destruct (decide (k = key)) as [->|Hne].
    - rewrite lookup_insert_eq in Hm'. injection Hm' as <-. rewrite lor_pow2_testbit in Hb by done.
      destruct (Z.testbit old j) eqn:Eo; [left; split; eauto|]. simpl in Hb.
      apply Z.eqb_eq in Hb as <-. by right.
    - rewrite lookup_insert_ne in Hm' by done. left. split; eauto. }
  unfold z2b. rewrite land_pow2_nonzero by done.
  destruct (Z.testbit old i) eqn:Eo; [exists Idle|exists (Marked (key, i))]; (split; [|auto]).
  - apply t_skip; [|apply lset_frame]. intros [k j] Hx. by destruct (Hm k j Hx) as [?|[_ ?]].
  - apply t_mark; [|apply lset_frame]. intros [k j] Hx. destruct (Hm k j Hx) as [?|[? _]]; auto.
Qed.

Lemma already_recorded_follows key i :
  0 <= i →
  mfollows (already_recorded L key (2 ^ i)) Idle
    (λ b ph, b = true ∧ ph = Idle ∨ b = false ∧ ph = Marked (key, i)).
Proof.
  intros Hi. unfold already_recorded. eapply follows_bind; [apply keeps_follows, keeps_get|].
  intros [m|] ph ->; [by apply fetch_or_follows|].
  eapply (follows_bind _ _ _ _ _ _ (λ _ ph, ph = Idle)).
  { apply follows_act. intros w _. exists Idle.
    pose proof (λ m', lru_update_0 (tick w) MAX_ENTRIES (lget L w) m' key 0 BPF_NOEXIST) as H0.
    pose proof (λ m' rc, lru_update_err (tick w) MAX_ENTRIES (lget L w) m' key 0
      BPF_NOEXIST rc) as H1.
    destruct (lru_update _ _ _ _ _ _) as [rc m']. cbn [fst snd]. split; [|done].
    apply t_skip; [|apply lset_frame]. intros [k j] [Hj (m & Hm & Hb)]. cbn [fst snd] in *.
    rewrite (lget_ticked L) in Hm. split; [done|]. cbn [fst snd].
    destruct (decide (rc = 0)) as [->|Hrc].
    - destruct (H0 _ eq_refl) as [_ Hs]. apply (lookup_weaken _ _ _ _ Hm) in Hs.
      apply lookup_insert_Some in Hs as [[_ <-]|[_ Hs]]; [by rewrite Z.testbit_0_l in Hb|eauto].
    - destruct (H1 _ _ eq_refl Hrc) as (Hs & _). exists m. split; [by eapply lookup_weaken|done]. }
  intros _ ph ->. eapply (follows_bind _ _ _ _ _ _ (λ o ph,
    match o with Some _ => ph = Idle | None => ph = Marked (key, i) end)).
  { apply follows_act. intros w _. cbn [fst snd]. destruct (lget L w !! key).
    - exists Idle. split; [by apply t_skip|done].
    - exists (Marked (key, i)). split; [|done]. apply t_mark; [by left|done]. }
  intros [m|] ph ->; [by apply fetch_or_follows|]. by right.
Qed.

Lemma report_again_follows key i :
  0 <= i → mfollows (report_again L key (2 ^ i)) (Failed (key, i)) (λ _ ph, ph = Idle).
Proof.
  intros Hi. unfold report_again. eapply (follows_bind _ _ _ _ _ _ (λ o ph,
    match o with Some _ => ph = Failed (key, i) | None => ph = Idle end)).
  { apply follows_act. intros w _. cbn [fst snd]. destruct (lget L w !! key) eqn:E.
    - exists (Failed (key, i)). split; [by apply t_skip|done].
    - exists Idle. split; [|done]. apply t_unmark; [|done]. intros [k j] Hx. split; [done|].
      destruct Hx as [_ (m & Hm & _)]. cbn in *. congruence. }
  intros [m|] ph ->; [|done]. eapply (follows_bind _ _ _ _ _ _ (λ _ ph, ph = Idle));
    [|by intros _ ? ->].
  apply follows_act. intros w _. exists Idle. split; [|done].
  destruct (lget L w !! key) as [old|] eqn:E; cbn [fst snd].
  - apply t_unmark; [|apply lset_frame]. intros [k j] [Hj (m' & Hm' & Hb)]. cbn [fst snd] in *.
    rewrite lget_lset in Hm'. destruct (decide (k = key)) as [->|Hne].
    + rewrite lookup_insert_eq in Hm'. injection Hm' as <-.
      rewrite Z.land_spec, Z.lnot_spec, Z.pow2_bits_eqb in Hb by done.
      apply andb_true_iff in Hb as [Hb Hn]. split; [split; eauto|].
      intros [= ->]. by rewrite Z.eqb_refl in Hn.
    + rewrite lookup_insert_ne in Hm' by done. split; [split; eauto|congruence].
  - apply t_unmark; [|done]. intros [k j] Hx. split; [done|].
    destruct Hx as [_ (m' & Hm & _)]. cbn in *. congruence.
Qed.

Lemma report_once_idle cur mntns key flags i :
  0 <= i → marks flags i → midle (report_once cur L ty mntns key flags (2 ^ i)).
Proof.
  intros Hi Hm. unfold report_once, idle.
  eapply follows_bind; [by apply already_recorded_follows|].
  intros seen ph [[-> ->]|[-> ->]]; [done|].
  eapply follows_bind; [apply (submit_marked _ _ _ mask_frame)|].
  - done.
  - intros x [Hc _]. done.
  - intros rc ph [[-> ->]|[-> ->]]; [done|]. change (negb (-1 =? 0)) with true. cbv iota.
    eapply follows_bind; [by apply report_again_follows|]. by intros _ ? ->.
Qed.

(** The other events, which clear nothing. *)
Lemma submit_other_idle cur type mntns key flags :
  type ≠ EVENT_TYPE_CLEAR_MNTNS → midle (submit_event cur type mntns key flags).
Proof. intros Ht. apply (submit_idle _ _ _ mask_frame). intros x [Hc _]. done. Qed.

(** A part of [clear_apparmor]: the mask is dropped after its event was sent. *)
Lemma delete_killed key h :
  eh_key h = key → eh_type h = EVENT_TYPE_CLEAR_MNTNS →
  mfollows (bpf_map_delete_elem L key) (Killed (HeaderRecord h)) (λ _ ph, ph = Idle).
Proof.
  intros Hk Ht. apply follows_act. intros w _. exists Idle. split; [|by destruct (lget L w !! key)].
  destruct (lget L w !! key) eqn:E; cbn [fst snd]; (apply t_killed; [|try done; apply lset_frame]).
  - intros [k j] [Hj (m & Hm & Hb)]. cbn [fst snd] in *. rewrite lget_lset in Hm.
    apply lookup_delete_Some in Hm as [Hne Hm]. split; [split; eauto|].
    unfold mask_kills, clears. cbn. intros [_ ?]. congruence.
  - intros [k j] Hx. split; [done|]. destruct Hx as [_ (m & Hm & _)]. cbn in *.
    unfold mask_kills, clears. cbn. intros [_ ?]. congruence.
Qed.
End masks.

(** ** The programs one by one *)

Ltac unfold_parts :=
  progress unfold report_process, container_start, syscalls_value, sys_enter,
    sys_enter_getgid, sys_enter_socket, cap_capable, sys_enter_execve, sys_enter_execveat,
    sched_process_exec, sched_process_exit, sched_process_fork,
    register_fs_event_locked, register_fs_event, register_file_event, when_recording,
    file_open, file_lock, mmap_file, bprm_check_security, path_mkdir, path_mknod, path_unlink.

Ltac unfold_progs ::=
  progress unfold get_mntns, key_excluded, filtered_out, count_lost,
    initialized_before, clear_seccomp, fetch_or_bit, already_recorded, report_again,
    resolve_path, append_slash, set_header, event_path, remember, add_busy.

Ltac mask_keep L :=
  first [apply submit_other_idle; done | apply (keeps_follows L); solve [solve_keeps]].

Section programs.
Context {KR : Kernel} {KRok : KernelOk} (cfg : Rodata).

(** The bit of a capability stands for an event with its number. *)
Definition cap_marks (flags i : Z) : Prop := flags = i.

(** The bit of a group of sockets stands for an event of one of them. *)
Definition socket_marks (flags i : Z) : Prop :=
  ∃ domain type, flags = socket_flags domain type ∧ i = socket_index domain type.

Abbreviation caps_idle := (idle (mask_marked recorded_caps_L)
  (mask_tells EVENT_TYPE_APPARMOR_CAP cap_marks) mask_kills).
Abbreviation sockets_idle := (idle (mask_marked recorded_sockets_L)
  (mask_tells EVENT_TYPE_APPARMOR_SOCKET socket_marks) mask_kills).

Lemma clear_caps_idle cur mntns key : caps_idle (clear_apparmor cfg cur mntns key).
Proof.
  unfold clear_apparmor. apply idle_bind; [mask_keep recorded_caps_L|]. intros before.
  destruct before; [done|].
  eapply follows_bind; [apply (submit_killing _ _ _ (mask_frame recorded_caps_L))|].
  intros rc ph [[-> ->]|[-> ->]].
  - eapply follows_bind; [by apply delete_killed|]. intros _ ph ->.
    apply idle_bind; [mask_keep recorded_caps_L|]. done.
  - change (negb (-1 =? 0)) with true. cbv iota. apply idle_bind; [|done].
    destruct (unique_keys cfg); [mask_keep recorded_caps_L|done].
Qed.

Lemma clear_sockets_idle cur mntns key : sockets_idle (clear_apparmor cfg cur mntns key).
Proof.
  unfold clear_apparmor. apply idle_bind; [mask_keep recorded_sockets_L|]. intros before.
  destruct before; [done|].
  eapply follows_bind; [apply (submit_killing _ _ _ (mask_frame recorded_sockets_L))|].
  intros rc ph [[-> ->]|[-> ->]].
  - eapply follows_bind; [apply (keeps_follows recorded_sockets_L); solve_keeps|]. intros _ ph ->.
    eapply follows_bind; [by apply delete_killed|]. by intros _ ph ->.
  - change (negb (-1 =? 0)) with true. cbv iota. apply idle_bind; [|done].
    destruct (unique_keys cfg); [mask_keep recorded_sockets_L|done].
Qed.

Lemma hook_caps_idle p : hook cfg p → caps_idle p.
Proof.
  intros Hp; destruct Hp as [| | | | | | | |cur cap opt Hcap| | | | | | |];
    walk_idle unfold_parts ltac:(mask_keep recorded_caps_L) (mask_frame recorded_caps_L).
  - unfold report_once.
    walk_idle fail ltac:(mask_keep recorded_caps_L) (mask_frame recorded_caps_L).
  - destruct Hcap as [Hcap _].
    match goal with H : (64 <=? cap) = false |- _ => apply Z.leb_gt in H end.
    rewrite Z.shiftl_mul_pow2, Z.mul_1_l by lia. by apply report_once_idle.
  - apply clear_caps_idle.
Qed.

Lemma hook_sockets_idle p : hook cfg p → sockets_idle p.
Proof.
  intros Hp; destruct Hp;
    walk_idle unfold_parts ltac:(mask_keep recorded_sockets_L) (mask_frame recorded_sockets_L).
  - rewrite socket_bit_pow. apply (report_once_idle recorded_sockets_L);
      [done|apply socket_index_range|by eexists _, _].
  - unfold report_once.
    walk_idle fail ltac:(mask_keep recorded_sockets_L) (mask_frame recorded_sockets_L).
  - apply clear_sockets_idle.
Qed.

Lemma user_masks L {HL : LensOk L} w w' :
  L = recorded_caps_L ∨ L = recorded_sockets_L → user_step w w' →
  events w' = events w ∧ ∀ x, mask_marked L w' x → mask_marked L w x.
Proof.
  intros HLs Hu. split; [by destruct Hu|]. intros x. apply mask_subset.
  destruct Hu; destruct HLs as [-> | ->]; cbn; try done; apply delete_subseteq.
Qed.

(** A recording starts without any mark. *)
Definition fresh (w : World) : Prop :=
  recorded_caps w = ∅ ∧ recorded_sockets w = ∅ ∧ active_pids w = ∅.

(** No program is running. *)
Definition settled (ts : list (bpf Z)) : Prop := Forall (λ p, ∃ r, p = Ret r) ts.

Lemma caps_told w0 ts w key i :
  recorded_caps w0 = ∅ → reachable (hook cfg) user_step w0 (ts, w) → settled ts →
  mask_marked recorded_caps_L w (key, i) →
  ∃ flags, flags ∈ collected EVENT_TYPE_APPARMOR_CAP key (submitted w) ∧ cap_marks flags i.
Proof.
  intros H0 Hr Hts Hm. apply mask_told_collected; [done|]. revert Hm.
  apply (settled_told _ _ _ (hook cfg) user_step hook_caps_idle) with (w0 := w0) (ts := ts);
    [|intros x [_ (m & Hm & _)]; cbn in Hm; by rewrite H0 in Hm|done|done].
  intros w1 w2. apply (user_masks recorded_caps_L); by left.
Qed.

Lemma sockets_told w0 ts w key i :
  recorded_sockets w0 = ∅ → reachable (hook cfg) user_step w0 (ts, w) → settled ts →
  mask_marked recorded_sockets_L w (key, i) →
  ∃ flags, flags ∈ collected EVENT_TYPE_APPARMOR_SOCKET key (submitted w) ∧ socket_marks flags i.
Proof.
  intros H0 Hr Hts Hm. apply mask_told_collected; [done|]. revert Hm.
  apply (settled_told _ _ _ (hook cfg) user_step hook_sockets_idle) with (w0 := w0) (ts := ts);
    [|intros x [_ (m & Hm & _)]; cbn in Hm; by rewrite H0 in Hm|done|done].
  intros w1 w2. apply (user_masks recorded_sockets_L); by right.
Qed.

(** C7 What the masks mark as reported the userspace has: in every interleaving
    of the programs and the userspace, once no program runs, a capability or
    kind of socket that is marked for a key was sent for it after the last
    event that made the userspace drop the data of the key. *)
Theorem marked_is_told w0 ts w key mask i :
  fresh w0 → reachable (hook cfg) user_step w0 (ts, w) → settled ts →
  0 <= i → Z.testbit mask i = true →
  (recorded_caps w !! key = Some mask →
    i ∈ collected EVENT_TYPE_APPARMOR_CAP key (submitted w)) ∧
  (recorded_sockets w !! key = Some mask →
    ∃ domain type, i = socket_index domain type ∧
      socket_flags domain type ∈ collected EVENT_TYPE_APPARMOR_SOCKET key (submitted w)).
Proof.
  intros (Hc & Hs & _) Hr Hts Hi Hb. split; intros Hk.
  - destruct (caps_told w0 ts w key i) as (flags & Hf & <-); [done|done|done| |done].
    by split; [|exists mask].
  - destruct (sockets_told w0 ts w key i) as (flags & Hf & d & t & -> & ->);
      [done|done|done|by split; [|exists mask]|eauto].
Qed.

(** What is reported once, when no other program runs: the userspace has it
    afterwards, unless its event did not fit into the ring buffer. *)
Lemma report_once_told L {HL : LensOk L} ty (marks : Z → Z → Prop) w cur mntns key flags i :
  ty ≠ EVENT_TYPE_CLEAR_MNTNS → 0 <= i → marks flags i →
  (∀ m, lget L w !! key = Some m → Z.testbit m i = true →
    ∃ fl, fl ∈ collected ty key (submitted w) ∧ marks fl i) →
  let w' := exec (report_once cur L ty mntns key flags (2 ^ i)) w in
  (∃ fl, fl ∈ collected ty key (submitted w') ∧ marks fl i) ∨
  ∃ t, (tick w <= t < tick w')%nat ∧ rb_room t sizeof_event_header = false.
Proof.
  intros Hty Hi Hf Hmarked. cbv zeta.
  destruct (report_once_spec cur L ty mntns key flags i w Hi) as [_ Hs].
  destruct (Z.testbit (mask_of L w key) i) eqn:Hb.
  - left. destruct Hs as [He _]. unfold submitted. rewrite He. unfold mask_of in Hb.
    destruct (lget L w !! key) as [m|] eqn:E; [by apply (Hmarked m)|].
    cbn in Hb. by rewrite Z.testbit_0_l in Hb.
  - destruct Hs as [[He _]|(Hroom & _)]; [left|by right]. exists flags. split; [|done].
    unfold submitted. rewrite He, submitted_app. cbn. rewrite collected_snoc. simpl.
    rewrite !Z.eqb_refl. destruct (Z.eqb_spec ty EVENT_TYPE_CLEAR_MNTNS); [done|].
    apply elem_of_app; right. by left.
Qed.

(** No capability the workload uses gets lost: in every interleaving, a check of
    a capability that is seen while no other program runs leaves the userspace
    with the capability for the key, even if the userspace dropped its data
    before; the only exception is a check whose own event did not fit into the
    ring buffer. *)
Lemma used_cap_is_told w0 ts w cur cap opt :
  fresh w0 → reachable (hook cfg) user_step w0 (ts, w) → settled ts →
  reported_cap cfg cur cap opt w →
  let w' := exec (cap_capable cfg cur cap opt) w in
  let key := get_key cfg cur (mntns_inum cur) in
  cap ∈ collected EVENT_TYPE_APPARMOR_CAP key (submitted w') ∨
  ∃ t, (tick w <= t < tick w')%nat ∧ rb_room t sizeof_event_header = false.
Proof.
  intros (Hc & _) Hr Hts Hcap. cbv zeta. rewrite exec_cap_capable by done.
  pose proof (rc_cap _ _ _ _ _ Hcap) as Hrange.
  destruct (report_once_told recorded_caps_L EVENT_TYPE_APPARMOR_CAP cap_marks w cur
    (mntns_inum cur) (get_key cfg cur (mntns_inum cur)) cap cap) as [(fl & Hf & <-)|?];
    [done|lia|done| |by left|by right].
  intros m Hm Hb. eapply caps_told; [done|done|done|]. split; [cbn; lia|]. by exists m.
Qed.

(** No socket either: its kind was told. *)
Lemma used_socket_is_told w0 ts w cur domain type rest :
  fresh w0 → reachable (hook cfg) user_step w0 (ts, w) → settled ts →
  is_recording_cached w = true → included cfg cur w = true →
  let w' := exec (sys_enter_socket cfg cur (Some domain :: Some type :: rest)) w in
  let key := get_key cfg cur (mntns_inum cur) in
  (∃ d t, socket_flags d t ∈ collected EVENT_TYPE_APPARMOR_SOCKET key (submitted w') ∧
    socket_index d t = socket_index domain type) ∨
  ∃ t, (tick w <= t < tick w')%nat ∧ rb_room t sizeof_event_header = false.
Proof.
  intros (_ & Hs & _) Hr Hts Hrec Hi. cbv zeta. unfold exec, sys_enter_socket.
  rewrite exec_included by done.
  change (tp_arg (Some domain :: Some type :: rest) 0) with (Some domain).
  change (tp_arg (Some domain :: Some type :: rest) 1) with (Some type).
  cbv iota zeta. rewrite socket_bit_pow. pose proof (socket_index_range domain type) as Hx.
  destruct (report_once_told recorded_sockets_L EVENT_TYPE_APPARMOR_SOCKET socket_marks w cur
    (mntns_inum cur) (get_key cfg cur (mntns_inum cur)) (socket_flags domain type)
    (socket_index domain type)) as [(fl & Hf & d & t & -> & He)|?];
    [done|lia|by eexists _, _| |left; by exists d, t|by right].
  intros m Hm Hb. eapply sockets_told; [done|done|done|]. split; [cbn; lia|]. by exists m.
Qed.
End programs.

(** ** The known processes *)

(** A fact is a process under a key; nothing makes the userspace forget it. *)
Definition pid_marked (w : World) (a : pid_key) : Prop := is_Some (active_pids w !! a).

Definition pid_tells (r : ring_record) (a : pid_key) : Prop :=
  ∃ mntns, r = HeaderRecord (EventHeader (pk_pid a) mntns (pk_key a) EVENT_TYPE_NEWPID 0).

Definition pid_kills (r : ring_record) (a : pid_key) : Prop := False.

Lemma pid_frame w w' a :
  (∃ t e l, w' = {| w with tick := t; events := e; lost_events := l |}) →
  pid_marked w' a → pid_marked w a.
Proof. by intros (t & e & l & ->). Qed.

Lemma pid_follows {A} (p : bpf A) ph :
  keeps (λ w, (active_pids w, events w)) p →
  follows pid_marked pid_tells pid_kills p ph (λ _ ph', ph' = ph).
Proof. apply (proj_follows _ _ _ active_pids). intros w w' a Ha. unfold pid_marked. by rewrite Ha. Qed.

Section processes.
Context {KR : Kernel} {KRok : KernelOk} (cfg : Rodata).
Abbreviation pfollows := (follows pid_marked pid_tells pid_kills).
Abbreviation pids_idle := (idle pid_marked pid_tells pid_kills).

Lemma submit_pids_idle cur type mntns key flags :
  pids_idle (submit_event cur type mntns key flags).
Proof. apply (submit_idle _ _ _ pid_frame). intros x []. Qed.

Lemma pid_delete_idle a : pids_idle (bpf_map_delete_elem active_pids_L a).
Proof.
  apply follows_skip.
  - intros w x. cbn. destruct (active_pids w !! a); [|done]. unfold pid_marked. cbn.
    intros [v [_ Hv]%lookup_delete_Some]. by exists v.
  - intros w. cbn. by destruct (active_pids w !! a).
Qed.

Lemma report_process_idle cur mntns key : pids_idle (report_process cur mntns key).
Proof.
  unfold report_process. cbv zeta. set (a := PidKey (cur_pid cur) 0 key).
  apply idle_bind; [apply pid_follows; solve_keeps|]. intros known.
  destruct (bool_decide _); [done|].
  eapply (follows_bind _ _ _ _ _ _ (λ rc ph, rc = 0 ∧ ph = Marked a ∨ rc ≠ 0 ∧ ph = Idle)).
  { apply follows_act. intros w _. cbn.
    destruct (lru_update _ _ _ _ _ _) as [rc m] eqn:E. cbn.
    destruct (decide (rc = 0)) as [->|Hrc]; [exists (Marked a)|exists Idle]; (split; [|auto]).
    - apply lru_update_0 in E as [_ Hs]. apply t_mark; [|done]. unfold pid_marked. cbn.
      intros y [v Hv]. apply (lookup_weaken _ _ _ _ Hv) in Hs.
      apply lookup_insert_Some in Hs as [[<- _]|[_ Hs]]; [by right|left; by exists v].
    - apply lru_update_err in E as [Hs _]; [|done]. apply t_skip; [|done]. unfold pid_marked. cbn.
      intros y [v Hv]. exists v. by eapply lookup_weaken. }
  intros rc ph [[-> ->]|[Hrc ->]]; [|by destruct (Z.eqb_spec rc 0)].
  change (negb (0 =? 0)) with false. cbv iota.
  eapply follows_bind; [apply (submit_marked _ _ _ pid_frame _ _ _ _ _ a)|].
  - by exists mntns.
  - intros y [].
  - intros rc ph [[-> ->]|[-> ->]]; [done|]. change (negb (-1 =? 0)) with true. cbv iota.
    eapply (follows_bind _ _ _ _ _ _ (λ _ ph, ph = Idle)); [|by intros _ ? ->].
    apply follows_act. intros w _. exists Idle. split; [|done].
    cbn. destruct (active_pids w !! a) eqn:Ea; cbn; (apply t_unmark; [|done]).
    + unfold pid_marked. cbn. intros y [v [Hne Hv]%lookup_delete_Some]. split; [by exists v|done].
    + intros y [v Hv]. split; [by exists v|]. congruence.
Qed.

Ltac pid_keep :=
  first [apply report_process_idle | apply submit_pids_idle | apply pid_delete_idle
        | apply pid_follows; solve [solve_keeps]].

Lemma hook_pids_idle p : hook cfg p → pids_idle p.
Proof.
  intros Hp; destruct Hp; walk_idle ltac:(progress unfold container_start, syscalls_value,
    clear_apparmor, report_once, sys_enter,
    sys_enter_getgid, sys_enter_socket, cap_capable, sys_enter_execve, sys_enter_execveat,
    sched_process_exec, sched_process_exit, sched_process_fork,
    register_fs_event_locked, register_fs_event, register_file_event, when_recording,
    file_open, file_lock, mmap_file, bprm_check_security, path_mkdir, path_mknod, path_unlink)
    pid_keep pid_frame.
Qed.

(** The userspace knows every process the recorder remembers: in every
    interleaving of the programs and the userspace, once no program runs, a
    process remembered under a key was reported with that key. *)
Theorem known_is_told w0 ts w a v :
  fresh w0 → reachable (hook cfg) user_step w0 (ts, w) → settled ts →
  active_pids w !! a = Some v →
  ∃ mntns, HeaderRecord (EventHeader (pk_pid a) mntns (pk_key a) EVENT_TYPE_NEWPID 0) ∈
    submitted w.
Proof.
  intros (_ & _ & H0) Hr Hts Ha.
  assert (told pid_tells pid_kills w a) as (s & r & Hs & [mntns ->] & _).
  { apply (settled_told pid_marked pid_tells pid_kills (hook cfg) user_step hook_pids_idle)
      with (w0 := w0) (ts := ts); [|by intros x [? ?]; rewrite H0 in *|done|done|by exists v].
    intros w1 w2 Hu. split; [by destruct Hu|]. unfold pid_marked.
    destruct Hu; cbn; try done. intros x [v' [_ Hv]%lookup_delete_Some]. by exists v'. }
  exists mntns. unfold submitted. apply list_elem_of_omap.
  exists (Some (HeaderRecord (EventHeader (pk_pid a) mntns (pk_key a) EVENT_TYPE_NEWPID 0))).
  split; [by eapply list_elem_of_lookup_2|done].
Qed.
End processes.

(** ** Witnesses *)

Import String.StringSyntax.
#[local] Open Scope string_scope.
#[local] Open Scope list_scope.
#[local] Open Scope Z_scope.

Section witnesses.
#[local] Existing Instance demo_kernel.
#[local] Existing Instance demo_kernel_ok.

Lemma demo_fresh : fresh demo_world.
Proof. done. Qed.

Lemma settled_ret r : settled [Ret r].
Proof. constructor; [by eexists|constructor]. Qed.

(** CAP_NET_ADMIN again, after it was reported. *)
Abbreviation told_world := (exec (cap_capable demo_cfg demo_task 12 0) demo_world).

Lemma demo_cap_hook : hook demo_cfg (cap_capable demo_cfg demo_task 12 0).
Proof. constructor. split; [lia|reflexivity]. Qed.

Lemma marked_is_told_witness :
  12 ∈ collected EVENT_TYPE_APPARMOR_CAP 7001 (submitted told_world).
Proof.
  eapply (marked_is_told demo_cfg demo_world _ told_world 7001 (2 ^ 12) 12).
  - exact demo_fresh.
  - apply run_reachable, demo_cap_hook.
  - apply settled_ret.
  - lia.
  - reflexivity.
  - vm_compute. reflexivity.
Defined.

Lemma known_is_told_witness :
  ∃ mntns, HeaderRecord (EventHeader (cur_pid demo_task) mntns 7001 EVENT_TYPE_NEWPID 0) ∈
    submitted (exec (sys_enter demo_cfg demo_task demo_write) demo_world).
Proof.
  eapply (known_is_told demo_cfg demo_world _ _ (active_key demo_task 7001) 1).
  - exact demo_fresh.
  - apply run_reachable. constructor.
  - apply settled_ret.
  - vm_compute. reflexivity.
Defined.

(** The exec of the entrypoint by the container init, with the accesses up to
    the clear event done. *)
Definition init_task : Task :=
  {| demo_task with comm := char_array 16 "runc:[2:INIT]"; pid_tgid := 44 * 2 ^ 32 + 44 |}.
Definition init_exec : bpf Z := sys_enter demo_cfg init_task (SysEnter 59 [0; 0; 0; 0; 0; 0]).
Definition window : bpf Z * World := advance 10 init_exec told_world.
Abbreviation check := (cap_capable demo_cfg demo_task 12 0).

Lemma window_reached :
  reachable (hook demo_cfg) user_step demo_world ([Ret 0; window.1], window.2).
Proof.
  pose proof (run_reachable (hook demo_cfg) user_step check demo_world demo_cap_hook) as H.
  assert (result check demo_world = 0) as E by (vm_compute; reflexivity). rewrite E in H.
  unfold reachable in *. etrans; [exact H|].
  eapply rtc_l; [apply (pstep_start _ _ _ _ init_exec); constructor|].
  pose proof (advance_steps (hook demo_cfg) user_step 10 init_exec told_world [Ret 0] []) as Ha.
  fold window in Ha. exact Ha.
Qed.

Lemma window_closes :
  rtc (pstep (hook demo_cfg) user_step) ([Ret 0; window.1; check], window.2)
    ([Ret 0; Ret (result window.1 (exec check window.2)); Ret (result check window.2)],
     exec window.1 (exec check window.2)).
Proof.
  generalize window. intros s.
  pose proof (run_steps (hook demo_cfg) user_step check s.2 [Ret 0; s.1] []) as H1.
  pose proof (run_steps (hook demo_cfg) user_step s.1 (exec check s.2) [Ret 0]
    [Ret (result check s.2)]) as H2.
  cbn [app] in *. etrans; [exact H1|exact H2].
Qed.

(** The condition that no other program runs is needed: [clear_apparmor] sends
    its event before it drops the masks, and a capability that is checked
    between these accesses, and was reported before, is not sent again although
    the userspace drops it; and no lost event is counted. *)
Theorem clear_window_loses_cap :
  ∃ ts1 w1 ts2 w2, reachable (hook demo_cfg) user_step demo_world (ts1, w1) ∧
    HeaderRecord (EventHeader 44 4026532000 7001 EVENT_TYPE_CLEAR_MNTNS 0) ∈ submitted w1 ∧
    reported_cap demo_cfg demo_task 12 0 w1 ∧
    rtc (pstep (hook demo_cfg) user_step) ((ts1 ++ [check])%list, w1) (ts2, w2) ∧ settled ts2 ∧
    ¬ (12 ∈ collected EVENT_TYPE_APPARMOR_CAP 7001 (submitted w2)) ∧ lost_events w2 = ∅.
Proof.
  eexists _, _, _, _. split; [exact window_reached|].
  split; [vm_compute; by right; right; left|].
  split; [split; [vm_compute; reflexivity|vm_compute; reflexivity|vm_compute; reflexivity|
    vm_compute; reflexivity|lia]|].
  split; [exact window_closes|]. split; [repeat (constructor; [by eexists|]); constructor|].
  split; [vm_compute; by intros H%elem_of_nil|vm_compute; reflexivity].
Qed.
End witnesses.
