(* ===== verification/Wire.v ===== *)
(** * The events on the wire

    The bytes of the packed structures [recorder.bpf.c] sends through the ring
    buffer, and the functions of the userspace that decode them
    ([bpfrecorder.go], [bpfprocesscache.go], [bpfrecorder_apparmor.go]). *)
From S2P Require Import Prelude Bpf State Keys Report Activity.

(** ** The packed structures *)

Definition encode_header (h : event_header) : list Z :=
  le_bytes 4 (eh_pid h) ++ le_bytes 4 (eh_mntns h) ++ le_bytes 8 (eh_key h) ++
  le_bytes 1 (eh_type h) ++ le_bytes 8 (eh_flags h).

Definition encode_exec (e : exec_event_data) : list Z :=
  encode_header (ex_hdr e) ++ ex_filename e ++ concat (ex_args e) ++ concat (ex_env e) ++
  le_bytes 4 (ex_args_len e) ++ le_bytes 4 (ex_env_len e).

Definition encode (r : ring_record) : list Z :=
  match r with
  | HeaderRecord h => encode_header h
  | FileRecord h data => encode_header h ++ data
  | ExecRecord e => encode_exec e
  end.

(** ** The userspace *)

(** A slice expression, and the integers of encoding/binary. *)
Definition slice (raw : list Z) (lo hi : Z) : list Z :=
  take (Z.to_nat (hi - lo)) (drop (Z.to_nat lo) raw).
Definition Uint32 (raw : list Z) : Z := le_value raw.
Definition Uint64 (raw : list Z) : Z := le_value raw.

Definition bpfEventHeaderSize : Z := 4 + 4 + 8 + 1 + 8.
Definition maxArgs : Z := 20.
Definition maxEnv : Z := 50.
Definition maxFileNameLen : Z := 128.
Definition maxArgLen : Z := 64.
Definition maxEnvLen : Z := 64.
Definition bpfExecEventSize : Z :=
  bpfEventHeaderSize + maxFileNameLen + maxArgs * maxArgLen + maxEnv * maxEnvLen + 4 + 4.

Record bpfEvent := BpfEvent { be_hdr : event_header; be_data : list Z }.

Definition unmarshalHeader (raw : list Z) : event_header :=
  EventHeader (Uint32 (slice raw 0 4)) (Uint32 (slice raw 4 8)) (Uint64 (slice raw 8 16))
    (nthb raw 16) (Uint64 (slice raw 17 25)).

(** [None] is the result [false]. *)
Definition unmarshal (raw : list Z) : option bpfEvent :=
  if Z.of_nat (length raw) <? bpfEventHeaderSize then None
  else Some (BpfEvent (unmarshalHeader raw) (drop (Z.to_nat bpfEventHeaderSize) raw)).

(** The loop that copies [n] consecutive slices of [len] bytes from [off] on,
    and the offset after it. *)
Fixpoint copies (raw : list Z) (n : nat) (len off : Z) : list (list Z) * Z :=
  match n with
  | O => ([], off)
  | S n => let '(l, off') := copies raw n len (off + len) in
           (slice raw off (off + len) :: l, off')
  end.

Definition unmarshalExec (raw : list Z) : option exec_event_data :=
  if Z.of_nat (length raw) <? bpfExecEventSize then None
  else
    let off := bpfEventHeaderSize in
    let filename := slice raw off (off + maxFileNameLen) in
    let off := off + maxFileNameLen in
    let '(args, off) := copies raw (Z.to_nat maxArgs) maxArgLen off in
    let '(env, off) := copies raw (Z.to_nat maxEnv) maxEnvLen off in
    let args_len := Uint32 (slice raw off (off + 4)) in
    let off := off + 4 in
    let env_len := Uint32 (slice raw off (off + 4)) in
    Some (ExecEventData (unmarshalHeader raw) filename args env args_len env_len).

(** bytes.TrimSuffix with a single NUL. *)
Definition fileDataToString (data : list Z) : list Z :=
  match last data with Some 0 => take (length data - 1) data | _ => data end.

Record BpfAppArmorSocketTypes := SocketTypes { UseRaw : bool; UseTCP : bool; UseUDP : bool }.

Definition sockStream : Z := 1.
Definition sockDgram : Z := 2.
Definition sockRaw : Z := 3.
Definition sockTypeMask : Z := 0xF.
Definition sockDomainShift : Z := 32.

(** The rule a socket needs, [None] for the result [false]; [use] starts with
    nothing set. *)
Definition socketUse (flags : Z) : option BpfAppArmorSocketTypes :=
  let domain := Z.shiftr flags sockDomainShift in
  let socketType := Z.land flags sockTypeMask in
  if (socketType =? sockRaw) && negb (domain =? AF_UNIX) then Some (SocketTypes true false false)
  else if negb (domain =? AF_INET) && negb (domain =? AF_INET6) then None
  else if socketType =? sockStream then Some (SocketTypes false true false)
  else if socketType =? sockDgram then Some (SocketTypes false false true)
  else None.

(** ** Decoding *)

(** Values that fit into the fields of the structures. *)
Record header_ok (h : event_header) : Prop := {
  ho_pid : in_u 32 (eh_pid h); ho_mntns : in_u 32 (eh_mntns h);
  ho_key : in_u 64 (eh_key h); ho_type : in_u 8 (eh_type h); ho_flags : in_u 64 (eh_flags h)
}.

Record exec_ok (e : exec_event_data) : Prop := {
  eo_hdr : header_ok (ex_hdr e);
  eo_filename : length (ex_filename e) = 128%nat;
  eo_args : length (ex_args e) = 20%nat ∧ Forall (λ s, length s = 64%nat) (ex_args e);
  eo_env : length (ex_env e) = 50%nat ∧ Forall (λ s, length s = 64%nat) (ex_env e);
  eo_args_len : in_u 32 (ex_args_len e); eo_env_len : in_u 32 (ex_env_len e)
}.

Lemma slice_app (a b c : list Z) lo hi :
  lo = Z.of_nat (length a) → hi = lo + Z.of_nat (length b) → slice (a ++ b ++ c) lo hi = b.
Proof.
  intros -> ->. unfold slice. rewrite Nat2Z.id, drop_app_length.
  replace (Z.to_nat _) with (length b) by lia. by rewrite take_app_length.
Qed.

Lemma le_value_4 z : in_u 32 z → le_value (le_bytes 4 z) = z.
Proof. intros H. by apply le_value_bytes_u. Qed.
Lemma le_value_8 z : in_u 64 z → le_value (le_bytes 8 z) = z.
Proof. intros H. by apply le_value_bytes_u. Qed.

Lemma length_encode_header h : length (encode_header h) = 25%nat.
Proof. unfold encode_header. by rewrite !length_app, !length_le_bytes. Qed.

Lemma unmarshalHeader_encode h rest :
  header_ok h → unmarshalHeader (encode_header h ++ rest) = h.
Proof.
  intros [Hp Hm Hk Ht Hf]. destruct h as [pid mntns key type flags].
  cbn [eh_pid eh_mntns eh_key eh_type eh_flags] in *.
  unfold unmarshalHeader, encode_header. cbn [eh_pid eh_mntns eh_key eh_type eh_flags].
  rewrite <- !app_assoc.
  set (a := le_bytes 4 pid). set (b := le_bytes 4 mntns). set (c := le_bytes 8 key).
  set (d := le_bytes 1 type). set (e := le_bytes 8 flags).
  assert (length a = 4%nat ∧ length b = 4%nat ∧ length c = 8%nat ∧ length d = 1%nat ∧
    length e = 8%nat) as (La & Lb & Lc & Ld & Le) by (split_and!; apply length_le_bytes).
  unfold Uint32, Uint64. f_equal.
  - pose proof (slice_app [] a (b ++ c ++ d ++ e ++ rest) 0 4) as E. cbn [app] in E.
    rewrite E; [by apply le_value_4|done|by rewrite La].
  - rewrite (slice_app a b); [by apply le_value_4|by rewrite La|by rewrite Lb].
  - rewrite app_assoc. rewrite (slice_app (a ++ b) c); [by apply le_value_8| |by rewrite Lc].
    by rewrite length_app, La, Lb.
  - unfold nthb. rewrite app_nth2 by (rewrite La; simpl; lia).
    rewrite app_nth2 by (rewrite La, Lb; simpl; lia).
    rewrite app_nth2 by (rewrite La, Lb, Lc; simpl; lia).
    rewrite La, Lb, Lc. simpl. unfold in_u in Ht. by rewrite Z.mod_small by lia.
  - replace (a ++ b ++ c ++ d ++ e ++ rest) with ((a ++ b ++ c ++ d) ++ e ++ rest)
      by (by rewrite <- !app_assoc).
    rewrite slice_app; [by apply le_value_8| |by rewrite Le].
    by rewrite !length_app, La, Lb, Lc, Ld.
Qed.

(** ** Events without data and file events *)

Lemma unmarshal_encode h data :
  header_ok h → unmarshal (encode_header h ++ data) = Some (BpfEvent h data).
Proof.
  intros Hh. unfold unmarshal, bpfEventHeaderSize. rewrite length_app, length_encode_header.
  destruct (Z.ltb_spec (Z.of_nat (25 + length data)) (4 + 4 + 8 + 1 + 8)); [lia|].
  rewrite unmarshalHeader_encode by done.
  by rewrite drop_app_length' by (by rewrite length_encode_header).
Qed.

Lemma fileDataToString_nul s : fileDataToString (s ++ [0]) = s.
Proof.
  unfold fileDataToString. rewrite last_snoc, length_app. simpl. apply take_app_length'. lia.
Qed.

(** The userspace decodes what the programs encode: the header of every
    event comes back with all of its fields, an event without data as such,
    and the path of a file event is the string that was sent, byte by byte. *)
Theorem file_event_roundtrip h s :
  header_ok h → no_nul s →
  Z.of_nat (length (encode (HeaderRecord h))) = sizeof_event_header ∧
  unmarshal (encode (HeaderRecord h)) = Some (BpfEvent h []) ∧
  ∃ data, unmarshal (encode (FileRecord h (s ++ [0]))) = Some (BpfEvent h data) ∧
    fileDataToString data = s.
Proof.
  intros Hh Hs. cbn [encode]. split_and!; [by rewrite length_encode_header| |].
  - rewrite <- (app_nil_r (encode_header h)) at 1. by apply unmarshal_encode.
  - exists (s ++ [0]). split; [by apply unmarshal_encode|]. apply fileDataToString_nul.
Qed.

Lemma file_event_roundtrip_witness :
  fileDataToString [47; 97; 0] = [47; 97] ∧
  ∃ data, unmarshal (encode (FileRecord (EventHeader 42 4026532000 7001 2 3) ([47; 97] ++ [0]))) =
      Some (BpfEvent (EventHeader 42 4026532000 7001 2 3) data) ∧
    fileDataToString data = [47; 97].
Proof.
  destruct (file_event_roundtrip (EventHeader 42 4026532000 7001 2 3) [47; 97]) as (_ & _ & H).
  - split; unfold in_u; cbn; lia.
  - repeat constructor; lia.
  - split; [reflexivity|exact H].
Defined.

(** ** Exec events *)

Lemma copies_concat pre slots post len off :
  Forall (λ s, Z.of_nat (length s) = len) slots → off = Z.of_nat (length pre) →
  copies (pre ++ concat slots ++ post) (length slots) len off =
  (slots, off + len * Z.of_nat (length slots)).
Proof.
  intros Hs. revert pre off. induction Hs as [|s slots Hl Hs IH]; intros pre off ->; simpl.
  { f_equal. lia. }
  rewrite <- app_assoc. replace (pre ++ s ++ concat slots ++ post) with
    ((pre ++ s) ++ concat slots ++ post) at 1 by (by rewrite <- app_assoc).
  rewrite IH by (rewrite length_app; lia).
  rewrite slice_app by (done || lia). f_equal. lia.
Qed.

Lemma length_concat_slots slots len :
  Forall (λ s, length s = len) slots → length (concat slots : list Z) = (length slots * len)%nat.
Proof. induction 1; simpl; [done|]. rewrite length_app. lia. Qed.

(** The process cache decodes the event of an exec as it was assembled:
    the header, the file name, every slot of the arguments and the
    environment, and their numbers; and the event has the size that is
    reserved for it. *)
Theorem exec_event_roundtrip e :
  exec_ok e →
  Z.of_nat (length (encode (ExecRecord e))) = sizeof_exec_event_data ∧
  unmarshalExec (encode (ExecRecord e)) = Some e.
Proof.
  intros [Hh Hf [Ha Hal] [He Hel] Hna Hne]. cbn [encode].
  assert (length (concat (ex_args e)) = 1280%nat) as Lca
    by (by rewrite (length_concat_slots _ 64), Ha).
  assert (length (concat (ex_env e)) = 3200%nat) as Lce
    by (by rewrite (length_concat_slots _ 64), He).
  assert (length (encode_exec e) = 4641%nat) as Hlen.
  { unfold encode_exec. rewrite !length_app, !length_le_bytes, length_encode_header. lia. }
  split; [by rewrite Hlen|]. unfold unmarshalExec. rewrite Hlen.
  change (Z.of_nat 4641 <? bpfExecEventSize) with false. cbv iota zeta.
  unfold encode_exec. set (tail := le_bytes 4 (ex_args_len e) ++ le_bytes 4 (ex_env_len e)).
  rewrite unmarshalHeader_encode by done.
  rewrite slice_app by (by rewrite ?length_encode_header, ?Hf).
  set (h := encode_header (ex_hdr e)).
  assert (length h = 25%nat) as Lh by apply length_encode_header.
  replace (h ++ ex_filename e ++ concat (ex_args e) ++ concat (ex_env e) ++ tail) with
    ((h ++ ex_filename e) ++ concat (ex_args e) ++ concat (ex_env e) ++ tail) at 1
    by (by rewrite <- app_assoc).
  change (Z.to_nat maxArgs) with 20%nat. rewrite <- Ha at 1.
  rewrite copies_concat by (rewrite ?length_app, ?Lh, ?Hf;
    first [done | eapply Forall_impl; [exact Hal|]; by intros ? ->]).
  replace (h ++ ex_filename e ++ concat (ex_args e) ++ concat (ex_env e) ++ tail) with
    ((h ++ ex_filename e ++ concat (ex_args e)) ++ concat (ex_env e) ++ tail) at 1
    by (by rewrite <- !app_assoc).
  change (Z.to_nat maxEnv) with 50%nat. rewrite <- He at 1.
  rewrite copies_concat by (rewrite ?length_app, ?Lh, ?Hf, ?Lca, ?Ha;
    first [done | eapply Forall_impl; [exact Hel|]; by intros ? ->]).
  rewrite Ha, He. unfold tail.
  set (p := h ++ ex_filename e ++ concat (ex_args e) ++ concat (ex_env e)).
  assert (length p = 4633%nat) as Lp by (unfold p; rewrite !length_app; lia).
  replace (h ++ ex_filename e ++ concat (ex_args e) ++ concat (ex_env e) ++
    le_bytes 4 (ex_args_len e) ++ le_bytes 4 (ex_env_len e)) with
    (p ++ le_bytes 4 (ex_args_len e) ++ le_bytes 4 (ex_env_len e))
    by (unfold p; by rewrite <- !app_assoc).
  rewrite (slice_app p) by (by rewrite ?Lp, ?length_le_bytes).
  rewrite <- (app_nil_r (le_bytes 4 (ex_env_len e))), app_assoc.
  rewrite (slice_app (p ++ _)) by (by rewrite ?length_app, ?Lp, ?length_le_bytes).
  unfold Uint32. rewrite !le_value_4 by done. by destruct e.
Qed.

Definition demo_exec : exec_event_data :=
  ExecEventData (EventHeader 42 4026532000 7001 6 0) (replicate 128 0)
    (replicate 20 (replicate 64 97)) (replicate 50 (replicate 64 98)) 2 3.

Lemma exec_event_roundtrip_witness :
  unmarshalExec (encode (ExecRecord demo_exec)) = Some demo_exec.
Proof.
  apply (exec_event_roundtrip demo_exec). split.
  - split; unfold in_u; cbn; lia.
  - reflexivity.
  - split; [reflexivity|]. by apply Forall_replicate.
  - split; [reflexivity|]. by apply Forall_replicate.
  - unfold in_u; cbn; lia.
  - unfold in_u; cbn; lia.
Defined.

(** ** Sockets *)

(** What the userspace sees of a socket: its domain, and its type without the
    flags. *)
Lemma socket_flags_seen d t :
  in_u 32 d →
  Z.shiftr (socket_flags d t) sockDomainShift = d ∧
  Z.land (socket_flags d t) sockTypeMask = Z.land t 0xf.
Proof.
  intros Hd. destruct (socket_flags_halves d t Hd) as (H1 & H2 & _).
  split; [exact H1|]. change sockTypeMask with (Z.land 0xffffffff 0xf).
  rewrite Z.land_assoc, H2. unfold wrap. change 0xf with (Z.ones 4).
  rewrite !Z.land_ones by lia. change (2 ^ 4) with 16.
  rewrite Z.mod_mod_divide; [done|]. by exists (2 ^ 28).
Qed.

(** C37 Reporting a kind of socket once loses nothing, as long as the domain is
    passed in a register whose upper half is zero: two sockets with domains of
    at most 32 bits that share a bit of the mask need the same network rule, so
    the event of the first one stands for both.  [socket_upper_half_hidden] shows
    that it can be lost otherwise. *)
Theorem socket_dedup_lossless d1 t1 d2 t2 :
  in_u 32 d1 → in_u 32 d2 → socket_bit d1 t1 = socket_bit d2 t2 →
  socketUse (socket_flags d1 t1) = socketUse (socket_flags d2 t2).
Proof.
  intros H1 H2 Hb. apply socket_bit_groups in Hb as [Hg Ht].
  unfold socketUse. destruct (socket_flags_seen d1 t1) as [-> ->]; [done|].
  destruct (socket_flags_seen d2 t2) as [-> ->]; [done|]. rewrite Ht.
  unfold socket_group in Hg.
  destruct (Z.eqb_spec d1 AF_UNIX), (Z.eqb_spec d1 AF_INET), (Z.eqb_spec d1 AF_INET6),
    (Z.eqb_spec d2 AF_UNIX), (Z.eqb_spec d2 AF_INET), (Z.eqb_spec d2 AF_INET6);
    by try (unfold AF_UNIX, AF_INET, AF_INET6 in *; lia).
Qed.

(** A datagram socket that is opened with SOCK_CLOEXEC after one without. *)
Lemma socket_dedup_lossless_witness :
  socketUse (socket_flags 2 0x80002) = socketUse (socket_flags 2 2) ∧
  socketUse (socket_flags 2 2) = Some (SocketTypes false false true).
Proof.
  split; [|reflexivity]. apply (socket_dedup_lossless 2 0x80002 2 2).
  - done.
  - done.
  - reflexivity.
Defined.

(** AF_NETLINK, a domain that needs no network rule. *)
Definition netlink : Z := 16.

Lemma socket_flags_upper d t : socket_flags d t = socket_flags (u32 d) t.
Proof.
  assert (∀ x, u64 (Z.shiftl x 32) = u32 x * 2 ^ 32) as H.
  { intros x. unfold wrap. rewrite Z.shiftl_mul_pow2 by lia.
    change (2 ^ 64) with (2 ^ 32 * 2 ^ 32). by rewrite Z.mul_mod_distr_r by lia. }
  unfold socket_flags. rewrite !H. unfold wrap. by rewrite Z.mod_mod by lia.
Qed.

(** The domain of a socket is an int for the kernel, but the program groups
    by all 64 bits of the register it is passed in.  With bits set in its upper
    half, a datagram socket of the internet domain needs a network rule, but is
    not reported for a key under which a netlink socket was seen, which needs
    none. *)
Theorem socket_upper_half_hidden {KR : Kernel} {KRok : KernelOk} cfg cur d t w :
  u32 d = AF_INET → d ≠ AF_INET → 0 <= t → Z.land t 0xf = sockDgram →
  is_recording_cached w = true → included cfg cur w = true →
  let key := get_key cfg cur (mntns_inum cur) in
  Z.testbit (mask_of recorded_sockets_L w key) (socket_index netlink t) = true →
  socketUse (socket_flags d t) = Some (SocketTypes false false true) ∧
  socketUse (socket_flags netlink t) = None ∧
  events (exec (sys_enter_socket cfg cur [Some d; Some t]) w) = events w.
Proof.
  intros Hd Hne Ht Hty Hr Hi key Hb.
  assert (socket_group d = 3) as Hg.
  { unfold socket_group, AF_UNIX, AF_INET, AF_INET6 in *.
    destruct (Z.eqb_spec d 1) as [->|]; [done|]. destruct (Z.eqb_spec d 2); [done|].
    by destruct (Z.eqb_spec d 10) as [->|]. }
  split_and!.
  - rewrite socket_flags_upper, Hd. unfold socketUse.
    destruct (socket_flags_seen AF_INET t) as [-> ->]; [done|]. by rewrite Hty.
  - unfold socketUse. destruct (socket_flags_seen netlink t) as [-> ->]; [done|].
    by rewrite Hty.
  - unfold exec, sys_enter_socket. rewrite exec_included by done.
    change (tp_arg [Some d; Some t] 0) with (Some d).
    change (tp_arg [Some d; Some t] 1) with (Some t). cbv iota zeta.
    assert (socket_index d t = socket_index netlink t) as Hx
      by (unfold socket_index; by rewrite Hg).
    rewrite socket_bit_pow, Hx.
    destruct (report_once_spec cur recorded_sockets_L EVENT_TYPE_APPARMOR_SOCKET
      (mntns_inum cur) key (socket_flags d t) (socket_index netlink t) w) as [_ Hs].
    { pose proof (socket_index_range netlink t). lia. }
    unfold exec in Hs. rewrite Hb in Hs. by destruct Hs.
Qed.

(** socket(AF_NETLINK, SOCK_DGRAM), then socket(AF_INET, SOCK_DGRAM) with bit 32
    of the register set. *)
Lemma socket_upper_half_hidden_witness :
  let '(cfg, cur) := (demo_cfg, demo_task) in
  let w := exec (sys_enter_socket (KR := demo_kernel) cfg cur [Some 16; Some 2]) demo_world in
  length (events w) = 1%nat ∧
  events (exec (sys_enter_socket (KR := demo_kernel) cfg cur [Some (2 ^ 32 + 2); Some 2]) w) =
  events w.
Proof.
  split; [reflexivity|].
  apply (socket_upper_half_hidden (KR := demo_kernel) (KRok := demo_kernel_ok)
    demo_cfg demo_task (2 ^ 32 + 2) 2).
  - reflexivity.
  - done.
  - done.
  - reflexivity.
  - reflexivity.
  - reflexivity.
  - reflexivity.
Defined.
