(* ===== verification/LostEvents.v ===== *)
(** * Reporting what got lost ([bpfrecorder.go])

    The programs count what they had to drop, per reason and CPU.
    [checkLostEvents] reads the counters every now and then, and warns with the
    number of losses since the last time.  Over any number of readings the
    warnings add up to exactly what the programs have counted
    ([losses_reported]). *)
From S2P Require Import Prelude Bpf State Wire.
#[local] Open Scope Z_scope.

(** [for i := 0; i+8 <= len(value); i += 8]. *)
Fixpoint sum_words (fuel : nat) (value : list Z) (sum : Z) : Z :=
  match fuel with
  | O => sum
  | S fuel =>
      if (8 <=? length value)%nat
      then sum_words fuel (drop 8 value) (u64 (sum + Uint64 (take 8 value)))
      else sum
  end.

Definition sumPerCPU (value : list Z) : Z := sum_words (length value) value 0.

Definition lostReasons : nat := 4.

(** One reason: what is reported, and the counter that is remembered. *)
Definition check_reason (value : option (list Z)) (last : Z) : option Z * Z :=
  match value with
  | None => (None, last)
  | Some value =>
      let total := sumPerCPU value in
      let lost := u64 (total - last) in
      if (total <? last) || (lost =? 0) then (None, total) else (Some lost, total)
  end.

(** The loop over the reasons: the warnings, and [b.lostEvents]. *)
Definition checkLostEvents (values : list (option (list Z))) (lostEvents : list Z) :
    list (option Z) * list Z :=
  let r := zip_with check_reason values lostEvents in (r.*1, r.*2).

(** ** The sum *)

(** The value of a per CPU map element: the counters of the CPUs in order. *)
Definition per_cpu (counters : list Z) : list Z := concat (map (le_bytes 8) counters).

Definition total (counters : list Z) : Z := foldr Z.add 0 counters.

Lemma sum_words_spec counters fuel sum :
  Forall (in_u 64) counters → (length counters <= fuel)%nat →
  in_u 64 sum → sum_words fuel (per_cpu counters) sum = u64 (sum + total counters).
Proof.
  intros Hc. revert fuel sum. induction Hc as [|c counters Hc Hcs IH]; intros fuel sum Hf Hs.
  - unfold total. cbn [foldr]. rewrite Z.add_0_r, wrap_small by done. by destruct fuel.
  - destruct fuel as [|fuel]; cbn [length] in Hf; [lia|]. unfold per_cpu. cbn [map concat sum_words].
    fold (per_cpu counters). rewrite length_app, length_le_bytes. cbn [Nat.leb Nat.add].
    rewrite drop_app_length', take_app_length' by (by rewrite length_le_bytes).
    unfold Uint64. rewrite le_value_bytes_u by (unfold in_u in Hc; exact Hc).
    rewrite IH; [|lia|by apply wrap_range]. unfold total. cbn [foldr]. unfold wrap.
    rewrite Zplus_mod_idemp_l. f_equal. lia.
Qed.

Lemma sumPerCPU_spec counters :
  Forall (in_u 64) counters → in_u 64 (total counters) → sumPerCPU (per_cpu counters) = total counters.
Proof.
  intros Hc Ht. unfold sumPerCPU. rewrite sum_words_spec; [| done | |unfold in_u; lia].
  - by apply wrap_small.
  - unfold per_cpu. clear. induction counters as [|c l IH]; [done|]. cbn [map concat length].
    rewrite length_app, length_le_bytes. lia.
Qed.

(** ** The warnings *)

(** The counters of a reason in a state of the programs, of the CPUs [0] to [n - 1],
    and what a read of them gives. *)
Definition counters_of (n : nat) (reason : Z) (w : World) : list Z :=
  (λ c, default 0 (lost_events w !! (Z.of_nat c, reason))) <$> seq 0 n.

Definition reading (n : nat) (reason : Z) (w : option World) : option (list Z) :=
  (λ w, per_cpu (counters_of n reason w)) <$> w.

(** The sum of the warnings of a reason over readings one after the other, and what
    is remembered in the end. *)
Fixpoint warned (values : list (option (list Z))) (last : Z) : Z * Z :=
  match values with
  | [] => (0, last)
  | v :: values =>
      let '(w, last) := check_reason v last in
      let '(sum, last) := warned values last in (default 0 w + sum, last)
  end.

(** The states that are read: the counters do not decrease, and do not overflow. *)
Fixpoint counting (n : nat) (reason : Z) (from : Z) (l : list (option World)) : Prop :=
  match l with
  | [] => True
  | None :: l => counting n reason from l
  | Some w :: l =>
      Forall (in_u 64) (counters_of n reason w) ∧ in_u 64 (total (counters_of n reason w)) ∧
      from <= total (counters_of n reason w) ∧ counting n reason (total (counters_of n reason w)) l
  end.

(** The counters at the last reading that did not fail. *)
Definition last_total (n : nat) (reason : Z) (from : Z) (l : list (option World)) : Z :=
  fold_left (λ t w, match w with Some w => total (counters_of n reason w) | None => t end) l from.

(** C40 No loss goes unnoticed, and none is reported twice: for each reason, over
    any sequence of readings of its counters, some of which may fail, the losses
    in the warnings add up to what the programs have counted at the last reading. *)
Theorem losses_reported n reason l :
  counting n reason 0 l →
  warned (reading n reason <$> l) 0 = (last_total n reason 0 l, last_total n reason 0 l).
Proof.
  assert (∀ from, in_u 64 from → counting n reason from l →
    warned (reading n reason <$> l) from = (last_total n reason from l - from, last_total n reason from l)) as H.
  { induction l as [|[w|] l IH]; intros from Hfrom Hc; cbn [fmap list_fmap warned reading option_fmap option_map].
    - unfold last_total. cbn. f_equal. lia.
    - destruct Hc as (H1 & H2 & H3 & H4). unfold check_reason. cbn.
      rewrite sumPerCPU_spec by done. set (t := total (counters_of n reason w)) in *.
      rewrite (proj2 (Z.ltb_ge t from)) by done. cbn [orb].
      assert (u64 (t - from) = t - from) as -> by (apply wrap_small; unfold in_u in *; lia).
      specialize (IH t H2 H4). unfold last_total in *. cbn [fold_left]. fold t.
      destruct (Z.eqb_spec (t - from) 0) as [E|E]; rewrite IH; f_equal; cbn; lia.
    - cbn. rewrite (IH from Hfrom Hc). unfold last_total. cbn [fold_left]. f_equal. }
  intros Hc. rewrite (H 0); [f_equal; lia|unfold in_u; lia|done].
Qed.

(** Two CPUs, a failed reading, and losses on both. *)
Definition lossy (a b : Z) : World := {| (init_world true) with lost_events := <[(0, 0) := a]> {[(1, 0) := b]} |}.

Lemma losses_reported_witness :
  warned (reading 2 0 <$> [Some (lossy 3 4); None; Some (lossy 3 9)]) 0 = (12, 12).
Proof.
  apply (losses_reported 2 0 [Some (lossy 3 4); None; Some (lossy 3 9)]).
  split; [by repeat constructor|]. split; [by vm_compute|]. split; [by vm_compute|].
  split; [by repeat constructor|]. split; [by vm_compute|]. split; [by vm_compute|done].
Defined.
