(* ===== verification/Paths.v ===== *)
(** * The paths of a profile

    What [bpfrecorder_apparmor.go] makes of a path the kernel reported before
    it goes into the AppArmor profile: bytes a profile cannot carry become a
    glob ([sanitizeFilePath]), and numbers, hashes and container IDs that differ
    from run to run a variable or a glob ([ReplaceVarianceInFilePath]).  A Go
    string is the list of its bytes; the regular expressions only have ASCII
    characters in them, so their matches are matches of bytes.

    The specification is the meaning of the globs ([gmatch]): the path in the
    profile has to match the path the workload used ([normalize_matches]), and
    the profile has to be accepted by the generator of the profiles, which
    rejects all of it for one bad path ([normalize_valid]).  The values of the
    variables [@{pid}] and [@{tid}] are those of AppArmor's tunables, which the
    template includes and which are not part of the repository: they are the
    parameter [Tunables], with the documented [TunablesOk].  The code replaces
    any sequence of digits, also one that is no process number, and such a
    file is not covered ([number_not_covered]). *)
From S2P Require Import Prelude.
Import String.StringSyntax.
#[local] Open Scope string_scope.
#[local] Open Scope list_scope.
#[local] Open Scope Z_scope.

(** ** Strings *)

(** The standard library functions [strings.HasPrefix] and [HasSuffix]. *)
Fixpoint HasPrefix (s p : list Z) : bool :=
  match p, s with
  | [], _ => true
  | b :: p, a :: s => (a =? b) && HasPrefix s p
  | _ :: _, [] => false
  end.

Definition HasSuffix (s p : list Z) : bool := HasPrefix (rev s) (rev p).

(** [strings.CutSuffix]. *)
Definition CutSuffix (s p : list Z) : option (list Z) :=
  if HasSuffix s p then Some (take (length s - length p) s) else None.

Definition between (lo hi c : Z) : bool := (lo <=? c) && (c <=? hi).

(** The classes of the regular expressions: [\d], [[0-9a-fA-F]] and [\w]. *)
Definition is_digit (c : Z) : bool := between 48 57 c.
Definition is_hex (c : Z) : bool := is_digit c || between 65 70 c || between 97 102 c.
Definition is_word (c : Z) : bool :=
  is_digit c || between 65 90 c || between 97 122 c || (c =? 95).

Definition SLASH : Z := 47.
Definition STAR : Z := 42.
Definition QUESTION : Z := 63.

(** ** Sanitizing *)

Definition isPlainPathByte (c : Z) : bool :=
  if between 97 122 c || between 65 90 c || between 48 57 c then true
  else (c =? 47) || (c =? 46) || (c =? 95) || (c =? 45) || (c =? 43) || (c =? 32).

Definition deletedSuffix : list Z := bytes " (deleted)".

(** The base and the marker of a path: the loop over the two markers, of which
    the later one wins. *)
Definition cut_marker (filePath : list Z) : list Z * list Z :=
  fold_left (λ acc marker,
      match CutSuffix filePath marker with
      | Some trimmed => (trimmed, marker)
      | None => acc
      end)
    [deletedSuffix; deletedSuffix ++ bytes "/"] (filePath, []).

Definition sanitize_byte (c : Z) : Z := if isPlainPathByte c then c else QUESTION.

Definition sanitizeFilePath (filePath : list Z) : list Z :=
  let '(base, suffix) := cut_marker filePath in map sanitize_byte base ++ suffix.

(** ** Regular expressions *)

(** A regular expression is the function that gives the length of its match at
    the start of a string; all expressions of the source have at most one. *)
Definition matcher : Type := list Z → option nat.

(** The length of the longest prefix of bytes of a class. *)
Fixpoint span (f : Z → bool) (s : list Z) : nat :=
  match s with
  | c :: s => if f c then S (span f s) else O
  | [] => O
  end.

(** [f{min,}]: the expression is greedy. *)
Definition m_run (f : Z → bool) (min : nat) : matcher := λ s,
  if (min <=? span f s)%nat then Some (span f s) else None.

(** [f{n}]. *)
Definition m_times (f : Z → bool) (n : nat) : matcher := λ s,
  if (n <=? span f s)%nat then Some n else None.

Definition m_lit (l : list Z) : matcher := λ s,
  if HasPrefix s l then Some (length l) else None.

(** One expression after the other. *)
Definition m_seq (m1 m2 : matcher) : matcher := λ s,
  match m1 s with
  | Some n => match m2 (drop n s) with Some k => Some (n + k)%nat | None => None end
  | None => None
  end.

(** [ReplaceAllString] of an expression that starts with [^]: only a match at
    the start counts. *)
Definition replace_start (m : matcher) (repl s : list Z) : list Z :=
  match m s with Some n => repl ++ drop n s | None => s end.

(** [ReplaceAllString] of another one: the leftmost matches that do not
    overlap; [skip] bytes belong to the match before. *)
Fixpoint replace_all (m : matcher) (repl : list Z) (skip : nat) (s : list Z) : list Z :=
  match s with
  | [] => []
  | c :: t =>
      match skip with
      | S k => replace_all m repl k t
      | O =>
          match m s with
          | Some (S k) => repl ++ replace_all m repl k t
          | _ => c :: replace_all m repl O t
          end
      end
  end.

Definition ReplaceAllString (m : matcher) (s repl : list Z) : list Z := replace_all m repl 0 s.

(** ** The variance *)

Definition PID : list Z := bytes "@{pid}".
Definition TID : list Z := bytes "@{tid}".
Definition overlay : list Z := bytes "/var/lib/containers/storage/overlay".

Definition reDirectPathWithPid : matcher :=
  m_seq (m_lit (bytes "/")) (m_seq (m_run is_digit 1) (m_lit (bytes "/"))).
Definition reDirectPathWithTid : matcher :=
  m_seq (m_lit (bytes "/@{pid}/task/")) (m_seq (m_run is_digit 1) (m_lit (bytes "/"))).
Definition rePathWithPid : matcher :=
  m_seq (m_lit (bytes "/proc/")) (m_seq (m_run is_digit 1) (m_lit (bytes "/"))).
Definition rePathWithTid : matcher :=
  m_seq (m_lit (bytes "/proc/@{pid}/task/")) (m_seq (m_run is_digit 1) (m_lit (bytes "/"))).
Definition rePathWithCid : matcher :=
  m_seq (m_lit (bytes "/var/lib/containers/storage/overlay/"))
    (m_seq (m_run is_word 1) (m_lit (bytes "/"))).
Definition reUUID : matcher :=
  m_seq (m_times is_hex 8) (m_seq (m_lit (bytes "-"))
  (m_seq (m_times is_hex 4) (m_seq (m_lit (bytes "-"))
  (m_seq (m_times is_hex 4) (m_seq (m_lit (bytes "-"))
  (m_seq (m_times is_hex 4) (m_seq (m_lit (bytes "-")) (m_times is_hex 12)))))))).
Definition reHash : matcher := m_run is_hex 32.
Definition reDigitSequence : matcher := m_run is_digit 6.

Definition ReplaceVarianceInFilePath (filePath : list Z) : list Z :=
  let filePath := replace_start reDirectPathWithPid (bytes "/@{pid}/") filePath in
  let filePath := replace_start reDirectPathWithTid (bytes "/@{pid}/task/@{tid}/") filePath in
  let filePath := replace_start rePathWithPid (bytes "/proc/@{pid}/") filePath in
  let filePath := replace_start rePathWithTid (bytes "/proc/@{pid}/task/@{tid}/") filePath in
  let filePath := ReplaceAllString rePathWithCid filePath
    (bytes "/var/lib/containers/storage/overlay/*/") in
  let filePath := ReplaceAllString reUUID filePath (bytes "*") in
  let filePath := ReplaceAllString reHash filePath (bytes "*") in
  let filePath := ReplaceAllString reDigitSequence filePath (bytes "*") in
  if HasPrefix filePath (bytes "/sys/devices/") then bytes "/sys/devices/**" else filePath.

(** ** Known and excluded files ([apparmor_filters.go]) *)

Definition knownLibrariesPrefixes : list (list Z) := map bytes [
  "/usr/lib32/locale/"; "/usr/lib64/locale/"; "/usr/lib32/gconv/"; "/usr/lib64/gconv/";
  "/usr/lib/x86_64-linux-gnu/"; "/lib/x86_64-linux-gnu/"; "/usr/lib/aarch64-linux-gnu/";
  "/lib/aarch64-linux-gnu/"; "/lib64/"; "/lib/tls/"; "/usr/lib/tls/"].
Definition knownReadPrefixes : list (list Z) := map bytes [
  "/dev/random"; "/dev/urandom"; "/etc/ld.so.cache"; "/etc/ld.so.conf"; "/etc/ld.so.conf.d/";
  "/etc/locale/"; "/etc/locale.alias/"; "/etc/localtime"; "/usr/share/locale/";
  "/usr/lib/locale/"; "/etc/locale.alias"].
Definition knownWritePrefixes : list (list Z) := [bytes "/dev/log"].
Definition excludedFilePrefixes : list (list Z) := map bytes [
  "/run/containerd/io.containerd.runtime.v2.task/k8s.io"; "/usr/bin/runc"].

Definition isKnownFile (path : list Z) (knownPrefixes : list (list Z)) : bool :=
  existsb (HasPrefix path) knownPrefixes.

Definition shouldExcludeFile (filePath : list Z) : bool :=
  existsb (HasPrefix filePath) excludedFilePrefixes.

(** ** What a profile accepts ([crd2armor.go]) *)

(** The class of [strictPathRegex] for a single byte. *)
Definition path_char (c : Z) : bool :=
  isPlainPathByte c || (c =? STAR) || (c =? QUESTION) || (c =? 64).

(** The rest of a path: [(?:[a-zA-Z0-9_./*?+@ -]|@\{[a-zA-Z0-9_]+\})*$].  A
    brace can only follow an [@], and opens a name of word characters. *)
Inductive scan := Plain | At | Open | Name.

Definition scan_byte (st : scan) (c : Z) : option scan :=
  match st with
  | Open => if is_word c then Some Name else None
  | Name => if is_word c then Some Name else if c =? 125 then Some Plain else None
  | At => if c =? 123 then Some Open else if c =? 64 then Some At
          else if path_char c then Some Plain else None
  | Plain => if c =? 64 then Some At else if path_char c then Some Plain else None
  end.

Fixpoint scan_path (st : scan) (s : list Z) : bool :=
  match s with
  | [] => match st with Plain | At => true | _ => false end
  | c :: s => match scan_byte st c with Some st => scan_path st s | None => false end
  end.

Definition strictPathRegex (s : list Z) : bool :=
  match s with c :: s => (c =? SLASH) && scan_path Plain s | [] => false end.

Example replace_examples :
  map (λ s, ReplaceVarianceInFilePath (sanitizeFilePath (bytes s)))
    ["/proc/1234/task/5678/stat"; "/sys/devices/pci0000:00/config"; "/17/task/18/x";
     "/var/lib/containers/storage/overlay/abc123/diff"; "/data/{a,b}/*?@~=[x]";
     "/run/..2024_01.123456789/token"; "/tmp/removed:1 (deleted)/";
     "/x/123e4567-e89b-12d3-a456-426614174000.log"] =
  map bytes
    ["/proc/@{pid}/task/@{tid}/stat"; "/sys/devices/**"; "/@{pid}/task/@{tid}/x";
     "/var/lib/containers/storage/overlay/*/diff"; "/data/?a?b?/??????x?";
     "/run/..2024_01.*/token"; "/tmp/removed?1 (deleted)/"; "/x/*.log"].
Proof. vm_compute. reflexivity. Qed.

(** ** What a path in a profile stands for *)

(** The values of the variables [@{pid}] and [@{tid}], which the tunables of
    AppArmor define ([#include <tunables/global>] of the template). *)
Class Tunables := pid_value : list Z → Prop.

(** The number a sequence of digits stands for, and the numbers Linux gives to
    processes, in decimal. *)
Definition number (w : list Z) : Z := fold_left (λ n c, 10 * n + (c - 48)) w 0.
Definition PID_MAX_LIMIT : Z := 4194304.
Definition is_pid (w : list Z) : bool :=
  forallb is_digit w && negb (bool_decide (head w = Some 48)) &&
  (1 <=? number w) && (number w <=? PID_MAX_LIMIT).

(** What is documented of them: a value is a sequence of digits, and all
    numbers of processes are values. *)
Class TunablesOk {T : Tunables} : Prop := {
  pid_value_digits w : pid_value w → w ≠ [] ∧ Forall (λ c, is_digit c = true) w;
  pid_value_pid w : is_pid w = true → pid_value w
}.

(** The smallest tunables: only the numbers of processes. *)
Definition kernelvars : Tunables := λ w, is_pid w = true.

Lemma kernelvars_ok : TunablesOk (T := kernelvars).
Proof.
  split; [|done]. intros w Hw. unfold pid_value, kernelvars, is_pid in Hw.
  apply andb_true_iff in Hw as [[[Hd _]%andb_true_iff Hn]%andb_true_iff _].
  split; [by intros ->|]. apply Forall_forall. intros c Hc. rewrite forallb_forall in Hd.
  by apply Hd, list_elem_of_In.
Qed.

(** The largest ones: any number. *)
Definition any_number : Tunables := λ w, w ≠ [] ∧ Forall (λ c, is_digit c = true) w.

Lemma any_number_ok : TunablesOk (T := any_number).
Proof.
  split; [done|]. intros w Hw. by apply (pid_value_digits (TunablesOk := kernelvars_ok)).
Qed.

Section rules.
Context {T : Tunables}.

(** The paths a rule covers: a plain byte stands for itself, [?] for any byte
    and [*] for a string of them, but no slash, and a variable for one of its
    values. *)
Inductive gmatch : list Z → list Z → Prop :=
  | gm_nil : gmatch [] []
  | gm_lit c g s : isPlainPathByte c = true → gmatch g s → gmatch (c :: g) (c :: s)
  | gm_any c g s : c ≠ SLASH → gmatch g s → gmatch (QUESTION :: g) (c :: s)
  | gm_star w g s :
      w ≠ [] → Forall (λ c, c ≠ SLASH) w → gmatch g s → gmatch (STAR :: g) (w ++ s)
  | gm_var v w g s :
      v = PID ∨ v = TID → pid_value w → gmatch g s → gmatch (v ++ g) (w ++ s).

(** A rule that ends in [**] covers everything below. *)
Definition rule_covers (g s : list Z) : Prop :=
  gmatch g s ∨
  ∃ p s1 s2, g = p ++ [STAR; STAR] ∧ s = s1 ++ s2 ∧ gmatch p s1 ∧ s2 ≠ [].
End rules.
#[export] Hint Constructors gmatch : ebpf.

(** ** The numbers a path loses *)

(** The number between [a] and the next slash. *)
Definition number_after (a s : list Z) : option (list Z) :=
  match m_seq (m_lit (a ++ [SLASH])) (m_seq (m_run is_digit 1) (m_lit [SLASH])) s with
  | Some n => Some (take (n - length a - 2) (drop (S (length a)) s))
  | None => None
  end.

(** The one of a process and the one of its thread, below [a]. *)
Definition task_numbers (a s : list Z) : list (list Z) :=
  match number_after a s with
  | Some n => n :: option_list (number_after (a ++ [SLASH] ++ n ++ bytes "/task") s)
  | None => []
  end.

(** The numbers [ReplaceVarianceInFilePath] takes for those of processes and
    threads. *)
Definition replaced_numbers (s : list Z) : list (list Z) :=
  task_numbers [] s ++ task_numbers (bytes "/proc") s.

Definition pids_only {T : Tunables} (s : list Z) : Prop := Forall pid_value (replaced_numbers s).

Example replaced_examples :
  map (λ s, replaced_numbers (bytes s)) ["/17/task/18/x"; "/proc/5/task/6/stat"; "/proc/5/fd/6/x"; "/20240101/x"; "/a/1/x"] =
  [map bytes ["17"; "18"]; map bytes ["5"; "6"]; map bytes ["5"]; map bytes ["20240101"]; []].
Proof. vm_compute. reflexivity. Qed.

(** *** The classes of bytes *)

Lemma between_spec lo hi c : between lo hi c = true ↔ lo <= c <= hi.
Proof. unfold between. rewrite andb_true_iff, !Z.leb_le. lia. Qed.

Lemma isPlainPathByte_spec c :
  isPlainPathByte c = true ↔ 97 <= c <= 122 ∨ 65 <= c <= 90 ∨ 48 <= c <= 57 ∨ c = 47 ∨ c = 46 ∨
    c = 95 ∨ c = 45 ∨ c = 43 ∨ c = 32.
Proof.
  unfold isPlainPathByte. rewrite <- !between_spec.
  destruct (between 97 122 c), (between 65 90 c), (between 48 57 c); cbn; try tauto;
    rewrite !orb_true_iff, !Z.eqb_eq; intuition congruence.
Qed.

Ltac char_class :=
  unfold is_word, is_hex, is_digit, SLASH, STAR, QUESTION in *;
  rewrite ?orb_true_iff, ?Z.eqb_eq, ?between_spec, ?isPlainPathByte_spec in *; lia.

Lemma is_word_plain c : is_word c = true → isPlainPathByte c = true.
Proof. char_class. Qed.

Lemma is_digit_word c : is_digit c = true → is_word c = true.
Proof. char_class. Qed.

Lemma is_hex_word c : is_hex c = true → is_word c = true.
Proof. char_class. Qed.

Lemma is_word_no_slash c : is_word c = true → c ≠ SLASH.
Proof. char_class. Qed.

#[export] Hint Resolve is_word_plain is_digit_word is_hex_word is_word_no_slash : ebpf.

Lemma HasPrefix_spec s p : HasPrefix s p = true ↔ p `prefix_of` s.
Proof.
  revert s. induction p as [|b p IH]; intros s; [split; [intros _; apply prefix_nil|by destruct s]|].
  destruct s as [|a s]; simpl; [split; [done|by intros ?%prefix_nil_not]|].
  rewrite andb_true_iff, Z.eqb_eq, IH. split.
  - intros [-> H]. by apply prefix_cons.
  - intros H. split; [by apply prefix_cons_inv_1 in H|by apply prefix_cons_inv_2 in H].
Qed.

Lemma HasPrefix_slash s : HasPrefix (SLASH :: s) (bytes "/") = true.
Proof. by destruct s. Qed.

Lemma HasSuffix_spec s p : HasSuffix s p = true ↔ p `suffix_of` s.
Proof.
  unfold HasSuffix. rewrite HasPrefix_spec. split; intros [k Hk].
  - exists (rev k). rewrite <- (rev_involutive s), Hk, rev_app_distr. by rewrite rev_involutive.
  - exists (rev k). by rewrite Hk, rev_app_distr.
Qed.

(** *** Replacing a part of a pattern *)

Section covering.
Context {T : Tunables} {TOk : TunablesOk}.

(** A match of plain bytes is these bytes. *)
Lemma gmatch_plain x g s :
  Forall (λ c, isPlainPathByte c = true) x → gmatch (x ++ g) s → ∃ t, s = x ++ t ∧ gmatch g t.
Proof.
  revert s. induction x as [|c x IH]; intros s Hx Hm; [by exists s|].
  apply Forall_cons in Hx as [Hc Hx]. cbn [app] in Hm.
  inversion Hm as [|? ? ? _ Hg|? ? ? _ Hg|? ? ? _ _ Hg|v ? ? ? Hv _ Hg Heq]; subst;
    try (exfalso; char_class).
  - destruct (IH _ Hx Hg) as (t & -> & Ht). by exists t.
  - exfalso. destruct Hv as [-> | ->]; injection Heq as <-; vm_compute in Hc; done.
Qed.

(** Plain bytes that cannot be a part of a variable: the first one is not in
    its name, or the second one does not end it. *)
Definition solid (x : list Z) : Prop :=
  Forall (λ c, isPlainPathByte c = true) x ∧
  ∃ c d x', x = c :: d :: x' ∧ c ≠ 112 ∧ c ≠ 105 ∧ c ≠ 116.

(** A variable is a part of what is before such bytes, or after them. *)
Lemma solid_not_in_var v x a b g :
  v = PID ∨ v = TID → solid x → v ++ g = a ++ x ++ b → a ≠ [] → ∃ a', a = v ++ a'.
Proof.
  intros Hv (Hp & c & d & x' & -> & H1 & H2 & H3) Heq Ha.
  apply Forall_cons in Hp as [Hc [Hd _]%Forall_cons].
  assert (∀ k, isPlainPathByte k = true → k ≠ 123 ∧ k ≠ 125) as Hb by (intros k; char_class).
  apply Hb in Hc, Hd.
  destruct Hv as [-> | ->]; cbn in Heq;
    do 6 (destruct a as [|? a]; [first [done | cbn in Heq; simplify_eq; lia]|]);
    cbn in Heq; simplify_eq; by exists a.
Qed.

Lemma gmatch_replace a x r b s :
  solid x → (∀ t, gmatch b t → gmatch (r ++ b) (x ++ t)) →
  gmatch (a ++ x ++ b) s → gmatch (a ++ r ++ b) s.
Proof.
  intros Hx Hr Hm. remember (a ++ x ++ b) as g eqn:Hg. revert a Hg.
  induction Hm as [|c g s Hc Hm IH|c g s Hc Hm IH|w g s Hw Hs Hm IH|v w g s Hv Hw Hm IH];
    intros a Hg.
  - destruct Hx as (_ & c & d & x' & -> & _). by destruct a.
  - destruct a as [|c' a]; [|injection Hg as <- Hg; cbn; constructor; auto].
    cbn in *. pose proof (gm_lit _ _ _ Hc Hm) as Hm'. rewrite Hg in Hm'.
    destruct (gmatch_plain x b _ (proj1 Hx) Hm') as (t & -> & Ht). auto.
  - destruct a as [|c' a]; [|injection Hg as <- Hg; cbn; constructor; auto].
    exfalso. destruct Hx as (Hp & c' & d & x' & -> & _). injection Hg as <- _.
    apply Forall_cons in Hp as [Hp _]. char_class.
  - destruct a as [|c' a]; [|injection Hg as <- Hg; cbn; constructor; auto].
    exfalso. destruct Hx as (Hp & c' & d & x' & -> & _). injection Hg as <- _.
    apply Forall_cons in Hp as [Hp _]. char_class.
  - destruct a as [|c' a].
    { exfalso. destruct Hx as (Hp & c' & d & x' & -> & _). apply Forall_cons in Hp as [Hp _].
      destruct Hv as [-> | ->]; injection Hg as <- _; vm_compute in Hp; done. }
    destruct (solid_not_in_var v x (c' :: a) b g Hv Hx Hg ltac:(done)) as [a' Ha].
    rewrite Ha, <- app_assoc. constructor; [done|done|].
    apply IH. rewrite Ha, <- app_assoc in Hg. by apply app_inv_head in Hg.
Qed.

(** *** What the expressions match *)

(** A match is a prefix of the string, with the property [P]. *)
Definition accepts (m : matcher) (P : list Z → Prop) : Prop :=
  ∀ s n, m s = Some n → ∃ x y, s = x ++ y ∧ length x = n ∧ P x.

Lemma span_split f s :
  ∃ y, s = take (span f s) s ++ y ∧ Forall (λ c, f c = true) (take (span f s) s) ∧
    (span f s <= length s)%nat.
Proof.
  exists (drop (span f s) s). rewrite take_drop. split; [done|].
  induction s as [|c s [IH Hl]]; simpl; [done|].
  destruct (f c) eqn:Hc; simpl; [|split; [constructor|lia]]. split; [by constructor|lia].
Qed.

Lemma m_run_accepts f k :
  accepts (m_run f k) (λ x, (k <= length x)%nat ∧ Forall (λ c, f c = true) x).
Proof.
  intros s n. unfold m_run. destruct (Nat.leb_spec k (span f s)) as [Hk|]; intros [= <-].
  destruct (span_split f s) as (y & Hs & Hf & Hl). eexists _, y. split; [exact Hs|].
  rewrite length_take, Nat.min_l by done. auto.
Qed.

Lemma m_times_accepts f k :
  accepts (m_times f k) (λ x, (k <= length x)%nat ∧ Forall (λ c, f c = true) x).
Proof.
  intros s n. unfold m_times. destruct (Nat.leb_spec k (span f s)) as [Hk|]; intros [= <-].
  destruct (span_split f s) as (y & Hs & Hf & Hl). exists (take k s), (drop k s).
  rewrite take_drop, length_take, Nat.min_l by lia. split; [done|split; [done|split; [done|]]].
  replace (take k s) with (take k (take (span f s) s)); [by apply Forall_take|].
  rewrite take_take. f_equal. lia.
Qed.

Lemma m_lit_accepts l : accepts (m_lit l) (λ x, x = l).
Proof.
  intros s n. unfold m_lit. destruct (HasPrefix s l) eqn:E; intros [= <-].
  apply HasPrefix_spec in E as [y ->]. by exists l, y.
Qed.

Lemma m_seq_accepts m1 m2 P1 P2 :
  accepts m1 P1 → accepts m2 P2 →
  accepts (m_seq m1 m2) (λ x, ∃ x1 x2, x = x1 ++ x2 ∧ P1 x1 ∧ P2 x2).
Proof.
  intros H1 H2 s n. unfold m_seq. destruct (m1 s) as [n1|] eqn:E1; [|done].
  destruct (m2 (drop n1 s)) as [n2|] eqn:E2; intros [= <-].
  destruct (H1 _ _ E1) as (x1 & y1 & -> & <- & HP1). rewrite drop_app_length in E2.
  destruct (H2 _ _ E2) as (x2 & y2 & -> & <- & HP2).
  exists (x1 ++ x2), y2. rewrite app_assoc, length_app. eauto 10.
Qed.

Lemma accepts_weaken m (P Q : list Z → Prop) : accepts m P → (∀ x, P x → Q x) → accepts m Q.
Proof. intros Hm HPQ s n Hs. destruct (Hm s n Hs) as (x & y & ? & ? & ?). eauto 10. Qed.

Lemma number_accepts f :
  accepts (m_seq (m_run f 1) (m_lit [SLASH]))
    (λ x, ∃ d, x = d ++ [SLASH] ∧ d ≠ [] ∧ Forall (λ c, f c = true) d).
Proof.
  eapply accepts_weaken; [apply m_seq_accepts; [apply m_run_accepts|apply m_lit_accepts]|].
  intros x (d & ? & -> & [Hl Hd] & ->). exists d. split; [done|]. split; [|done].
  by destruct d; [cbn in Hl; lia|].
Qed.

(** *** The numbers *)

Lemma span_digits d b : Forall (λ c, is_digit c = true) d → span is_digit (d ++ SLASH :: b) = length d.
Proof. induction 1 as [|c d Hc _ IH]; cbn; [done|]. by rewrite Hc, IH. Qed.

Lemma number_after_spec a s d :
  number_after a s = Some d ↔
  ∃ b, s = a ++ [SLASH] ++ d ++ [SLASH] ++ b ∧ d ≠ [] ∧ Forall (λ c, is_digit c = true) d.
Proof.
  unfold number_after. split.
  - destruct (m_seq _ _ s) as [n|] eqn:E; intros [= <-].
    apply (m_seq_accepts _ _ _ _ (m_lit_accepts _) (number_accepts is_digit)) in E
      as (x & b & -> & <- & ? & ? & -> & -> & d & -> & Hd & Hn).
    exists b. rewrite !length_app, <- !app_assoc. cbn [length].
    replace (length a + 1 + (length d + 1) - length a - 2)%nat with (length d) by lia.
    replace (drop (S (length a)) (a ++ [SLASH] ++ d ++ [SLASH] ++ b)) with (d ++ [SLASH] ++ b).
    + by rewrite take_app_length.
    + rewrite (app_assoc a [SLASH]). replace (S (length a)) with (length (a ++ [SLASH])) by (rewrite length_app; cbn; lia).
      by rewrite drop_app_length.
  - intros (b & -> & Hd & Hf). unfold m_seq at 1, m_lit at 1.
    rewrite (app_assoc a [SLASH]).
    rewrite (proj2 (HasPrefix_spec _ _)) by (by eexists).
    destruct d as [|c d]; [done|]. cbn [app].
    rewrite drop_app_length. unfold m_seq, m_run. change (c :: d ++ SLASH :: b) with ((c :: d) ++ SLASH :: b).
    rewrite span_digits by done. cbn [length Nat.leb]. change (S (length d)) with (length (c :: d)).
    rewrite drop_app_length. unfold m_lit. rewrite HasPrefix_slash. cbn [length]. f_equal.
    rewrite !length_app. cbn [length].
    replace (S (length a)) with (length (a ++ [SLASH])) by (rewrite length_app; cbn; lia).
    rewrite drop_app_length.
    replace (length a + 1 + (S (length d) + 1) - length a - 2)%nat with (length (c :: d)) by (cbn; lia).
    by rewrite take_app_length.
Qed.

Lemma number_after_app p a s : number_after (p ++ a) (p ++ s) = number_after a s.
Proof.
  apply option_eq. intros d. rewrite !number_after_spec.
  split; intros (b & Hb & ?); exists b; (split; [|done]); rewrite <- app_assoc in *.
  - by apply app_inv_head in Hb.
  - by rewrite Hb.
Qed.

(** A replacement at the start, and the number it replaces. *)
Lemma replace_number a r s :
  let s' := replace_start (m_seq (m_lit (a ++ [SLASH])) (m_seq (m_run is_digit 1) (m_lit [SLASH]))) r s in
  number_after a s = None ∧ s' = s ∨
  ∃ d b, number_after a s = Some d ∧ s = a ++ [SLASH] ++ d ++ [SLASH] ++ b ∧ d ≠ [] ∧
    Forall (λ c, is_digit c = true) d ∧ s' = r ++ b.
Proof.
  cbv zeta. destruct (number_after a s) as [d|] eqn:E.
  - right. apply number_after_spec in E as Hs. destruct Hs as (b & Hs & Hd & Hf).
    exists d, b. repeat (split; [done|]). unfold replace_start.
    unfold number_after in E. destruct (m_seq _ _ s) as [n|] eqn:Em; [|done].
    apply (m_seq_accepts _ _ _ _ (m_lit_accepts _) (number_accepts is_digit)) in Em
      as (x & b' & Hx & <- & ? & ? & -> & -> & d' & -> & Hd' & Hf').
    rewrite Hx, drop_app_length. f_equal. rewrite Hx in Hs.
    rewrite <- !app_assoc in Hs. apply app_inv_head in Hs. cbn [app] in Hs. injection Hs as Hs.
    assert (length d' = length d) as Hl by (rewrite <- (span_digits d' b' Hf'), Hs; by apply span_digits).
    apply app_inj_1 in Hs as [_ Hs]; [|done]. by injection Hs.
  - left. split; [done|]. unfold number_after, replace_start in *. by destruct (m_seq _ _ s).
Qed.

Lemma task_number_1 a s d : number_after a s = Some d → d ∈ task_numbers a s.
Proof. intros Hd. unfold task_numbers. rewrite Hd. by left. Qed.

(** The number of a thread, after the one of its process was replaced. *)
Lemma task_number_2 a s d :
  64 ∉ s →
  number_after (a ++ bytes "/@{pid}/task")
    (replace_start (m_seq (m_lit (a ++ [SLASH])) (m_seq (m_run is_digit 1) (m_lit [SLASH])))
      (a ++ bytes "/@{pid}/") s) = Some d →
  d ∈ task_numbers a s.
Proof.
  intros Hs. destruct (replace_number a (a ++ bytes "/@{pid}/") s)
    as [[_ ->]|(n & b & Hn & -> & _ & _ & ->)]; intros Hd.
  - exfalso. apply number_after_spec in Hd as (b & -> & _). apply Hs.
    rewrite !elem_of_app. left; right. apply (bool_decide_unpack _). by vm_compute.
  - unfold task_numbers. rewrite Hn. right.
    rewrite <- app_assoc in Hd. rewrite number_after_app in Hd.
    change (number_after (bytes "/@{pid}" ++ bytes "/task") (bytes "/@{pid}" ++ [SLASH] ++ b) = Some d) in Hd.
    rewrite number_after_app in Hd. rewrite number_after_app.
    rewrite (app_assoc [SLASH] n), (app_assoc [SLASH] n ([SLASH] ++ b)), number_after_app, Hd. by left.
Qed.

(** *** The replacements keep the match *)

Lemma solid_between d :
  d ≠ [] → Forall (λ c, is_word c = true) d → solid ([SLASH] ++ d ++ [SLASH]).
Proof.
  intros Hd Hw. destruct d as [|c d]; [done|]. split.
  - apply Forall_app; split; [by repeat constructor|]. apply Forall_app; split; [|by repeat constructor].
    eapply Forall_impl; [exact Hw|]. eauto with ebpf.
  - eexists _, _, _. split; [reflexivity|]. unfold SLASH. lia.
Qed.

(** What stands between two slashes is replaced by something that covers it. *)
Lemma gmatch_between a d r b s :
  d ≠ [] → Forall (λ c, is_word c = true) d → (∀ g t, gmatch g t → gmatch (r ++ g) (d ++ t)) →
  gmatch (a ++ ([SLASH] ++ d ++ [SLASH]) ++ b) s →
  gmatch (a ++ ([SLASH] ++ r ++ [SLASH]) ++ b) s.
Proof.
  intros Hd Hw Hr. apply gmatch_replace; [by apply solid_between|].
  intros t Ht. rewrite <- !app_assoc. cbn [app]. constructor; [done|]. apply Hr.
  by constructor.
Qed.

Lemma gmatch_star d g t :
  d ≠ [] → Forall (λ c, is_word c = true) d → gmatch g t → gmatch ([STAR] ++ g) (d ++ t).
Proof.
  intros Hd Hw Hg. apply gm_star; [done| |done]. eapply Forall_impl; [exact Hw|]. eauto with ebpf.
Qed.

Lemma replace_start_number a v s t :
  v = PID ∨ v = TID → (∀ d, number_after a s = Some d → pid_value d) → gmatch s t →
  gmatch (replace_start (m_seq (m_lit (a ++ [SLASH])) (m_seq (m_run is_digit 1) (m_lit [SLASH])))
    (a ++ [SLASH] ++ v ++ [SLASH]) s) t.
Proof.
  intros Hv Hp Hm.
  destruct (replace_number a (a ++ [SLASH] ++ v ++ [SLASH]) s)
    as [[_ ->]|(d & b & Hd & -> & Hn & Hf & ->)]; [done|]. apply Hp in Hd.
  rewrite <- app_assoc.
  eapply gmatch_between; [exact Hn| |intros g u; by apply gm_var|].
  - eapply Forall_impl; [exact Hf|]. eauto with ebpf.
  - by rewrite <- !app_assoc in *.
Qed.

(** A replacement everywhere keeps a match if it does for each part. *)
Definition keeps_match (m : matcher) (r : list Z) : Prop :=
  accepts m (λ x, x ≠ [] ∧
    ∀ a b t, gmatch (a ++ x ++ b) t → gmatch (a ++ r ++ b) t).

Lemma replace_all_drop m r k s :
  (k <= length s)%nat → replace_all m r k s = replace_all m r 0 (drop k s).
Proof.
  revert s. induction k as [|k IH]; intros s Hk; [done|].
  destruct s as [|c s]; cbn in *; [lia|]. apply IH. lia.
Qed.

Lemma ReplaceAllString_keeps m r s t :
  keeps_match m r → gmatch s t → gmatch (ReplaceAllString m s r) t.
Proof.
  intros Hm. unfold ReplaceAllString.
  enough (∀ n s a, (length s <= n)%nat → gmatch (a ++ s) t → gmatch (a ++ replace_all m r 0 s) t)
    as H by (apply (H (length s) s []); lia).
  clear s. intros n. induction n as [|n IH]; intros s a Hn Hs.
  { by destruct s; [|cbn in Hn; lia]. }
  destruct s as [|c s]; [done|]. cbn [replace_all]. cbn in Hn.
  assert (gmatch ((a ++ [c]) ++ replace_all m r 0 s) t) as Hnext.
  { apply IH; [lia|]. by rewrite <- app_assoc. }
  rewrite <- app_assoc in Hnext.
  destruct (m (c :: s)) as [[|k]|] eqn:E; [done| |done].
  destruct (Hm _ _ E) as ([|c' x] & y & Hxy & Hl & Hx & Hr); [done|].
  injection Hxy as <- ->. cbn in Hl. injection Hl as <-.
  rewrite replace_all_drop, drop_app_length by (rewrite length_app; lia).
  rewrite app_assoc. apply IH; [rewrite length_app in Hn; lia|].
  rewrite <- app_assoc. by apply Hr.
Qed.

Lemma cid_keeps : keeps_match rePathWithCid (bytes "/var/lib/containers/storage/overlay/*/").
Proof.
  eapply accepts_weaken;
    [apply (m_seq_accepts _ _ _ _ (m_lit_accepts _) (number_accepts is_word))|].
  intros x (? & ? & -> & -> & d & -> & Hd & Hw). split; [done|]. intros a b t.
  change (bytes "/var/lib/containers/storage/overlay/") with (overlay ++ [SLASH]).
  change (bytes "/var/lib/containers/storage/overlay/*/")
    with (overlay ++ [SLASH] ++ [STAR] ++ [SLASH]).
  intros Hm.
  replace (a ++ ((overlay ++ [SLASH]) ++ d ++ [SLASH]) ++ b)
    with ((a ++ overlay) ++ ([SLASH] ++ d ++ [SLASH]) ++ b) in Hm by by rewrite <- !app_assoc.
  apply (gmatch_between _ d [STAR]) in Hm; [by rewrite <- !app_assoc in *|done|done|].
  intros g u. by apply gmatch_star.
Qed.

(** Bytes of hashes and numbers, with a hexadecimal digit at the start. *)
Lemma star_keeps m :
  accepts m (λ x, ∃ c d x', x = c :: d :: x' ∧ is_hex c = true ∧
    Forall (λ c, isPlainPathByte c = true ∧ c ≠ SLASH) x) → keeps_match m (bytes "*").
Proof.
  intros Hm. eapply accepts_weaken; [exact Hm|].
  intros x (c & d & x' & -> & Hc & [Hp Hs]%Forall_and). split; [done|]. intros a b t.
  apply gmatch_replace.
  - split; [done|]. exists c, d, x'. split; [done|]. char_class.
  - intros u Hu. by apply (gm_star (c :: d :: x')).
Qed.

Lemma plain_hex x :
  Forall (λ c, is_hex c = true) x → Forall (λ c, isPlainPathByte c = true ∧ c ≠ SLASH) x.
Proof. intros H. eapply Forall_impl; [exact H|]. eauto 6 with ebpf. Qed.

Lemma is_digit_hex c : is_digit c = true → is_hex c = true.
Proof. char_class. Qed.

Lemma run_keeps f k :
  (2 <= k)%nat → (∀ c, f c = true → is_hex c = true) → keeps_match (m_run f k) (bytes "*").
Proof.
  intros Hk Hf. apply star_keeps. eapply accepts_weaken; [apply m_run_accepts|].
  intros x [Hl Hx]. apply (Forall_impl _ _ _ Hx) in Hf. destruct x as [|c [|d x]]; cbn in Hl; try lia.
  exists c, d, x. split; [done|]. split; [by apply Forall_cons in Hf as [? _]|by apply plain_hex].
Qed.

Lemma hash_keeps : keeps_match reHash (bytes "*").
Proof. apply run_keeps; [lia|done]. Qed.

Lemma digits_keep : keeps_match reDigitSequence (bytes "*").
Proof. apply run_keeps; [lia|apply is_digit_hex]. Qed.

(** Any sequence of hexadecimal digits and dashes. *)
Lemma plain_accepts m1 m2 :
  accepts m1 (Forall (λ c, isPlainPathByte c = true ∧ c ≠ SLASH)) →
  accepts m2 (Forall (λ c, isPlainPathByte c = true ∧ c ≠ SLASH)) →
  accepts (m_seq m1 m2) (Forall (λ c, isPlainPathByte c = true ∧ c ≠ SLASH)).
Proof.
  intros H1 H2. eapply accepts_weaken; [by apply m_seq_accepts|].
  intros x (x1 & x2 & -> & ? & ?). by apply Forall_app.
Qed.

Lemma hex_accepts k :
  accepts (m_times is_hex k) (Forall (λ c, isPlainPathByte c = true ∧ c ≠ SLASH)).
Proof. eapply accepts_weaken; [apply m_times_accepts|]. intros x [_ Hx]. by apply plain_hex. Qed.

Lemma dash_accepts : accepts (m_lit (bytes "-")) (Forall (λ c, isPlainPathByte c = true ∧ c ≠ SLASH)).
Proof. eapply accepts_weaken; [apply m_lit_accepts|]. intros x ->. by repeat constructor. Qed.

Lemma uuid_keeps : keeps_match reUUID (bytes "*").
Proof.
  apply star_keeps. eapply accepts_weaken; [apply m_seq_accepts; [apply m_times_accepts|]|].
  - repeat (apply plain_accepts || apply hex_accepts || apply dash_accepts).
  - intros x (x1 & x2 & -> & [Hl Hx] & Hp). destruct x1 as [|c [|d x]]; cbn in Hl; try lia.
    exists c, d, (x ++ x2). split; [done|]. split; [by apply Forall_cons in Hx as [? _]|].
    apply Forall_app. split; [by apply plain_hex|done].
Qed.

(** The two replacements below [a]. *)
Definition replace_task (a s : list Z) : list Z :=
  replace_start (m_seq (m_lit ((a ++ bytes "/@{pid}/task") ++ [SLASH]))
      (m_seq (m_run is_digit 1) (m_lit [SLASH]))) (a ++ bytes "/@{pid}/task/@{tid}/")
    (replace_start (m_seq (m_lit (a ++ [SLASH])) (m_seq (m_run is_digit 1) (m_lit [SLASH])))
      (a ++ bytes "/@{pid}/") s).

Lemma replace_task_keeps a s t :
  64 ∉ s → Forall pid_value (task_numbers a s) → gmatch s t → gmatch (replace_task a s) t.
Proof.
  intros Hs Hp Hm. rewrite Forall_forall in Hp. unfold replace_task.
  pose proof (replace_start_number (a ++ bytes "/@{pid}/task") TID) as H2.
  rewrite <- !app_assoc in H2. rewrite <- app_assoc. apply H2; [by right| |].
  - intros d Hd. by apply Hp, task_number_2.
  - apply (replace_start_number a PID); [by left| |done]. intros d Hd. by apply Hp, task_number_1.
Qed.

(** The path is as it was, or has a variable. *)
Lemma replace_task_start a s : replace_task a s = s ∨ ∃ b, replace_task a s = a ++ bytes "/@" ++ b.
Proof.
  unfold replace_task. set (s1 := replace_start _ _ s).
  destruct (replace_number (a ++ bytes "/@{pid}/task") (a ++ bytes "/@{pid}/task/@{tid}/") s1)
    as [[_ ->]|(? & b & _ & _ & _ & _ & ->)].
  - destruct (replace_number a (a ++ bytes "/@{pid}/") s) as [[_ E]|(? & b & _ & _ & _ & _ & E)];
      fold s1 in E; rewrite E; [by left|right]. rewrite <- app_assoc. by eexists.
  - right. rewrite <- app_assoc. by eexists.
Qed.

Lemma replace_task_other b : replace_task (bytes "/proc") (bytes "/@" ++ b) = bytes "/@" ++ b.
Proof. done. Qed.

(** The replacements before the one of the devices. *)
Lemma variance_keeps s t :
  64 ∉ s → pids_only s → gmatch s t → ∃ g, gmatch g t ∧ ReplaceVarianceInFilePath s =
    if HasPrefix g (bytes "/sys/devices/") then bytes "/sys/devices/**" else g.
Proof.
  intros Hs [H1 H2]%Forall_app Hm. unfold ReplaceVarianceInFilePath. eexists. split; [|reflexivity].
  apply ReplaceAllString_keeps; [apply digits_keep|].
  apply ReplaceAllString_keeps; [apply hash_keeps|].
  apply ReplaceAllString_keeps; [apply uuid_keeps|].
  apply ReplaceAllString_keeps; [apply cid_keeps|].
  change (gmatch (replace_task (bytes "/proc") (replace_task [] s)) t).
  pose proof (replace_task_keeps [] s t Hs H1 Hm) as Hm1.
  destruct (replace_task_start [] s) as [E|[b E]]; cbn [app] in E; rewrite E in *.
  - by apply replace_task_keeps.
  - by rewrite replace_task_other.
Qed.

Lemma gmatch_nil g : gmatch g [] → g = [].
Proof.
  remember [] as s eqn:Hs. intros Hm.
  destruct Hm as [|c g s ? ?|c g s ? ?|w g s Hw ? ?|v w g s ? Hw ?]; try done; exfalso; [by destruct w|].
  apply pid_value_digits in Hw as [Hw _]. by destruct w.
Qed.

Lemma variance_covers s t :
  64 ∉ s → pids_only s → gmatch s t → t ≠ bytes "/sys/devices/" →
  rule_covers (ReplaceVarianceInFilePath s) t.
Proof.
  intros Ha Hp Hm Ht. destruct (variance_keeps s t Ha Hp Hm) as (g & Hg & ->).
  destruct (HasPrefix g (bytes "/sys/devices/")) eqn:E; [right|by left].
  apply HasPrefix_spec in E as [g' ->].
  apply gmatch_plain in Hg as (u & -> & Hu); [|by repeat constructor].
  exists (bytes "/sys/devices/"), (bytes "/sys/devices/"), u.
  split; [done|]. split; [done|]. split; [by repeat constructor|]. intros ->.
  by rewrite app_nil_r in Ht.
Qed.

Lemma sanitize_matches s : gmatch (map sanitize_byte s) s.
Proof.
  induction s as [|c s IH]; cbn; [constructor|]. unfold sanitize_byte at 1.
  destruct (isPlainPathByte c) eqn:E; [by constructor|]. apply gm_any; [|done].
  intros ->. done.
Qed.

Lemma sanitize_no_at s : 64 ∉ map sanitize_byte s.
Proof.
  intros (c & Hc & _)%list_elem_of_fmap. unfold sanitize_byte in Hc.
  destruct (isPlainPathByte c) eqn:E; [by subst|done].
Qed.

(** Sanitizing a path neither adds nor removes a number. *)
Lemma sanitize_plain x s y :
  Forall (λ c, isPlainPathByte c = true) x → map sanitize_byte s = x ++ y → ∃ s', s = x ++ s'.
Proof.
  intros Hx. revert s. induction Hx as [|c x Hc _ IH]; intros s Hs; [by exists s|].
  destruct s as [|d s]; [done|]. cbn in Hs. injection Hs as Hd Hs.
  destruct (IH s Hs) as [s' ->]. exists s'. cbn. f_equal. unfold sanitize_byte in Hd.
  by destruct (isPlainPathByte d); [|subst].
Qed.

Lemma number_after_sanitize a s d :
  Forall (λ c, isPlainPathByte c = true) a →
  number_after a (map sanitize_byte s) = Some d → number_after a s = Some d.
Proof.
  intros Ha (b & Hb & Hd & Hf)%number_after_spec. apply number_after_spec.
  rewrite !(app_assoc _ _ b), !app_assoc in Hb. apply sanitize_plain in Hb as [s' ->].
  - exists s'. by rewrite <- !app_assoc.
  - repeat (apply Forall_app; split); try done; [by repeat constructor| |by repeat constructor].
    eapply Forall_impl; [exact Hf|]. eauto with ebpf.
Qed.

Lemma task_numbers_sanitize a s d :
  Forall (λ c, isPlainPathByte c = true) a →
  d ∈ task_numbers a (map sanitize_byte s) → d ∈ task_numbers a s.
Proof.
  intros Ha. unfold task_numbers.
  destruct (number_after a (map sanitize_byte s)) as [n|] eqn:E; [|by intros ?%elem_of_nil].
  apply number_after_spec in E as (b & Hb & Hn & Hf).
  rewrite (number_after_sanitize a s n) by (done || by apply number_after_spec; eauto).
  intros [->|Hd]%elem_of_cons; [by left|right].
  destruct (number_after _ (map _ _)) as [m|] eqn:Em; [|by apply elem_of_nil in Hd].
  apply number_after_sanitize in Em as ->; [done|].
  repeat (apply Forall_app; split); try done; [by repeat constructor| |by repeat constructor].
  eapply Forall_impl; [exact Hf|]. eauto with ebpf.
Qed.

Lemma sanitize_pids s : pids_only s → pids_only (map sanitize_byte s).
Proof.
  unfold pids_only. rewrite !Forall_forall. intros Hs d [Hd|Hd]%elem_of_app; apply Hs, elem_of_app;
    [left|right]; (apply task_numbers_sanitize in Hd; [done|by repeat constructor]).
Qed.

(** Only the numbers of processes: whatever the tunables are. *)
Lemma pids_only_pids s : forallb is_pid (replaced_numbers s) = true → pids_only s.
Proof.
  rewrite forallb_forall. intros Hs. apply Forall_forall. intros d Hd.
  apply pid_value_pid, Hs. by apply list_elem_of_In.
Qed.

(** The path the profile gets for one of the kernel, which [normalizePath]
    caches. *)
Definition normalized (fileName : list Z) : list Z :=
  ReplaceVarianceInFilePath (sanitizeFilePath fileName).

(** A file that was not deleted when it was used. *)
Definition present (s : list Z) : Prop := cut_marker s = (s, []).

(** C20 What the profile gets for a file covers the file: whatever the name of a
    file that exists, the path in the profile, with its globs and variables,
    matches it.  The exceptions are the directory of all devices itself, and a
    file with a number that is replaced by the variable of a process or thread
    but is no value of it. *)
Theorem normalize_matches s :
  present s → pids_only s → s ≠ bytes "/sys/devices/" → rule_covers (normalized s) s.
Proof.
  intros Hp Hn Hs. unfold normalized, sanitizeFilePath. rewrite Hp, app_nil_r.
  apply variance_covers; [apply sanitize_no_at|by apply sanitize_pids|apply sanitize_matches|done].
Qed.

(** A number that is no value of the variables is replaced as well, and the
    path in the profile does not cover the file. *)
Theorem number_not_covered d s :
  d ≠ [] → Forall (λ c, is_digit c = true) d → ¬ pid_value d →
  ¬ gmatch (bytes "/@{pid}/" ++ s) ([SLASH] ++ d ++ bytes "/x").
Proof.
  intros Hd Hf Hn Hm.
  apply (gmatch_plain [SLASH]) in Hm as (t & Ht & Hm); [|by repeat constructor].
  cbn [app] in Ht. injection Ht as <-.
  inversion Hm as [|? ? ? Hc|? ? ? Hc|? ? ? Hc|v w g u Hv Hw Hg Hv' Heq]; try done.
  assert (g = SLASH :: s) as ->
    by (destruct Hv as [-> | ->]; cbn in Hv'; by simplify_eq).
  apply (gmatch_plain [SLASH]) in Hg as (u' & -> & _); [|by repeat constructor].
  apply pid_value_digits in Hw as Hw'. destruct Hw' as [_ Hwf]. apply Hn.
  replace d with w; [done|].
  assert (length w = length d) as Hl.
  { rewrite <- (span_digits w u' Hwf), <- (span_digits d (bytes "x") Hf). by f_equal. }
  by apply app_inj_1 in Heq as [-> _].
Qed.
End covering.

Lemma normalize_matches_witness :
  rule_covers (T := kernelvars) (bytes "/proc/@{pid}/task/@{tid}/fd?x/*")
    (bytes "/proc/17/task/18/fd:x/0123456789").
Proof.
  apply (normalize_matches (T := kernelvars) (bytes "/proc/17/task/18/fd:x/0123456789"));
    [by vm_compute| |by vm_compute].
  apply (pids_only_pids (TOk := kernelvars_ok)). vm_compute. reflexivity.
Defined.

(** For example with the smallest tunables. *)
Example date_not_covered :
  normalized (bytes "/20240101/x") = bytes "/@{pid}/x" ∧
  ¬ gmatch (T := kernelvars) (bytes "/@{pid}/x") (bytes "/20240101/x").
Proof.
  split; [vm_compute; reflexivity|].
  apply (number_not_covered (TOk := kernelvars_ok) (bytes "20240101") (bytes "x"));
    [done|by repeat constructor|]. by vm_compute.
Qed.

(** ** The deleted marker and the validation *)

(** No match of an expression reaches over a space. *)
Definition spaceless (m : matcher) : Prop :=
  ∀ s t, m (s ++ 32 :: t) = m s ∧ (∀ n, m s = Some n → (n <= length s)%nat).

Lemma span_space f s t : f 32 = false → span f (s ++ 32 :: t) = span f s.
Proof. intros Hf. induction s as [|c s IH]; cbn; [by rewrite Hf|]. by destruct (f c); rewrite ?IH. Qed.

Lemma span_le f s : (span f s <= length s)%nat.
Proof. by destruct (span_split f s) as (_ & _ & _ & ?). Qed.

Lemma run_spaceless f k : f 32 = false → spaceless (m_run f k).
Proof.
  intros Hf s t. unfold m_run. rewrite span_space by done. split; [done|]. intros n.
  destruct (_ <=? _)%nat; intros [= <-]. apply span_le.
Qed.

Lemma times_spaceless f k : f 32 = false → spaceless (m_times f k).
Proof.
  intros Hf s t. unfold m_times. rewrite span_space by done. split; [done|]. intros n.
  pose proof (span_le f s). destruct (Nat.leb_spec k (span f s)); intros [= <-]. lia.
Qed.

Lemma lit_spaceless l : Forall (λ c, c ≠ 32) l → spaceless (m_lit l).
Proof.
  intros Hl s t. unfold m_lit. split.
  - replace (HasPrefix (s ++ 32 :: t) l) with (HasPrefix s l); [done|].
    revert s. induction Hl as [|c l Hc Hl IH]; intros s; [by destruct s|].
    destruct s as [|a s]; cbn [HasPrefix app]; [|by rewrite IH].
    by destruct (Z.eqb_spec 32 c).
  - intros n. destruct (HasPrefix s l) eqn:E; intros [= <-].
    apply HasPrefix_spec in E as [k ->]. rewrite length_app. lia.
Qed.

Lemma seq_spaceless m1 m2 : spaceless m1 → spaceless m2 → spaceless (m_seq m1 m2).
Proof.
  intros H1 H2 s t. unfold m_seq. destruct (H1 s t) as [-> Hn].
  destruct (m1 s) as [n|]; [|done]. specialize (Hn n eq_refl).
  rewrite drop_app_le by done. destruct (H2 (drop n s) t) as [-> Hk]. split; [done|].
  destruct (m2 (drop n s)) as [k|]; [|done]. intros ? [= <-].
  specialize (Hk k eq_refl). rewrite length_drop in Hk. lia.
Qed.

Ltac spaceless :=
  repeat first [apply seq_spaceless | apply run_spaceless; reflexivity
    | apply times_spaceless; reflexivity | apply lit_spaceless; vm_compute; by repeat constructor].

Lemma replace_start_space m r s t :
  spaceless m → replace_start m r (s ++ 32 :: t) = replace_start m r s ++ 32 :: t.
Proof.
  intros Hm. unfold replace_start. destruct (Hm s t) as [-> Hn].
  destruct (m s) as [n|]; [|done]. rewrite drop_app_le by auto. by rewrite app_assoc.
Qed.

Lemma ReplaceAllString_space m r s t :
  spaceless m → m (32 :: t) = None →
  ReplaceAllString m (s ++ 32 :: t) r = ReplaceAllString m s r ++ 32 :: ReplaceAllString m t r.
Proof.
  intros Hm Ht. unfold ReplaceAllString.
  enough (∀ k, (k <= length s)%nat → replace_all m r k (s ++ 32 :: t) =
    replace_all m r k s ++ 32 :: replace_all m r 0 t) by (apply H; lia).
  induction s as [|c s IH]; intros k Hk.
  - destruct k as [|k]; [|cbn in Hk; lia]. cbn [app replace_all]. by rewrite Ht.
  - cbn [app replace_all]. cbn in Hk. destruct k as [|k]; [|apply IH; lia].
    destruct (Hm (c :: s) t) as [E Hn]. cbn [app] in E. rewrite E.
    destruct (m (c :: s)) as [[|k]|]; [by rewrite IH by lia| |by rewrite IH by lia].
    specialize (Hn _ eq_refl). cbn in Hn. rewrite IH by lia. by rewrite app_assoc.
Qed.

Definition deleted_tails : list (list Z) := [bytes "(deleted)"; bytes "(deleted)/"].

(** The marker stays behind the path, unless the path is that of a device. *)
Lemma variance_marker s t :
  t ∈ deleted_tails → (∃ g, ReplaceVarianceInFilePath (s ++ 32 :: t) = g ++ 32 :: t) ∨
    ReplaceVarianceInFilePath (s ++ 32 :: t) = bytes "/sys/devices/**".
Proof.
  intros Ht. unfold ReplaceVarianceInFilePath.
  rewrite !replace_start_space by spaceless.
  rewrite (ReplaceAllString_space rePathWithCid) by (spaceless || done).
  rewrite (ReplaceAllString_space reUUID) by (spaceless || done).
  rewrite (ReplaceAllString_space reHash) by (spaceless || done).
  rewrite (ReplaceAllString_space reDigitSequence) by (spaceless || done).
  replace (ReplaceAllString _ (ReplaceAllString _ (ReplaceAllString _ (ReplaceAllString _ t _) _) _) _)
    with t by (repeat (apply elem_of_cons in Ht as [-> |Ht]; [vm_compute; reflexivity|]);
      by apply elem_of_nil in Ht).
  destruct (HasPrefix _ _); eauto.
Qed.

Definition marked_deleted (s : list Z) : bool :=
  HasSuffix s deletedSuffix || HasSuffix s (deletedSuffix ++ bytes "/").

Lemma cut_marker_cases s :
  present s ∧ marked_deleted s = false ∨
  ∃ b t, t ∈ deleted_tails ∧ cut_marker s = (b, 32 :: t) ∧ s = b ++ 32 :: t.
Proof.
  assert (∀ p, HasSuffix s p = true → s = take (length s - length p) s ++ p) as Hcut.
  { intros p [k ->]%HasSuffix_spec. rewrite length_app, Nat.add_sub. by rewrite take_app_length. }
  unfold present, marked_deleted, cut_marker. cbn [fold_left]. unfold CutSuffix.
  destruct (HasSuffix s (deletedSuffix ++ bytes "/")) eqn:E2.
  - right. eexists _, (bytes "(deleted)/"). split; [by right; left|]. split; [done|].
    by apply Hcut in E2.
  - destruct (HasSuffix s deletedSuffix) eqn:E1; [right|by left].
    eexists _, (bytes "(deleted)"). split; [by left|]. split; [done|]. by apply Hcut in E1.
Qed.

Lemma marked_tail g t : t ∈ deleted_tails → marked_deleted (g ++ 32 :: t) = true.
Proof.
  intros Ht. unfold marked_deleted. apply orb_true_iff. rewrite !HasSuffix_spec.
  repeat (apply elem_of_cons in Ht as [-> |Ht]; [first [left; by exists g | right; by exists g]|]).
  by apply elem_of_nil in Ht.
Qed.

(** A rule is made of what the validation accepts. *)
Lemma scan_var v g : v = PID ∨ v = TID → scan_path Plain (v ++ g) = scan_path Plain g.
Proof. by intros [-> | ->]. Qed.

Section validation.
Context {T : Tunables} {TOk : TunablesOk}.

Lemma gmatch_scans g s : gmatch g s → scan_path Plain g = true.
Proof.
  induction 1 as [|c g s Hc _ IH|c g s _ _ IH|w g s _ _ _ IH|v w g s Hv _ _ IH]; [done| |done|done|].
  - cbn. unfold path_char. rewrite Hc. destruct (Z.eqb_spec c 64) as [->|]; done.
  - by rewrite scan_var.
Qed.

(** The first byte of a rule for an absolute path. *)
Lemma gmatch_slash g s : gmatch g (SLASH :: s) → ∃ g', g = SLASH :: g' ∧ gmatch g' s.
Proof.
  intros Hm. inversion Hm as [|? ? ? Hc Hg|? ? ? Hc Hg|w ? ? Hw Hs Hg Hx Heq|v w ? ? Hv Hw Hg Hx Heq];
    subst; [eauto|done| |].
  - destruct w as [|c w]; [done|]. injection Heq as -> _. by apply Forall_cons in Hs as [? _].
  - apply pid_value_digits in Hw as [Hw Hd].
    destruct w as [|c w]; [done|]. injection Heq as -> _. by apply Forall_cons in Hd as [? _].
Qed.
End validation.

(** The numbers that are replaced are numbers. *)
Lemma pids_only_any s : pids_only (T := any_number) s.
Proof.
  assert (∀ a d, number_after a s = Some d → pid_value (Tunables := any_number) d) as Ha.
  { intros a d (b & _ & ? & ?)%number_after_spec. done. }
  assert (∀ a, Forall (pid_value (Tunables := any_number)) (task_numbers a s)) as Ht.
  { intros a. unfold task_numbers. destruct (number_after a s) as [n|] eqn:E; [|constructor].
    constructor; [by eapply Ha|]. destruct (number_after (a ++ _) s) eqn:E'; constructor; [by eapply Ha|constructor]. }
  apply Forall_app. by split.
Qed.

(** No recorded path gets the profile rejected: whatever absolute path the
    kernel reports, what the recorder makes of it either has the marker of a
    deleted file, and is left out of the profile, or is a path the validation
    of the profile accepts. *)
Theorem normalize_valid s :
  HasPrefix s (bytes "/") = true →
  marked_deleted (normalized s) = true ∨ strictPathRegex (normalized s) = true.
Proof.
  intros Hs. apply HasPrefix_spec in Hs as [s' ->]. unfold normalized, sanitizeFilePath.
  destruct (cut_marker_cases (bytes "/" ++ s')) as [[Hp _]|(b & t & Ht & Hb & _)].
  - rewrite Hp, app_nil_r. right.
    destruct (variance_keeps (T := any_number) _ _ (sanitize_no_at _) (pids_only_any _)
      (sanitize_matches (bytes "/" ++ s'))) as (g & Hg & ->).
    destruct (HasPrefix g _); [done|].
    apply (gmatch_slash (TOk := any_number_ok)) in Hg as (g' & -> & Hg).
    cbn. by apply gmatch_scans in Hg.
  - rewrite Hb. destruct (variance_marker (map sanitize_byte b) t Ht) as [[g ->] | ->]; [left|by right].
    by apply marked_tail.
Qed.

Lemma normalize_valid_witness :
  marked_deleted (normalized (bytes "/data/{a,b}/*?@[x]")) = true ∨
  strictPathRegex (normalized (bytes "/data/{a,b}/*?@[x]")) = true.
Proof. apply normalize_valid. vm_compute. reflexivity. Defined.
