(* ===== verification/Dirs.v ===== *)
(** * Directories

    The functions of [path/filepath] the profile is built with, and what the
    rule for any file of a directory covers ([any_in_covers]). *)
From S2P Require Import Prelude Paths.
Import String.StringSyntax.
#[local] Open Scope string_scope.
#[local] Open Scope list_scope.
#[local] Open Scope Z_scope.

(** ** [path/filepath] *)

(** The parts of a path between slashes. *)
Fixpoint split_slash (s : list Z) : list (list Z) :=
  match s with
  | [] => [[]]
  | c :: s =>
      if c =? SLASH then [] :: split_slash s
      else match split_slash s with
           | w :: ws => (c :: w) :: ws
           | [] => [[c]]
           end
  end.

(** One element of the path of [filepath.Clean]; [out] are the elements before
    it, the last one first. *)
Definition clean_step (rooted : bool) (out : list (list Z)) (w : list Z) : list (list Z) :=
  if bool_decide (w = []) then out
  else if bool_decide (w = bytes ".") then out
  else if bool_decide (w = bytes "..") then
    match out with
    | top :: rest => if bool_decide (top = bytes "..") then w :: out else rest
    | [] => if rooted then [] else [w]
    end
  else w :: out.

Definition join_slash (ws : list (list Z)) : list Z :=
  match ws with
  | [] => []
  | w :: ws => w ++ concat (map (cons SLASH) ws)
  end.

Definition Clean (path : list Z) : list Z :=
  let rooted := HasPrefix path (bytes "/") in
  let out := rev (fold_left (clean_step rooted) (split_slash path) []) in
  if rooted then SLASH :: join_slash out
  else if bool_decide (out = []) then bytes "." else join_slash out.

(** The part of a path up to its last slash, with it. *)
Fixpoint upto_last_slash (s : list Z) : list Z :=
  match s with
  | [] => []
  | c :: s =>
      match upto_last_slash s with
      | [] => if c =? SLASH then [c] else []
      | p => c :: p
      end
  end.

(** [filepath.Dir] and [filepath.Join] of a directory and [*]. *)
Definition Dir (path : list Z) : list Z := Clean (upto_last_slash path).
Definition any_in (dir : list Z) : list Z := Clean (dir ++ [SLASH] ++ bytes "*").

(** The two rules the profile can have in the place of a path: the path, or any
    file of its directory.  The second one need not cover the path. *)
Definition stands_for (r p : list Z) : Prop := r = p ∨ r = any_in (Dir p).

(** ** Components of a path *)

Definition no_slash (w : list Z) : Prop := Forall (λ c, c ≠ SLASH) w.

(** The path with these components. *)
Definition abs (ws : list (list Z)) : list Z := concat (map (cons SLASH) ws).

Lemma abs_app a b : abs (a ++ b) = abs a ++ abs b.
Proof. unfold abs. by rewrite map_app, concat_app. Qed.

Lemma split_no_slash w s h t :
  no_slash w → split_slash s = h :: t → split_slash (w ++ s) = (w ++ h) :: t.
Proof.
  intros Hw Hs. induction Hw as [|c w Hc Hw IH]; [done|]. cbn [app split_slash].
  destruct (Z.eqb_spec c SLASH); [done|]. by rewrite IH.
Qed.

Lemma split_cons s : ∃ h t, split_slash s = h :: t ∧ no_slash h ∧ s = h ++ abs t ∧ Forall no_slash t.
Proof.
  induction s as [|c s (h & t & E & Hh & Hs & Ht)]; [by exists [], []; repeat constructor|].
  cbn [split_slash].
  destruct (Z.eqb_spec c SLASH) as [->|Hc].
  - exists [], (h :: t). split; [by rewrite E|]. split; [constructor|].
    split; [by rewrite Hs at 1|by constructor].
  - rewrite E. exists (c :: h), t. split; [done|]. split; [by constructor|].
    split; [by rewrite Hs at 1|done].
Qed.

Lemma split_abs ws : Forall no_slash ws → split_slash (abs ws) = [] :: ws.
Proof.
  induction 1 as [|w ws Hw _ IH]; [done|].
  change (split_slash (abs (w :: ws))) with ([] :: split_slash (w ++ abs ws)).
  by rewrite (split_no_slash w (abs ws) [] ws Hw IH), app_nil_r.
Qed.

(** ** Rules and components *)

Section components.
Context {T : Tunables} {TOk : TunablesOk}.

Lemma gmatch_app g h s t : gmatch g s → gmatch h t → gmatch (g ++ h) (s ++ t).
Proof.
  intros Hg Ht. induction Hg; cbn [app]; rewrite <- ?app_assoc; auto using gmatch.
Qed.

(** A slash in a rule is one in the path, so the components match. *)
Lemma gmatch_components g s : gmatch g s → Forall2 gmatch (split_slash g) (split_slash s).
Proof.
  induction 1 as [|c g s Hc Hg IH|c g s Hc Hg IH|w g s Hw Hs Hg IH|v w g s Hv Hw Hg IH].
  - by repeat constructor.
  - cbn [split_slash]. destruct (Z.eqb_spec c SLASH); [by constructor; [constructor|]|].
    by destruct IH; repeat constructor.
  - cbn [split_slash]. change (QUESTION =? SLASH) with false. cbv iota.
    destruct (Z.eqb_spec c SLASH); [done|]. destruct IH; repeat constructor; try done.
  - destruct (split_cons s) as (h & t & Es & _). rewrite (split_no_slash w s h t Hs Es).
    cbn [split_slash]. change (STAR =? SLASH) with false. cbv iota. rewrite Es in IH.
    inversion IH as [|h' ? t' ? Hh Ht Eh]; subst. constructor; [by apply gm_star|done].
  - destruct (split_cons s) as (h & t & Es & _).
    assert (no_slash w) as Hnw.
    { eapply Forall_impl; [by apply pid_value_digits|]. eauto with ebpf. }
    assert (no_slash v) as Hnv by (destruct Hv as [-> | ->]; by repeat constructor).
    destruct (split_cons g) as (h' & t' & Eg & _).
    rewrite (split_no_slash w s h t Hnw Es), (split_no_slash v g h' t' Hnv Eg).
    rewrite Es, Eg in IH. apply Forall2_cons in IH as [Hh Ht]. constructor; [by constructor|done].
Qed.

Lemma gmatch_abs gs ss : Forall2 gmatch gs ss → gmatch (abs gs) (abs ss).
Proof.
  induction 1 as [|g s gs ss Hg _ IH]; [constructor|].
  change (abs (g :: gs)) with (SLASH :: g ++ abs gs). change (abs (s :: ss)) with (SLASH :: s ++ abs ss).
  constructor; [done|]. by apply gmatch_app.
Qed.

Lemma gmatch_nil_l t : gmatch [] t → t = [].
Proof.
  remember [] as g eqn:Hg. intros Ht. destruct Ht as [| | | |v w g s Hv _ _]; try done.
  by destruct Hv as [-> | ->].
Qed.

(** A component that is the name of a file. *)
Definition proper (w : list Z) : bool :=
  negb (bool_decide (w = []) || bool_decide (w = bytes ".") || bool_decide (w = bytes "..")).

Lemma proper_spec w : proper w = true ↔ w ≠ [] ∧ w ≠ bytes "." ∧ w ≠ bytes "..".
Proof. unfold proper. rewrite negb_true_iff, !orb_false_iff, !bool_decide_eq_false. tauto. Qed.

Lemma gmatch_proper g w : gmatch g w → proper w = true → proper g = true.
Proof.
  rewrite !proper_spec. intros Hm (H1 & H2 & H3).
  assert (∀ x, Forall (λ c, isPlainPathByte c = true) x → g = x → w = x) as Hx.
  { intros x Hx ->. rewrite <- (app_nil_r x) in Hm. apply gmatch_plain in Hm as (t & -> & Ht); [|done].
    apply gmatch_nil_l in Ht as ->. by rewrite app_nil_r. }
  split_and!; intros Hg; (apply Hx in Hg; [congruence|by repeat constructor]).
Qed.

End components.

(** ** Clean paths *)

Lemma clean_proper rooted ws out :
  Forall (λ w, proper w = true) ws → fold_left (clean_step rooted) ws out = rev ws ++ out.
Proof.
  intros Hws. revert out. induction Hws as [|w ws Hw _ IH]; intros out; [done|].
  cbn [fold_left rev]. rewrite IH, <- app_assoc. f_equal. unfold clean_step.
  apply proper_spec in Hw as (H1 & H2 & H3). by rewrite !bool_decide_eq_false_2.
Qed.

Lemma join_abs ws : SLASH :: join_slash ws = if bool_decide (ws = []) then [SLASH] else abs ws.
Proof. by destruct ws. Qed.

Lemma upto_abs ws l : no_slash l → upto_last_slash (abs ws ++ SLASH :: l) = abs ws ++ [SLASH].
Proof.
  intros Hl. assert (upto_last_slash l = []) as E.
  { induction Hl as [|c l Hc _ IH]; [done|]. cbn. rewrite IH. by destruct (Z.eqb_spec c SLASH). }
  assert (∀ p, upto_last_slash (p ++ [SLASH] ++ l) = p ++ [SLASH]) as H; [|apply H].
  induction p as [|c p IH]; cbn [app upto_last_slash] in *; [by rewrite E|].
  rewrite IH. by destruct p.
Qed.

Lemma split_abs_slash ws : Forall no_slash ws → split_slash (abs ws ++ [SLASH]) = [] :: ws ++ [[]].
Proof.
  intros Hws. rewrite <- (split_abs (ws ++ [[]])); [by rewrite abs_app|].
  apply Forall_app. by split; repeat constructor.
Qed.

Lemma Clean_split p ws :
  HasPrefix p (bytes "/") = true → split_slash p = [] :: ws →
  Clean p = SLASH :: join_slash (rev (fold_left (clean_step true) ws [])).
Proof. intros Hp Hs. unfold Clean. by rewrite Hp, Hs. Qed.

(** The directory of a file, and the rule for its files. *)
Lemma Dir_abs ws l :
  Forall (λ w, proper w = true) ws → Forall no_slash ws → no_slash l →
  Dir (abs (ws ++ [l])) = SLASH :: join_slash ws.
Proof.
  intros Hp Hn Hl. unfold Dir. rewrite abs_app. cbn [abs map concat]. rewrite app_nil_r, upto_abs by done.
  erewrite Clean_split; [| |by apply split_abs_slash]; [|by destruct ws; [|apply HasPrefix_slash]].
  rewrite fold_left_app, (clean_proper true ws) by done. cbn. by rewrite app_nil_r, rev_involutive.
Qed.

Lemma any_in_abs ws :
  Forall (λ w, proper w = true) ws → Forall no_slash ws →
  any_in (SLASH :: join_slash ws) = abs (ws ++ [bytes "*"]).
Proof.
  intros Hp Hn. unfold any_in. rewrite join_abs. case_bool_decide as Hws; [by subst|].
  replace (abs ws ++ [SLASH] ++ bytes "*") with (abs (ws ++ [bytes "*"])) by (by rewrite abs_app).
  erewrite Clean_split; [| |apply split_abs]; [|by destruct ws; [|apply HasPrefix_slash]|].
  - rewrite clean_proper, app_nil_r, rev_involutive, join_abs.
    + by rewrite bool_decide_eq_false_2 by (by destruct ws).
    + apply Forall_app. by repeat constructor.
  - apply Forall_app. split; [done|]. by repeat constructor.
Qed.

(** An absolute path of a file, as the kernel reports it. *)
Definition clean_file (s : list Z) : bool :=
  match split_slash s with
  | [] :: (_ :: _) as ss => forallb proper ss
  | _ => false
  end.

Lemma clean_file_spec s :
  clean_file s = true ↔
  ∃ ws w, s = abs (ws ++ [w]) ∧ Forall (λ w, proper w = true) (ws ++ [w]) ∧ Forall no_slash (ws ++ [w]).
Proof.
  unfold clean_file. destruct (split_cons s) as (h & t & Es & _ & Hs & Hn). rewrite Es.
  split.
  - destruct h as [|? ?]; [|done]. destruct t as [|w ws] eqn:Et; [done|]. rewrite <- Et in *. intros Hp.
    destruct t as [|w' t _] using rev_ind; [done|]. exists t, w'. split; [done|]. split; [|done].
    apply Forall_forall. intros x Hx. rewrite forallb_forall in Hp. by apply Hp, list_elem_of_In.
  - intros (ws & w & -> & Hp & Hn'). rewrite split_abs in Es by done. injection Es as <- <-.
    destruct (ws ++ [w]) as [|x l] eqn:E; [by destruct ws|]. apply forallb_forall. intros y Hy.
    rewrite Forall_forall in Hp. by apply Hp, list_elem_of_In.
Qed.

Section covers.
Context {T : Tunables} {TOk : TunablesOk}.

(** A rule covers a path of the profile if it covers all the path stands for. *)
Definition covers (r p : list Z) : Prop := ∀ s, gmatch p s → gmatch r s.

Lemma gmatch_clean p s : gmatch p s → clean_file s = true → clean_file p = true.
Proof.
  intros Hm (ws & w & -> & Hp & Hn)%clean_file_spec. apply gmatch_components in Hm.
  rewrite split_abs in Hm by done. destruct (split_cons p) as (h & t & Ep & _ & Hs & Hn').
  rewrite Ep in Hm. apply Forall2_cons in Hm as [Hh Hm]. apply gmatch_nil in Hh as ->.
  apply clean_file_spec. apply Forall2_app_inv_r in Hm as (gs & gl & Hgs & Hgl & ->).
  apply Forall2_cons_inv_r in Hgl as (g & ? & Hg & Hnil & ->). apply Forall2_nil_inv_r in Hnil as ->.
  exists gs, g. split; [done|]. split; [|done]. eapply (Forall2_Forall_l gmatch);
    [by apply Forall2_app; [exact Hgs|constructor; [exact Hg|constructor]]|].
  eapply Forall_impl; [exact Hp|]. intros y Hy x Hx. by eapply gmatch_proper.
Qed.

(** The rule for any file of a directory covers each of its files. *)
Lemma any_in_covers p : clean_file p = true → covers (any_in (Dir p)) p.
Proof.
  intros (gs & g & -> & Hp & Hn)%clean_file_spec s Hm. apply gmatch_components in Hm.
  rewrite split_abs in Hm by done. destruct (split_cons s) as (h & t & Es & _ & -> & Hn').
  rewrite Es in Hm. apply Forall2_cons in Hm as [Hh Hm]. apply gmatch_nil_l in Hh as ->. cbn [app].
  apply Forall2_app_inv_l in Hm as (ss & sl & Hgs & Hgl & ->).
  apply Forall2_cons_inv_l in Hgl as (w & ? & Hg & Hnil & ->). apply Forall2_nil_inv_l in Hnil as ->.
  apply Forall_app in Hp as [Hpt Hpw], Hn as [Hnt Hnw], Hn' as [Hns Hnsl].
  apply Forall_cons in Hpw as [Hpw _], Hnw as [Hnw _], Hnsl as [Hnsl _].
  rewrite Dir_abs, any_in_abs by done. apply gmatch_abs.
  apply Forall2_app; [done|]. constructor; [|constructor].
  change (bytes "*") with [STAR]. rewrite <- (app_nil_r w). apply gm_star; [|done|constructor].
  intros ->. apply gmatch_nil in Hg as ->. done.
Qed.

Lemma stands_for_covers r p :
  stands_for r p → clean_file p = true ∨ r ≠ any_in (Dir p) → covers r p.
Proof. intros [-> | ->] Hr; [by intros s|]. destruct Hr; [by apply any_in_covers|done]. Qed.
End covers.
