(* ===== verification/AppArmor.v ===== *)
(** * The AppArmor recorder of the userspace

    [AppArmorRecorder] of [bpfrecorder_apparmor.go]: it takes the events of the
    ring buffer and keeps, for each key, the files, sockets and capabilities its
    processes used, until the profile is collected.  An operation is a program
    with one access per critical section of its locks, and one per call to a BPF
    map, so that [run] executes it alone and [pstep] interleaves it with others,
    as the gRPC requests and the maintenance do. *)
From S2P Require Import Prelude Bpf State Keys Report Wire Paths.
Import String.StringSyntax.
#[local] Open Scope string_scope.
#[local] Open Scope list_scope.
#[local] Open Scope Z_scope.

Definition flagRead : Z := 0x1.
Definition flagWrite : Z := 0x2.
Definition flagExec : Z := 0x4.
Definition flagSpawn : Z := 0x8.
Definition maxTrackedPaths : nat := Z.to_nat 10000.
Definition maxTrackedKeys : nat := Z.to_nat 1000.
Definition maxNormalizedPaths : nat := Z.to_nat 4096.

Definition eventTypeNewPid : Z := 0.
Definition eventTypeExit : Z := 1.
Definition eventTypeAppArmorFile : Z := 2.
Definition eventTypeAppArmorSocket : Z := 3.
Definition eventTypeAppArmorCap : Z := 4.
Definition eventTypeClearMntns : Z := 5.

(** ** The state *)

Record normalizedPath := NormalizedPath { np_path : list Z; np_excluded : bool }.

Record fileAccess := FileAccess {
  fa_read : bool; fa_write : bool; fa_exec : bool; fa_spawn : bool
}.

(** A pointer to a BPF map is [None] while the hooks are not loaded; [bpf_set]
    tells that [bpf] is not nil.  The logger has no effect. *)
Record AppArmorRecorder := {
  programName : list Z;
  bpf_set : bool;
  recordedCaps : option (gmap Z Z);
  recordedSockets : option (gmap Z Z);
  recordedSocketsUse : gmap Z BpfAppArmorSocketTypes;
  recordedCapabilities : gmap Z (list Z);
  recordedFiles : gmap Z (gmap (list Z) fileAccess);
  trackedKeys : gset Z;
  maxPathsWarned : gset Z;
  maxKeysWarned : bool;
  excluded : gset Z;
  normalizedPaths : gmap (list Z) normalizedPath
}.

Abbreviation go := (prog AppArmorRecorder).

Definition newAppArmorRecorder (name : list Z) : AppArmorRecorder := {|
  programName := sanitizeFilePath name; bpf_set := false;
  recordedCaps := None; recordedSockets := None;
  recordedSocketsUse := ∅; recordedCapabilities := ∅; recordedFiles := ∅;
  trackedKeys := ∅; maxPathsWarned := ∅; maxKeysWarned := false; excluded := ∅;
  normalizedPaths := ∅
|}.

(** A range loop. *)
Fixpoint for_each {W X} (l : list X) (f : X → prog W unit) : prog W unit :=
  match l with
  | [] => mret tt
  | x :: l => _ ← f x; for_each l f
  end.

(** ** Operations *)

Definition isExcluded (key : Z) : go bool := get (λ b, bool_decide (key ∈ excluded b)).

Definition trackKey (key : Z) : go bool := act (λ b,
  if bool_decide (key ∈ trackedKeys b) then (true, b)
  else if (maxTrackedKeys <=? size (trackedKeys b))%nat
  then (false, {| b with maxKeysWarned := true |})
  else (true, {| b with trackedKeys := {[key]} ∪ trackedKeys b |})).

Definition normalize (fileName : list Z) : normalizedPath :=
  let path := ReplaceVarianceInFilePath (sanitizeFilePath fileName) in
  NormalizedPath path (shouldExcludeFile path).

Definition normalizePath (fileName : list Z) : go normalizedPath := act (λ b,
  match normalizedPaths b !! fileName with
  | Some n => (n, b)
  | None =>
      let n := normalize fileName in
      let cache := if (maxNormalizedPaths <=? size (normalizedPaths b))%nat
                   then ∅ else normalizedPaths b in
      (n, {| b with normalizedPaths := <[fileName := n]> cache |})
  end).

Definition no_access : fileAccess := FileAccess false false false false.

Definition add_access (a : fileAccess) (flags : Z) : fileAccess := {|
  fa_read := fa_read a || (0 <? Z.land flags flagRead);
  fa_write := fa_write a || (0 <? Z.land flags flagWrite);
  fa_exec := fa_exec a || (0 <? Z.land flags flagExec);
  fa_spawn := fa_spawn a || (0 <? Z.land flags flagSpawn)
|}.

(** The section under [lockRecordedFiles]. *)
Definition record_file (key : Z) (fileName : list Z) (flags : Z) (b : AppArmorRecorder) :
    AppArmorRecorder :=
  let files := default ∅ (recordedFiles b !! key) in
  if (maxTrackedPaths <=? size files)%nat then
    {| b with recordedFiles := <[key := files]> (recordedFiles b);
              maxPathsWarned := {[key]} ∪ maxPathsWarned b |}
  else
    let path := default no_access (files !! fileName) in
    {| b with recordedFiles :=
         <[key := <[fileName := add_access path flags]> files]> (recordedFiles b) |}.

Definition handleFileEvent (e : bpfEvent) : go unit :=
  x ← isExcluded (eh_key (be_hdr e));
  if x : bool then mret tt
  else
    let fileName := fileDataToString (be_data e) in
    if negb (HasPrefix fileName (bytes "/")) then mret tt
    else
      n ← normalizePath fileName;
      if np_excluded n then mret tt
      else
        let key := eh_key (be_hdr e) in
        ok ← trackKey key;
        if negb ok then mret tt
        else upd (record_file key (np_path n) (eh_flags (be_hdr e))).

(** [DeleteKey64]; a missing key is no error to the callers. *)
Definition delete_caps (key : Z) : go unit :=
  upd (λ b, {| b with recordedCaps := delete key <$> recordedCaps b |}).
Definition delete_sockets (key : Z) : go unit :=
  upd (λ b, {| b with recordedSockets := delete key <$> recordedSockets b |}).

Definition forgetReported (keys : list Z) : go unit :=
  set ← get bpf_set;
  if negb set then mret tt
  else _ ← for_each keys delete_caps; for_each keys delete_sockets.

Definition no_sockets : BpfAppArmorSocketTypes := SocketTypes false false false.

Definition join_sockets (a b : BpfAppArmorSocketTypes) : BpfAppArmorSocketTypes :=
  SocketTypes (UseRaw a || UseRaw b) (UseTCP a || UseTCP b) (UseUDP a || UseUDP b).

(** The section under [lockRecordedSocketsUse]. *)
Definition record_socket (key : Z) (use : BpfAppArmorSocketTypes) (b : AppArmorRecorder) :
    AppArmorRecorder :=
  let recorded := default no_sockets (recordedSocketsUse b !! key) in
  {| b with recordedSocketsUse := <[key := join_sockets recorded use]> (recordedSocketsUse b) |}.

Definition handleSocketEvent (e : bpfEvent) : go unit :=
  x ← isExcluded (eh_key (be_hdr e));
  if x : bool then mret tt
  else
    match socketUse (eh_flags (be_hdr e)) with
    | None => mret tt
    | Some use =>
        let key := eh_key (be_hdr e) in
        ok ← trackKey key;
        if negb ok then forgetReported [key]
        else upd (record_socket key use)
    end.

(** The section under [lockRecordedCapabilities]; a Go int has 64 bits. *)
Definition record_cap (key flags : Z) (b : AppArmorRecorder) : AppArmorRecorder :=
  let requestedCap := swrap 64 flags in
  let caps := default [] (recordedCapabilities b !! key) in
  if bool_decide (requestedCap ∈ caps) then b
  else {| b with recordedCapabilities :=
            <[key := caps ++ [requestedCap]]> (recordedCapabilities b) |}.

Definition handleCapabilityEvent (e : bpfEvent) : go unit :=
  x ← isExcluded (eh_key (be_hdr e));
  if x : bool then mret tt
  else
    let key := eh_key (be_hdr e) in
    ok ← trackKey key;
    if negb ok then forgetReported [key]
    else upd (record_cap key (eh_flags (be_hdr e))).

(** What [Clear] deletes of one key. *)
Definition clear_data (b : AppArmorRecorder) (key : Z) : AppArmorRecorder :=
  {| b with recordedFiles := delete key (recordedFiles b);
            recordedCapabilities := delete key (recordedCapabilities b);
            recordedSocketsUse := delete key (recordedSocketsUse b);
            maxPathsWarned := maxPathsWarned b ∖ {[key]};
            trackedKeys := trackedKeys b ∖ {[key]} |}.

Definition Clear (keys : list Z) : go unit :=
  _ ← upd (λ b, fold_left clear_data keys b);
  forgetReported keys.

Definition clearKey (e : bpfEvent) : go unit := Clear [eh_key (be_hdr e)].

Definition Exclude (key : Z) : go unit :=
  _ ← upd (λ b, {| b with excluded := {[key]} ∪ excluded b |});
  Clear [key].

(** [clearBpfMap]: the keys are collected first. *)
Definition clear_caps_map : go unit :=
  keys ← get (λ b, elements (dom (default ∅ (recordedCaps b))));
  for_each keys delete_caps.
Definition clear_sockets_map : go unit :=
  keys ← get (λ b, elements (dom (default ∅ (recordedSockets b))));
  for_each keys delete_sockets.

Definition StopRecording : go unit :=
  _ ← upd (λ b, {| b with recordedSocketsUse := ∅; recordedCapabilities := ∅;
                          recordedFiles := ∅; maxPathsWarned := ∅; maxKeysWarned := false |});
  _ ← upd (λ b, {| b with trackedKeys := ∅ |});
  _ ← upd (λ b, {| b with excluded := ∅ |});
  _ ← upd (λ b, {| b with normalizedPaths := ∅ |});
  _ ← clear_caps_map;
  clear_sockets_map.

(** [handleEvent] of [bpfrecorder.go], with an AppArmor recorder: the events
    about processes go to other parts. *)
Definition handleEvent (eventBytes : list Z) : go unit :=
  match unmarshal eventBytes with
  | None => mret tt
  | Some event =>
      let type := eh_type (be_hdr event) in
      if type =? eventTypeNewPid then mret tt
      else if type =? eventTypeExit then mret tt
      else if type =? eventTypeAppArmorFile then handleFileEvent event
      else if type =? eventTypeAppArmorSocket then handleSocketEvent event
      else if type =? eventTypeAppArmorCap then handleCapabilityEvent event
      else if type =? eventTypeClearMntns then clearKey event
      else mret tt
  end.

(** [processEvents]: the loop over the channel of the ring buffer. *)
Definition processEvents (events : list (list Z)) : go unit := for_each events handleEvent.

(** ** What holds at any time

    The requests run at the same time as the event loop, and the kernel changes
    the BPF maps. *)

Inductive request : go unit → Prop :=
  | req_event raw : request (handleEvent raw)
  | req_clear keys : request (Clear keys)
  | req_exclude key : request (Exclude key)
  | req_stop : request StopRecording.

Inductive kernel_step : AppArmorRecorder → AppArmorRecorder → Prop :=
  | kernel_caps b m : kernel_step b {| b with recordedCaps := m |}
  | kernel_sockets b m : kernel_step b {| b with recordedSockets := m |}.

(** A path the recorder keeps: that of a file, and not of an excluded one. *)
Definition kept_path (p : list Z) : Prop :=
  ∃ s, HasPrefix s (bytes "/") = true ∧ p = normalized s ∧ shouldExcludeFile p = false.

Record recorder_ok (b : AppArmorRecorder) : Prop := {
  ro_keys : (size (trackedKeys b) <= maxTrackedKeys)%nat;
  ro_files : map_Forall (λ _ files, (size files <= maxTrackedPaths)%nat ∧
    map_Forall (λ p (_ : fileAccess), kept_path p) files) (recordedFiles b);
  ro_caps : map_Forall (λ _ caps, NoDup caps) (recordedCapabilities b);
  ro_cache_size : (size (normalizedPaths b) <= maxNormalizedPaths)%nat;
  ro_cache : map_Forall (λ p n, n = normalize p) (normalizedPaths b)
}.

Lemma limits : Z.of_nat maxTrackedPaths = 10000 ∧ Z.of_nat maxTrackedKeys = 1000 ∧
  Z.of_nat maxNormalizedPaths = 4096.
Proof. unfold maxTrackedPaths, maxTrackedKeys, maxNormalizedPaths. by rewrite !Z2Nat.id. Qed.

#[global] Opaque maxTrackedPaths maxTrackedKeys maxNormalizedPaths.

Lemma new_recorder_ok name : recorder_ok (newAppArmorRecorder name).
Proof. split; cbn; rewrite ?size_empty, ?map_size_empty; try done; lia. Qed.

(** Changes of the other fields. *)
Lemma recorder_ok_frame b b' :
  trackedKeys b' ⊆ trackedKeys b → recordedFiles b' ⊆ recordedFiles b →
  recordedCapabilities b' ⊆ recordedCapabilities b → normalizedPaths b' ⊆ normalizedPaths b →
  recorder_ok b → recorder_ok b'.
Proof.
  intros Hk Hf Hc Hn [H1 H2 H3 H4 H5]. split.
  - apply subseteq_size in Hk. lia.
  - by eapply map_Forall_subseteq.
  - by eapply map_Forall_subseteq.
  - apply map_subseteq_size in Hn. lia.
  - by eapply map_Forall_subseteq.
Qed.

Ltac frame_ok :=
  match goal with H : recorder_ok ?b |- recorder_ok _ =>
    apply (recorder_ok_frame b); [..|exact H]; cbn;
    first [done | apply delete_subseteq | apply map_empty_subseteq | set_solver]
  end.

Lemma clear_data_ok b key : recorder_ok b → recorder_ok (clear_data b key).
Proof. intros H. frame_ok. Qed.

Lemma trackKey_ok key b :
  recorder_ok b → recorder_ok (exec (trackKey key) b).
Proof.
  intros Hb. unfold exec, trackKey, act. cbn [run]. case_bool_decide as Hin; [done|].
  destruct (Nat.leb_spec maxTrackedKeys (size (trackedKeys b))) as [|Hlt]; cbn; [frame_ok|].
  destruct Hb as [H1 H2 H3 H4 H5]. split; cbn; try done.
  rewrite size_union, size_singleton by set_solver. lia.
Qed.

Lemma normalizePath_ok fileName b :
  recorder_ok b →
  result (normalizePath fileName) b = normalize fileName ∧
  recorder_ok (exec (normalizePath fileName) b).
Proof.
  intros Hb. unfold result, exec, normalizePath, act. cbn [run]. destruct (normalizedPaths b !! fileName) as [n|] eqn:E; cbn.
  { split; [|done]. by apply (ro_cache b Hb) in E. }
  split; [done|]. destruct Hb as [H1 H2 H3 H4 H5]. split; cbn; try done.
  - pose proof limits as (_ & _ & Hpos).
    destruct (Nat.leb_spec maxNormalizedPaths (size (normalizedPaths b))).
    + rewrite map_size_insert_None, map_size_empty by done. lia.
    + rewrite map_size_insert_None by done. lia.
  - apply map_Forall_insert_2; [done|]. by destruct (_ <=? _)%nat.
Qed.

Lemma record_file_ok key p flags b :
  kept_path p → recorder_ok b → recorder_ok (record_file key p flags b).
Proof.
  intros Hp [H1 H2 H3 H4 H5]. unfold record_file. set (files := default ∅ (recordedFiles b !! key)).
  assert ((size files <= maxTrackedPaths)%nat ∧
    map_Forall (λ p (_ : fileAccess), kept_path p) files) as [Hs Hf].
  { unfold files. destruct (recordedFiles b !! key) as [fs|] eqn:E; cbn; [by apply H2 in E|].
    rewrite map_size_empty. split; [lia|done]. }
  destruct (Nat.leb_spec maxTrackedPaths (size files)); split; cbn; try done;
    apply map_Forall_insert_2; try done.
  split; [|by apply map_Forall_insert_2].
  rewrite map_size_insert. destruct (files !! p); cbn; lia.
Qed.

Lemma record_cap_ok key flags b : recorder_ok b → recorder_ok (record_cap key flags b).
Proof.
  intros [H1 H2 H3 H4 H5]. unfold record_cap. case_bool_decide as Hin; [done|].
  split; cbn; try done. apply map_Forall_insert_2; [|done].
  apply NoDup_app. split; [|split; [|apply NoDup_singleton]].
  - destruct (recordedCapabilities b !! key) eqn:E; cbn; [by apply H3 in E|constructor].
  - intros x Hx ->%list_elem_of_singleton. done.
Qed.

Lemma for_each_preserves {W X} (I : W → Prop) (l : list X) f :
  (∀ x, preserves I (f x)) → preserves I (for_each l f).
Proof. intros Hf. induction l; cbn; [constructor|]. by apply preserves_bind. Qed.

(** The cache is not seen. *)
Lemma normalize_bind_ok {A} f (q : normalizedPath → go A) :
  preserves recorder_ok (q (normalize f)) → preserves recorder_ok (normalizePath f ≫= q).
Proof.
  intros Hq. apply preserves_act_bind. intros b Hb.
  destruct (normalizePath_ok f b Hb) as [Hr Hs].
  unfold normalizePath in Hr, Hs. rewrite exec_act in Hs. rewrite result_act in Hr.
  split; [exact Hs|]. exact (eq_ind_r (λ n, preserves recorder_ok (q n)) Hq Hr).
Qed.

Ltac walk_ok :=
  repeat match goal with
  | |- preserves _ (normalizePath _ ≫= _) => apply normalize_bind_ok
  | |- preserves _ (for_each _ _) => apply for_each_preserves; intro
  | |- preserves _ (get _ ≫= _) => apply preserves_bind; [apply preserves_get|intro]
  | |- preserves _ (_ ≫= _) => apply preserves_bind; [|intro]
  | |- preserves _ (mret _) => apply preserves_ret
  | |- preserves _ (if ?b then _ else _) => destruct b eqn:?
  | |- preserves _ (upd _) => apply preserves_upd; intros ? ?
  end.

Lemma forgetReported_ok keys : preserves recorder_ok (forgetReported keys).
Proof. unfold forgetReported, delete_caps, delete_sockets. walk_ok; frame_ok. Qed.

Lemma track_ok key : preserves recorder_ok (trackKey key).
Proof.
  apply preserves_actI. intros b Hb. apply (trackKey_ok key) in Hb.
  unfold trackKey in Hb. by rewrite exec_act in Hb.
Qed.

Lemma Clear_ok keys : preserves recorder_ok (Clear keys).
Proof.
  unfold Clear. walk_ok; [|apply forgetReported_ok].
  revert w H. induction keys as [|key keys IH]; intros w H; cbn; [done|].
  by apply IH, clear_data_ok.
Qed.

Lemma handleFileEvent_ok e : preserves recorder_ok (handleFileEvent e).
Proof.
  unfold handleFileEvent, isExcluded. cbv zeta.
  walk_ok; [apply track_ok|]. apply record_file_ok; [|done].
  eexists. split; [by apply negb_false_iff|]. by split.
Qed.

Lemma request_ok p : request p → preserves recorder_ok p.
Proof.
  intros [raw|keys|key|].
  - unfold handleEvent. destruct (unmarshal raw) as [e|]; [|constructor]. cbv zeta. walk_ok.
    + apply handleFileEvent_ok.
    + unfold handleSocketEvent, isExcluded. walk_ok. destruct (socketUse _) as [use|]; [|constructor].
      cbv zeta. walk_ok; [apply track_ok|apply forgetReported_ok|]. frame_ok.
    + unfold handleCapabilityEvent, isExcluded. cbv zeta.
      walk_ok; [apply track_ok|apply forgetReported_ok|]. by apply record_cap_ok.
    + apply Clear_ok.
  - apply Clear_ok.
  - unfold Exclude. walk_ok; [frame_ok|apply Clear_ok].
  - unfold StopRecording, clear_caps_map, clear_sockets_map, delete_caps, delete_sockets.
    walk_ok; frame_ok.
Qed.

Lemma reachable_ok name ts b :
  reachable request kernel_step (newAppArmorRecorder name) (ts, b) → recorder_ok b.
Proof.
  intros Hr. apply (pool_preserves request kernel_step recorder_ok) in Hr as [H _]; [done| | |].
  - apply request_ok.
  - intros b1 b2 Hb Hk. revert Hb. destruct Hk; intros Hb; frame_ok.
  - apply new_recorder_ok.
Qed.

(** The recorder stays within its limits: however the event loop and the
    requests interleave, at most 1000 keys are tracked, at most 10000 paths are
    kept for a key, all of them absolute and none of an excluded file, no
    capability is listed twice, and the cache of normalized paths has at most
    4096 entries, each of them what normalizing its path gives. *)
Theorem recorder_bounded name ts b :
  reachable request kernel_step (newAppArmorRecorder name) (ts, b) →
  Z.of_nat (size (trackedKeys b)) <= 1000 ∧
  (∀ key files, recordedFiles b !! key = Some files → Z.of_nat (size files) <= 10000 ∧
    ∀ p, is_Some (files !! p) → kept_path p) ∧
  (∀ key caps, recordedCapabilities b !! key = Some caps → NoDup caps) ∧
  Z.of_nat (size (normalizedPaths b)) <= 4096 ∧
  (∀ p n, normalizedPaths b !! p = Some n → n = normalize p).
Proof.
  intros [H1 H2 H3 H4 H5]%reachable_ok. destruct limits as (L1 & L2 & L3).
  split; [lia|]. split; [|split; [done|split; [lia|done]]].
  intros key files Hf. destruct (H2 key files Hf) as [Hs Hp]. split; [lia|].
  intros p [fa Ha]. by apply Hp in Ha.
Qed.
