(* ===== verification/Recording.v ===== *)
(** * What the AppArmor recorder has

    The contract of [AppArmorRecorder]: after any sequence of events and
    requests, a capability, socket type or file access is recorded for a key if
    and only if an event told it while the key was not excluded, and nothing
    dropped the data of the key since ([recorder_refines]). *)
From S2P Require Import Prelude Bpf State Keys Report Wire Paths AppArmor.
Import String.StringSyntax.
#[local] Open Scope string_scope.
#[local] Open Scope list_scope.
#[local] Open Scope Z_scope.

(** ** Facts *)

Inductive access := Read | Write | ExecMap | Spawn.

(** What a profile can allow. *)
Inductive fact :=
  | UsedCap (c : Z)
  | UsedRaw
  | UsedTCP
  | UsedUDP
  | UsedFile (path : list Z) (a : access).

Definition access_flag (a : access) : Z :=
  match a with Read => flagRead | Write => flagWrite | ExecMap => flagExec | Spawn => flagSpawn end.

Definition has_access (fa : fileAccess) (a : access) : bool :=
  match a with
  | Read => fa_read fa | Write => fa_write fa | ExecMap => fa_exec fa | Spawn => fa_spawn fa
  end.

Definition flagged (flags : Z) (a : access) : bool := 0 <? Z.land flags (access_flag a).

(** The recorder has a fact for a key. *)
Definition recorded (b : AppArmorRecorder) (key : Z) (f : fact) : Prop :=
  match f with
  | UsedCap c => c ∈ default [] (recordedCapabilities b !! key)
  | UsedRaw => UseRaw (default no_sockets (recordedSocketsUse b !! key)) = true
  | UsedTCP => UseTCP (default no_sockets (recordedSocketsUse b !! key)) = true
  | UsedUDP => UseUDP (default no_sockets (recordedSocketsUse b !! key)) = true
  | UsedFile p a =>
      has_access (default no_access (default ∅ (recordedFiles b !! key) !! p)) a = true
  end.

(** An event tells a fact. *)
Definition tells (e : bpfEvent) (f : fact) : Prop :=
  let flags := eh_flags (be_hdr e) in
  match f with
  | UsedCap c => eh_type (be_hdr e) = eventTypeAppArmorCap ∧ c = swrap 64 flags
  | UsedRaw => eh_type (be_hdr e) = eventTypeAppArmorSocket ∧
      UseRaw (default no_sockets (socketUse flags)) = true
  | UsedTCP => eh_type (be_hdr e) = eventTypeAppArmorSocket ∧
      UseTCP (default no_sockets (socketUse flags)) = true
  | UsedUDP => eh_type (be_hdr e) = eventTypeAppArmorSocket ∧
      UseUDP (default no_sockets (socketUse flags)) = true
  | UsedFile p a => eh_type (be_hdr e) = eventTypeAppArmorFile ∧
      HasPrefix (fileDataToString (be_data e)) (bytes "/") = true ∧
      p = normalized (fileDataToString (be_data e)) ∧ shouldExcludeFile p = false ∧
      flagged flags a = true
  end.

(** ** Sequences of operations *)

Inductive op := OpEvent (raw : list Z) | OpClear (keys : list Z) | OpExclude (key : Z).

Definition run_op (o : op) : go unit :=
  match o with
  | OpEvent raw => handleEvent raw
  | OpClear keys => Clear keys
  | OpExclude key => Exclude key
  end.

Definition run_ops (ops : list op) (b : AppArmorRecorder) : AppArmorRecorder :=
  exec (for_each ops run_op) b.

Lemma run_ops_snoc ops o b : run_ops (ops ++ [o]) b = exec (run_op o) (run_ops ops b).
Proof.
  unfold run_ops. revert b. induction ops as [|x ops IH]; intros b; cbn [app for_each].
  - rewrite exec_bind. done.
  - by rewrite !exec_bind, IH.
Qed.

(** An operation that makes the recorder forget a key. *)
Definition drops (o : op) (key : Z) : Prop :=
  match o with
  | OpEvent raw => ∃ e, unmarshal raw = Some e ∧ eh_type (be_hdr e) = eventTypeClearMntns ∧
      eh_key (be_hdr e) = key
  | OpClear keys => key ∈ keys
  | OpExclude k => k = key
  end.

Definition told_by (o : op) (key : Z) (f : fact) : Prop :=
  ∃ raw e, o = OpEvent raw ∧ unmarshal raw = Some e ∧ eh_key (be_hdr e) = key ∧ tells e f.

(** The abstract content of the recorder. *)
Definition content (ops : list op) (key : Z) (f : fact) : Prop :=
  ∃ pre o post, ops = pre ++ o :: post ∧ told_by o key f ∧
    ¬ (OpExclude key ∈ pre) ∧ Forall (λ o, ¬ drops o key) post.

Lemma content_nil key f : ¬ content [] key f.
Proof. intros (pre & o & post & H & _). by destruct pre. Qed.

Lemma content_snoc ops o key f :
  content (ops ++ [o]) key f ↔
  content ops key f ∧ ¬ drops o key ∨ told_by o key f ∧ ¬ (OpExclude key ∈ ops).
Proof.
  split.
  - intros (pre & o' & post & Heq & Ht & Hx & Hd). destruct post as [|p post _] using rev_ind.
    + apply app_inj_tail in Heq as [-> ->]. by right.
    + rewrite app_comm_cons, app_assoc in Heq. apply app_inj_tail in Heq as [-> ->].
      apply Forall_app in Hd as [Hd [Hp _]%Forall_cons]. left. split; [|done].
      by exists pre, o', post.
  - intros [[(pre & o' & post & -> & Ht & Hx & Hd) Ho]|[Ht Hx]].
    + exists pre, o', (post ++ [o]). rewrite <- app_assoc. split; [done|]. split; [done|].
      split; [done|]. apply Forall_app. split; [done|by constructor].
    + exists ops, o, []. by split.
Qed.

(** ** Limits *)

Definition event_key (o : op) : list Z :=
  match o with
  | OpEvent raw => match unmarshal raw with Some e => [eh_key (be_hdr e)] | None => [] end
  | _ => []
  end.

(** The keys of the events, and the number of the file events of a key. *)
Definition event_keys (ops : list op) : gset Z := list_to_set (ops ≫= event_key).

Definition is_file_event (key : Z) (o : op) : bool :=
  match o with
  | OpEvent raw =>
      match unmarshal raw with
      | Some e => (eh_type (be_hdr e) =? eventTypeAppArmorFile) && (eh_key (be_hdr e) =? key)
      | None => false
      end
  | _ => false
  end.

Definition file_events (key : Z) (ops : list op) : nat := length (filter (is_file_event key) ops).

(** No limit of the recorder can be reached. *)
Definition within_limits (ops : list op) : Prop :=
  (size (event_keys ops) <= maxTrackedKeys)%nat ∧
  ∀ key, (file_events key ops <= maxTrackedPaths)%nat.

(** ** The critical sections *)

Lemma recorded_cap k flags b key f :
  recorded (record_cap k flags b) key f ↔
  recorded b key f ∨ key = k ∧ f = UsedCap (swrap 64 flags).
Proof.
  unfold record_cap. case_bool_decide as Hin.
  { split; [by left|]. intros [H|[-> ->]]; done. }
  destruct f as [c| | | |p a]; cbn; try (split; [by left|by intros [H|[_ ?]]]).
  destruct (decide (key = k)) as [->|Hne].
  - rewrite lookup_insert_eq. cbn. rewrite elem_of_app, list_elem_of_singleton.
    split; [intros [?| ->]; auto|]. intros [?|[_ [= ->]]]; auto.
  - rewrite lookup_insert_ne by done. split; [by left|]. by intros [H|[? _]].
Qed.

(** The rules a socket needs. *)
Definition socket_fact (use : BpfAppArmorSocketTypes) (f : fact) : bool :=
  match f with
  | UsedRaw => UseRaw use | UsedTCP => UseTCP use | UsedUDP => UseUDP use | _ => false
  end.

Lemma recorded_socket k use b key f :
  recorded (record_socket k use b) key f ↔
  recorded b key f ∨ key = k ∧ socket_fact use f = true.
Proof.
  unfold record_socket. destruct f as [c| | | |p a]; cbn; try (split; [by left|by intros [H|[_ ?]]]);
    (destruct (decide (key = k)) as [->|Hne];
     [rewrite lookup_insert_eq; cbn; rewrite orb_true_iff; tauto
     |rewrite lookup_insert_ne by done; split; [by left|]; by intros [H|[? _]]]).
Qed.

Lemma has_add_access fa flags a :
  has_access (add_access fa flags) a = has_access fa a || flagged flags a.
Proof. by destruct a. Qed.

Lemma recorded_file k p flags b key f :
  (size (default ∅ (recordedFiles b !! k)) < maxTrackedPaths)%nat →
  recorded (record_file k p flags b) key f ↔
  recorded b key f ∨ key = k ∧ ∃ a, f = UsedFile p a ∧ flagged flags a = true.
Proof.
  intros Hs. unfold record_file. apply Nat.leb_gt in Hs as ->.
  destruct f as [c| | | |p' a]; cbn; try (split; [by left|by intros [H|(_ & ? & ? & _)]]).
  destruct (decide (key = k)) as [->|Hne].
  - rewrite lookup_insert_eq. cbn. destruct (decide (p' = p)) as [->|Hp].
    + rewrite lookup_insert_eq. cbn. rewrite has_add_access, orb_true_iff.
      split; [intros [?|?]; eauto|]. intros [?|(_ & ? & [= ->] & ?)]; eauto.
    + rewrite lookup_insert_ne by done. split; [by left|]. intros [?|(_ & ? & [=] & _)]; done.
  - rewrite lookup_insert_ne by done. split; [by left|]. by intros [?|[? _]].
Qed.

Lemma recorded_clear b k key f : recorded (clear_data b k) key f ↔ recorded b key f ∧ key ≠ k.
Proof.
  destruct f as [c| | | |p a]; cbn; destruct (decide (key = k)) as [->|Hne];
    rewrite ?lookup_delete_eq, ?lookup_delete_ne by done; cbn; try tauto;
    rewrite ?lookup_empty, ?elem_of_nil; try destruct a; cbn; intuition congruence.
Qed.

(** ** Operations alone *)

(** What [forgetReported] leaves alone. *)
Definition data (b : AppArmorRecorder) :=
  (recordedSocketsUse b, recordedCapabilities b, recordedFiles b, trackedKeys b, excluded b,
   normalizedPaths b).

Lemma for_each_guar {W X} (G : W → W → Prop) (l : list X) f :
  (∀ x, guar G (f x)) → guar G (for_each l f).
Proof. intros Hf. induction l; cbn; [constructor|]. by apply guar_bind. Qed.

Lemma forget_data keys b : data (exec (forgetReported keys) b) = data b.
Proof.
  assert (guar (λ b b', data b' = data b) (forgetReported keys)) as H.
  { unfold forgetReported. apply guar_bind; [by repeat constructor|]. intros set.
    destruct set; cbn [negb]; [|constructor].
    apply guar_bind; intros; apply for_each_guar; intros; by repeat constructor. }
  apply (guar_exec _ _ b) in H; [done|by intros ?|]. intros b1 b2 b3. congruence.
Qed.

Lemma recorded_data b b' key f : data b = data b' → recorded b key f ↔ recorded b' key f.
Proof. intros [= H1 H2 H3 H4 H5 H6]. destruct f; cbn; by rewrite ?H1, ?H2, ?H3. Qed.

Lemma clear_run keys b : data (exec (Clear keys) b) = data (fold_left clear_data keys b).
Proof. unfold Clear. rewrite exec_bind. apply forget_data. Qed.

Lemma recorded_fold keys b key f :
  recorded (fold_left clear_data keys b) key f ↔ recorded b key f ∧ ¬ (key ∈ keys).
Proof.
  revert b. induction keys as [|k keys IH]; intros b; cbn.
  - split; [|tauto]. intros ?. split; [done|]. apply not_elem_of_nil.
  - rewrite IH, recorded_clear, not_elem_of_cons. tauto.
Qed.

(** The rest of the state after [Clear]. *)
Lemma fold_frame keys b :
  excluded (fold_left clear_data keys b) = excluded b ∧
  trackedKeys (fold_left clear_data keys b) ⊆ trackedKeys b ∧
  recordedFiles (fold_left clear_data keys b) ⊆ recordedFiles b.
Proof.
  revert b. induction keys as [|k keys IH]; intros b; cbn [fold_left]; [done|].
  destruct (IH (clear_data b k)) as (H1 & H2 & H3). rewrite H1. split; [done|].
  split; [etrans; [exact H2|]; cbn; set_solver|]. etrans; [exact H3|]. apply delete_subseteq.
Qed.

(** The number of files of a key. *)
Definition files_of (b : AppArmorRecorder) (key : Z) : nat :=
  size (default ∅ (recordedFiles b !! key)).

Lemma files_of_subseteq b b' key :
  recordedFiles b' ⊆ recordedFiles b → (files_of b' key <= files_of b key)%nat.
Proof.
  intros Hs. unfold files_of. destruct (recordedFiles b' !! key) eqn:E; cbn.
  - by rewrite (lookup_weaken _ _ _ _ E Hs).
  - rewrite map_size_empty. lia.
Qed.

(** The key has room among the tracked ones. *)
Definition room (b : AppArmorRecorder) (key : Z) : Prop :=
  key ∈ trackedKeys b ∨ (size (trackedKeys b) < maxTrackedKeys)%nat.

Definition tracked (key : Z) (b : AppArmorRecorder) : AppArmorRecorder :=
  {| b with trackedKeys := {[key]} ∪ trackedKeys b |}.

Lemma run_track key b : room b key → run (trackKey key) b = (true, tracked key b).
Proof.
  intros Hr. unfold trackKey, act. cbn [run]. case_bool_decide as Hin.
  - unfold tracked. replace ({[key]} ∪ trackedKeys b) with (trackedKeys b) by set_solver.
    by destruct b.
  - destruct Hr as [?|Hlt]; [done|]. apply Nat.leb_gt in Hlt as ->. done.
Qed.

Lemma exec_track_bind {A} key b (q : bool → go A) :
  room b key → exec (trackKey key ≫= q) b = exec (q true) (tracked key b).
Proof. intros Hr. rewrite exec_bind. unfold result, exec at 2. by rewrite run_track. Qed.

Lemma exec_excluded_bind {A} key b (q : bool → go A) :
  exec (isExcluded key ≫= q) b = exec (q (bool_decide (key ∈ excluded b))) b.
Proof. done. Qed.

Lemma exec_normalize_bind {A} p b (q : normalizedPath → go A) :
  recorder_ok b → ∃ cache,
    exec (normalizePath p ≫= q) b = exec (q (normalize p)) {| b with normalizedPaths := cache |}.
Proof.
  intros Hb. rewrite exec_bind. destruct (normalizePath_ok p b Hb) as [-> _].
  unfold normalizePath. rewrite exec_act.
  destruct (normalizedPaths b !! p); [exists (normalizedPaths b); by destruct b|by eexists].
Qed.

(** ** The effect of an event *)

Record effect (e : bpfEvent) (b b' : AppArmorRecorder) : Prop := {
  ef_excluded : excluded b' = excluded b;
  ef_tracked : trackedKeys b' ⊆ {[eh_key (be_hdr e)]} ∪ trackedKeys b;
  ef_files key : (files_of b' key <= files_of b key +
    if ((eh_type (be_hdr e) =? eventTypeAppArmorFile) && (eh_key (be_hdr e) =? key))%Z
    then 1 else 0)%nat;
  ef_recorded key f : recorded b' key f ↔ recorded b key f ∨
    eh_key (be_hdr e) = key ∧ tells e f ∧ key ∉ excluded b
}.

(** Nothing happens, and nothing was told. *)
Lemma effect_none e b b' :
  data b = data b' →
  (∀ f, tells e f → eh_key (be_hdr e) ∈ excluded b) → effect e b b'.
Proof.
  intros Hd Hn. pose proof Hd as [= _ _ Hf Ht Hx _]. split.
  - done.
  - set_solver.
  - intros key. unfold files_of. rewrite Hf. lia.
  - intros key f. rewrite (recorded_data b b' key f Hd). split; [by left|].
    intros [?|(<- & Hte & Hne)]; [done|]. by apply Hn in Hte.
Qed.

Lemma cap_effect e b :
  eh_type (be_hdr e) = eventTypeAppArmorCap → room b (eh_key (be_hdr e)) →
  effect e b (exec (handleCapabilityEvent e) b).
Proof.
  intros Ht Hr. unfold handleCapabilityEvent. rewrite exec_excluded_bind.
  case_bool_decide as Hx; [by apply effect_none|]. cbv zeta. rewrite exec_track_bind by done.
  cbn [negb]. unfold upd. rewrite exec_act. cbn [snd]. set (k := eh_key (be_hdr e)) in *.
  split.
  - unfold record_cap. by case_bool_decide.
  - unfold record_cap. by case_bool_decide.
  - intros key. unfold files_of, record_cap. case_bool_decide; cbn; lia.
  - intros key f. rewrite recorded_cap. fold k. unfold tells.
    split; (intros [?|H]; [by left|right]).
    + destruct H as [-> ->]. by split.
    + destruct H as (<- & Hf & _). split; [done|]. rewrite Ht in Hf.
      destruct f; try done; destruct Hf as [? Hf]; by rewrite ?Hf.
Qed.

Lemma socket_effect e b :
  eh_type (be_hdr e) = eventTypeAppArmorSocket → room b (eh_key (be_hdr e)) →
  effect e b (exec (handleSocketEvent e) b).
Proof.
  intros Ht Hr. unfold handleSocketEvent. rewrite exec_excluded_bind.
  case_bool_decide as Hx; [by apply effect_none|].
  destruct (socketUse (eh_flags (be_hdr e))) as [use|] eqn:Eu.
  2: { apply effect_none; [done|]. intros f Hf. unfold tells in Hf. rewrite Eu, Ht in Hf.
       destruct f; by destruct Hf. }
  cbv zeta. rewrite exec_track_bind by done. cbn [negb]. unfold upd. rewrite exec_act. cbn [snd].
  split.
  - done.
  - done.
  - intros key. unfold files_of. cbn. lia.
  - intros key f. rewrite recorded_socket. unfold tells. rewrite Eu, Ht. cbn.
    split; (intros [?|H]; [by left|right]).
    + destruct H as [-> Hf]. split; [done|]. split; [|done]. by destruct f.
    + destruct H as (<- & Hf & _). split; [done|]. by destruct f; destruct Hf as [? ?].
Qed.

Lemma file_effect e b :
  eh_type (be_hdr e) = eventTypeAppArmorFile → room b (eh_key (be_hdr e)) →
  (files_of b (eh_key (be_hdr e)) < maxTrackedPaths)%nat → recorder_ok b →
  effect e b (exec (handleFileEvent e) b).
Proof.
  intros Ht Hr Hs Hb. unfold handleFileEvent. rewrite exec_excluded_bind.
  case_bool_decide as Hx; [by apply effect_none|]. cbv zeta.
  destruct (HasPrefix _ _) eqn:Ep; cbn [negb].
  2: { apply effect_none; [done|]. intros f Hf. unfold tells in Hf. rewrite Ht, Ep in Hf.
       destruct f; by destruct Hf as [? [??]] || destruct Hf. }
  destruct (exec_normalize_bind (fileDataToString (be_data e)) b (λ n,
    if np_excluded n then mret tt
    else ok ← trackKey (eh_key (be_hdr e));
         if negb ok then mret tt
         else upd (record_file (eh_key (be_hdr e)) (np_path n) (eh_flags (be_hdr e)))) Hb)
    as [cache ->].
  cbn [np_excluded np_path normalize]. fold (normalized (fileDataToString (be_data e))).
  set (p := normalized (fileDataToString (be_data e))). set (b1 := {| b with normalizedPaths := cache |}).
  assert (∀ key f, recorded b1 key f ↔ recorded b key f) as H1 by (intros ? []; done).
  destruct (shouldExcludeFile p) eqn:Ex.
  { split; [done|cbn; set_solver|intros key; unfold files_of; cbn; lia|].
    intros key f. rewrite H1. split; [by left|]. intros [?|(_ & Hf & _)]; [done|].
    unfold tells in Hf. rewrite Ht in Hf. destruct f; try (by destruct Hf).
    destruct Hf as (_ & _ & -> & Hf & _). fold p in Hf. congruence. }
  rewrite exec_track_bind by done. cbn [negb]. unfold upd. rewrite exec_act. cbn [snd].
  split.
  - unfold record_file. by destruct (_ <=? _)%nat.
  - unfold record_file. by destruct (_ <=? _)%nat.
  - intros key. rewrite Ht. cbn. unfold files_of, record_file in *. cbn.
    apply Nat.leb_gt in Hs as Hs'. rewrite Hs'. cbn.
    destruct (Z.eqb_spec (eh_key (be_hdr e)) key) as [<-|Hne].
    + rewrite lookup_insert_eq. cbn. rewrite map_size_insert. destruct (_ !! p); cbn; lia.
    + rewrite lookup_insert_ne by done. lia.
  - intros key f. rewrite recorded_file by exact Hs. unfold tells. rewrite Ht, Ep.
    assert (recorded (tracked (eh_key (be_hdr e)) b1) key f ↔ recorded b key f) as -> by by destruct f.
    split; (intros [?|H]; [by left|right]).
    + destruct H as (-> & a & -> & Ha). done.
    + destruct H as (<- & Hf & _). split; [done|]. destruct f as [| | | |p' a]; try (by destruct Hf).
      destruct Hf as (_ & _ & -> & _ & Ha). by exists a.
Qed.

Lemma tells_type e f :
  tells e f → eh_type (be_hdr e) ∈ [eventTypeAppArmorFile; eventTypeAppArmorSocket;
    eventTypeAppArmorCap].
Proof. destruct f; cbn; intros [-> _]; set_solver. Qed.

(** An event that does not drop anything. *)
Lemma event_effect raw e b :
  unmarshal raw = Some e → eh_type (be_hdr e) ≠ eventTypeClearMntns →
  room b (eh_key (be_hdr e)) →
  (eh_type (be_hdr e) = eventTypeAppArmorFile →
    (files_of b (eh_key (be_hdr e)) < maxTrackedPaths)%nat) →
  recorder_ok b → effect e b (exec (handleEvent raw) b).
Proof.
  intros Hu Hc Hr Hf Hb. unfold handleEvent. rewrite Hu. cbv zeta.
  assert (∀ t, eh_type (be_hdr e) = t → t ∉ [eventTypeAppArmorFile; eventTypeAppArmorSocket;
    eventTypeAppArmorCap] → effect e b b) as Hnone.
  { intros t Ht Hn. apply effect_none; [done|]. intros f Hte. apply tells_type in Hte.
    by rewrite Ht in Hte. }
  destruct (Z.eqb_spec (eh_type (be_hdr e)) eventTypeNewPid) as [Ht|]; [by eapply Hnone, bool_decide_unpack; [exact Ht|]|].
  destruct (Z.eqb_spec (eh_type (be_hdr e)) eventTypeExit) as [Ht|]; [by eapply Hnone, bool_decide_unpack; [exact Ht|]|].
  destruct (Z.eqb_spec (eh_type (be_hdr e)) eventTypeAppArmorFile); [by apply file_effect; auto|].
  destruct (Z.eqb_spec (eh_type (be_hdr e)) eventTypeAppArmorSocket); [by apply socket_effect|].
  destruct (Z.eqb_spec (eh_type (be_hdr e)) eventTypeAppArmorCap); [by apply cap_effect|].
  destruct (Z.eqb_spec (eh_type (be_hdr e)) eventTypeClearMntns); [done|].
  eapply Hnone; [done|]. rewrite !not_elem_of_cons. by split_and!; [..|apply not_elem_of_nil].
Qed.

(** ** The refinement *)

Record simulates (ops : list op) (b : AppArmorRecorder) : Prop := {
  si_ok : recorder_ok b;
  si_excluded k : k ∈ excluded b ↔ OpExclude k ∈ ops;
  si_tracked : trackedKeys b ⊆ event_keys ops;
  si_files key : (files_of b key <= file_events key ops)%nat;
  si_content key f : recorded b key f ↔ content ops key f
}.

Lemma event_keys_app a b : event_keys (a ++ b) = event_keys a ∪ event_keys b.
Proof. unfold event_keys. by rewrite bind_app, list_to_set_app_L. Qed.

Lemma file_events_app key a b :
  file_events key (a ++ b) = (file_events key a + file_events key b)%nat.
Proof. unfold file_events. by rewrite filter_app, length_app. Qed.

(** An operation that only drops keys. *)
Lemma simulates_drop ops o b b' keys :
  simulates ops b → (∀ key, drops o key ↔ key ∈ keys) → (∀ key f, ¬ told_by o key f) →
  data b' = data (fold_left clear_data keys {| b with excluded := excluded b' |}) →
  recorder_ok b' → (∀ k, k ∈ excluded b' ↔ k ∈ excluded b ∨ o = OpExclude k) →
  simulates (ops ++ [o]) b'.
Proof.
  intros [_ S2 S3 S4 S5] Hd Hn Hb Hok Hx. set (b1 := {| b with excluded := excluded b' |}) in *.
  destruct (fold_frame keys b1) as (_ & Ht & Hf). pose proof Hb as [= _ _ Hf' Ht' _ _].
  split; [done| | | |].
  - intros k. rewrite Hx, S2, elem_of_app, list_elem_of_singleton. intuition congruence.
  - rewrite event_keys_app, Ht'. change (trackedKeys b1) with (trackedKeys b) in Ht. set_solver.
  - intros key. rewrite file_events_app. specialize (S4 key). unfold files_of at 1. rewrite Hf'.
    apply (files_of_subseteq _ _ key) in Hf. unfold files_of at 1 in Hf.
    change (files_of b1 key) with (files_of b key) in Hf. lia.
  - intros key f. rewrite content_snoc, (recorded_data _ _ key f Hb), recorded_fold, <- S5, Hd.
    assert (recorded b1 key f ↔ recorded b key f) as -> by by destruct f.
    split; [by left|]. intros [?|[H _]]; [done|by apply Hn in H].
Qed.

Lemma step_clear ops o b keys :
  simulates ops b → (∀ key, drops o key ↔ key ∈ keys) → (∀ key f, ¬ told_by o key f) →
  (∀ k, o ≠ OpExclude k) → simulates (ops ++ [o]) (exec (Clear keys) b).
Proof.
  intros Hs Hd Hn Ho. pose proof (clear_run keys b) as Hb.
  assert (excluded (exec (Clear keys) b) = excluded b) as Hx.
  { injection Hb as _ _ _ _ -> _. apply fold_frame. }
  eapply simulates_drop; try done.
  - rewrite Hb, Hx. by destruct b.
  - apply (preserves_exec recorder_ok); [apply Clear_ok|apply Hs].
  - intros k. rewrite Hx. intuition; exfalso; by eapply Ho.
Qed.

Lemma step_event ops raw e b :
  simulates ops b → unmarshal raw = Some e → within_limits (ops ++ [OpEvent raw]) →
  eh_type (be_hdr e) ≠ eventTypeClearMntns →
  simulates (ops ++ [OpEvent raw]) (exec (handleEvent raw) b).
Proof.
  intros [S1 S2 S3 S4 S5] Hu [Hk Hf] Hc.
  rewrite event_keys_app in Hk. unfold event_keys at 2 in Hk. cbn in Hk. rewrite Hu in Hk.
  cbn in Hk. rewrite union_empty_r_L in Hk. set (k := eh_key (be_hdr e)) in *.
  assert (∀ key, file_events key [OpEvent raw] =
    if (eh_type (be_hdr e) =? eventTypeAppArmorFile) && (k =? key) then 1%nat else 0%nat) as Hfe.
  { intros key. unfold file_events. cbn. rewrite Hu. fold k. by destruct (_ && _). }
  destruct (event_effect raw e b Hu Hc) as [E1 E2 E3 E4]; [| |done|].
  - destruct (decide (k ∈ trackedKeys b)) as [|Hn]; [by left|right].
    assert (size ({[k]} ∪ trackedKeys b) <= maxTrackedKeys)%nat as Hsz.
    { etrans; [apply subseteq_size|exact Hk]. set_solver. }
    rewrite size_union, size_singleton in Hsz by set_solver. lia.
  - intros Ht. specialize (Hf k). rewrite file_events_app, Hfe, Ht, !Z.eqb_refl in Hf.
    specialize (S4 k). cbn in Hf. fold k. lia.
  - split.
    + apply (preserves_exec recorder_ok); [apply request_ok; constructor|done].
    + intros x. rewrite E1, S2, elem_of_app, list_elem_of_singleton. intuition congruence.
    + rewrite event_keys_app. unfold event_keys at 2. cbn. rewrite Hu. cbn. fold k in E2. set_solver.
    + intros key. rewrite file_events_app, Hfe. specialize (E3 key). specialize (S4 key).
      fold k in E3. lia.
    + intros key f. rewrite content_snoc, E4, <- S5, S2. fold k.
      assert (¬ drops (OpEvent raw) key) as Hnd.
      { intros (e' & He & Ht & _). congruence. }
      assert (told_by (OpEvent raw) key f ↔ k = key ∧ tells e f) as ->.
      { split; [|intros [<- ?]; by exists raw, e]. intros (r & e' & [= <-] & He & <- & ?).
        rewrite Hu in He. injection He as <-. done. }
      tauto.
Qed.

Lemma step_op ops o b :
  simulates ops b → within_limits (ops ++ [o]) → simulates (ops ++ [o]) (exec (run_op o) b).
Proof.
  intros Hs Hl. destruct o as [raw|keys|key]; cbn [run_op].
  - destruct (unmarshal raw) as [e|] eqn:Hu.
    + destruct (decide (eh_type (be_hdr e) = eventTypeClearMntns)) as [Ht|Ht];
        [|by eapply step_event].
      replace (handleEvent raw) with (Clear [eh_key (be_hdr e)])
        by (unfold handleEvent; rewrite Hu; cbv zeta; by rewrite Ht).
      apply step_clear; [done| | |done].
      * intros key. rewrite list_elem_of_singleton. cbn. rewrite Hu. naive_solver.
      * intros key f (r & e' & [= <-] & He & _ & Hte). rewrite Hu in He. injection He as <-.
        apply tells_type in Hte. rewrite Ht in Hte. by vm_compute in Hte; set_solver.
    + unfold handleEvent. rewrite Hu. apply (simulates_drop ops (OpEvent raw) b b []); try done.
      * intros key. cbn. rewrite Hu. split; [by intros (? & ? & _)|by intros ?%elem_of_nil].
      * intros key f (r & e' & [= <-] & He & _). congruence.
      * apply Hs.
      * intros k. split; [by left|]. by intros [?|?].
  - apply step_clear; [done|done| |done]. by intros key f (r & e' & ? & _).
  - unfold Exclude. rewrite exec_bind. unfold upd. rewrite exec_act. cbn [snd].
    set (b1 := {| b with excluded := {[key]} ∪ excluded b |}).
    pose proof (clear_run [key] b1) as Hb.
    assert (excluded (exec (Clear [key]) b1) = {[key]} ∪ excluded b) as Hx by by injection Hb as _ _ _ _ -> _.
    apply (simulates_drop ops (OpExclude key) b _ [key]); try done.
    * intros k. rewrite list_elem_of_singleton. cbn. intuition congruence.
    * by intros k f (r & e' & ? & _).
    * by rewrite Hb, Hx.
    * apply (preserves_exec recorder_ok); [apply Clear_ok|]. destruct Hs as [Hs _ _ _ _].
      destruct Hs. by split.
    * intros k. rewrite Hx. set_solver.
Qed.

Lemma simulates_init name : simulates [] (newAppArmorRecorder name).
Proof.
  split.
  - apply new_recorder_ok.
  - intros k. split; [by intros ?%elem_of_empty|by intros ?%elem_of_nil].
  - cbn. set_solver.
  - intros key. unfold files_of. cbn. rewrite lookup_empty. cbn. by rewrite map_size_empty.
  - intros key f. split; [|by intros ?%content_nil]. destruct f as [| | | |p a]; cbn; rewrite ?lookup_empty; cbn;
      rewrite ?lookup_empty; try done; [by intros ?%elem_of_nil|by destruct a].
Qed.

Lemma simulates_all name ops :
  within_limits ops → simulates ops (run_ops ops (newAppArmorRecorder name)).
Proof.
  induction ops as [|o ops IH] using rev_ind; intros Hl; [apply simulates_init|].
  rewrite run_ops_snoc. apply step_op; [|done]. apply IH. destruct Hl as [Hk Hf]. split.
  - etrans; [apply subseteq_size|exact Hk]. rewrite event_keys_app. set_solver.
  - intros key. specialize (Hf key). rewrite file_events_app in Hf. lia.
Qed.

(** C9 The recorder keeps exactly what it was told: after any sequence of
    events and requests that stays within the limits, a capability, a socket
    type or an access to a file is recorded for a key if and only if an event
    told it, the key was not excluded before, and the data of the key was not
    dropped since, by the kernel's clear event, by a request or by its
    exclusion. *)
Theorem recorder_refines name ops key f :
  within_limits ops →
  recorded (run_ops ops (newAppArmorRecorder name)) key f ↔ content ops key f.
Proof. intros Hl. apply si_content, simulates_all, Hl. Qed.

(** ** Witnesses *)

Lemma file_events_le key ops : (file_events key ops <= length ops)%nat.
Proof. apply length_filter. Qed.

(** CAP_NET_ADMIN, a file, and the end of the container's initialization. *)
Definition cap_raw : list Z :=
  encode (HeaderRecord (EventHeader 42 4026532000 7001 EVENT_TYPE_APPARMOR_CAP 12)).
Definition clear_raw : list Z :=
  encode (HeaderRecord (EventHeader 42 4026532000 7001 EVENT_TYPE_CLEAR_MNTNS 0)).
Definition file_raw : list Z :=
  encode (FileRecord (EventHeader 42 4026532000 7001 EVENT_TYPE_APPARMOR_FILE 1)
    (bytes "/proc/42/maps" ++ [0])).
Definition demo_ops : list op :=
  [OpEvent cap_raw; OpEvent clear_raw; OpEvent file_raw; OpExclude 7002; OpEvent cap_raw].

Lemma recorder_refines_witness :
  recorded (run_ops demo_ops (newAppArmorRecorder [])) 7001
    (UsedFile (bytes "/proc/@{pid}/maps") Read) ↔
  content demo_ops 7001 (UsedFile (bytes "/proc/@{pid}/maps") Read).
Proof.
  apply recorder_refines. split; [apply Nat.leb_le; vm_compute; reflexivity|].
  intros key. etrans; [apply file_events_le|]. apply Nat.leb_le. vm_compute. reflexivity.
Defined.

Example demo_recorded :
  recorded (run_ops demo_ops (newAppArmorRecorder [])) 7001
    (UsedFile (bytes "/proc/@{pid}/maps") Read).
Proof. vm_compute. reflexivity. Qed.

Lemma recorder_bounded_witness :
  Z.of_nat (size (trackedKeys (exec (handleEvent cap_raw) (newAppArmorRecorder [])))) <= 1000.
Proof.
  eapply (recorder_bounded [] _ _). apply run_reachable. constructor.
Defined.

(** The handler of an event between its checks and its recording, when the key
    is excluded. *)
Definition in_handler : go unit * AppArmorRecorder :=
  advance 2 (handleEvent cap_raw) (newAppArmorRecorder []).

(** An event that is being handled while its key is excluded is still recorded,
    and the key is not tracked: what is excluded can have data, and more keys
    than the limit of tracked ones. *)
Theorem exclude_races_event :
  ∃ ts b, reachable request kernel_step (newAppArmorRecorder []) (ts, b) ∧
    Forall (λ p, ∃ r, p = Ret r) ts ∧
    7001 ∈ excluded b ∧ recorded b 7001 (UsedCap 12) ∧ 7001 ∉ trackedKeys b.
Proof.
  set (s := in_handler). set (b1 := exec (Exclude 7001) s.2).
  exists [Ret (result s.1 b1); Ret (result (Exclude 7001) s.2)], (exec s.1 b1). split.
  - unfold reachable. eapply rtc_l; [apply (pstep_start _ _ _ _ (handleEvent cap_raw)); constructor|].
    pose proof (advance_steps request kernel_step 2 (handleEvent cap_raw)
      (newAppArmorRecorder []) [] []) as H1.
    fold s in H1. cbn [app] in *. etrans; [exact H1|].
    change (advance _ _ _) with s.
    eapply rtc_l; [apply (pstep_start _ _ _ _ (Exclude 7001)); constructor|]. cbn [app].
    pose proof (run_steps request kernel_step (Exclude 7001) s.2 [s.1] []) as H2.
    pose proof (run_steps request kernel_step s.1 b1 [] [Ret (result (Exclude 7001) s.2)]) as H3.
    cbn [app] in *. etrans; [exact H2|exact H3].
  - split; [by repeat (constructor; [by eexists|])|].
    split; [apply (bool_decide_unpack _); vm_compute; done|].
    split; [vm_compute; by left|]. apply (bool_decide_unpack _). vm_compute. done.
Qed.
