(* ===== verification/Profile.v ===== *)
(** * The AppArmor profile

    How [bpfrecorder_apparmor.go] turns what was recorded for the keys of a
    profile into its rules ([GetAppArmorProcessed]), and what the generator of
    the profiles demands of them ([validPath] and others of [crd2armor.go]).

    The profile allows what was recorded, but for the accesses the code leaves
    out ([profile_allows]), with rules that are no wider than documented
    ([allow_any_files_narrow]), and its paths are made of the characters the
    generator accepts ([profile_valid]).  [directory_rule_lost] and
    [dotted_executable_rejected] are its limits. *)
From stdpp Require Import sorting.
From S2P Require Import Prelude Bpf State Keys Report Wire Paths Dirs AppArmor Recording.
Import String.StringSyntax.
#[local] Open Scope string_scope.
#[local] Open Scope list_scope.
#[local] Open Scope Z_scope.

(** ** Sorted lists *)

(** The order of Go strings is that of their bytes. *)
Fixpoint str_leb (a b : list Z) : bool :=
  match a, b with
  | [], _ => true
  | _ :: _, [] => false
  | x :: a, y :: b => (x <? y) || (x =? y) && str_leb a b
  end.

Definition str_le (a b : list Z) : Prop := str_leb a b = true.
#[export] Instance str_le_dec : RelDecision str_le.
Proof. intros a b. unfold str_le. apply _. Defined.

(** [slices.Sort] and [slices.Compact]. *)
Definition Sort (l : list (list Z)) : list (list Z) := merge_sort str_le l.

Fixpoint Compact (l : list (list Z)) : list (list Z) :=
  match l with
  | x :: l' =>
      match l' with
      | y :: _ => if bool_decide (x = y) then Compact l' else x :: Compact l'
      | [] => [x]
      end
  | [] => []
  end.

(** ** Rules *)

Record fileRule := FileRule { fr_execute : bool; fr_library : bool; fr_read : bool; fr_write : bool }.

Record BpfAppArmorFileProcessed := FileProcessed {
  AllowedExecutables : list (list Z);
  AllowedLibraries : list (list Z);
  ReadOnlyPaths : list (list Z);
  WriteOnlyPaths : list (list Z);
  ReadWritePaths : list (list Z)
}.

Definition classifyFileAccess (b : AppArmorRecorder) (fileName : list Z) (access : fileAccess) :
    fileRule :=
  let knownLibrary :=
    isKnownFile fileName knownLibrariesPrefixes || bool_decide (fileName = programName b) in
  let knownRead := isKnownFile fileName knownReadPrefixes || knownLibrary in
  let knownWrite := isKnownFile fileName knownWritePrefixes in
  if fa_spawn access then FileRule true false false false
  else if fa_exec access then FileRule false (negb knownLibrary) false false
  else FileRule false false (fa_read access && negb knownRead) (fa_write access && negb knownWrite).

(** The result of [processDeletedFiles]: whether the path is skipped, and what
    is added to [ReadWritePaths]. *)
Definition processDeletedFiles (fileName : list Z) : bool * list (list Z) :=
  if bool_decide (fileName = bytes "/anon_hugepage (deleted)") then (true, [bytes "/"])
  else if HasSuffix fileName deletedSuffix || HasSuffix fileName (deletedSuffix ++ bytes "/")
  then (true, [])
  else (false, []).

Definition maxProfilePathBytes : Z := 6 * 1024 * 1024.

(** The variables of the loops of [processExecFsEvents]. *)
Record classified := Classified {
  cl_rw : list (list Z);               (* processedEvents.ReadWritePaths *)
  cl_rules : gmap (list Z) fileRule;
  cl_found : bool;
  cl_bytes : Z;
  cl_truncated : bool
}.

Definition no_rule : fileRule := FileRule false false false false.

Definition join_rule (a r : fileRule) : fileRule :=
  FileRule (fr_execute a || fr_execute r) (fr_library a || fr_library r)
    (fr_read a || fr_read r) (fr_write a || fr_write r).

(** The body of the loop over the files of a key. *)
Definition classify_file (b : AppArmorRecorder) (files : gmap (list Z) fileAccess)
    (cl : classified) (fileName : list Z) : classified :=
  let '(skip, rw) := processDeletedFiles fileName in
  if skip then {| cl with cl_rw := cl_rw cl ++ rw |}
  else
    let size := Z.of_nat (length fileName) in
    let known := cl_rules cl !! fileName in
    if bool_decide (known = None) && (maxProfilePathBytes <? cl_bytes cl + size)
    then {| cl with cl_truncated := true |}
    else
      let rule := classifyFileAccess b fileName (default no_access (files !! fileName)) in
      {| cl with cl_rules := <[fileName := join_rule (default no_rule known) rule]> (cl_rules cl);
                 cl_bytes := if bool_decide (known = None) then cl_bytes cl + size
                             else cl_bytes cl |}.

(** [slices.Sorted(maps.Keys(files))]. *)
Definition sorted_files (files : gmap (list Z) fileAccess) : list (list Z) :=
  Sort (map_to_list files).*1.

Definition classify_key (b : AppArmorRecorder) (cl : classified) (key : Z) : classified :=
  match recordedFiles b !! key with
  | None => cl
  | Some files =>
      fold_left (classify_file b files) (sorted_files files) {| cl with cl_found := true |}
  end.

Definition classify (b : AppArmorRecorder) (keys : list Z) : classified :=
  fold_left (classify_key b) keys (Classified [] ∅ false 0 false).

(** The body of the loop over the rules. *)
Definition add_rule (pr : BpfAppArmorFileProcessed) (fr : list Z * fileRule) :
    BpfAppArmorFileProcessed :=
  let '(fileName, rule) := fr in
  let pr :=
    if fr_execute rule
    then {| pr with AllowedExecutables := AllowedExecutables pr ++ [fileName] |}
    else if fr_library rule
    then {| pr with AllowedLibraries := AllowedLibraries pr ++ [fileName] |}
    else pr in
  let readable := fr_read rule || fr_execute rule || fr_library rule in
  if fr_write rule && readable
  then {| pr with ReadWritePaths := ReadWritePaths pr ++ [fileName] |}
  else if fr_write rule
  then {| pr with WriteOnlyPaths := WriteOnlyPaths pr ++ [fileName] |}
  else if fr_read rule && negb (fr_execute rule) && negb (fr_library rule)
  then {| pr with ReadOnlyPaths := ReadOnlyPaths pr ++ [fileName] |}
  else pr.

(** The body of the second loop of [allowAnyFiles]. *)
Definition allow_step (acc : gmap (list Z) nat * list (list Z)) (fp : list Z) :
    gmap (list Z) nat * list (list Z) :=
  let '(dupDirs, result) := acc in
  let dir := Dir fp in
  let n := default O (dupDirs !! dir) in
  if (1 <? n)%nat then (<[dir := O]> dupDirs, result ++ [any_in dir])
  else if (n =? 1)%nat then (dupDirs, result ++ [fp])
  else (dupDirs, result).

(** Its first loop. *)
Definition count_dir (dupDirs : gmap (list Z) nat) (fp : list Z) : gmap (list Z) nat :=
  <[Dir fp := S (default O (dupDirs !! Dir fp))]> dupDirs.

Definition count_dirs (filePaths : list (list Z)) : gmap (list Z) nat :=
  fold_left count_dir filePaths ∅.

Definition allowAnyFiles (filePaths : list (list Z)) : list (list Z) :=
  (fold_left allow_step filePaths (count_dirs filePaths, [])).2.

Definition processExecFsEvents (b : AppArmorRecorder) (keys : list Z) :
    BpfAppArmorFileProcessed * bool :=
  let cl := classify b keys in
  let pr := fold_left add_rule (map_to_list (cl_rules cl))
    (FileProcessed [] [] [] [] (cl_rw cl)) in
  let rw := allowAnyFiles (Compact (Sort (ReadWritePaths pr))) in
  (FileProcessed (Sort (AllowedExecutables pr)) (Sort (AllowedLibraries pr))
     (Sort (ReadOnlyPaths pr)) (Sort (WriteOnlyPaths pr)) (Sort rw), cl_found cl).

(** ** Capabilities *)

Definition capabilities : list String.string := [
  "chown"; "dac_override"; "dac_read_search"; "fowner"; "fsetid"; "kill"; "setgid"; "setuid";
  "setpcap"; "linux_immutable"; "net_bind_service"; "net_broadcast"; "net_admin"; "net_raw";
  "ipc_lock"; "ipc_owner"; "sys_module"; "sys_rawio"; "sys_chroot"; "sys_ptrace"; "sys_pacct";
  "sys_admin"; "sys_boot"; "sys_nice"; "sys_resource"; "sys_time"; "sys_tty_config"; "mknod";
  "lease"; "audit_write"; "audit_control"; "setfcap"; "mac_override"; "mac_admin"; "syslog";
  "wake_alarm"; "block_suspend"; "audit_read"; "perfmon"; "bpf"; "checkpoint_restore"].

(** The decimal digits of a number, as [%d] prints them. *)
Fixpoint digits (fuel : nat) (n : Z) : list Z :=
  match fuel with
  | O => []
  | S fuel => (if n <? 10 then [] else digits fuel (n / 10)) ++ [48 + n mod 10]
  end.

Definition decimal (n : Z) : list Z :=
  if n <? 0 then 45 :: digits 20 (- n) else digits 20 n.

Definition capabilityToString (capID : Z) : list Z :=
  match (if 0 <=? capID then capabilities !! Z.to_nat capID else None) with
  | Some name => bytes name
  | None => bytes "CAPABILITY_" ++ decimal capID
  end.

Definition processCapabilities (b : AppArmorRecorder) (keys : list Z) : list (list Z) * bool :=
  let caps := omap (λ k, recordedCapabilities b !! k) keys in
  (Compact (Sort (map capabilityToString (concat caps))), negb (bool_decide (caps = []))).

Record BpfAppArmorProcessed := Processed {
  pr_files : BpfAppArmorFileProcessed;
  pr_socket : BpfAppArmorSocketTypes;
  pr_capabilities : list (list Z)
}.

(** The profile, and whether anything was recorded. *)
Definition GetAppArmorProcessed (b : AppArmorRecorder) (keys : list Z) :
    BpfAppArmorProcessed * bool :=
  let '(files, foundFiles) := processExecFsEvents b keys in
  let sockets := omap (λ k, recordedSocketsUse b !! k) keys in
  let '(caps, foundCapabilities) := processCapabilities b keys in
  (Processed files (fold_left join_sockets sockets no_sockets) caps,
   foundFiles || negb (bool_decide (sockets = [])) || foundCapabilities).

(** ** The validation of a profile ([crd2armor.go]) *)

Definition validPath : list Z → bool := strictPathRegex.

Fixpoint Contains (s p : list Z) : bool :=
  HasPrefix s p || match s with [] => false | _ :: s => Contains s p end.

Definition validateExecutableOrLibrary (path : list Z) : bool :=
  strictPathRegex path && negb (Contains path (bytes "/../") || HasPrefix path (bytes "/..")).

Example allow_any_example :
  allowAnyFiles (map bytes ["/etc/nginx/conf.d/default.conf"; "/dev/null";
    "/etc/nginx/conf.d/sedIWASqqq"; "/etc/nginx/conf.d/abcd"]) =
  map bytes ["/etc/nginx/conf.d/*"; "/dev/null"].
Proof. vm_compute. reflexivity. Qed.

(** ** Membership *)

Lemma elem_of_Sort x l : x ∈ Sort l ↔ x ∈ l.
Proof. unfold Sort. by rewrite merge_sort_Permutation. Qed.

Lemma elem_of_Compact x l : x ∈ Compact l ↔ x ∈ l.
Proof.
  induction l as [|a l IH]; [done|]. cbn [Compact]. destruct l as [|y l]; [done|].
  case_bool_decide as Ha; [subst a|]; rewrite ?elem_of_cons, IH, ?elem_of_cons; tauto.
Qed.

(** ** [allowAnyFiles] *)

Lemma count_dirs_pos l p :
  p ∈ l → (1 <= default O (count_dirs l !! Dir p))%nat.
Proof.
  intros Hp. unfold count_dirs.
  assert (∀ m : gmap (list Z) nat, p ∈ l ∨ (1 <= default O (m !! Dir p))%nat →
    (1 <= default O (fold_left count_dir l m !! Dir p))%nat) as H; [|by apply H; left].
  clear Hp. induction l as [|x l IH]; intros m Hm; cbn [fold_left].
  - by destruct Hm as [?%elem_of_nil|].
  - apply IH. unfold count_dir. rewrite elem_of_cons in Hm. destruct (decide (Dir x = Dir p)) as [He|He].
    + right. rewrite He, lookup_insert_eq. cbn. lia.
    + rewrite lookup_insert_ne by done. destruct Hm as [[->|?]|?]; [done|by left|by right].
Qed.

Lemma allow_step_eq m acc x :
  allow_step (m, acc) x =
    let n := default O (m !! Dir x) in
    if (1 <? n)%nat then (<[Dir x := O]> m, acc ++ [any_in (Dir x)])
    else if (n =? 1)%nat then (m, acc ++ [x]) else (m, acc).
Proof. done. Qed.

(** Every path is allowed. *)
Lemma allow_any_covers paths p :
  p ∈ paths → ∃ r, r ∈ allowAnyFiles paths ∧ stands_for r p.
Proof.
  unfold allowAnyFiles. pose proof (count_dirs_pos paths) as H0. revert H0.
  generalize (count_dirs paths). intros m Hm Hp.
  assert (∀ l (m : gmap (list Z) nat) acc, (∀ q, q ∈ l → (1 <= default O (m !! Dir q))%nat ∨ any_in (Dir q) ∈ acc) →
    (∀ r, r ∈ acc → r ∈ (fold_left allow_step l (m, acc)).2) ∧
    ∀ q, q ∈ l → ∃ r, r ∈ (fold_left allow_step l (m, acc)).2 ∧ stands_for r q) as H.
  { clear. intros l. induction l as [|x l IH]; intros m acc Hl; cbn [fold_left].
    { split; [done|]. by intros q ?%elem_of_nil. }
    set (n := default O (m !! Dir x)). rewrite allow_step_eq. cbv zeta. fold n.
    assert (∀ (m' : gmap (list Z) nat) acc' r, (∀ y, y ∈ acc → y ∈ acc') → r ∈ acc' → stands_for r x →
      (∀ q, q ∈ l → (1 <= default O (m' !! Dir q))%nat ∨ any_in (Dir q) ∈ acc') →
      (∀ r, r ∈ acc → r ∈ (fold_left allow_step l (m', acc')).2) ∧
      ∀ q, q ∈ x :: l → ∃ r, r ∈ (fold_left allow_step l (m', acc')).2 ∧ stands_for r q) as Hstep.
    { intros m' acc' r Hacc Hr Hs Hl'. destruct (IH m' acc' Hl') as [H1 H2].
      split; [by auto|]. intros q [->|Hq]%elem_of_cons; eauto. }
    assert (∀ q, q ∈ l → (1 <= default O (m !! Dir q))%nat ∨ any_in (Dir q) ∈ acc) as Hl'
      by (intros q Hq; apply Hl; by right).
    destruct (Nat.ltb_spec 1 n); [|destruct (Nat.eqb_spec n 1)].
    - apply (Hstep _ _ (any_in (Dir x))); [set_solver|set_solver|by right|]. intros q Hq.
      destruct (decide (Dir q = Dir x)) as [->|Hne]; [right; set_solver|].
      rewrite lookup_insert_ne by done. specialize (Hl' q Hq). set_solver.
    - apply (Hstep _ _ x); [set_solver|set_solver|by left|]. intros q Hq. specialize (Hl' q Hq). set_solver.
    - destruct (Hl x) as [?|Hin]; [by left|fold n in H0; lia|].
      eapply Hstep; [done|exact Hin|by right|done]. }
  apply (H paths m []); [|done]. intros q Hq. left. by apply Hm.
Qed.

(** A rule for any file of a directory is only made from two of its files. *)
Lemma count_dirs_two l d :
  (2 <= default O (count_dirs l !! d))%nat →
  ∃ a p b q c, l = a ++ p :: b ++ q :: c ∧ Dir p = d ∧ Dir q = d.
Proof.
  assert (∀ l d, default O (count_dirs l !! d) = length (filter (λ p, Dir p = d) l)) as Hc.
  { clear. intros l d. induction l as [|x l IH] using rev_ind; [done|].
    unfold count_dirs in *. rewrite fold_left_app. cbn [fold_left]. unfold count_dir at 1.
    rewrite filter_app, length_app. cbn [filter list_filter].
    destruct (decide (Dir x = d)) as [<-|Hne].
    - rewrite lookup_insert_eq. cbn. rewrite IH. lia.
    - rewrite lookup_insert_ne by done. cbn. rewrite IH. lia. }
  rewrite Hc. clear Hc. intros Hl.
  assert (∀ l n, (S n <= length (filter (λ p, Dir p = d) l))%nat → ∃ a p b, l = a ++ p :: b ∧
    Dir p = d ∧ (n <= length (filter (λ p, Dir p = d) b))%nat) as Hone.
  { clear. intros l n. induction l as [|x l IH]; [cbn; lia|]. rewrite filter_cons.
    destruct (decide (Dir x = d)) as [Hd|Hd]; intros Hl.
    - exists [], x, l. cbn [length] in Hl. split; [done|]. split; [done|lia].
    - destruct (IH Hl) as (a & p & b & -> & Hp & Hb). by exists (x :: a), p, b. }
  destruct (Hone l 1%nat Hl) as (a & p & b' & -> & Hp & Hb).
  destruct (Hone b' 0%nat Hb) as (b & q & c & -> & Hq & _). by exists a, p, b, q, c.
Qed.

(** A profile is no wider than what was recorded, up to the documented
    widening: a read-write rule is a recorded path, or stands for all files of
    a directory in which at least two different paths were recorded. *)
Theorem allow_any_files_narrow paths r :
  NoDup paths → r ∈ allowAnyFiles paths →
  r ∈ paths ∨
  ∃ p q, p ∈ paths ∧ q ∈ paths ∧ p ≠ q ∧ Dir p = Dir q ∧ r = any_in (Dir p).
Proof.
  intros Hnd Hr. unfold allowAnyFiles in Hr.
  assert (∀ l (m : gmap (list Z) nat) acc, (∀ d, (default O (m !! d) <= default O (count_dirs paths !! d))%nat) →
    l ⊆ paths → r ∈ (fold_left allow_step l (m, acc)).2 → r ∈ acc ∨ r ∈ paths ∨
    ∃ d, (2 <= default O (count_dirs paths !! d))%nat ∧ r = any_in d) as H.
  { clear Hr. intros l. induction l as [|x l IH]; intros m acc Hm Hl Hin; cbn [fold_left] in Hin;
      [by left|].
    assert (l ⊆ paths ∧ x ∈ paths) as [Hl' Hx] by set_solver.
    rewrite allow_step_eq in Hin. cbv zeta in Hin.
    destruct (Nat.ltb_spec 1 (default O (m !! Dir x))); [|destruct (_ =? 1)%nat].
    - apply IH in Hin; [|intros d|done].
      + destruct Hin as [[Hin|Hin]%elem_of_app|?]; [by left| |by right].
        apply list_elem_of_singleton in Hin as ->. right; right. exists (Dir x).
        specialize (Hm (Dir x)). split; [lia|done].
      + destruct (decide (d = Dir x)) as [->|]; [rewrite lookup_insert_eq; cbn; lia|].
        by rewrite lookup_insert_ne.
    - apply IH in Hin; [|done|done]. destruct Hin as [[Hin|Hin]%elem_of_app|?]; [by left| |by right].
      apply list_elem_of_singleton in Hin as ->. by right; left.
    - by apply IH in Hin. }
  destruct (H paths _ [] (λ _, Nat.le_refl _) ltac:(done) Hr) as [?%elem_of_nil|[?|(d & Hd & ->)]];
    [done|by left|right].
  destruct (count_dirs_two _ _ Hd) as (a & p & b & q & c & -> & Hp & Hq).
  exists p, q. split; [set_solver|]. split; [set_solver|]. split; [|by rewrite Hp, Hq].
  apply NoDup_app in Hnd as (_ & _ & [Hnin _]%NoDup_cons). set_solver.
Qed.

Lemma allow_any_files_narrow_witness :
  let paths := map bytes ["/a/x"; "/a/y"; "/b"] in
  bytes "/a/*" ∈ paths ∨
  ∃ p q, p ∈ paths ∧ q ∈ paths ∧ p ≠ q ∧ Dir p = Dir q ∧ bytes "/a/*" = any_in (Dir p).
Proof.
  apply allow_any_files_narrow.
  - apply (bool_decide_unpack _). vm_compute. done.
  - apply (bool_decide_unpack _). vm_compute. done.
Defined.

(** ** The lists of a profile *)

(** In which list a rule ends up. *)
Definition readable (r : fileRule) : bool := fr_read r || fr_execute r || fr_library r.
Definition rule_exec (fr : list Z * fileRule) : bool := fr_execute fr.2.
Definition rule_lib (fr : list Z * fileRule) : bool := negb (fr_execute fr.2) && fr_library fr.2.
Definition rule_rw (fr : list Z * fileRule) : bool := fr_write fr.2 && readable fr.2.
Definition rule_wo (fr : list Z * fileRule) : bool := fr_write fr.2 && negb (readable fr.2).
Definition rule_ro (fr : list Z * fileRule) : bool :=
  negb (fr_write fr.2) && fr_read fr.2 && negb (fr_execute fr.2) && negb (fr_library fr.2).

Lemma add_rule_spec pr fr :
  add_rule pr fr = FileProcessed
    (AllowedExecutables pr ++ (filter rule_exec [fr]).*1)
    (AllowedLibraries pr ++ (filter rule_lib [fr]).*1)
    (ReadOnlyPaths pr ++ (filter rule_ro [fr]).*1)
    (WriteOnlyPaths pr ++ (filter rule_wo [fr]).*1)
    (ReadWritePaths pr ++ (filter rule_rw [fr]).*1).
Proof.
  destruct pr, fr as [p [[] [] [] []]]; cbn; by rewrite ?app_nil_r.
Qed.

Lemma add_rules_spec l pr :
  fold_left add_rule l pr = FileProcessed
    (AllowedExecutables pr ++ (filter rule_exec l).*1)
    (AllowedLibraries pr ++ (filter rule_lib l).*1)
    (ReadOnlyPaths pr ++ (filter rule_ro l).*1)
    (WriteOnlyPaths pr ++ (filter rule_wo l).*1)
    (ReadWritePaths pr ++ (filter rule_rw l).*1).
Proof.
  revert pr. induction l as [|fr l IH]; intros pr; cbn [fold_left].
  - destruct pr. cbn. by rewrite !app_nil_r.
  - rewrite IH, add_rule_spec. cbn [AllowedExecutables AllowedLibraries ReadOnlyPaths WriteOnlyPaths
      ReadWritePaths]. change (fr :: l) with ([fr] ++ l).
    by rewrite !filter_app, !fmap_app, <- !app_assoc.
Qed.

Lemma elem_of_rules (f : list Z * fileRule → bool) (rules : gmap (list Z) fileRule) p :
  p ∈ (filter f (map_to_list rules)).*1 ↔ ∃ r, rules !! p = Some r ∧ f (p, r) = true.
Proof.
  rewrite list_elem_of_fmap. split.
  - intros ([q r] & -> & [Hf Hq]%list_elem_of_filter). apply elem_of_map_to_list in Hq.
    exists r. split; [done|]. by apply Is_true_true.
  - intros (r & Hr & Hf). exists (p, r). split; [done|]. apply list_elem_of_filter.
    split; [by apply Is_true_true|]. by apply elem_of_map_to_list.
Qed.

Section lists.
Context (b : AppArmorRecorder) (keys : list Z).
Let cl := classify b keys.
Let pr := (processExecFsEvents b keys).1.

(** A path with a rule for which [f] holds. *)
Definition ruled (f : list Z * fileRule → bool) (p : list Z) : Prop :=
  ∃ r, cl_rules cl !! p = Some r ∧ f (p, r) = true.

Lemma executables_spec p : p ∈ AllowedExecutables pr ↔ ruled rule_exec p.
Proof. unfold pr, processExecFsEvents. cbn. rewrite elem_of_Sort, add_rules_spec. apply elem_of_rules. Qed.

Lemma libraries_spec p : p ∈ AllowedLibraries pr ↔ ruled rule_lib p.
Proof. unfold pr, processExecFsEvents. cbn. rewrite elem_of_Sort, add_rules_spec. apply elem_of_rules. Qed.

Lemma readonly_spec p : p ∈ ReadOnlyPaths pr ↔ ruled rule_ro p.
Proof. unfold pr, processExecFsEvents. cbn. rewrite elem_of_Sort, add_rules_spec. apply elem_of_rules. Qed.

Lemma writeonly_spec p : p ∈ WriteOnlyPaths pr ↔ ruled rule_wo p.
Proof. unfold pr, processExecFsEvents. cbn. rewrite elem_of_Sort, add_rules_spec. apply elem_of_rules. Qed.

(** The paths [allowAnyFiles] gets. *)
Definition rw_paths : list (list Z) :=
  Compact (Sort (cl_rw cl ++ (filter rule_rw (map_to_list (cl_rules cl))).*1)).

Lemma rw_paths_spec p : p ∈ rw_paths ↔ p ∈ cl_rw cl ∨ ruled rule_rw p.
Proof.
  unfold rw_paths. rewrite elem_of_Compact, elem_of_Sort, elem_of_app.
  by rewrite (elem_of_rules rule_rw).
Qed.

Lemma readwrite_spec p : p ∈ ReadWritePaths pr ↔ p ∈ allowAnyFiles rw_paths.
Proof. unfold pr, processExecFsEvents. cbn. by rewrite elem_of_Sort, add_rules_spec. Qed.

Lemma readwrite_covers p :
  ruled rule_rw p → ∃ r, r ∈ ReadWritePaths pr ∧ stands_for r p.
Proof.
  intros Hp. destruct (allow_any_covers rw_paths p) as (r & Hr & Hs).
  - apply rw_paths_spec. by right.
  - exists r. by rewrite readwrite_spec.
Qed.
End lists.

(** ** Classification *)

(** A rule that allows at least as much. *)
Definition rule_le (a r : fileRule) : Prop := join_rule r a = r.

Lemma rule_le_refl r : rule_le r r.
Proof. by destruct r as [[] [] [] []]. Qed.

Lemma rule_le_join_l a r s : rule_le a r → rule_le a (join_rule r s).
Proof. unfold rule_le. destruct a as [[] [] [] []], r as [[] [] [] []], s as [[] [] [] []]; by cbn. Qed.

Lemma rule_le_join_r a r : rule_le a (join_rule r a).
Proof. unfold rule_le. destruct a as [[] [] [] []], r as [[] [] [] []]; by cbn. Qed.

(** What holds of the variables of the loops, and stays: a rule only grows, and
    truncation is remembered. *)
Definition cl_le (c1 c2 : classified) : Prop :=
  (∀ p r, cl_rules c1 !! p = Some r → ∃ r', cl_rules c2 !! p = Some r' ∧
    ∀ a, rule_le a r → rule_le a r') ∧
  (cl_truncated c2 = false → cl_truncated c1 = false).

#[export] Instance cl_le_preorder : PreOrder cl_le.
Proof.
  split; [intros c; split; eauto|].
  intros c1 c2 c3 [H1 T1] [H2 T2]. split; [|auto]. intros p r Hr.
  destruct (H1 p r Hr) as (r2 & Hr2 & Hle2). destruct (H2 p r2 Hr2) as (r3 & Hr3 & Hle3). eauto.
Qed.

Lemma classify_file_le b files c p : cl_le c (classify_file b files c p).
Proof.
  unfold classify_file. destruct (processDeletedFiles p) as [[] rw]; [by split; eauto|].
  cbv zeta. destruct (_ && _); [by split; eauto|]. split; [|done]. intros q r Hr. cbn.
  destruct (decide (q = p)) as [->|Hne]; [|rewrite lookup_insert_ne by done; eauto].
  rewrite lookup_insert_eq, Hr. eexists. split; [done|]. cbn. intros a. apply rule_le_join_l.
Qed.

Lemma fold_cl_le {X} (f : classified → X → classified) l c :
  (∀ c x, cl_le c (f c x)) → cl_le c (fold_left f l c).
Proof.
  intros Hf. revert c. induction l as [|x l IH]; intros c; cbn [fold_left]; [done|].
  etrans; [apply Hf|apply IH].
Qed.

Lemma classify_key_le b c key : cl_le c (classify_key b c key).
Proof.
  unfold classify_key. destruct (recordedFiles b !! key); [|done].
  etrans; [|apply fold_cl_le, classify_file_le]. by split; eauto.
Qed.

(** A step for an element is in the end below the result of the loop. *)
Lemma fold_step_le {X} (f : classified → X → classified) l x c :
  (∀ c x, cl_le c (f c x)) → x ∈ l → ∃ c', cl_le (f c' x) (fold_left f l c).
Proof.
  intros Hf Hx. apply list_elem_of_split in Hx as (l1 & l2 & ->).
  exists (fold_left f l1 c). rewrite fold_left_app. cbn [fold_left]. by apply fold_cl_le.
Qed.

Lemma classify_file_rule b files c p :
  processDeletedFiles p = (false, []) → cl_truncated (classify_file b files c p) = false →
  ∃ r, cl_rules (classify_file b files c p) !! p = Some r ∧
    rule_le (classifyFileAccess b p (default no_access (files !! p))) r.
Proof.
  intros Hp. unfold classify_file. rewrite Hp. cbv zeta.
  destruct (_ && _); cbn; [done|]. intros _. rewrite lookup_insert_eq. eexists. split; [done|].
  apply rule_le_join_r.
Qed.

(** What one key needs, the profile has. *)
Lemma classify_spec b keys key files p fa :
  key ∈ keys → recordedFiles b !! key = Some files → files !! p = Some fa →
  processDeletedFiles p = (false, []) → cl_truncated (classify b keys) = false →
  ∃ r, cl_rules (classify b keys) !! p = Some r ∧ rule_le (classifyFileAccess b p fa) r.
Proof.
  intros Hk Hf Hp Hd Ht. unfold classify in *.
  destruct (fold_step_le (classify_key b) keys key (Classified [] ∅ false 0 false)
    (classify_key_le b) Hk) as (c & [Hr1 Ht1]).
  specialize (Ht1 Ht). unfold classify_key in Hr1, Ht1. rewrite Hf in Hr1, Ht1.
  destruct (fold_step_le (classify_file b files) (sorted_files files) p
    {| c with cl_found := true |} (classify_file_le b files)) as (c' & [Hr2 Ht2]).
  { unfold sorted_files. apply elem_of_Sort. apply list_elem_of_fmap. exists (p, fa).
    split; [done|]. by apply elem_of_map_to_list. }
  destruct (classify_file_rule b files c' p Hd (Ht2 Ht1)) as (r & Hr & Hle).
  rewrite Hp in Hle. cbn in Hle.
  destruct (Hr2 p r Hr) as (r2 & Hr' & Hle2). destruct (Hr1 p r2 Hr') as (r3 & Hr3 & Hle3). eauto.
Qed.

(** ** The profile allows what was recorded *)

(** The files of the code's own lists of known prefixes, and the program. *)
Definition known_library (b : AppArmorRecorder) (p : list Z) : bool :=
  isKnownFile p knownLibrariesPrefixes || bool_decide (p = programName b).
Definition known_read (b : AppArmorRecorder) (p : list Z) : bool :=
  isKnownFile p knownReadPrefixes || known_library b p.

(** The accesses [classifyFileAccess] leaves out of the profile: those to the
    known files, and reading and mapping the program. *)
Definition left_out (b : AppArmorRecorder) (p : list Z) (a : access) : bool :=
  match a with
  | Spawn => false
  | ExecMap => known_library b p
  | Read => known_read b p
  | Write => isKnownFile p knownWritePrefixes
  end.

(** A write to a file the same workload executes: executing it takes
    precedence, and the write is left out. *)
Definition overridden (fa : fileAccess) (a : access) : bool :=
  match a with Write => fa_exec fa || fa_spawn fa | _ => false end.

(** The rule for any file of the directory does not take the place of the path
    of the directory itself. *)
Definition not_widened (pr : BpfAppArmorFileProcessed) (p : list Z) : Prop :=
  clean_file p = true ∨ any_in (Dir p) ∉ ReadWritePaths pr.

#[export] Instance not_widened_dec pr p : Decision (not_widened pr p).
Proof. apply _. Defined.

Section allows.
Context {T : Tunables} {TOk : TunablesOk}.

(** A rule of [l] covers the path. *)
Definition covered (l : list (list Z)) (p : list Z) : Prop := ∃ r, r ∈ l ∧ covers r p.

Lemma covered_app l1 l2 p : covered (l1 ++ l2) p ↔ covered l1 p ∨ covered l2 p.
Proof. unfold covered. setoid_rewrite elem_of_app. naive_solver. Qed.

Lemma elem_of_covered l p : p ∈ l → covered l p.
Proof. intros Hp. exists p. split; [done|]. by intros s. Qed.

(** The lists of rules that have the permission for an access. *)
Definition rules_for (pr : BpfAppArmorFileProcessed) (a : access) : list (list Z) :=
  match a with
  | Spawn => AllowedExecutables pr
  | ExecMap => AllowedExecutables pr ++ AllowedLibraries pr
  | Read => AllowedExecutables pr ++ AllowedLibraries pr ++ ReadOnlyPaths pr ++ ReadWritePaths pr
  | Write => WriteOnlyPaths pr ++ ReadWritePaths pr
  end.

(** An access is allowed by a rule that covers all the path stands for. *)
Definition allowed (pr : BpfAppArmorFileProcessed) (p : list Z) (a : access) : Prop :=
  covered (rules_for pr a) p.

Lemma readwrite_covered b keys p :
  let pr := (processExecFsEvents b keys).1 in
  not_widened pr p → ruled b keys rule_rw p → covered (ReadWritePaths pr) p.
Proof.
  intros pr Hw Hp. apply readwrite_covers in Hp as (r & Hr & Hs). exists r. split; [done|].
  apply stands_for_covers; [done|]. destruct Hw as [?|Hw]; [by left|right]. by intros ->.
Qed.

(** A rule with a permission is in a list for it. *)
Lemma rule_read_listed b keys p r :
  let pr := (processExecFsEvents b keys).1 in
  not_widened pr p → cl_rules (classify b keys) !! p = Some r → readable r = true → allowed pr p Read.
Proof.
  intros pr Hn Hr Hre. unfold allowed. cbn [rules_for]. rewrite !covered_app.
  destruct (fr_execute r) eqn:E1; [left; apply elem_of_covered, executables_spec; by exists r|].
  destruct (fr_library r) eqn:E2.
  { right; left. apply elem_of_covered, libraries_spec. exists r. unfold rule_lib. cbn. by rewrite E1. }
  unfold readable in Hre. rewrite E1, E2, !orb_false_r in Hre.
  destruct (fr_write r) eqn:E3.
  - right; right; right. apply readwrite_covered; [done|]. exists r. unfold rule_rw, readable. cbn.
    by rewrite E3, Hre.
  - right; right; left. apply elem_of_covered, readonly_spec. exists r. unfold rule_ro. cbn.
    by rewrite E1, E2, E3, Hre.
Qed.

Lemma rule_write_listed b keys p r :
  let pr := (processExecFsEvents b keys).1 in
  not_widened pr p → cl_rules (classify b keys) !! p = Some r → fr_write r = true → allowed pr p Write.
Proof.
  intros pr Hn Hr Hw. unfold allowed. cbn [rules_for]. rewrite covered_app.
  destruct (readable r) eqn:E.
  - right. apply readwrite_covered; [done|]. exists r. unfold rule_rw. cbn. by rewrite Hw, E.
  - left. apply elem_of_covered, writeonly_spec. exists r. unfold rule_wo. cbn. by rewrite Hw, E.
Qed.

Lemma rule_exec_listed b keys p r :
  let pr := (processExecFsEvents b keys).1 in
  cl_rules (classify b keys) !! p = Some r →
  (fr_execute r = true → allowed pr p Spawn) ∧
  (fr_execute r || fr_library r = true → allowed pr p ExecMap).
Proof.
  intros pr Hr. unfold allowed. cbn [rules_for]. rewrite covered_app.
  assert (fr_execute r = true → covered (AllowedExecutables pr) p) as Hx.
  { intros Hx. apply elem_of_covered, executables_spec. by exists r. }
  split; [done|]. destruct (fr_execute r) eqn:E1; [left; by apply Hx|]. cbn. intros E2. right.
  apply elem_of_covered, libraries_spec. exists r. unfold rule_lib. cbn. by rewrite E1.
Qed.

Lemma rule_le_fields a r :
  rule_le a r → (fr_execute a = true → fr_execute r = true) ∧
    (fr_library a = true → fr_library r = true) ∧ (fr_read a = true → fr_read r = true) ∧
    (fr_write a = true → fr_write r = true).
Proof. unfold rule_le. destruct a as [[] [] [] []], r as [[] [] [] []]; naive_solver. Qed.

(** Without the exceptions, the rule of an access has its permission. *)
Lemma classify_permission b p fa a :
  has_access fa a = true → left_out b p a = false → overridden fa a = false →
  let r := classifyFileAccess b p fa in
  match a with
  | Spawn => fr_execute r
  | ExecMap => fr_execute r || fr_library r
  | Read => readable r
  | Write => fr_write r
  end = true.
Proof.
  intros Ha Hk Ho. cbv zeta. unfold classifyFileAccess, readable, left_out, overridden in *.
  fold (known_library b p). fold (known_read b p).
  assert (known_read b p = false → known_library b p = false) as Hkl
    by (unfold known_read; by intros [_ ?]%orb_false_iff).
  destruct fa as [re wr ex sp], sp, ex; destruct a; cbn in *; try done;
    rewrite ?Hk, ?Ha, ?Hkl, ?orb_true_r by done; done.
Qed.

Lemma recorded_allowed b keys key files p fa a :
  key ∈ keys → recordedFiles b !! key = Some files → files !! p = Some fa →
  processDeletedFiles p = (false, []) → cl_truncated (classify b keys) = false →
  has_access fa a = true → left_out b p a = false → overridden fa a = false →
  let pr := (processExecFsEvents b keys).1 in
  not_widened pr p → allowed pr p a.
Proof.
  intros Hk Hf Hp Hd Ht Ha Hl Ho pr Hn.
  destruct (classify_spec b keys key files p fa Hk Hf Hp Hd Ht) as (r & Hr & Hle).
  apply rule_le_fields in Hle as (L1 & L2 & L3 & L4).
  pose proof (classify_permission b p fa a Ha Hl Ho) as Hperm. cbv zeta in Hperm.
  destruct (rule_exec_listed b keys p r Hr) as [Hspawn Hmap].
  destruct a.
  - apply (rule_read_listed b keys p r Hn Hr). unfold readable in *.
    rewrite !orb_true_iff in *. tauto.
  - apply (rule_write_listed b keys p r Hn Hr). auto.
  - apply Hmap. rewrite !orb_true_iff in *. tauto.
  - auto.
Qed.

(** C14 The profile allows what was recorded: for every file a key of the
    profile recorded, as long as the profile fits its size, each access is
    allowed by a rule of a list with its permission, which covers every path the
    recorded one stands for.  The exceptions: a deleted file; an access the code
    leaves out, to its known files or the program; a write to a file the same
    workload executes; and a directory whose rule was replaced by the one for
    the files in it. *)
Theorem profile_allows b keys key files p fa a :
  key ∈ keys → recordedFiles b !! key = Some files → files !! p = Some fa →
  processDeletedFiles p = (false, []) → cl_truncated (classify b keys) = false →
  has_access fa a = true → left_out b p a = false → overridden fa a = false →
  let pr := (processExecFsEvents b keys).1 in
  not_widened pr p → allowed pr p a.
Proof. apply recorded_allowed. Qed.

(** ** From the file to the rule *)

Lemma gmatch_no_paren g s : gmatch g s → 40 ∉ g.
Proof.
  induction 1 as [|c g s Hc _ IH|c g s _ _ IH|w g s _ _ _ IH|v w g s Hv _ _ IH].
  - apply not_elem_of_nil.
  - apply not_elem_of_cons. split; [|done]. intros <-. done.
  - by apply not_elem_of_cons.
  - by apply not_elem_of_cons.
  - apply not_elem_of_app. split; [|done]. apply (bool_decide_unpack _).
    by destruct Hv as [-> | ->].
Qed.

Lemma no_paren_present x : 40 ∉ x → processDeletedFiles x = (false, []).
Proof.
  intros Hx. unfold processDeletedFiles. rewrite bool_decide_eq_false_2.
  - destruct (HasSuffix x deletedSuffix) eqn:E1;
      [|destruct (HasSuffix x (deletedSuffix ++ bytes "/")) eqn:E2; [|done]].
    + exfalso. apply HasSuffix_spec in E1 as [k ->]. apply Hx, elem_of_app. right.
      apply (bool_decide_unpack _). by vm_compute.
    + exfalso. apply HasSuffix_spec in E2 as [k ->]. apply Hx, elem_of_app. right.
      apply (bool_decide_unpack _). by vm_compute.
  - intros ->. apply Hx. apply (bool_decide_unpack _). by vm_compute.
Qed.

(** A file that is there, and not a device, and of which only the numbers of
    processes become variables. *)
Record plain_file (s : list Z) : Prop := {
  pf_clean : clean_file s = true;
  pf_present : present s;
  pf_pids : pids_only s;
  pf_device : HasPrefix (normalized s) (bytes "/sys/devices/") = false
}.

Lemma plain_file_matches s : plain_file s → gmatch (normalized s) s.
Proof.
  intros [_ Hp Hn Hd]. unfold normalized, sanitizeFilePath in *. rewrite Hp, app_nil_r in *.
  destruct (variance_keeps _ _ (sanitize_no_at s) (sanitize_pids s Hn) (sanitize_matches s))
    as (g & Hg & Heq).
  rewrite Heq in *. by destruct (HasPrefix g (bytes "/sys/devices/")).
Qed.

(** A list of the profile has a rule for the file. *)
Definition permits (l : list (list Z)) (s : list Z) : Prop := ∃ r, r ∈ l ∧ gmatch r s.

Definition profile_permits (pr : BpfAppArmorFileProcessed) (s : list Z) (a : access) : Prop :=
  permits (rules_for pr a) s.

Lemma permits_app l1 l2 s : permits (l1 ++ l2) s ↔ permits l1 s ∨ permits l2 s.
Proof. unfold permits. setoid_rewrite elem_of_app. naive_solver. Qed.

(** A write to a file that was recorded as executed or mapped as well. *)
Definition executed_too (b : AppArmorRecorder) (key : Z) (p : list Z) (a : access) : Prop :=
  a = Write ∧ (recorded b key (UsedFile p ExecMap) ∨ recorded b key (UsedFile p Spawn)).

Lemma used_file_rule name ops keys key s a :
  within_limits ops → plain_file s → key ∈ keys →
  content ops key (UsedFile (normalized s) a) →
  let b := run_ops ops (newAppArmorRecorder name) in
  cl_truncated (classify b keys) = false →
  left_out b (normalized s) a = false → ¬ executed_too b key (normalized s) a →
  profile_permits (processExecFsEvents b keys).1 s a.
Proof.
  intros Hl Hs Hk Hc b Ht Hlo Hx. pose proof (plain_file_matches s Hs) as Hm.
  apply (si_content _ _ (simulates_all name ops Hl)) in Hc. fold b in Hc. unfold executed_too in Hx. cbn in Hc, Hx.
  destruct (recordedFiles b !! key) as [files|] eqn:Ef; cbn in Hc, Hx;
    [|rewrite lookup_empty in Hc; by destruct a].
  destruct (files !! normalized s) as [fa|] eqn:Ep; cbn in Hc, Hx; [|by destruct a].
  destruct (recorded_allowed b keys key files _ fa a Hk Ef Ep
    (no_paren_present _ (gmatch_no_paren _ _ Hm)) Ht Hc Hlo) as (r & Hr & Hcov).
  - unfold overridden. destruct a; try done. apply orb_false_iff.
    split; apply not_true_is_false; intros ?; apply Hx; auto.
  - left. eapply gmatch_clean; [exact Hm|apply Hs].
  - exists r. auto.
Qed.

(** What a workload does with a file, its profile allows: after any
    sequence of events and requests within the limits, if the file access
    reached the recorder and was not dropped since, then the profile of any set
    of keys with the one of the workload, unless it is truncated, has a rule
    that covers the path the kernel reported and has the permission.  The
    exceptions are those of [profile_allows] and [normalize_matches]. *)
Theorem used_file_permitted name ops keys key s a :
  within_limits ops → plain_file s → key ∈ keys →
  content ops key (UsedFile (normalized s) a) →
  let b := run_ops ops (newAppArmorRecorder name) in
  cl_truncated (classify b keys) = false →
  left_out b (normalized s) a = false → ¬ executed_too b key (normalized s) a →
  profile_permits (processExecFsEvents b keys).1 s a.
Proof. apply used_file_rule. Qed.
End allows.

(** Two files of a directory the workload reads and writes. *)
Definition rw_raw (s : String.string) : list Z :=
  encode (FileRecord (EventHeader 42 4026532000 7001 EVENT_TYPE_APPARMOR_FILE 3)
    (bytes s ++ [0])).
Definition rw_ops : list op := [OpEvent (rw_raw "/etc/app:1/a"); OpEvent (rw_raw "/etc/app:1/b")].

Lemma rw_limits : within_limits rw_ops.
Proof.
  split; [apply Nat.leb_le; vm_compute; reflexivity|].
  intros key. etrans; [apply file_events_le|]. apply Nat.leb_le. vm_compute. reflexivity.
Qed.

Lemma rw_plain `{TunablesOk} : plain_file (bytes "/etc/app:1/a").
Proof.
  split; [vm_compute; reflexivity|vm_compute; reflexivity| |vm_compute; reflexivity].
  apply pids_only_pids. vm_compute. reflexivity.
Qed.

Lemma rw_content : content rw_ops 7001 (UsedFile (normalized (bytes "/etc/app:1/a")) Write).
Proof.
  exists [], (OpEvent (rw_raw "/etc/app:1/a")), [OpEvent (rw_raw "/etc/app:1/b")].
  split; [reflexivity|]. split; [|split].
  - eexists _, _. split; [reflexivity|]. split; [vm_compute; reflexivity|]. by vm_compute.
  - apply not_elem_of_nil.
  - constructor; [|constructor]. intros (e & He & Ht & _). vm_compute in He.
    injection He as <-. vm_compute in Ht. done.
Qed.

Lemma rw_not_executed :
  ¬ executed_too (run_ops rw_ops (newAppArmorRecorder [])) 7001 (normalized (bytes "/etc/app:1/a")) Write.
Proof. intros [_ [Hx|Hx]]; by vm_compute in Hx. Qed.

Lemma used_file_permitted_witness :
  let b := run_ops rw_ops (newAppArmorRecorder []) in
  profile_permits (T := kernelvars) (processExecFsEvents b [7001]).1 (bytes "/etc/app:1/a") Write.
Proof.
  apply (used_file_permitted (TOk := kernelvars_ok) [] rw_ops [7001] 7001 (bytes "/etc/app:1/a") Write).
  - exact rw_limits.
  - exact (rw_plain (H := kernelvars_ok)).
  - by left.
  - exact rw_content.
  - vm_compute. reflexivity.
  - vm_compute. reflexivity.
  - exact rw_not_executed.
Defined.

Lemma profile_allows_witness :
  let b := run_ops rw_ops (newAppArmorRecorder []) in
  allowed (T := kernelvars) (processExecFsEvents b [7001]).1 (bytes "/etc/app?1/b") Read.
Proof.
  eapply (profile_allows (TOk := kernelvars_ok) _ [7001] 7001).
  - by left.
  - vm_compute. reflexivity.
  - vm_compute. reflexivity.
  - vm_compute. reflexivity.
  - vm_compute. reflexivity.
  - reflexivity.
  - vm_compute. reflexivity.
  - reflexivity.
  - left. vm_compute. reflexivity.
Defined.

(** ** The profile is accepted *)

(** Every part of a valid path is one. *)
Lemma scan_split st a b :
  scan_path st (a ++ SLASH :: b) = scan_path st a && scan_path Plain b.
Proof.
  revert st. induction a as [|c a IH]; intros st; cbn [app scan_path]; [by destruct st|].
  destruct (scan_byte st c); [apply IH|done].
Qed.

Definition valid_part (w : list Z) : Prop := scan_path Plain w = true.

Lemma valid_abs ws : Forall valid_part ws → scan_path Plain (abs ws) = true.
Proof.
  induction 1 as [|w ws Hw _ IH]; [done|].
  change (abs (w :: ws)) with ([] ++ SLASH :: w ++ abs ws). rewrite scan_split. cbn [scan_path andb].
  destruct ws as [|x ws]; [cbn; by rewrite app_nil_r|].
  change (abs (x :: ws)) with ([] ++ SLASH :: x ++ abs ws) in *. cbn [app] in *.
  rewrite scan_split. rewrite Hw. cbn [andb].
  change (SLASH :: x ++ abs ws) with ([] ++ SLASH :: x ++ abs ws) in IH.
  by rewrite scan_split in IH.
Qed.

Lemma valid_parts s : scan_path Plain s = true → Forall valid_part (split_slash s).
Proof.
  destruct (split_cons s) as (h & t & -> & _ & -> & _). revert h.
  induction t as [|w t IH]; intros h; cbn [abs map concat]; [rewrite app_nil_r; by repeat constructor|].
  change (h ++ (SLASH :: w) ++ concat (map (cons SLASH) t)) with (h ++ SLASH :: (w ++ abs t)).
  rewrite scan_split, andb_true_iff. intros [Hh Ht]. constructor; [done|]. by apply IH.
Qed.

Lemma strict_spec s :
  strictPathRegex s = true ↔ ∃ s', s = SLASH :: s' ∧ scan_path Plain s' = true.
Proof.
  destruct s as [|c s]; cbn; [split; [done|by intros (? & ? & _)]|].
  rewrite andb_true_iff, Z.eqb_eq. naive_solver.
Qed.

(** What [Clean] keeps. *)
Lemma clean_step_incl rooted out w x : x ∈ clean_step rooted out w → x ∈ out ∨ x = w.
Proof. unfold clean_step. intros Hx. repeat case_match; set_solver. Qed.

Lemma clean_incl rooted ws out x : x ∈ fold_left (clean_step rooted) ws out → x ∈ out ∨ x ∈ ws.
Proof.
  revert out. induction ws as [|w ws IH]; intros out; cbn [fold_left]; [by left|].
  intros [Hx|Hx]%IH; [|set_solver]. apply clean_step_incl in Hx. set_solver.
Qed.

Lemma Clean_valid s : strictPathRegex s = true → strictPathRegex (Clean s) = true.
Proof.
  intros (s' & -> & Hs)%strict_spec. unfold Clean. rewrite HasPrefix_slash.
  set (out := rev _). assert (Forall valid_part out) as Ho.
  { apply Forall_forall. intros x Hx. apply list_elem_of_In, in_rev, list_elem_of_In in Hx.
    apply clean_incl in Hx as [?%elem_of_nil|Hx]; [done|]. cbn [split_slash] in Hx.
    change (SLASH =? SLASH) with true in Hx. cbv iota in Hx.
    apply elem_of_cons in Hx as [->|Hx]; [done|].
    apply valid_parts in Hs. rewrite Forall_forall in Hs. by apply Hs. }
  apply strict_spec. exists (join_slash out). split; [done|].
  destruct Ho as [|w ws Hw Hws]; [done|]. cbn [join_slash].
  apply valid_abs in Hws. destruct ws as [|x ws]; [cbn; by rewrite app_nil_r|].
  change (concat (map (cons SLASH) (x :: ws))) with (abs (x :: ws)).
  change (abs (x :: ws)) with ([] ++ SLASH :: x ++ abs ws) in *. rewrite scan_split in Hws.
  cbn [app]. rewrite scan_split. by rewrite Hw.
Qed.

Lemma upto_valid s : strictPathRegex s = true → strictPathRegex (upto_last_slash s) = true.
Proof.
  intros Hs. assert (∃ l, s = upto_last_slash s ++ l ∧
    (upto_last_slash s = [] ∨ ∃ p, upto_last_slash s = p ++ [SLASH])) as (l & Hl & Hu).
  { clear Hs. induction s as [|c s (l & Hl & Hu)]; [by exists []; auto|]. cbn.
    destruct (upto_last_slash s) as [|x u] eqn:E.
    - destruct (Z.eqb_spec c SLASH) as [->|]; [exists s; split; [done|right; by exists []]|].
      exists (c :: s). auto.
    - exists l. split; [by rewrite Hl at 1|]. right. destruct Hu as [?|[p Hp]]; [done|].
      exists (c :: p). by rewrite Hp. }
  apply strict_spec in Hs as (s' & -> & Hs). apply strict_spec.
  destruct Hu as [Hu|[p Hp]].
  { cbn in Hu. by destruct (upto_last_slash s'). }
  rewrite Hp in *. destruct p as [|c p]; [by exists []|].
  cbn in Hl. injection Hl as <- Hl. exists (p ++ [SLASH]). split; [done|].
  rewrite Hl, <- app_assoc in Hs. cbn [app] in Hs. rewrite scan_split in Hs. rewrite scan_split.
  apply andb_true_iff in Hs as [-> _]. done.
Qed.

Lemma any_in_valid p : strictPathRegex p = true → strictPathRegex (any_in (Dir p)) = true.
Proof.
  intros Hp. unfold any_in. apply Clean_valid. unfold Dir.
  apply upto_valid, Clean_valid, strict_spec in Hp as (d & -> & Hd).
  apply strict_spec. exists (d ++ [SLASH] ++ bytes "*"). split; [done|].
  cbn [app]. by rewrite scan_split, Hd.
Qed.

(** What holds of the variables of the loops: there are only rules for recorded
    paths of files that were not deleted. *)
Definition classified_ok (c : classified) : Prop :=
  (∀ x, x ∈ cl_rw c → x = bytes "/") ∧
  map_Forall (λ p (_ : fileRule), strictPathRegex p = true) (cl_rules c).

Lemma kept_path_valid p : kept_path p → (processDeletedFiles p).1 = false → strictPathRegex p = true.
Proof.
  intros (s & Hs & -> & _) Hd. destruct (normalize_valid s Hs) as [Hm|]; [|done].
  unfold processDeletedFiles in Hd. fold (marked_deleted (normalized s)) in Hd.
  rewrite Hm in Hd. by case_bool_decide.
Qed.

Lemma classify_file_ok b files c p :
  kept_path p → classified_ok c → classified_ok (classify_file b files c p).
Proof.
  intros Hp [H1 H2]. unfold classify_file. destruct (processDeletedFiles p) as [skip rw] eqn:E.
  destruct skip.
  - split; [|done]. cbn. intros x [?|Hx]%elem_of_app; [auto|].
    unfold processDeletedFiles in E. case_bool_decide; [|destruct (_ || _)]; simplify_eq;
      [by apply list_elem_of_singleton in Hx|by apply elem_of_nil in Hx].
  - cbv zeta. destruct (_ && _); split; try done. cbn. apply map_Forall_insert_2; [|done].
    apply kept_path_valid; [done|]. by rewrite E.
Qed.

Lemma classify_ok b keys : recorder_ok b → classified_ok (classify b keys).
Proof.
  intros Hb. unfold classify.
  assert (∀ {X} (f : classified → X → classified) l c,
    (∀ c x, x ∈ l → classified_ok c → classified_ok (f c x)) → classified_ok c →
    classified_ok (fold_left f l c)) as Hfold.
  { intros X f l. induction l as [|x l IH]; intros c Hf Hc; cbn [fold_left]; [done|].
    apply IH; [intros; apply Hf; [by right|done]|]. apply Hf; [by left|done]. }
  apply Hfold; [|split; [by intros x ?%elem_of_nil|done]].
  intros c key _ Hc. unfold classify_key. destruct (recordedFiles b !! key) as [files|] eqn:E; [|done].
  apply Hfold; [|done]. intros c' p Hp Hc'. apply classify_file_ok; [|done].
  unfold sorted_files in Hp. rewrite elem_of_Sort in Hp.
  apply list_elem_of_fmap in Hp as ([p' fa] & -> & Hp). apply elem_of_map_to_list in Hp.
  destruct (ro_files b Hb key files E) as [_ Hf]. by apply Hf in Hp.
Qed.

Lemma paths_valid b keys p :
  recorder_ok b →
  let pr := (processExecFsEvents b keys).1 in
  p ∈ AllowedExecutables pr ++ AllowedLibraries pr ++ ReadOnlyPaths pr ++ WriteOnlyPaths pr ++
    ReadWritePaths pr →
  validPath p = true.
Proof.
  intros Hb pr. destruct (classify_ok b keys Hb) as [Hrw Hru].
  assert (∀ f, ruled b keys f p → validPath p = true) as Hruled.
  { intros f (r & Hp & _). by apply Hru in Hp. }
  assert (∀ q, q ∈ rw_paths b keys → validPath q = true) as Hq.
  { intros q [->%Hrw|(r & Hq & _)]%rw_paths_spec; [done|by apply Hru in Hq]. }
  unfold pr. rewrite !elem_of_app, executables_spec, libraries_spec, readonly_spec, writeonly_spec,
    readwrite_spec.
  intros [?|[?|[?|[?|Hp]]]]; [by eapply Hruled..|].
  clear Hruled. revert Hp. unfold allowAnyFiles.
  assert (∀ l m acc, (∀ q, q ∈ l → validPath q = true) → (∀ q, q ∈ acc → validPath q = true) →
    ∀ q, q ∈ (fold_left allow_step l (m, acc)).2 → validPath q = true) as Hfold; [|apply Hfold; [done|set_solver]].
  intros l. induction l as [|x l IH]; intros m acc Hl Hacc q; cbn [fold_left]; [apply Hacc|].
  assert (validPath x = true) as Hx by set_solver. pose proof (any_in_valid x Hx) as Hany.
  rewrite allow_step_eq. cbv zeta. destruct (1 <? _)%nat; [|destruct (_ =? 1)%nat];
    apply IH; set_solver.
Qed.

(** No recorded profile is rejected for a path: however the event loop and the
    requests interleave, the paths of every list of a profile pass the validation
    of the generator. *)
Theorem profile_valid name ts b keys p :
  reachable request kernel_step (newAppArmorRecorder name) (ts, b) →
  let pr := (processExecFsEvents b keys).1 in
  p ∈ AllowedExecutables pr ++ AllowedLibraries pr ++ ReadOnlyPaths pr ++ WriteOnlyPaths pr ++
    ReadWritePaths pr →
  validPath p = true.
Proof. intros Hb%reachable_ok. by apply paths_valid. Qed.

Lemma profile_valid_witness :
  validPath (bytes "/etc/app?1/*") = true.
Proof.
  eapply (profile_valid [] _ (exec (handleEvent (rw_raw "/etc/app:1/b"))
    (exec (handleEvent (rw_raw "/etc/app:1/a")) (newAppArmorRecorder []))) [7001]).
  - unfold reachable. etrans; [apply run_reachable; apply (req_event (rw_raw "/etc/app:1/a"))|].
    eapply rtc_l; [apply (pstep_start _ _ _ _ (handleEvent (rw_raw "/etc/app:1/b"))); constructor|].
    apply (run_steps request kernel_step _ _ [_] []).
  - apply (bool_decide_unpack _). vm_compute. done.
Defined.

(** ** Limits of the profile *)

(** The rule for a directory the workload creates is lost when the workload also
    writes a file in it: the rule for any file of the directory does not cover
    the directory itself. *)
Theorem directory_rule_lost `{TunablesOk} :
  let ops := [OpEvent (rw_raw "/tmp/foo/"); OpEvent (rw_raw "/tmp/foo/x")] in
  let pr := (processExecFsEvents (run_ops ops (newAppArmorRecorder [])) [7001]).1 in
  recorded (run_ops ops (newAppArmorRecorder [])) 7001 (UsedFile (bytes "/tmp/foo/") Write) ∧
  pr = FileProcessed [] [] [] [] [bytes "/tmp/foo/*"] ∧
  ¬ gmatch (bytes "/tmp/foo/*") (bytes "/tmp/foo/").
Proof.
  split; [vm_compute; reflexivity|]. split; [vm_compute; reflexivity|].
  intros Hm. apply gmatch_components in Hm. vm_compute in Hm.
  do 3 apply Forall2_cons in Hm as [_ Hm]. apply Forall2_cons in Hm as [Hm _].
  by apply gmatch_nil in Hm.
Qed.

(** An executable whose name starts with two dots, in the root directory, makes
    the validation reject the profile, as a directory traversal. *)
Theorem dotted_executable_rejected :
  let raw := encode (FileRecord (EventHeader 42 4026532000 7001 EVENT_TYPE_APPARMOR_FILE flagSpawn)
    (bytes "/..x" ++ [0])) in
  let pr := (processExecFsEvents (run_ops [OpEvent raw] (newAppArmorRecorder [])) [7001]).1 in
  AllowedExecutables pr = [bytes "/..x"] ∧ validateExecutableOrLibrary (bytes "/..x") = false.
Proof. split; vm_compute; reflexivity. Qed.
