(* ===== verification/Armor.v ===== *)
(** * The text of an AppArmor profile ([crd2armor.go], [recorded.go])

    [AbstractFromRecording] makes the abstract profile of what was recorded, and
    [GenerateProfile] validates an abstract profile and prints it with a template,
    as the text that is loaded into the kernel.  A slice that may be nil is an
    [option]: the template distinguishes nil from an empty slice.

    [ReadBack] shows what the text says. *)
From S2P Require Import Prelude Paths Dirs Profile.
Import String.StringSyntax.
#[local] Open Scope string_scope.
#[local] Open Scope list_scope.
#[local] Open Scope Z_scope.

Abbreviation text := (list Z).

(** ** The abstract profile ([apparmorprofile_types.go]) *)

Record AppArmorExecutablesRules := ExecutablesRules {
  er_executables : option (list text);
  er_libraries : option (list text)
}.

Record AppArmorFsRules := FsRules {
  fs_readonly : option (list text);
  fs_writeonly : option (list text);
  fs_readwrite : option (list text)
}.

Record AppArmorAllowedProtocols := AllowedProtocols {
  ap_tcp : option bool;
  ap_udp : option bool
}.

Record AppArmorNetworkRules := NetworkRules {
  nr_raw : option bool;
  nr_protocols : option AppArmorAllowedProtocols
}.

Record AppArmorPtraceRules := PtraceRules { pt_access : list text; pt_peer : text }.

Record AppArmorAbstract := Abstract {
  ab_executable : option AppArmorExecutablesRules;
  ab_filesystem : option AppArmorFsRules;
  ab_network : option AppArmorNetworkRules;
  ab_capability : option (option (list text));
  ab_ptrace : option AppArmorPtraceRules
}.

Definition AppArmorModeComplain : text := bytes "Complain".

(** ** What was recorded ([recorded.go]) *)

Record RecordedAccess := Recorded {
  ra_files : BpfAppArmorFileProcessed;
  ra_raw : bool;
  ra_tcp : bool;
  ra_udp : bool;
  ra_capabilities : list text
}.

Definition sortedOrNil (paths : list text) : option (list text) :=
  match paths with [] => None | _ => Some (Sort paths) end.

(** A pointer to [true], if it is set. *)
Definition enabled (b : bool) : option bool := if b then Some true else None.

Definition empty {A} (l : list A) : bool := match l with [] => true | _ => false end.

Definition AbstractFromRecording (r : RecordedAccess) : AppArmorAbstract :=
  let f := ra_files r in
  Abstract
    (if negb (empty (AllowedExecutables f)) || negb (empty (AllowedLibraries f))
     then Some (ExecutablesRules (sortedOrNil (AllowedExecutables f)) (sortedOrNil (AllowedLibraries f)))
     else None)
    (if negb (empty (ReadOnlyPaths f)) || negb (empty (WriteOnlyPaths f)) || negb (empty (ReadWritePaths f))
     then Some (FsRules (sortedOrNil (ReadOnlyPaths f)) (sortedOrNil (WriteOnlyPaths f))
                  (sortedOrNil (ReadWritePaths f)))
     else None)
    (if ra_raw r || ra_tcp r || ra_udp r
     then Some (NetworkRules (enabled (ra_raw r))
                  (if ra_tcp r || ra_udp r
                   then Some (AllowedProtocols (enabled (ra_tcp r)) (enabled (ra_udp r))) else None))
     else None)
    (if negb (empty (ra_capabilities r)) then Some (Some (ra_capabilities r)) else None)
    None.

(** ** The validated data *)

Record PtraceRule := MkPtraceRule { Access : list text; Peer : text }.

Record Executable := MkExecutable {
  ex_executables : option (list text);
  ex_libraries : option (list text)
}.

Record FileSystem := MkFileSystem {
  f_readonly : option (list text);
  f_writeonly : option (list text);
  f_readwrite : option (list text)
}.

Record Network := MkNetwork { AllowRaw : bool; AllowTCP : bool; AllowUDP : bool }.

Record ApparmorData := MkApparmorData {
  d_name : text;
  d_executable : option Executable;
  d_filesystem : option FileSystem;
  d_capability : option (option (list text));
  d_network : option Network;
  d_ptrace : list PtraceRule
}.

(** ** Strings of Go *)

Definition is_upper (c : Z) : bool := between 65 90 c.
Definition is_letter (c : Z) : bool := is_upper c || between 97 122 c.
Definition lower (c : Z) : Z := if is_upper c then c + 32 else c.
Definition is_ascii (c : Z) : bool := between 0 127 c.

(** What [unicode.IsSpace] has below 128, and [\s] of a regular expression. *)
Definition ascii_space (c : Z) : bool := between 9 13 c || (c =? 32).
Definition re_space (c : Z) : bool := (c =? 9) || (c =? 10) || (c =? 12) || (c =? 13) || (c =? 32).

Fixpoint skip (f : Z → bool) (s : text) : text :=
  match s with c :: s' => if f c then skip f s' else s | [] => [] end.

(** The longest start of bytes of a class, and the rest. *)
Definition cut_run (f : Z → bool) (s : text) : text * text := (take (span f s) s, drop (span f s) s).

(** [strings.CutPrefix]. *)
Definition CutPrefix (s p : text) : option text :=
  if HasPrefix s p then Some (drop (length p) s) else None.

(** [strings.Join]. *)
Fixpoint Join (l : list text) (sep : text) : text :=
  match l with
  | [] => []
  | [x] => x
  | x :: l => x ++ sep ++ Join l sep
  end.

Section strings.
(** The conversions of a string that has other than ASCII characters follow the
    tables of Unicode. *)
Context (unicode_lower unicode_trim : text → text).

Definition ToLower (s : text) : text := if forallb is_ascii s then map lower s else unicode_lower s.

Definition TrimSpace (s : text) : text :=
  if forallb is_ascii s then reverse (skip ascii_space (reverse (skip ascii_space s)))
  else unicode_trim s.

Definition normalizeCapabilities (capabilities : option (list text)) : option (list text) :=
  map (λ c, ToLower (TrimSpace c)) <$> capabilities.

(** ** Rules for ptrace among the paths *)

(** [ptraceRuleRegex]: the submatch. *)
Definition ptraceRuleRegex (entry : text) : option text :=
  s ← CutPrefix entry (bytes "ptrace");
  s ← CutPrefix (skip re_space s) (bytes "(");
  let '(access, s) := cut_run is_letter s in
  s ← (if empty access then None else CutPrefix s (bytes "),"));
  match s with
  | [] => Some access
  | _ => s ← CutPrefix (skip re_space s) (bytes "#");
         if forallb (λ c, negb (c =? 10)) s then Some access else None
  end.

Definition ptraceRule (entry : text) : option text := ToLower <$> ptraceRuleRegex entry.

Definition splitPtraceRules (entries : option (list text)) : option (list text) * list text :=
  match entries with
  | None => (None, [])
  | Some entries =>
      (Some (filter (λ e, ptraceRule e = None) entries), omap ptraceRule entries)
  end.

Definition newPtraceRules (rules : option AppArmorPtraceRules) (legacyAccess : list text) :
    list PtraceRule :=
  match rules with
  | Some r =>
      if negb (empty (pt_access r)) || negb (empty (pt_peer r))
      then [MkPtraceRule (Compact (Sort (pt_access r))) (pt_peer r)] else []
  | None => []
  end ++
  map (λ access, MkPtraceRule [access] []) (Compact (Sort legacyAccess)).

Definition entries_of (a : AppArmorAbstract) : list text :=
  match ab_filesystem a with
  | Some f => default [] (fs_readonly f) ++ default [] (fs_writeonly f) ++ default [] (fs_readwrite f)
  | None => []
  end ++
  match ab_executable a with
  | Some e => default [] (er_executables e) ++ default [] (er_libraries e)
  | None => []
  end.

Definition UsesDeprecatedPtraceRules (abstract : option AppArmorAbstract) : bool :=
  match abstract with
  | None => false
  | Some a => existsb (λ e, bool_decide (is_Some (ptraceRule e))) (entries_of a)
  end.

Definition isTrue (b : option bool) : bool := default false b.

Definition new_network (n : AppArmorNetworkRules) : Network :=
  MkNetwork (isTrue (nr_raw n))
    (match nr_protocols n with Some p => isTrue (ap_tcp p) | None => false end)
    (match nr_protocols n with Some p => isTrue (ap_udp p) | None => false end).

Definition newApparmorData (name : text) (abstract : AppArmorAbstract) : ApparmorData :=
  let '(executable, legacy) :=
    match ab_executable abstract with
    | Some e =>
        let '(executables, p1) := splitPtraceRules (er_executables e) in
        let '(libraries, p2) := splitPtraceRules (er_libraries e) in
        (Some (MkExecutable executables libraries), p1 ++ p2)
    | None => (None, [])
    end in
  let '(filesystem, legacy) :=
    match ab_filesystem abstract with
    | Some f =>
        let '(readOnly, p1) := splitPtraceRules (fs_readonly f) in
        let '(writeOnly, p2) := splitPtraceRules (fs_writeonly f) in
        let '(readWrite, p3) := splitPtraceRules (fs_readwrite f) in
        (Some (MkFileSystem readOnly writeOnly readWrite), legacy ++ p1 ++ p2 ++ p3)
    | None => (None, legacy)
    end in
  MkApparmorData name executable filesystem (normalizeCapabilities <$> ab_capability abstract)
    (new_network <$> ab_network abstract) (newPtraceRules (ab_ptrace abstract) legacy).

(** ** Validation *)

Inductive armor_error :=
  | NilAbstract
  | InvalidName (name : text)
  | InvalidPath (path : text)
  | InvalidCapability (capability : text)
  | PtraceWithoutAccess
  | InvalidPtraceAccess (access : text)
  | InvalidPtracePeer (peer : text)
  | InvalidExecutable (path : text).

Definition name_char (c : Z) : bool := is_word c || (c =? 46) || (c =? 47) || (c =? 45).

Definition profileNameChars (s : text) : bool := negb (empty s) && forallb name_char s.

Definition profile_name_var : text := bytes "@{profile_name}".

Definition peer_char (c : Z) : bool := name_char c || (c =? 42) || (c =? 63).

(** [(?:[a-zA-Z0-9_./*?-]|@\{profile_name\})*$]; the fuel is the length. *)
Fixpoint peer_rest (fuel : nat) (s : text) : bool :=
  match fuel, s with
  | _, [] => true
  | O, _ => false
  | S fuel, c :: s' =>
      if peer_char c then peer_rest fuel s'
      else match CutPrefix s profile_name_var with Some r => peer_rest fuel r | None => false end
  end.

Definition ptracePeerRegex (s : text) : bool := negb (empty s) && peer_rest (length s) s.

Definition ptraceAccess : list text :=
  map bytes ["r"; "w"; "rw"; "read"; "readby"; "trace"; "tracedby"].

Definition validCapabilities : list text := map bytes [
  "chown"; "dac_override"; "dac_read_search"; "fowner"; "fsetid"; "kill"; "setgid";
  "setuid"; "setpcap"; "linux_immutable"; "net_bind_service"; "net_broadcast"; "net_admin";
  "net_raw"; "ipc_lock"; "ipc_owner"; "sys_module"; "sys_rawio"; "sys_chroot"; "sys_ptrace";
  "sys_pacct"; "sys_admin"; "sys_boot"; "sys_nice"; "sys_resource"; "sys_time";
  "sys_tty_config"; "mknod"; "lease"; "audit_write"; "audit_control"; "setfcap";
  "mac_override"; "mac_admin"; "syslog"; "wake_alarm"; "block_suspend"; "audit_read";
  "perfmon"; "bpf"; "checkpoint_restore"].

Definition memb (x : text) (l : list text) : bool := existsb (λ y, bool_decide (x = y)) l.

Definition validateCapability (capability : text) : bool :=
  memb (ToLower (TrimSpace capability)) validCapabilities.

Definition validatePtraceRule (rule : PtraceRule) : option armor_error :=
  if empty (Access rule) then Some PtraceWithoutAccess
  else match filter (λ a, memb a ptraceAccess = false) (Access rule) with
       | a :: _ => Some (InvalidPtraceAccess a)
       | [] => if negb (empty (Peer rule)) && negb (ptracePeerRegex (Peer rule))
               then Some (InvalidPtracePeer (Peer rule)) else None
       end.

(** The error of the first element that has one. *)
Fixpoint first_error {A} (f : A → option armor_error) (l : list A) : option armor_error :=
  match l with
  | [] => None
  | x :: l => match f x with Some e => Some e | None => first_error f l end
  end.

Definition check {A} (ok : A → bool) (err : A → armor_error) (x : A) : option armor_error :=
  if ok x then None else Some (err x).

Definition fs_paths (d : ApparmorData) : list text :=
  match d_filesystem d with
  | Some f => default [] (f_readonly f) ++ default [] (f_writeonly f) ++ default [] (f_readwrite f)
  | None => []
  end.

Definition exec_paths (d : ApparmorData) : list text :=
  match d_executable d with
  | Some e => default [] (ex_executables e) ++ default [] (ex_libraries e)
  | None => []
  end.

Definition capability_names (d : ApparmorData) : list text :=
  match d_capability d with Some c => default [] c | None => [] end.

(** The first of the errors, in the order of the source. *)
Definition Validate (d : ApparmorData) : option armor_error :=
  first_error id [
    if negb (empty (d_name d)) && negb (profileNameChars (d_name d))
    then Some (InvalidName (d_name d)) else None;
    first_error (check validPath InvalidPath) (fs_paths d);
    first_error (check validateCapability InvalidCapability) (capability_names d);
    first_error validatePtraceRule (d_ptrace d);
    first_error (check validateExecutableOrLibrary InvalidExecutable) (exec_paths d)].

(** ** The template *)

Definition NL : Z := 10.
Definition SPACE : Z := 32.
Definition QUOTE : Z := 34.

(** A line of the template. *)
Definition line (s : String.string) : text := bytes s ++ [NL].

Definition quotePath (path : text) : text :=
  if HasPrefix path (bytes "/") && Contains path (bytes " ") then QUOTE :: path ++ [QUOTE] else path.

(** The body of a [range] over paths: a rule of a path. *)
Definition path_rule (before after : String.string) (path : text) : text :=
  bytes before ++ quotePath path ++ line after.

Definition path_rules (before after : String.string) (paths : list text) : text :=
  concat (map (path_rule before after) paths).

(** [{{if c}}t{{end}}], and [{{if ne x nil}}...{{end}}]. *)
Definition when (c : bool) (t : text) : text := if c then t else [].
Definition given {A} (x : option A) (f : A → text) : text := match x with Some a => f a | None => [] end.

Definition executable_section (e : Executable) : text :=
  given (ex_executables e) (λ l, [NL] ++ path_rules "  " " ixr," l) ++ [NL] ++
  given (ex_libraries e) (λ l, [NL] ++ path_rules "  " " mr," l).

Definition mount_files (allowMount : bool) : text :=
  bytes "  " ++ when allowMount ([NL] ++ line "  /sbin/fsck ixr," ++ line "  /sbin/fsck.ext4 ixr," ++ bytes "  ") ++
  [NL].

Definition filesystem_section (complain : bool) (f : FileSystem) : text :=
  given (f_readonly f) (λ l, [NL] ++ path_rules "  " " r," l ++ [NL] ++
    when (negb complain) (path_rules "  deny " " wlk," l)) ++ [NL] ++
  given (f_writeonly f) (λ l, [NL] ++ path_rules "  " " wlk," l ++ [NL] ++
    when (negb complain) (path_rules "  deny " " r," l)) ++ [NL] ++
  given (f_readwrite f) (λ l, [NL] ++ path_rules "  " " rwlk," l).

Definition ptrace_rule (r : PtraceRule) : text :=
  bytes "  ptrace (" ++ Join (Access r) (bytes ", ") ++ bytes ")" ++
  when (negb (empty (Peer r))) (bytes " peer=" ++ Peer r) ++ bytes ",".

Definition ptrace_section (l : list PtraceRule) : text :=
  when (negb (empty l)) ([NL; NL] ++ bytes "  # Ptrace rules" ++ concat (map (λ r, NL :: ptrace_rule r) l)).

(** A comparison of a bool with nil is never an equality. *)
Definition network_section (complain : bool) (n : Network) : text :=
  [NL] ++ (if AllowRaw n then bytes "  network raw,"
           else when (negb complain) (bytes "  deny network raw,") ++ [NL]) ++ [NL] ++
  [NL] ++ when (AllowTCP n) (line "  network tcp,") ++
  [NL] ++ when (AllowUDP n) (line "  network udp,").

Definition capability_rule (c : text) : text := bytes "  capability " ++ c ++ line ",".

Definition mount_rules (allowMount : bool) : text :=
  bytes "  " ++ when allowMount ([NL] ++ line "  mount," ++ line "  remount," ++ line "  umount," ++ bytes "  ") ++
  [NL].

Definition default_denials : text :=
  line "" ++
  line "  deny @{PROC}/* w,   # deny write for all files directly in /proc (not in a subdir)" ++
  line "  deny @{PROC}/{[^1-9],[^1-9][^0-9],[^1-9s][^0-9y][^0-9s],[^1-9][^0-9][^0-9][^0-9]*}/** w," ++
  line "  deny @{PROC}/sys/[^k]** w,  # deny /proc/sys except /proc/sys/k* (effectively /proc/sys/kernel)" ++
  line "  deny @{PROC}/sys/kernel/{?,??,[^s][^h][^m]**} w,  # deny everything except shm* in /proc/sys/kernel/" ++
  line "  deny @{PROC}/sysrq-trigger rwklx," ++
  line "  deny @{PROC}/mem rwklx," ++
  line "  deny @{PROC}/kmem rwklx," ++
  line "  deny @{PROC}/kcore rwklx," ++
  line "  deny /sys/firmware/efi/efivars/** rwklx,".

Definition profileMode (complain : bool) : text := bytes (if complain then "complain" else "enforce").

Definition appArmorTemplate (complain allowMount : bool) (d : ApparmorData) : text :=
  line "" ++
  line "# Generated by https://github.com/kubernetes-sigs/security-profiles-operator, do not edit by hand." ++
  line "#include <tunables/global>" ++
  (bytes "profile " ++ d_name d ++ bytes " flags=(" ++ profileMode complain ++
    line ",attach_disconnected,mediate_deleted) {") ++
  line "  #include <abstractions/base>" ++
  line "" ++
  line "  # Executable rules" ++
  (given (d_executable d) executable_section ++ [NL]) ++
  mount_files allowMount ++
  line "" ++
  line "  # Filesystem rules" ++
  given (d_filesystem d) (filesystem_section complain) ++ (ptrace_section (d_ptrace d) ++ [NL]) ++
  line "" ++
  line "  # Network rules" ++
  (given (d_network d) (network_section complain) ++ [NL]) ++
  line "" ++
  line "  # Capabilities rules" ++
  given (d_capability d) (λ c, concat (map capability_rule (default [] c))) ++ line "" ++
  line "" ++
  mount_rules allowMount ++
  line "" ++
  line "  # Raw rules placeholder" ++
  line "" ++
  line "  # Add default deny for known information leak/priv esc paths" ++
  when (negb complain) default_denials ++ line "" ++
  line "}".

(** ** The profile *)

Definition GenerateProfile (name mode : text) (abstract : option AppArmorAbstract) : armor_error + text :=
  match abstract with
  | None => inl NilAbstract
  | Some abstract =>
      let allowMount :=
        match ab_capability abstract with
        | Some (Some c) => memb (bytes "sys_rawio") (default [] (normalizeCapabilities (Some c)))
        | _ => false
        end in
      let data := newApparmorData name abstract in
      match Validate data with
      | Some e => inl e
      | None => inr (appArmorTemplate (bool_decide (mode = AppArmorModeComplain)) allowMount data)
      end
  end.
End strings.

Lemma memb_spec x l : memb x l = true ↔ x ∈ l.
Proof.
  unfold memb. rewrite existsb_exists. setoid_rewrite bool_decide_eq_true.
  split; [intros (y & Hy & ->); by apply list_elem_of_In|intros Hx; exists x; split; [by apply list_elem_of_In|done]].
Qed.
