(* ===== verification/ReadBack.v ===== *)
(** * What the text of a profile says ([crd2armor.go])

    A reader of profiles, as simple as their format: a line is empty, a comment, an
    include or a statement of words, a word may be quoted, and a [#] starts a
    comment.  [profile_reads_back] shows that the text [GenerateProfile] prints
    reads as exactly the statements of the abstract profile: whatever the names,
    paths, capabilities and peers are, none of them can add a statement, hide one
    or become another one.  [Printed] composes this with the recorder. *)
From S2P Require Import Prelude Bpf State Wire Paths Dirs AppArmor Recording Profile Armor.
Import String.StringSyntax.
#[local] Open Scope string_scope.
#[local] Open Scope list_scope.
#[local] Open Scope Z_scope.

(** ** The reader *)

Abbreviation statement := (list text).

Definition HASH : Z := 35.

(** Ends the word so far, if there is one. *)
Definition flush (cur : option text) (ws : list text) : list text :=
  match cur with Some w => reverse w :: ws | None => ws end.

(** The words of a line.  [cur] is the word so far, reversed. *)
Fixpoint words (quoted : bool) (cur : option text) (s : text) : list text :=
  match s with
  | [] => flush cur []
  | c :: s =>
      if quoted then
        if c =? QUOTE then words false cur s else words true (Some (c :: default [] cur)) s
      else if c =? SPACE then flush cur (words false None s)
      else if c =? QUOTE then words true (Some (default [] cur)) s
      else if (c =? HASH) && bool_decide (cur = None) then []
      else words false (Some (c :: default [] cur)) s
  end.

(** The comma at the end of a statement. *)
Definition drop_comma (w : text) : text :=
  match CutSuffix w (bytes ",") with Some w => w | None => w end.

Fixpoint end_statement (ws : list text) : list text :=
  match ws with
  | [] => []
  | [w] => [drop_comma w]
  | w :: ws => w :: end_statement ws
  end.

Definition read_line (s : text) : option statement :=
  let s := skip (λ c, c =? SPACE) s in
  match CutPrefix s (bytes "#include ") with
  | Some file => Some [bytes "#include"; file]
  | None => match end_statement (words false None s) with [] => None | ws => Some ws end
  end.

Fixpoint split_lines (s : text) : list text :=
  match s with
  | [] => [[]]
  | c :: s =>
      if c =? NL then [] :: split_lines s
      else match split_lines s with l :: ls => (c :: l) :: ls | [] => [[c]] end
  end.

Definition statements (s : text) : list statement := omap read_line (split_lines s).

(** ** The statements of an abstract profile *)

Definition file_statement (perms : String.string) (path : text) : statement := [path; bytes perms].
Definition deny_statement (perms : String.string) (path : text) : statement :=
  [bytes "deny"; path; bytes perms].

Definition executable_statements (e : Executable) : list statement :=
  map (file_statement "ixr") (default [] (ex_executables e)) ++
  map (file_statement "mr") (default [] (ex_libraries e)).

Definition filesystem_statements (complain : bool) (f : FileSystem) : list statement :=
  let ro := default [] (f_readonly f) in
  let wo := default [] (f_writeonly f) in
  map (file_statement "r") ro ++ (if complain then [] else map (deny_statement "wlk") ro) ++
  map (file_statement "wlk") wo ++ (if complain then [] else map (deny_statement "r") wo) ++
  map (file_statement "rwlk") (default [] (f_readwrite f)).

(** The accesses are separated by commas. *)
Fixpoint access_words (l : list text) : list text :=
  match l with
  | [] => []
  | [x] => [x ++ bytes ")"]
  | x :: l => (x ++ bytes ",") :: access_words l
  end.

Definition ptrace_statement (r : PtraceRule) : statement :=
  bytes "ptrace" ::
  match access_words (Access r) with x :: l => (bytes "(" ++ x) :: l | [] => [] end ++
  (if empty (Peer r) then [] else [bytes "peer=" ++ Peer r]).

Definition network_statements (complain : bool) (n : Network) : list statement :=
  let network kind := [bytes "network"; bytes kind] in
  (if AllowRaw n then [network "raw"] else if complain then [] else [bytes "deny" :: network "raw"]) ++
  (if AllowTCP n then [network "tcp"] else []) ++
  (if AllowUDP n then [network "udp"] else []).

Definition capability_statement (c : text) : statement := [bytes "capability"; c].

(** What every profile that is not in complain mode denies. *)
Definition denied_files : list statement := [
  deny_statement "w" (bytes "@{PROC}/*");
  deny_statement "w" (bytes "@{PROC}/{[^1-9],[^1-9][^0-9],[^1-9s][^0-9y][^0-9s],[^1-9][^0-9][^0-9][^0-9]*}/**");
  deny_statement "w" (bytes "@{PROC}/sys/[^k]**");
  deny_statement "w" (bytes "@{PROC}/sys/kernel/{?,??,[^s][^h][^m]**}");
  deny_statement "rwklx" (bytes "@{PROC}/sysrq-trigger");
  deny_statement "rwklx" (bytes "@{PROC}/mem");
  deny_statement "rwklx" (bytes "@{PROC}/kmem");
  deny_statement "rwklx" (bytes "@{PROC}/kcore");
  deny_statement "rwklx" (bytes "/sys/firmware/efi/efivars/**")].

Definition profile_statement (complain : bool) (name : text) : statement :=
  bytes "profile" :: (if empty name then [] else [name]) ++
  [bytes "flags=(" ++ profileMode complain ++ bytes ",attach_disconnected,mediate_deleted)"; bytes "{"].

Definition profile_statements (complain allowMount : bool) (d : ApparmorData) : list statement :=
  [[bytes "#include"; bytes "<tunables/global>"]; profile_statement complain (d_name d);
   [bytes "#include"; bytes "<abstractions/base>"]] ++
  match d_executable d with Some e => executable_statements e | None => [] end ++
  (if allowMount then map (file_statement "ixr") [bytes "/sbin/fsck"; bytes "/sbin/fsck.ext4"] else []) ++
  match d_filesystem d with Some f => filesystem_statements complain f | None => [] end ++
  map ptrace_statement (d_ptrace d) ++
  match d_network d with Some n => network_statements complain n | None => [] end ++
  map capability_statement (capability_names d) ++
  (if allowMount then [[bytes "mount"]; [bytes "remount"]; [bytes "umount"]] else []) ++
  (if complain then [] else denied_files) ++
  [[bytes "}"]].

(** ** Lines *)

Lemma split_lines_app a b : split_lines (a ++ NL :: b) = split_lines a ++ split_lines b.
Proof.
  induction a as [|c a IH]; cbn [app split_lines]; [done|]. destruct (c =? NL) eqn:E; [by rewrite IH|].
  rewrite IH. destruct (split_lines a) eqn:Ea; cbn; [|done].
  by destruct a as [|x a]; cbn in Ea; [|destruct (x =? NL); [|destruct (split_lines a)]].
Qed.

Lemma statements_app a b : statements (a ++ NL :: b) = statements a ++ statements b.
Proof. unfold statements. by rewrite split_lines_app, omap_app. Qed.

(** A text that ends with a line. *)
Definition whole (a : text) : Prop := a = [] ∨ ∃ l, a = l ++ [NL].

Lemma whole_app a b : whole a → whole b → whole (a ++ b).
Proof.
  intros Ha [-> | [l ->]]; [by rewrite app_nil_r|]. right. exists (a ++ l). by rewrite app_assoc.
Qed.

Lemma whole_nl a : whole (a ++ [NL]).
Proof. right. by exists a. Qed.

Lemma whole_line s : whole (line s).
Proof. apply whole_nl. Qed.

Lemma whole_concat {A} (f : A → text) l : (∀ x, whole (f x)) → whole (concat (map f l)).
Proof. intros Hf. induction l as [|x l IH]; cbn; [by left|by apply whole_app]. Qed.

Lemma whole_when c t : whole t → whole (when c t).
Proof. destruct c; [done|by left]. Qed.

Lemma whole_given {A} (x : option A) f : (∀ a, whole (f a)) → whole (given x f).
Proof. intros Hf. destruct x; [apply Hf|by left]. Qed.

Lemma whole_path_rules b a l : whole (path_rules b a l).
Proof.
  apply whole_concat. intros p. unfold path_rule, line. rewrite !app_assoc. apply whole_nl.
Qed.

(** Solves [whole] of a text that is put together from lines. *)
Ltac whole :=
  repeat first
    [ assumption | apply whole_line | apply (whole_nl []) | apply whole_path_rules | by left
    | apply whole_app | apply whole_when | apply whole_given; intros ].

Lemma statements_whole a b : whole a → statements (a ++ b) = statements a ++ statements b.
Proof.
  intros [-> | [l ->]]; [done|]. rewrite <-app_assoc. cbn [app]. rewrite statements_app.
  by rewrite (statements_app l []), app_nil_r.
Qed.

Lemma statements_concat {A} (f : A → text) g l :
  (∀ x, x ∈ l → whole (f x)) → (∀ x, x ∈ l → statements (f x) = [g x]) →
  statements (concat (map f l)) = map g l.
Proof.
  intros Hw Hf. induction l as [|x l IH]; [done|]. cbn [map concat].
  rewrite statements_whole by (apply Hw; left). rewrite Hf by left. cbn [app]. f_equal.
  apply IH; intros; [apply Hw|apply Hf]; by right.
Qed.

Lemma split_one s : NL ∉ s → split_lines s = [s].
Proof.
  induction s as [|c s IH]; intros Hs; [done|]. apply not_elem_of_cons in Hs as [Hc Hs]. cbn.
  rewrite IH by done. by apply not_eq_sym, Z.eqb_neq in Hc as ->.
Qed.

Lemma statements_one s st : NL ∉ s → read_line s = Some st → statements s = [st].
Proof. intros Hs Hr. unfold statements. rewrite split_one by done. cbn. by rewrite Hr. Qed.

Lemma statements_line s st : NL ∉ s → read_line s = Some st → statements (s ++ [NL]) = [st].
Proof. intros Hs Hr. rewrite statements_app, (statements_one s st) by done. done. Qed.

(** ** Words *)

Definition plain_byte (c : Z) : Prop := c ≠ SPACE ∧ c ≠ QUOTE.

Lemma words_plain w r s : Forall plain_byte w →
  words false (Some r) (w ++ s) = words false (Some (reverse w ++ r)) s.
Proof.
  intros Hw. revert r. induction Hw as [|c w [H1 H2] _ IH]; intros r; [done|]. cbn [app words].
  apply Z.eqb_neq in H1 as ->. apply Z.eqb_neq in H2 as ->. rewrite andb_false_r. cbn [default].
  by rewrite IH, reverse_cons, <-app_assoc.
Qed.

Lemma words_quoted w r s : QUOTE ∉ w →
  words true (Some r) (w ++ s) = words true (Some (reverse w ++ r)) s.
Proof.
  revert r. induction w as [|c w IH]; intros r Hw; [done|]. apply not_elem_of_cons in Hw as [Hc Hw].
  cbn [app words]. apply not_eq_sym, Z.eqb_neq in Hc as ->. cbn [default].
  by rewrite IH, reverse_cons, <-app_assoc.
Qed.

(** A word that needs no quotes. *)
Definition plain_word (w : text) : Prop := w ≠ [] ∧ head w ≠ Some HASH ∧ Forall plain_byte w.

#[export] Instance plain_byte_dec c : Decision (plain_byte c).
Proof. unfold plain_byte. apply _. Defined.
#[export] Instance plain_word_dec w : Decision (plain_word w).
Proof. unfold plain_word. apply _. Defined.

Lemma words_start w s : plain_word w → words false None (w ++ s) = words false (Some (reverse w)) s.
Proof.
  intros (Hn & Hh & Hw). destruct w as [|c w]; [done|]. apply Forall_cons in Hw as [[H1 H2] Hw].
  cbn [app words]. apply Z.eqb_neq in H1 as ->. apply Z.eqb_neq in H2 as ->.
  assert ((c =? HASH) = false) as -> by (apply Z.eqb_neq; intros ->; done). cbn [andb default].
  by rewrite words_plain, reverse_cons.
Qed.

Lemma words_word w s : plain_word w → words false None (w ++ SPACE :: s) = w :: words false None s.
Proof. intros Hw. rewrite words_start by done. cbn. by rewrite reverse_involutive. Qed.

Lemma words_last w : plain_word w → words false None w = [w].
Proof.
  intros Hw. pose proof (words_start w [] Hw) as H. rewrite app_nil_r in H. rewrite H. cbn.
  by rewrite reverse_involutive.
Qed.

(** ** Paths *)

(** No byte of a path that is accepted ends its line or its quotes. *)
Definition path_byte (c : Z) : Prop := c ≠ QUOTE ∧ c ≠ NL ∧ c ≠ HASH.

Lemma scan_path_bytes st s : scan_path st s = true → Forall path_byte s.
Proof.
  revert st. induction s as [|c s IH]; intros st; [done|]. cbn [scan_path].
  destruct (scan_byte st c) as [st'|] eqn:E; [|done]. intros Hs. constructor; [|by apply (IH st')].
  clear - E. unfold path_byte, QUOTE, NL, HASH.
  destruct (decide (c = 34 ∨ c = 10 ∨ c = 35)) as [Hc|Hc]; [|naive_solver].
  exfalso. destruct Hc as [-> | [-> | ->]]; by destruct st.
Qed.

Lemma strict_path_bytes p : strictPathRegex p = true → head p = Some SLASH ∧ Forall path_byte p.
Proof.
  destruct p as [|c p]; [done|]. cbn [strictPathRegex]. intros [Hc Hp]%andb_true_iff.
  apply Z.eqb_eq in Hc as ->. split; [done|]. constructor; [done|]. by apply (scan_path_bytes Plain).
Qed.

Lemma Contains_byte s c : Contains s [c] = true ↔ c ∈ s.
Proof.
  induction s as [|x s IH]; cbn [Contains HasPrefix]; [split; [done|by intros ?%elem_of_nil]|].
  rewrite orb_true_iff, IH, elem_of_cons, andb_true_iff, Z.eqb_eq.
  assert (HasPrefix s [] = true) by by destruct s. naive_solver.
Qed.

Lemma no_newline p : Forall path_byte p → NL ∉ p.
Proof. intros Hp Hin. by apply (proj1 (Forall_forall _ _) Hp) in Hin as (_ & ? & _). Qed.

Lemma words_path p s : strictPathRegex p = true →
  words false None (quotePath p ++ SPACE :: s) = p :: words false None s.
Proof.
  intros [Hh Hp]%strict_path_bytes. unfold quotePath.
  destruct (HasPrefix p (bytes "/") && Contains p (bytes " ")) eqn:E.
  - cbn [app words]. rewrite <-app_assoc. cbn [default]. change (34 =? SPACE) with false.
    change (34 =? QUOTE) with true. cbn [app].
    rewrite words_quoted by (intros Hin; by apply (proj1 (Forall_forall _ _) Hp) in Hin as (? & _)).
    cbn [words]. change (QUOTE =? QUOTE) with true. change (QUOTE =? SPACE) with false.
    cbn. by rewrite app_nil_r, reverse_involutive.
  - apply words_word. destruct p as [|c p]; [done|]. cbn in Hh. injection Hh as ->.
    split; [done|]. split; [done|]. rewrite Forall_forall. intros c Hc. split.
    + intros ->. apply andb_false_iff in E as [E|E]; [by destruct p|].
      change (bytes " ") with [SPACE] in E. apply Contains_byte in Hc. congruence.
    + by apply (proj1 (Forall_forall _ _) Hp) in Hc as (? & _).
Qed.

Lemma no_newline_quoted p : strictPathRegex p = true → NL ∉ quotePath p.
Proof.
  intros [_ Hp%no_newline]%strict_path_bytes. unfold quotePath. destruct (_ && _); [|done].
  rewrite not_elem_of_cons, not_elem_of_app, list_elem_of_singleton. by repeat split.
Qed.

Lemma quotePath_head p : strictPathRegex p = true →
  ∃ c q, quotePath p = (c :: q) ∧ (c = SLASH ∨ c = QUOTE).
Proof.
  intros [Hh _]%strict_path_bytes. unfold quotePath. destruct (_ && _); [by eauto|].
  destruct p as [|c p]; [done|]. cbn in Hh. injection Hh as ->. eauto.
Qed.

(** The rule of a path: [after] is a space, the permissions and a comma. *)
Definition permissions (after perms : String.string) : Prop :=
  ∃ w, bytes after = (SPACE :: w) ∧ (NL ∉ w) ∧ words false None w = [bytes perms ++ bytes ","].

Lemma drop_comma_spec w : drop_comma (w ++ bytes ",") = w.
Proof.
  unfold drop_comma, CutSuffix.
  assert (HasSuffix (w ++ bytes ",") (bytes ",") = true) as -> by (apply HasSuffix_spec; by exists w).
  rewrite length_app, Nat.add_sub. by rewrite take_app_length.
Qed.

Lemma allow_rule_reads after perms p : permissions after perms → strictPathRegex p = true →
  statements (path_rule "  " after p) = [file_statement perms p].
Proof.
  intros (w & Ha & Hn & Hw) Hp. unfold path_rule, line. rewrite !app_assoc, Ha. apply statements_line.
  - rewrite !not_elem_of_app, not_elem_of_cons. repeat split; [|by apply no_newline_quoted|done|done].
    apply (bool_decide_unpack _). by vm_compute.
  - unfold read_line. rewrite <-app_assoc.
    assert (skip (λ c, c =? SPACE) (bytes "  " ++ quotePath p ++ SPACE :: w) =
      quotePath p ++ SPACE :: w) as ->.
    { destruct (quotePath_head p Hp) as (c & q & -> & [-> | ->]); reflexivity. }
    rewrite words_path, Hw by done.
    destruct (quotePath_head p Hp) as (c & q & -> & [-> | ->]); cbn [end_statement];
      by rewrite drop_comma_spec.
Qed.

Lemma deny_rule_reads after perms p : permissions after perms → strictPathRegex p = true →
  statements (path_rule "  deny " after p) = [deny_statement perms p].
Proof.
  intros (w & Ha & Hn & Hw) Hp. unfold path_rule, line. rewrite !app_assoc, Ha. apply statements_line.
  - rewrite !not_elem_of_app, not_elem_of_cons. repeat split; [|by apply no_newline_quoted|done|done].
    apply (bool_decide_unpack _). by vm_compute.
  - unfold read_line. rewrite <-app_assoc.
    change (skip _ (bytes "  deny " ++ ?s)) with (bytes "deny" ++ SPACE :: s).
    rewrite words_word, words_path, Hw by first [done|apply (bool_decide_unpack _); by vm_compute].
    cbn [end_statement]. by rewrite drop_comma_spec.
Qed.

Definition valid_paths (l : list text) : Prop := Forall (λ p, strictPathRegex p = true) l.

Lemma path_rules_read before after st l :
  (∀ p, strictPathRegex p = true → statements (path_rule before after p) = [st p]) →
  valid_paths l → statements (path_rules before after l) = map st l.
Proof.
  intros Hst Hl. apply statements_concat.
  - intros p _. unfold path_rule, line. rewrite !app_assoc. apply whole_nl.
  - intros p Hp. apply Hst. by apply (proj1 (Forall_forall _ _) Hl).
Qed.

Lemma allow_rules_read after perms l : permissions after perms → valid_paths l →
  statements (path_rules "  " after l) = map (file_statement perms) l.
Proof. intros ? ?. apply path_rules_read; [intros; by apply allow_rule_reads|done]. Qed.

Lemma deny_rules_read after perms l : permissions after perms → valid_paths l →
  statements (path_rules "  deny " after l) = map (deny_statement perms) l.
Proof. intros ? ?. apply path_rules_read; [intros; by apply deny_rule_reads|done]. Qed.

Ltac permissions :=
  eexists; split; [reflexivity|split; [apply (bool_decide_unpack _); by vm_compute|vm_compute; reflexivity]].

(** Splits a text into its lines and reads the rules of paths. *)
Ltac read_section :=
  rewrite <-?app_assoc; repeat rewrite statements_whole by whole;
  rewrite ?(allow_rules_read " ixr," "ixr"), ?(allow_rules_read " mr," "mr"),
    ?(allow_rules_read " r," "r"), ?(allow_rules_read " wlk," "wlk"),
    ?(allow_rules_read " rwlk," "rwlk"), ?(deny_rules_read " wlk," "wlk"),
    ?(deny_rules_read " r," "r") by (assumption || permissions);
  change (statements [NL]) with (@nil statement); change (statements []) with (@nil statement);
  rewrite ?app_nil_l, ?app_nil_r.

Lemma executable_reads e :
  valid_paths (default [] (ex_executables e)) → valid_paths (default [] (ex_libraries e)) →
  statements (executable_section e ++ [NL]) = executable_statements e.
Proof.
  destruct e as [[ex|] [lib|]]; unfold executable_section, executable_statements;
    cbn [ex_executables ex_libraries given default map]; intros; by read_section.
Qed.

Lemma filesystem_reads complain f :
  valid_paths (default [] (f_readonly f)) → valid_paths (default [] (f_writeonly f)) →
  valid_paths (default [] (f_readwrite f)) →
  statements (filesystem_section complain f) = filesystem_statements complain f.
Proof.
  destruct f as [[ro|] [wo|] [rw|]], complain; unfold filesystem_section, filesystem_statements;
    cbn [f_readonly f_writeonly f_readwrite given default map negb when]; intros; by read_section.
Qed.

(** ** Rules for ptrace *)

Definition prefix_head (r : text) (l : list text) : list text :=
  match l with x :: l => (r ++ x) :: l | [] => [] end.

Ltac plain := apply (bool_decide_unpack _); by vm_compute.

Lemma words_any cur w s : plain_word w →
  words false cur (w ++ s) = words false (Some (reverse w ++ default [] cur)) s.
Proof.
  intros Hw. destruct cur as [r|]; cbn [default]; [by apply words_plain, Hw|].
  by rewrite words_start, app_nil_r.
Qed.

(** The accesses of a rule, up to the parenthesis. *)
Lemma words_access cur l t : l ≠ [] → Forall plain_word l →
  ∃ init last, prefix_head (reverse (default [] cur)) (access_words l) = init ++ [last] ∧
    words false cur (Join l (bytes ", ") ++ bytes ")" ++ t) = init ++ words false (Some (reverse last)) t.
Proof.
  intros Hn Hl. revert cur Hn. induction Hl as [|x l Hx Hl IH]; intros cur Hn; [done|].
  destruct l as [|y l].
  - cbn [access_words Join prefix_head]. eexists [], _. split; [done|].
    rewrite !words_any by (done || plain). cbn [app default]. by rewrite !reverse_app, reverse_involutive, <-app_assoc.
  - change (Join (x :: y :: l) (bytes ", ")) with (x ++ bytes ", " ++ Join (y :: l) (bytes ", ")).
    change (access_words (x :: y :: l)) with ((x ++ bytes ",") :: access_words (y :: l)).
    destruct (IH None ltac:(done)) as (init & last & Hi & Hw). cbn [default] in Hi.
    change (reverse []) with (@nil Z) in Hi.
    exists ((reverse (default [] cur) ++ x ++ bytes ",") :: init), last. split.
    + cbn [prefix_head app]. rewrite <-Hi. by destruct (access_words (y :: l)).
    + rewrite <-!app_assoc. change (bytes ", " ++ ?u) with (bytes "," ++ SPACE :: u).
      rewrite !words_any by (done || plain). change (words false (Some ?r) (SPACE :: ?u))
        with (reverse r :: words false None u). rewrite Hw. cbn [app]. f_equal.
      cbn [from_option]; unfold id. by rewrite ?reverse_app, ?reverse_involutive, <-app_assoc.
Qed.

Lemma end_statement_snoc l w : end_statement (l ++ [w ++ bytes ","]) = l ++ [w].
Proof.
  induction l as [|x l IH]; [cbn; by rewrite drop_comma_spec|].
  cbn [app end_statement]. by destruct (l ++ [w ++ bytes ","]) eqn:E; [destruct l|rewrite IH].
Qed.

(** What a rule can consist of. *)
Definition word_byte (c : Z) : Prop := plain_byte c ∧ c ≠ NL.

Lemma peer_rest_bytes fuel s : peer_rest fuel s = true → Forall word_byte s.
Proof.
  revert s. induction fuel as [|fuel IH]; intros [|c s]; try done. cbn [peer_rest].
  destruct (peer_char c) eqn:E.
  - intros Hs. constructor; [|by apply IH]. unfold word_byte, plain_byte, SPACE, QUOTE, NL.
    destruct (decide (c = 32 ∨ c = 34 ∨ c = 10)) as [Hc|Hc]; [|naive_solver].
    by destruct Hc as [-> | [-> | ->]].
  - unfold CutPrefix. destruct (HasPrefix _ _) eqn:Ep; [|done].
    apply HasPrefix_spec in Ep as [r ->]. rewrite drop_app_length. intros Hr%IH.
    apply Forall_app. split; [|done]. apply (bool_decide_unpack _). by vm_compute.
Qed.

Lemma peer_bytes p : ptracePeerRegex p = true → Forall word_byte p.
Proof. intros [_ ?%peer_rest_bytes]%andb_true_iff. done. Qed.

(** A word of a fixed list. *)
Definition fixed_word (w : text) : Prop := plain_word w ∧ NL ∉ w.

Lemma access_words_plain a : memb a ptraceAccess = true → fixed_word a.
Proof.
  rewrite memb_spec. revert a. apply Forall_forall. unfold fixed_word.
  apply (bool_decide_unpack _). by vm_compute.
Qed.

Lemma valid_ptrace r : validatePtraceRule r = None →
  Access r ≠ [] ∧ Forall fixed_word (Access r) ∧ Forall word_byte (Peer r).
Proof.
  unfold validatePtraceRule. destruct (Access r) as [|a l] eqn:Ea; [done|]. cbn [empty]. rewrite <-Ea.
  destruct (filter _ (Access r)) eqn:Ef; [|done].
  intros Hp. split; [by rewrite Ea|]. split.
  - apply Forall_forall. intros x Hx. apply access_words_plain.
    destruct (memb x ptraceAccess) eqn:E; [done|].
    assert (x ∈ filter (λ a, memb a ptraceAccess = false) (Access r)) as Hin
      by (by apply list_elem_of_filter).
    rewrite Ef in Hin. by apply elem_of_nil in Hin.
  - destruct (Peer r) eqn:Er; [constructor|]. rewrite <-Er in *. 
    destruct (ptracePeerRegex (Peer r)) eqn:E; [by apply peer_bytes|].
    rewrite Er in Hp at 1. done.
Qed.

Lemma plain_word_app w v : plain_word w → Forall plain_byte v → plain_word (w ++ v).
Proof.
  intros (Hn & Hh & Hw) Hv. split; [by destruct w|]. split; [by destruct w|]. by apply Forall_app.
Qed.

Lemma Join_no_newline l : Forall fixed_word l → NL ∉ Join l (bytes ", ").
Proof.
  induction 1 as [|x l [_ Hx] _ IH]; [apply not_elem_of_nil|]. destruct l as [|y l]; [done|].
  change (Join (x :: y :: l) (bytes ", ")) with (x ++ bytes ", " ++ Join (y :: l) (bytes ", ")).
  rewrite !not_elem_of_app. repeat split; [done|plain|done].
Qed.

Lemma ptrace_rule_reads r : validatePtraceRule r = None →
  (NL ∉ ptrace_rule r) ∧ read_line (ptrace_rule r) = Some (ptrace_statement r).
Proof.
  intros (Hn & Ha & Hp)%valid_ptrace. split.
  - unfold ptrace_rule. rewrite !not_elem_of_app. repeat split; [plain|by apply Join_no_newline|plain| |plain].
    destruct (empty (Peer r)); cbn [when negb]; [apply not_elem_of_nil|].
    apply not_elem_of_app. split; [plain|]. intros Hin. by apply (proj1 (Forall_forall _ _) Hp) in Hin as [_ ?].
  - unfold read_line, ptrace_rule. change (skip _ (bytes "  ptrace (" ++ ?s)) with (bytes "ptrace" ++ SPACE :: bytes "(" ++ s).
    rewrite words_word, words_any by plain.
    destruct (words_access (Some (reverse (bytes "("))) (Access r)
      (when (negb (empty (Peer r))) (bytes " peer=" ++ Peer r) ++ bytes ",") Hn) as (init & last & Hi & Hw).
    { eapply Forall_impl; [exact Ha|by intros ? [? _]]. }
    change (Some (reverse (bytes "(") ++ default [] None)) with (Some (reverse (bytes "("))).
    rewrite Hw. change (reverse (default [] (Some (reverse (bytes "("))))) with (bytes "(") in Hi.
    unfold ptrace_statement. fold (prefix_head (bytes "(") (access_words (Access r))). rewrite Hi.
    destruct (Peer r) as [|c p] eqn:Ep; cbn [empty negb when app].
    + pose proof (words_plain (bytes ",") (reverse last) [] ltac:(plain)) as Hc. rewrite app_nil_r in Hc.
      rewrite Hc. cbn [words flush]. rewrite reverse_app, !reverse_involutive, app_nil_r.
      change (bytes "ptrace" :: init ++ ?u) with ((bytes "ptrace" :: init) ++ u). by rewrite end_statement_snoc.
    + rewrite <-Ep in *. rewrite <-!app_assoc. change (bytes " peer=" ++ ?s) with (SPACE :: bytes "peer=" ++ s).
      change (words false (Some ?u) (SPACE :: ?s)) with (reverse u :: words false None s).
      rewrite reverse_involutive, words_last.
      * change (init ++ last :: ?u) with (init ++ [last] ++ u).
        change (bytes "ptrace" :: init ++ ?u) with ((bytes "ptrace" :: init) ++ u).
        rewrite (app_assoc _ [last]), (app_assoc (bytes "peer=")), end_statement_snoc.
        by rewrite <-(app_assoc (_ :: init)).
      * apply plain_word_app; [plain|]. apply Forall_app. split; [|plain].
        eapply Forall_impl; [exact Hp|by intros ? [? _]].
Qed.

Lemma ptrace_section_reads l : Forall (λ r, validatePtraceRule r = None) l →
  statements (ptrace_section l ++ [NL]) = map ptrace_statement l.
Proof.
  intros Hl. unfold ptrace_section. destruct l as [|r l]; [reflexivity|].
  set (rules := r :: l) in *. change (when _ ?t) with t.
  assert (∀ pre, statements (pre ++ concat (map (λ r, NL :: ptrace_rule r) rules)) =
    statements pre ++ map ptrace_statement rules) as Hc.
  { clearbody rules. induction Hl as [|x l' Hx _ IH]; intros pre; cbn [map concat];
      [by rewrite !app_nil_r|].
    destruct (ptrace_rule_reads x Hx) as [Hn Hr].
    rewrite <-app_comm_cons, statements_app, IH. cbn [app]. by rewrite (statements_one _ _ Hn Hr). }
  rewrite (statements_app _ []), app_nil_r. change ([NL; NL] ++ ?a ++ ?b) with (([NL; NL] ++ a) ++ b).
  by rewrite Hc.
Qed.

(** ** The other rules *)

Lemma capability_rules_read l : Forall fixed_word l →
  statements (concat (map capability_rule l)) = map capability_statement l.
Proof.
  intros Hl. apply statements_concat.
  - intros c _. unfold capability_rule, line. rewrite !app_assoc. apply whole_nl.
  - intros c Hc. apply (proj1 (Forall_forall _ _) Hl) in Hc as [Hp Hn].
    unfold capability_rule, line. rewrite !app_assoc. apply statements_line.
    + rewrite !not_elem_of_app. repeat split; [plain|done|plain].
    + unfold read_line. rewrite <-app_assoc.
      change (skip _ (bytes "  capability " ++ ?s)) with (bytes "capability" ++ SPACE :: s).
      rewrite words_word, words_last by (plain || (apply plain_word_app; [done|plain])).
      change (end_statement [?a; ?b]) with (end_statement ([a] ++ [b])). by rewrite end_statement_snoc.
Qed.

Lemma network_reads complain n :
  statements (network_section complain n ++ [NL]) = network_statements complain n.
Proof. by destruct complain, n as [[] [] []]; vm_compute. Qed.

Lemma name_bytes name : profileNameChars name = true → fixed_word name.
Proof.
  intros [He Hn]%andb_true_iff. destruct name as [|c name]; [done|]. rewrite forallb_forall in Hn.
  assert (∀ x, x ∈ c :: name → x ≠ SPACE ∧ x ≠ QUOTE ∧ x ≠ NL ∧ x ≠ HASH) as Hx.
  { intros x Hx%list_elem_of_In%Hn. unfold SPACE, QUOTE, NL, HASH.
    destruct (decide (x = 32 ∨ x = 34 ∨ x = 10 ∨ x = 35)) as [Hc|Hc]; [|naive_solver].
    by destruct Hc as [-> | [-> | [-> | ->]]]. }
  split; [split; [done|split]|].
  - cbn. intros [= ->]. by destruct (Hx HASH (list_elem_of_here _ _)) as (_ & _ & _ & ?).
  - apply Forall_forall. intros x Hin. split; by apply Hx.
  - intros Hin. by destruct (Hx NL Hin) as (_ & _ & ? & _).
Qed.

Lemma profile_line_reads complain name : name = [] ∨ profileNameChars name = true →
  statements (bytes "profile " ++ name ++ bytes " flags=(" ++ profileMode complain ++
    line ",attach_disconnected,mediate_deleted) {") = [profile_statement complain name].
Proof.
  intros [-> | Hn]; [by destruct complain; vm_compute|].
  assert (Hf : fixed_word name) by by apply name_bytes. destruct Hf as [Hp Hl].
  unfold line. rewrite !app_assoc. apply statements_line.
  - rewrite !not_elem_of_app. repeat split; [plain|done|plain|by destruct complain; plain|plain].
  - unfold read_line. rewrite <-!app_assoc.
    change (skip _ (bytes "profile " ++ ?s)) with (bytes "profile" ++ SPACE :: s).
    change (bytes " flags=(" ++ ?s) with (SPACE :: bytes "flags=(" ++ s).
    rewrite !words_word by (plain || done). unfold profile_statement.
    destruct name as [|c name]; [by destruct Hp|]. by destruct complain; vm_compute.
Qed.

(** ** The whole profile *)

Record valid_data (d : ApparmorData) : Prop := {
  vd_name : d_name d = [] ∨ profileNameChars (d_name d) = true;
  vd_paths : valid_paths (fs_paths d);
  vd_execs : valid_paths (exec_paths d);
  vd_caps : Forall fixed_word (capability_names d);
  vd_ptrace : Forall (λ r, validatePtraceRule r = None) (d_ptrace d)
}.

Lemma template_reads complain allowMount d : valid_data d →
  statements (appArmorTemplate complain allowMount d) = profile_statements complain allowMount d.
Proof.
  intros [Hn Hp He Hc Ht]. unfold appArmorTemplate, profile_statements.
  assert (Hexec : statements (given (d_executable d) executable_section ++ [NL]) =
    match d_executable d with Some e => executable_statements e | None => [] end).
  { unfold exec_paths in He. destruct (d_executable d); [|reflexivity].
    apply Forall_app in He as [? ?]. by apply executable_reads. }
  assert (Hfs : statements (given (d_filesystem d) (filesystem_section complain)) =
    match d_filesystem d with Some f => filesystem_statements complain f | None => [] end).
  { unfold fs_paths in Hp. destruct (d_filesystem d); [|reflexivity].
    apply Forall_app in Hp as [? [? ?]%Forall_app]. by apply filesystem_reads. }
  assert (Hnet : statements (given (d_network d) (network_section complain) ++ [NL]) =
    match d_network d with Some n => network_statements complain n | None => [] end)
    by (destruct (d_network d); [apply network_reads|reflexivity]).
  assert (Hcap : statements (given (d_capability d) (λ c, concat (map capability_rule (default [] c)))) =
    map capability_statement (capability_names d)).
  { unfold capability_names in *. destruct (d_capability d); [by apply capability_rules_read|done]. }

  assert (whole (given (d_filesystem d) (filesystem_section complain))) as Hw.
  { apply whole_given. intros f. unfold filesystem_section. whole. }
  assert (whole (given (d_capability d) (λ c, concat (map capability_rule (default [] c))))) as Hw'.
  { apply whole_given. intros c. apply whole_concat. intros x. unfold capability_rule, line.
    rewrite !app_assoc. apply whole_nl. }
  assert (∀ c, whole (default_denials) ∧ whole (mount_files c) ∧ whole (mount_rules c)) as Hfix.
  { intros c. repeat split; [unfold default_denials; whole|unfold mount_files|unfold mount_rules]; rewrite app_assoc; apply whole_nl. }
  assert (whole (bytes "profile " ++ d_name d ++ bytes " flags=(" ++ profileMode complain ++
    line ",attach_disconnected,mediate_deleted) {")) as Hl
    by (unfold line; rewrite !app_assoc; apply whole_nl).
  pose proof (profile_line_reads complain (d_name d) Hn) as Hname.
  pose proof (ptrace_section_reads (d_ptrace d) Ht) as Hpt.
  pose proof (whole_nl (given (d_executable d) executable_section)).
  pose proof (whole_nl (given (d_network d) (network_section complain))).
  pose proof (whole_nl (ptrace_section (d_ptrace d))).
  generalize dependent (given (d_executable d) executable_section ++ [NL]).
  generalize dependent (given (d_network d) (network_section complain) ++ [NL]).
  generalize dependent (ptrace_section (d_ptrace d) ++ [NL]).
  generalize dependent (bytes "profile " ++ d_name d ++ bytes " flags=(" ++ profileMode complain ++
    line ",attach_disconnected,mediate_deleted) {").
  intros p Hpw Hname t Ht' Htw n Hn' Hnw e He' Hew.
  rewrite !statements_whole by (first [assumption|apply Hfix|apply whole_when, (Hfix true)|whole]).
  rewrite Hname, He', Hfs, Ht', Hn', Hcap.
  by destruct complain, allowMount; vm_compute.
Qed.

(** ** Validation *)

Lemma first_error_none {A} (f : A → option armor_error) l :
  first_error f l = None ↔ Forall (λ x, f x = None) l.
Proof.
  induction l as [|x l IH]; cbn [first_error]; [split; [constructor|done]|].
  rewrite Forall_cons. destruct (f x); [split; [done|naive_solver]|]. rewrite IH. naive_solver.
Qed.

Lemma check_none {A} (ok : A → bool) err x : check ok err x = None ↔ ok x = true.
Proof. unfold check. by destruct (ok x). Qed.

Lemma executable_strict p : validateExecutableOrLibrary p = true → strictPathRegex p = true.
Proof. by intros [? _]%andb_true_iff. Qed.

(** *** Normalized capabilities *)

Definition trim (s : text) : text := reverse (skip ascii_space (reverse (skip ascii_space s))).

Lemma skip_split f s : ∃ a, s = a ++ skip f s ∧ Forall (λ c, f c = true) a ∧
  (∀ c, head (skip f s) = Some c → f c = false).
Proof.
  induction s as [|c s (a & Ha & Hf & Hh)]; cbn [skip]; [by exists []|].
  destruct (f c) eqn:E; [|exists []; repeat split; [constructor|]; by intros ? [= <-]].
  exists (c :: a). split; [by rewrite Ha at 1|]. split; [by constructor|done].
Qed.

Lemma skip_done f s : (∀ c, head s = Some c → f c = false) → skip f s = s.
Proof. destruct s as [|c s]; [done|]. cbn. intros H. by rewrite H. Qed.

Lemma trim_trim s : trim (trim s) = trim s.
Proof.
  unfold trim. set (u := skip ascii_space s).
  destruct (skip_split ascii_space s) as (_ & _ & _ & Hu). fold u in Hu.
  destruct (skip_split ascii_space (reverse u)) as (b & Hb & _ & Hv).
  set (v := skip ascii_space (reverse u)) in *.
  assert (u = reverse v ++ reverse b) as Hu'
    by (rewrite <-reverse_app, <-Hb; symmetry; apply reverse_involutive).
  rewrite (skip_done _ (reverse v)), reverse_involutive; [by rewrite skip_done|].
  intros c Hc. apply Hu. rewrite Hu'. by destruct (reverse v).
Qed.

Lemma is_ascii_skip f s : forallb is_ascii s = true → forallb is_ascii (skip f s) = true.
Proof.
  destruct (skip_split f s) as (a & Ha & _). rewrite Ha at 1. by rewrite forallb_app, andb_true_iff; intros [].
Qed.

Lemma is_ascii_reverse s : forallb is_ascii (reverse s) = forallb is_ascii s.
Proof.
  induction s as [|c s IH]; [done|]. rewrite reverse_cons, forallb_app, IH. cbn.
  by rewrite andb_true_r, andb_comm.
Qed.

Lemma is_ascii_trim s : forallb is_ascii s = true → forallb is_ascii (trim s) = true.
Proof.
  intros Hs. unfold trim. rewrite is_ascii_reverse. apply is_ascii_skip. rewrite is_ascii_reverse.
  by apply is_ascii_skip.
Qed.

Lemma lower_class c : ascii_space (lower c) = ascii_space c ∧ (is_ascii c = true → is_ascii (lower c) = true) ∧
  lower (lower c) = lower c.
Proof. unfold ascii_space, lower, is_ascii, is_upper, between. repeat case_match; zbool; lia. Qed.

Lemma skip_lower s : skip ascii_space (map lower s) = map lower (skip ascii_space s).
Proof.
  induction s as [|c s IH]; [done|]. cbn. destruct (lower_class c) as [-> _]. by destruct (ascii_space c).
Qed.

Lemma trim_lower s : trim (map lower s) = map lower (trim s).
Proof.
  unfold trim. rewrite skip_lower. change (map lower) with (fmap (M:=list) lower).
  rewrite <-fmap_reverse. change (fmap (M:=list) lower) with (map lower). rewrite skip_lower.
  change (map lower) with (fmap (M:=list) lower). by rewrite fmap_reverse.
Qed.

Lemma ascii_lower s : forallb is_ascii s = true → forallb is_ascii (map lower s) = true.
Proof.
  rewrite !forallb_forall. intros Hs x (y & <- & Hy)%in_map_iff. apply lower_class. by apply Hs.
Qed.

Section profile.
Context (unicode_lower unicode_trim : text → text).
Abbreviation normalize s := (ToLower unicode_lower (TrimSpace unicode_trim s)).

(** Of the conversions of Unicode only this is used: to convert a string again
    changes nothing. *)
Definition converts_once : Prop := ∀ s, forallb is_ascii s = false → normalize (normalize s) = normalize s.

Lemma normalize_ascii s : forallb is_ascii s = true → normalize s = map lower (trim s).
Proof.
  intros Hs. unfold TrimSpace. rewrite Hs. fold (trim s). unfold ToLower.
  by rewrite is_ascii_trim.
Qed.

Lemma normalize_twice s : converts_once → normalize (normalize s) = normalize s.
Proof.
  intros Hu. destruct (forallb is_ascii s) eqn:E; [|by apply Hu].
  rewrite (normalize_ascii s E), normalize_ascii by by apply ascii_lower, is_ascii_trim.
  rewrite trim_lower, trim_trim, map_map. apply map_ext. intros c. apply lower_class.
Qed.

Lemma capability_words c : memb c validCapabilities = true → fixed_word c.
Proof.
  rewrite memb_spec. revert c. apply Forall_forall. unfold fixed_word. apply (bool_decide_unpack _).
  by vm_compute.
Qed.

Lemma valid_capabilities l : converts_once →
  Forall (λ c, validateCapability unicode_lower unicode_trim c = true) (default [] (normalizeCapabilities unicode_lower unicode_trim l)) →
  Forall fixed_word (default [] (normalizeCapabilities unicode_lower unicode_trim l)).
Proof.
  intros Hu. destruct l as [l|]; [|constructor]. cbn. rewrite !Forall_forall. intros Hv c Hc.
  pose proof (Hv c Hc) as Hm. apply list_elem_of_fmap in Hc as (r & -> & _).
  unfold validateCapability in Hm. rewrite normalize_twice in Hm by done. by apply capability_words.
Qed.

Lemma data_names name a :
  let d := newApparmorData unicode_lower unicode_trim name a in
  d_name d = name ∧ capability_names d =
    default [] (normalizeCapabilities unicode_lower unicode_trim (default None (ab_capability a))).
Proof.
  unfold newApparmorData, capability_names.
  destruct a as [[[]|] [[]|] net [[]|] pt]; cbn [ab_executable ab_filesystem];
    repeat destruct (splitPtraceRules _ _); done.
Qed.

Lemma Validate_valid name a : converts_once →
  let d := newApparmorData unicode_lower unicode_trim name a in
  Validate unicode_lower unicode_trim d = None → valid_data d.
Proof.
  intros Hu d. unfold Validate. rewrite first_error_none, !Forall_cons. unfold id.
  rewrite !first_error_none. intros (Hn & Hp & Hc & Ht & He & _).
  setoid_rewrite check_none in Hp. setoid_rewrite check_none in Hc. setoid_rewrite check_none in He.
  split.
  - destruct (d_name d) as [|x n]; [by left|right]. cbn [empty negb andb] in Hn.
    by destruct (profileNameChars (x :: n)).
  - exact Hp.
  - eapply Forall_impl; [exact He|apply executable_strict].
  - destruct (data_names name a) as [_ Hd]. fold d in Hd. rewrite Hd in *. by apply valid_capabilities.
  - exact Ht.
Qed.

Definition allows_mount (a : AppArmorAbstract) : bool :=
  match ab_capability a with
  | Some (Some c) => memb (bytes "sys_rawio") (default [] (normalizeCapabilities unicode_lower unicode_trim (Some c)))
  | _ => false
  end.

(** C16 The text of a profile says exactly what its abstract profile says: if
    [GenerateProfile] prints a profile, then the statements of the text, read
    line by line and word by word, are those of the validated data, whatever
    bytes the name, the paths, the capabilities and the peers of ptrace rules
    have.  No input can add a statement, change one or hide one. *)
Theorem profile_reads_back name mode abstract t :
  converts_once → GenerateProfile unicode_lower unicode_trim name mode abstract = inr t →
  ∃ a, abstract = Some a ∧
    statements t = profile_statements (bool_decide (mode = AppArmorModeComplain)) (allows_mount a)
      (newApparmorData unicode_lower unicode_trim name a).
Proof.
  intros Hu. destruct abstract as [a|]; [|done]. cbn [GenerateProfile].
  destruct (Validate _ _ _) eqn:Ev; [done|]. intros [= <-]. exists a. split; [done|].
  by apply template_reads, Validate_valid.
Qed.
End profile.

(** A profile with paths that need quotes, and rules for ptrace in its lists. *)
Definition demo_abstract : AppArmorAbstract :=
  Abstract (Some (ExecutablesRules (Some [bytes "/opt/my app/bin"; bytes "ptrace (READ), # old"]) None))
    (Some (FsRules (Some [bytes "/My Documents/a,"]) (Some []) None)) None
    (Some (Some [bytes " Net_Admin"])) (Some (PtraceRules [bytes "trace"; bytes "read"] profile_name_var)).

Definition fixed_abstract : AppArmorAbstract :=
  {| demo_abstract with ab_filesystem := Some (FsRules (Some [bytes "/My Documents/a"]) (Some []) None) |}.

(** A comma in a path would end the rule. *)
Example comma_rejected :
  GenerateProfile id id (bytes "demo") (bytes "Enforce") (Some demo_abstract) =
    inl (InvalidPath (bytes "/My Documents/a,")).
Proof. vm_compute. reflexivity. Qed.

Lemma id_converts_once : converts_once id id.
Proof.
  intros s Hs. unfold TrimSpace, ToLower, id. by rewrite !Hs.
Qed.

Lemma profile_reads_back_witness :
  match GenerateProfile id id (bytes "demo") AppArmorModeComplain (Some fixed_abstract) with
  | inr t => ∃ a, Some fixed_abstract = Some a ∧
      statements t = profile_statements true (allows_mount id id a) (newApparmorData id id (bytes "demo") a)
  | inl _ => False
  end.
Proof.
  destruct (GenerateProfile id id (bytes "demo") AppArmorModeComplain (Some fixed_abstract)) as [e|t] eqn:E;
    [vm_compute in E; done|].
  apply (profile_reads_back id id (bytes "demo") AppArmorModeComplain (Some fixed_abstract) t id_converts_once E).
Defined.
