(* ===== verification/Printed.v ===== *)
(** * The printed profile of a recording ([recorder.go], [crd2armor.go])

    The recorder, the abstract profile made of what it recorded, and the text that
    is printed of it.  The text has exactly the rules of the processed recording,
    and with the capability for raw I/O those of two tools
    ([recorded_profile_printed]), so a file a workload used is allowed by a
    statement of the text, with the exceptions of the recorder
    ([used_file_printed]).  A profile that enforces also
    denies to write what was only read and to read what was only written;
    [deny_hides_recorded] shows that this can take back what another rule
    allows. *)
From S2P Require Import Prelude Bpf State Keys Report Wire Paths Dirs AppArmor Recording Profile Armor ReadBack.
Import String.StringSyntax.
#[local] Open Scope string_scope.
#[local] Open Scope list_scope.
#[local] Open Scope Z_scope.

(** [generateAppArmorProfile]: what is made of [GetAppArmorProcessed]. *)
Definition generateAppArmorProfile (processed : BpfAppArmorProcessed) : AppArmorAbstract :=
  AbstractFromRecording (Recorded (pr_files processed) (UseRaw (pr_socket processed))
    (UseTCP (pr_socket processed)) (UseUDP (pr_socket processed)) (pr_capabilities processed)).

(** ** Statements about files *)

Definition executables (d : ApparmorData) : list text :=
  match d_executable d with Some e => default [] (ex_executables e) | None => [] end.
Definition libraries (d : ApparmorData) : list text :=
  match d_executable d with Some e => default [] (ex_libraries e) | None => [] end.
Definition readonly (d : ApparmorData) : list text :=
  match d_filesystem d with Some f => default [] (f_readonly f) | None => [] end.
Definition writeonly (d : ApparmorData) : list text :=
  match d_filesystem d with Some f => default [] (f_writeonly f) | None => [] end.
Definition readwrite (d : ApparmorData) : list text :=
  match d_filesystem d with Some f => default [] (f_readwrite f) | None => [] end.

(** The permissions a profile gives on a path. *)
Definition path_permissions (allowMount : bool) (ex lib ro wo rw : list text) (p perms : text) : Prop :=
  (p ∈ ex ∧ perms = bytes "ixr") ∨ (p ∈ lib ∧ perms = bytes "mr") ∨ (p ∈ ro ∧ perms = bytes "r") ∨
  (p ∈ wo ∧ perms = bytes "wlk") ∨ (p ∈ rw ∧ perms = bytes "rwlk") ∨
  (allowMount = true ∧ p ∈ [bytes "/sbin/fsck"; bytes "/sbin/fsck.ext4"] ∧ perms = bytes "ixr").

Lemma elem_of_file_statements w l p perms :
  [p; perms] ∈ map (file_statement w) l ↔ p ∈ l ∧ perms = bytes w.
Proof.
  change (map (file_statement w) l) with (file_statement w <$> l). rewrite list_elem_of_fmap.
  unfold file_statement. naive_solver.
Qed.

Lemma elem_of_deny_statements w l p perms :
  [p; perms] ∈ map (deny_statement w) l ↔ False.
Proof.
  change (map (deny_statement w) l) with (deny_statement w <$> l). rewrite list_elem_of_fmap.
  unfold deny_statement. naive_solver.
Qed.

(** Statements that are not about a path. *)
Definition other_statement (st : statement) : Prop :=
  match st with w :: _ => head w ≠ Some SLASH | [] => True end.
#[export] Instance other_statement_dec st : Decision (other_statement st).
Proof. destruct st; apply _. Defined.

Lemma other_statements l p perms : Forall other_statement l → head p = Some SLASH →
  [p; perms] ∈ l ↔ False.
Proof.
  intros Hl Hp. split; [|done]. intros Hin. by apply (proj1 (Forall_forall _ _) Hl) in Hin.
Qed.

Lemma other_map {A} (f : A → statement) l : (∀ x, other_statement (f x)) → Forall other_statement (map f l).
Proof. intros Hf. apply Forall_forall. intros st (x & -> & _)%list_elem_of_fmap. apply Hf. Qed.

(** The parts of a profile that are not about files. *)
Lemma other_parts complain allowMount d :
  Forall other_statement [[bytes "#include"; bytes "<tunables/global>"];
    profile_statement complain (d_name d); [bytes "#include"; bytes "<abstractions/base>"]] ∧
  Forall other_statement (map ptrace_statement (d_ptrace d)) ∧
  Forall other_statement (match d_network d with Some n => network_statements complain n | None => [] end) ∧
  Forall other_statement (map capability_statement (capability_names d)) ∧
  Forall other_statement (if allowMount : bool then [[bytes "mount"]; [bytes "remount"]; [bytes "umount"]] else []) ∧
  Forall other_statement (if complain then [] else denied_files) ∧
  Forall other_statement [[bytes "}"]].
Proof.
  repeat split.
  - repeat constructor; done.
  - by apply other_map.
  - destruct (d_network d) as [[[] [] []]|], complain; repeat constructor; done.
  - by apply other_map.
  - destruct allowMount; repeat constructor; done.
  - destruct complain; [constructor|]. apply (bool_decide_unpack _). by vm_compute.
  - repeat constructor; done.
Qed.

Lemma executable_part d p perms :
  [p; perms] ∈ match d_executable d with Some e => executable_statements e | None => [] end ↔
  (p ∈ executables d ∧ perms = bytes "ixr") ∨ (p ∈ libraries d ∧ perms = bytes "mr").
Proof.
  unfold executables, libraries, executable_statements. destruct (d_executable d);
    rewrite ?elem_of_app, ?elem_of_file_statements, ?elem_of_nil; naive_solver.
Qed.

Lemma filesystem_part complain d p perms :
  [p; perms] ∈ match d_filesystem d with Some f => filesystem_statements complain f | None => [] end ↔
  (p ∈ readonly d ∧ perms = bytes "r") ∨ (p ∈ writeonly d ∧ perms = bytes "wlk") ∨
  (p ∈ readwrite d ∧ perms = bytes "rwlk").
Proof.
  unfold readonly, writeonly, readwrite, filesystem_statements. destruct (d_filesystem d); cbv zeta;
    [|rewrite !elem_of_nil; naive_solver].
  destruct complain; rewrite ?elem_of_app, ?elem_of_file_statements, ?elem_of_deny_statements, ?elem_of_nil; tauto.
Qed.

Lemma mount_part (allowMount : bool) p perms :
  [p; perms] ∈ (if allowMount then map (file_statement "ixr") [bytes "/sbin/fsck"; bytes "/sbin/fsck.ext4"] else []) ↔
  allowMount = true ∧ p ∈ [bytes "/sbin/fsck"; bytes "/sbin/fsck.ext4"] ∧ perms = bytes "ixr".
Proof.
  destruct allowMount; [rewrite elem_of_file_statements; tauto|]. rewrite elem_of_nil. naive_solver.
Qed.

Lemma file_statement_iff complain allowMount d p perms : head p = Some SLASH →
  [p; perms] ∈ profile_statements complain allowMount d ↔
  path_permissions allowMount (executables d) (libraries d) (readonly d) (writeonly d) (readwrite d) p perms.
Proof.
  intros Hp. unfold profile_statements. rewrite !elem_of_app, executable_part, mount_part, filesystem_part.
  destruct (other_parts complain allowMount d) as (H1 & H2 & H3 & H4 & H5 & H6 & H7).
  rewrite (other_statements _ p perms H1 Hp), (other_statements _ p perms H2 Hp),
    (other_statements _ p perms H3 Hp), (other_statements _ p perms H4 Hp),
    (other_statements _ p perms H5 Hp), (other_statements _ p perms H6 Hp),
    (other_statements _ p perms H7 Hp).
  unfold path_permissions. tauto.
Qed.

(** ** Data of a recording *)

Lemma elem_of_sortedOrNil p l : p ∈ default [] (sortedOrNil l) ↔ p ∈ l.
Proof. destruct l; [done|]. apply elem_of_Sort. Qed.

Lemma slash_not_ptrace ul p : head p = Some SLASH → ptraceRule ul p = None.
Proof. destruct p as [|c p]; [done|]. by intros [= ->]. Qed.

Lemma split_slash_paths ul l : Forall (λ p, head p = Some SLASH) (default [] l) → splitPtraceRules ul l = (l, []).
Proof.
  destruct l as [l|]; [|done]. cbn. intros Hl.
  assert (filter (λ e, ptraceRule ul e = None) l = l ∧ omap (ptraceRule ul) l = []) as [-> ->]; [|done].
  induction Hl as [|p l Hp _ [IH1 IH2]]; [done|]. rewrite filter_cons. cbn.
  rewrite (slash_not_ptrace ul p Hp), decide_True by done. by rewrite IH1, IH2.
Qed.

Section recording.
Context (unicode_lower unicode_trim : text → text).
Abbreviation normalize s := (ToLower unicode_lower (TrimSpace unicode_trim s)).

Definition file_paths (f : BpfAppArmorFileProcessed) : list text :=
  AllowedExecutables f ++ AllowedLibraries f ++ ReadOnlyPaths f ++ WriteOnlyPaths f ++ ReadWritePaths f.

Record data_of_recording (name : text) (pr : BpfAppArmorProcessed) (d : ApparmorData) : Prop := {
  dr_name : d_name d = name;
  dr_executables : ∀ p, p ∈ executables d ↔ p ∈ AllowedExecutables (pr_files pr);
  dr_libraries : ∀ p, p ∈ libraries d ↔ p ∈ AllowedLibraries (pr_files pr);
  dr_readonly : ∀ p, p ∈ readonly d ↔ p ∈ ReadOnlyPaths (pr_files pr);
  dr_writeonly : ∀ p, p ∈ writeonly d ↔ p ∈ WriteOnlyPaths (pr_files pr);
  dr_readwrite : ∀ p, p ∈ readwrite d ↔ p ∈ ReadWritePaths (pr_files pr);
  dr_ptrace : d_ptrace d = [];
  dr_capabilities : capability_names d = map (λ c, normalize c) (pr_capabilities pr);
  dr_network : ∀ n, default (MkNetwork false false false) (d_network d) = n →
    n = MkNetwork (UseRaw (pr_socket pr)) (UseTCP (pr_socket pr)) (UseUDP (pr_socket pr))
}.

Lemma recording_data name pr :
  Forall (λ p, head p = Some SLASH) (file_paths (pr_files pr)) →
  data_of_recording name pr (newApparmorData unicode_lower unicode_trim name (generateAppArmorProfile pr)).
Proof.
  destruct pr as [[ex lib ro wo rw] [raw tcp udp] caps]. unfold file_paths.
  cbn [pr_files AllowedExecutables AllowedLibraries ReadOnlyPaths WriteOnlyPaths ReadWritePaths].
  rewrite !Forall_app. intros (Hex & Hlib & Hro & Hwo & Hrw).
  assert (∀ l, Forall (λ p, head p = Some SLASH) l →
    splitPtraceRules unicode_lower (sortedOrNil l) = (sortedOrNil l, [])) as Hs.
  { intros l Hl. apply split_slash_paths, Forall_forall. intros p Hp.
    rewrite elem_of_sortedOrNil in Hp.
    rewrite Forall_forall in Hl. by apply Hl. }
  set (d := newApparmorData _ _ _ _).
  assert (d_executable d = (if negb (empty ex) || negb (empty lib)
    then Some (MkExecutable (sortedOrNil ex) (sortedOrNil lib)) else None) ∧
    d_filesystem d = (if negb (empty ro) || negb (empty wo) || negb (empty rw)
      then Some (MkFileSystem (sortedOrNil ro) (sortedOrNil wo) (sortedOrNil rw)) else None) ∧
    d_ptrace d = []) as (He & Hf & Hp).
  { unfold d, newApparmorData, generateAppArmorProfile, AbstractFromRecording. cbn.
    destruct (negb (empty ex) || negb (empty lib)), (negb (empty ro) || negb (empty wo) || negb (empty rw));
      cbn; rewrite ?Hs by assumption; done. }
  destruct (data_names unicode_lower unicode_trim name (generateAppArmorProfile
    (Processed (FileProcessed ex lib ro wo rw) (SocketTypes raw tcp udp) caps))) as [Hn Hc]. fold d in Hn, Hc.
  split; [exact Hn|..|exact Hp| |].
  - intros p. unfold executables. rewrite He. rewrite <-(elem_of_sortedOrNil p ex). by destruct ex, lib.
  - intros p. unfold libraries. rewrite He. rewrite <-(elem_of_sortedOrNil p lib). by destruct ex, lib.
  - intros p. unfold readonly. rewrite Hf. rewrite <-(elem_of_sortedOrNil p ro). by destruct ro, wo, rw.
  - intros p. unfold writeonly. rewrite Hf. rewrite <-(elem_of_sortedOrNil p wo). by destruct ro, wo, rw.
  - intros p. unfold readwrite. rewrite Hf. rewrite <-(elem_of_sortedOrNil p rw). by destruct ro, wo, rw.
  - rewrite Hc. by destruct caps.
  - intros n <-. destruct raw, tcp, udp; unfold d, newApparmorData; cbn; by repeat case_match.
Qed.

(** *** The capabilities *)

Lemma known_capability c : c ∈ validCapabilities → normalize c = c.
Proof.
  intros Hc. assert (forallb is_ascii c = true ∧ map lower (trim c) = c) as [Ha Hl].
  { revert c Hc. apply Forall_forall. apply (bool_decide_unpack _). by vm_compute. }
  by rewrite normalize_ascii.
Qed.

(** The conditions under which a recording can be printed: the name is one of a
    profile, no executable has two dots where the validation takes them for a
    traversal, and AppArmor knows the capabilities. *)
Record printable (name : text) (pr : BpfAppArmorProcessed) : Prop := {
  pr_name : name = [] ∨ profileNameChars name = true;
  pr_execs : Forall (λ p, Contains p (bytes "/../") || HasPrefix p (bytes "/..") = false)
    (AllowedExecutables (pr_files pr) ++ AllowedLibraries (pr_files pr));
  pr_caps : Forall (λ c, c ∈ validCapabilities) (pr_capabilities pr)
}.

Lemma known_capabilities l : Forall (λ c, c ∈ validCapabilities) l → map (λ c, normalize c) l = l.
Proof. induction 1 as [|c l Hc _ IH]; [done|]. cbn [map]. by rewrite known_capability, IH. Qed.

Lemma recording_validates name pr :
  printable name pr → Forall (λ p, strictPathRegex p = true) (file_paths (pr_files pr)) →
  let d := newApparmorData unicode_lower unicode_trim name (generateAppArmorProfile pr) in
  Validate unicode_lower unicode_trim d = None ∧ valid_data d.
Proof.
  intros [Hn He Hc] Hp d.
  assert (data_of_recording name pr d) as [Dn Dx Dl Dr Dw Drw Dpt Dc _].
  { apply recording_data. eapply Forall_impl; [exact Hp|]. by intros p [? _]%strict_path_bytes. }
  unfold file_paths in Hp. rewrite !Forall_app, !Forall_forall in Hp. destruct Hp as (P1 & P2 & P3 & P4 & P5).
  rewrite known_capabilities in Dc by done. rewrite Forall_app, !Forall_forall in He.
  assert (Forall (λ p, strictPathRegex p = true) (fs_paths d)) as Hfs.
  { apply Forall_forall. intros p.
    assert (p ∈ fs_paths d ↔ p ∈ readonly d ∨ p ∈ writeonly d ∨ p ∈ readwrite d) as ->.
    { unfold fs_paths, readonly, writeonly, readwrite. destruct (d_filesystem d); rewrite ?elem_of_app, ?elem_of_nil; tauto. }
    rewrite Dr, Dw, Drw. intros [?|[?|?]]; [by apply P3|by apply P4|by apply P5]. }
  assert (Forall (λ p, validateExecutableOrLibrary p = true) (exec_paths d)) as Hex.
  { apply Forall_forall. intros p.
    assert (p ∈ exec_paths d ↔ p ∈ executables d ∨ p ∈ libraries d) as ->.
    { unfold exec_paths, executables, libraries. destruct (d_executable d); rewrite ?elem_of_app, ?elem_of_nil; tauto. }
    rewrite Dx, Dl. intros Hx. unfold validateExecutableOrLibrary. rewrite andb_true_iff, negb_true_iff.
    destruct He. destruct Hx; split; auto. }
  split.
  - unfold Validate. rewrite first_error_none, !Forall_cons. unfold id. rewrite !first_error_none.
    repeat split; [|by setoid_rewrite check_none| |by rewrite Dpt|by setoid_rewrite check_none|constructor].
    + rewrite Dn. destruct Hn as [-> | ->]; [done|]. by rewrite andb_false_r.
    + setoid_rewrite check_none. rewrite Dc. eapply Forall_impl; [exact Hc|]. intros c Hin.
      unfold validateCapability. rewrite known_capability by done. by apply memb_spec.
  - split; [by rewrite Dn|done| | |by rewrite Dpt].
    + eapply Forall_impl; [exact Hex|apply executable_strict].
    + rewrite Dc. eapply Forall_impl; [exact Hc|]. intros c Hin. by apply capability_words, memb_spec.
Qed.

(** *** Statements that start with a word *)

Definition starts (w : text) (st : statement) : bool := bool_decide (head st = Some w).

Lemma file_statements_start w perms l : head w ≠ Some SLASH → Forall (λ p, strictPathRegex p = true) l →
  Forall (λ st, starts w st = false) (map (file_statement perms) l).
Proof.
  intros Hw Hl. apply Forall_forall. intros st (p & -> & Hp)%list_elem_of_fmap.
  rewrite Forall_forall in Hl. apply Hl, strict_path_bytes in Hp as [Hp _].
  apply bool_decide_eq_false. intros [= ->]. done.
Qed.

Lemma filter_no_start {A} (f : A → bool) l : Forall (λ x, f x = false) l → List.filter f l = [].
Proof. induction 1 as [|x l Hx _ IH]; [done|]. cbn. by rewrite Hx. Qed.

Lemma filter_map_all {A} (f : statement → bool) (g : A → statement) l : (∀ x, f (g x) = true) →
  List.filter f (map g l) = map g l.
Proof. intros Hf. induction l as [|x l IH]; [done|]. cbn. by rewrite Hf, IH. Qed.

Lemma filter_map_none {A} (f : statement → bool) (g : A → statement) l : (∀ x, f (g x) = false) →
  List.filter f (map g l) = [].
Proof. intros Hf. induction l as [|x l IH]; [done|]. cbn. by rewrite Hf, IH. Qed.

Lemma deny_statements_start complain w perms l : complain = true ∨ w ≠ bytes "deny" →
  Forall (λ st, starts w st = false) (if complain then [] else map (deny_statement perms) l).
Proof.
  intros Hw. destruct complain; [constructor|]. destruct Hw as [|Hw]; [done|].
  apply Forall_forall. intros st (p & -> & _)%list_elem_of_fmap. apply bool_decide_eq_false.
  intros [= <-]. done.
Qed.

(** The rules of files start with a path, or deny one. *)
Lemma file_parts_start complain w d : valid_data d → head w ≠ Some SLASH →
  complain = true ∨ w ≠ bytes "deny" →
  List.filter (starts w) match d_executable d with Some e => executable_statements e | None => [] end = [] ∧
  List.filter (starts w)
    match d_filesystem d with Some f => filesystem_statements complain f | None => [] end = [].
Proof.
  intros [_ Hp He _ _] Hw Hd. unfold exec_paths, fs_paths in *. split.
  - destruct (d_executable d); [|done]. apply Forall_app in He as [? ?].
    apply filter_no_start, Forall_app. split; by apply file_statements_start.
  - destruct (d_filesystem d); [|done]. apply Forall_app in Hp as [? [? ?]%Forall_app].
    apply filter_no_start. unfold filesystem_statements. cbv zeta. rewrite !Forall_app.
    repeat split; by (apply file_statements_start || apply deny_statements_start).
Qed.

(** The statements about capabilities, and those that deny. *)
Lemma capability_statements complain allowMount d : valid_data d →
  List.filter (starts (bytes "capability")) (profile_statements complain allowMount d) =
  map capability_statement (capability_names d).
Proof.
  intros Hd. unfold profile_statements. rewrite !List.filter_app.
  destruct (file_parts_start complain (bytes "capability") d Hd) as [-> ->]; [done|by right|].
  rewrite (filter_map_all _ capability_statement), (filter_map_none _ ptrace_statement) by done.
  destruct complain, allowMount, (d_network d) as [[[] [] []]|]; cbn [app];
    apply (app_nil_r (map capability_statement (capability_names d))).
Qed.

Lemma complain_denies_nothing allowMount d : valid_data d →
  List.filter (starts (bytes "deny")) (profile_statements true allowMount d) = [].
Proof.
  intros Hd. unfold profile_statements. rewrite !List.filter_app.
  destruct (file_parts_start true (bytes "deny") d Hd) as [-> ->]; [done|by left|].
  rewrite (filter_map_none _ capability_statement), (filter_map_none _ ptrace_statement) by done.
  by destruct allowMount, (d_network d) as [[[] [] []]|].
Qed.

(** The text of a recording says what was recorded. *)
Lemma recording_printed name mode pr :
  printable name pr → Forall (λ p, strictPathRegex p = true) (file_paths (pr_files pr)) →
  ∃ t, GenerateProfile unicode_lower unicode_trim name mode (Some (generateAppArmorProfile pr)) = inr t ∧
    statements t = profile_statements (bool_decide (mode = AppArmorModeComplain))
      (memb (bytes "sys_rawio") (pr_capabilities pr))
      (newApparmorData unicode_lower unicode_trim name (generateAppArmorProfile pr)).
Proof.
  intros Hpr Hp. destruct (recording_validates name pr Hpr Hp) as [Hv Hd].
  cbn [GenerateProfile]. rewrite Hv. eexists. split; [reflexivity|].
  rewrite template_reads by done. f_equal.
  unfold generateAppArmorProfile, AbstractFromRecording. cbn [ab_capability ra_capabilities].
  destruct (pr_capabilities pr) as [|c l] eqn:E; [done|]. cbn [empty negb].
  destruct Hpr as [_ _ Hc]. rewrite E in Hc. cbn [normalizeCapabilities fmap option_fmap option_map default from_option id].
  by rewrite (known_capabilities (c :: l) Hc).
Qed.

(** C17 The profile of a recording is printed, and its text has exactly the rules
    of the processed recording: however the event loop and the requests
    interleave, unless the name, an executable with two dots or an unknown
    capability is rejected, the text gives permissions on exactly the paths in
    the lists of [GetAppArmorProcessed], each with the permissions of its list,
    and, if the recording has the capability for raw I/O, on the tools
    /sbin/fsck and /sbin/fsck.ext4; it names exactly the recorded capabilities,
    and in complain mode denies nothing. *)
Theorem recorded_profile_printed prog ts b keys name mode :
  reachable request kernel_step (newAppArmorRecorder prog) (ts, b) →
  let pr := (GetAppArmorProcessed b keys).1 in
  let f := pr_files pr in
  printable name pr →
  ∃ t, GenerateProfile unicode_lower unicode_trim name mode (Some (generateAppArmorProfile pr)) = inr t ∧
    (∀ p perms, head p = Some SLASH → [p; perms] ∈ statements t ↔
      path_permissions (memb (bytes "sys_rawio") (pr_capabilities pr)) (AllowedExecutables f)
        (AllowedLibraries f) (ReadOnlyPaths f) (WriteOnlyPaths f) (ReadWritePaths f) p perms) ∧
    List.filter (starts (bytes "capability")) (statements t) = map capability_statement (pr_capabilities pr) ∧
    (mode = AppArmorModeComplain → List.filter (starts (bytes "deny")) (statements t) = []).
Proof.
  intros Hb pr f Hpr.
  assert (Forall (λ p, strictPathRegex p = true) (file_paths f)) as Hp.
  { apply Forall_forall. intros p Hp. apply (paths_valid b keys p (reachable_ok _ _ _ Hb)).
    unfold f, pr, GetAppArmorProcessed in Hp. destruct (processExecFsEvents b keys), (processCapabilities b keys).
    exact Hp. }
  destruct (recording_printed name mode pr Hpr Hp) as (t & Ht & Hs). exists t. split; [exact Ht|].
  destruct (recording_validates name pr Hpr Hp) as [_ Hd]. rewrite Hs.
  assert (Forall (λ p, head p = Some SLASH) (file_paths f)) as Hslash.
  { eapply Forall_impl; [exact Hp|]. by intros p [? _]%strict_path_bytes. }
  pose proof (recording_data name pr Hslash) as [_ Dx Dl Dr Dw Drw _ Dc _].
  split; [|split].
  - intros p perms Hh. rewrite file_statement_iff by done. unfold path_permissions.
    by rewrite Dx, Dl, Dr, Dw, Drw.
  - rewrite capability_statements by done. rewrite Dc, known_capabilities; [done|apply Hpr].
  - intros ->. rewrite bool_decide_eq_true_2 by done. by apply complain_denies_nothing.
Qed.

(** ** What a workload used *)

(** The permissions that allow an access.  To execute a file in the same profile,
    [ix], implies to map it. *)
Definition grants (perms : text) (a : access) : Prop :=
  match a with
  | Read => 114 ∈ perms
  | Write => 119 ∈ perms
  | ExecMap => 109 ∈ perms ∨ 105 ∈ perms ∧ 120 ∈ perms
  | Spawn => 120 ∈ perms
  end.

#[export] Instance grants_dec perms a : Decision (grants perms a).
Proof. destruct a; unfold grants; apply _. Defined.

Section tunables.
Context {T : Tunables} {TOk : TunablesOk}.

(** A statement of the text has a path that covers the file, and the permission. *)
Definition text_allows (t s : text) (a : access) : Prop :=
  ∃ g perms, [g; perms] ∈ statements t ∧ gmatch g s ∧ grants perms a.

(** A statement of the text denies the access. *)
Definition text_denies (t s : text) (a : access) : Prop :=
  ∃ g perms, [bytes "deny"; g; perms] ∈ statements t ∧ gmatch g s ∧ grants perms a.

Lemma run_ops_ok ops name : recorder_ok (run_ops ops (newAppArmorRecorder name)).
Proof.
  induction ops as [|o ops IH] using rev_ind; [apply new_recorder_ok|]. rewrite run_ops_snoc.
  assert (request (run_op o)) as Hr by (destruct o; constructor).
  by apply (preserves_exec recorder_ok); [apply request_ok|].
Qed.

(** The statement of a path of a list. *)
Lemma listed_statement name mode pr t g perms :
  Forall (λ p, strictPathRegex p = true) (file_paths (pr_files pr)) →
  statements t = profile_statements (bool_decide (mode = AppArmorModeComplain))
    (memb (bytes "sys_rawio") (pr_capabilities pr))
    (newApparmorData unicode_lower unicode_trim name (generateAppArmorProfile pr)) →
  let f := pr_files pr in
  g ∈ AllowedExecutables f ∧ perms = bytes "ixr" ∨ g ∈ AllowedLibraries f ∧ perms = bytes "mr" ∨
  g ∈ ReadOnlyPaths f ∧ perms = bytes "r" ∨ g ∈ WriteOnlyPaths f ∧ perms = bytes "wlk" ∨
  g ∈ ReadWritePaths f ∧ perms = bytes "rwlk" →
  [g; perms] ∈ statements t.
Proof.
  intros Hp Hst f Hg.
  assert (Forall (λ p, head p = Some SLASH) (file_paths (pr_files pr))) as Hslash.
  { eapply Forall_impl; [exact Hp|]. by intros p [? _]%strict_path_bytes. }
  pose proof (recording_data name pr Hslash) as [_ Dx Dl Dr Dw Drw _ _ _].
  rewrite Hst, file_statement_iff.
  - unfold path_permissions. rewrite Dx, Dl, Dr, Dw, Drw. fold f. tauto.
  - unfold file_paths in Hslash. fold f in Hslash. rewrite !Forall_app, !Forall_forall in Hslash.
    destruct Hslash as (H1 & H2 & H3 & H4 & H5).
    destruct Hg as [[? _]|[[? _]|[[? _]|[[? _]|[? _]]]]]; auto.
Qed.

Lemma permitted_is_printed name mode pr t s a :
  Forall (λ p, strictPathRegex p = true) (file_paths (pr_files pr)) →
  statements t = profile_statements (bool_decide (mode = AppArmorModeComplain))
    (memb (bytes "sys_rawio") (pr_capabilities pr))
    (newApparmorData unicode_lower unicode_trim name (generateAppArmorProfile pr)) →
  profile_permits (pr_files pr) s a → text_allows t s a.
Proof.
  intros Hp Hst (r & Hr & Hm). pose proof (listed_statement name mode pr t) as Hlisted.
  assert (∀ perms, [r; perms] ∈ statements t → grants perms a → text_allows t s a) as Hal
    by (intros perms; exists r, perms; done).
  destruct a; cbn [rules_for] in Hr; rewrite ?elem_of_app in Hr.
  - destruct Hr as [Hr|[Hr|[Hr|Hr]]].
    + apply (Hal (bytes "ixr")); [apply Hlisted; tauto|plain].
    + apply (Hal (bytes "mr")); [apply Hlisted; tauto|plain].
    + apply (Hal (bytes "r")); [apply Hlisted; tauto|plain].
    + apply (Hal (bytes "rwlk")); [apply Hlisted; tauto|plain].
  - destruct Hr as [Hr|Hr].
    + apply (Hal (bytes "wlk")); [apply Hlisted; tauto|plain].
    + apply (Hal (bytes "rwlk")); [apply Hlisted; tauto|plain].
  - destruct Hr as [Hr|Hr].
    + apply (Hal (bytes "ixr")); [apply Hlisted; tauto|plain].
    + apply (Hal (bytes "mr")); [apply Hlisted; tauto|plain].
  - apply (Hal (bytes "ixr")); [apply Hlisted; tauto|plain].
Qed.

(** C15 What a workload does with a file, the text of its profile has a rule
    for: after any sequence of events and requests within the limits, if the
    access to a file reached the recorder and was not dropped since, then the
    profile of any set of keys with the one of the workload is printed, unless
    it is truncated or rejected, and its text has a statement whose path covers
    the path the kernel reported and whose permissions have the access; a
    profile in complain mode has none that denies it.  The exceptions: a
    directory, a deleted file, a file of /sys/devices, and one of which a number
    that is no process number becomes a variable; an access the code leaves out,
    to its known files or the program; and a write to a file the workload
    executes. *)
Theorem used_file_printed prog ops keys key s a name mode :
  within_limits ops → plain_file s → key ∈ keys →
  content ops key (UsedFile (normalized s) a) →
  let b := run_ops ops (newAppArmorRecorder prog) in
  cl_truncated (classify b keys) = false →
  left_out b (normalized s) a = false → ¬ executed_too b key (normalized s) a →
  let pr := (GetAppArmorProcessed b keys).1 in
  printable name pr →
  ∃ t, GenerateProfile unicode_lower unicode_trim name mode (Some (generateAppArmorProfile pr)) = inr t ∧
    text_allows t s a ∧ (mode = AppArmorModeComplain → ¬ text_denies t s a).
Proof.
  intros Hl Hs Hk Hc b Ht Hlo Hx pr Hpr.
  pose proof (used_file_rule prog ops keys key s a Hl Hs Hk Hc Ht Hlo Hx) as Hperm. fold b in Hperm.
  assert (pr_files pr = (processExecFsEvents b keys).1) as Hf.
  { unfold pr, GetAppArmorProcessed. by destruct (processExecFsEvents b keys), (processCapabilities b keys). }
  rewrite <-Hf in Hperm.
  assert (Forall (λ p, strictPathRegex p = true) (file_paths (pr_files pr))) as Hp.
  { apply Forall_forall. intros p Hp. apply (paths_valid b keys p (run_ops_ok ops prog)). by rewrite <-Hf. }
  destruct (recording_printed name mode pr Hpr Hp) as (t & Hgen & Hst). exists t. split; [exact Hgen|].
  split; [by eapply permitted_is_printed|]. intros -> (g & perms & Hin & _).
  destruct (recording_validates name pr Hpr Hp) as [_ Hd].
  pose proof (complain_denies_nothing (memb (bytes "sys_rawio") (pr_capabilities pr)) _ Hd) as Hno.
  rewrite bool_decide_eq_true_2 in Hst by done. rewrite <- Hst in Hno.
  assert ([bytes "deny"; g; perms] ∈ List.filter (starts (bytes "deny")) (statements t)) as Hbad.
  { apply list_elem_of_In, filter_In. split; [by apply list_elem_of_In|]. by vm_compute. }
  rewrite Hno in Hbad. by apply elem_of_nil in Hbad.
Qed.
End tunables.
End recording.

(** ** Examples *)

Definition demo_pr : BpfAppArmorProcessed :=
  (GetAppArmorProcessed (run_ops rw_ops (newAppArmorRecorder [])) [7001]).1.

Lemma demo_printable : printable (bytes "demo") demo_pr.
Proof. split; [right; by vm_compute|apply (bool_decide_unpack _); by vm_compute..]. Qed.

Lemma used_file_printed_witness :
  ∃ t, GenerateProfile id id (bytes "demo") (bytes "Enforce") (Some (generateAppArmorProfile demo_pr)) = inr t ∧
    text_allows (T := kernelvars) t (bytes "/etc/app:1/a") Write ∧
    (bytes "Enforce" = AppArmorModeComplain → ¬ text_denies (T := kernelvars) t (bytes "/etc/app:1/a") Write).
Proof.
  apply (used_file_printed id id (TOk := kernelvars_ok) [] rw_ops [7001] 7001 (bytes "/etc/app:1/a") Write).
  - exact rw_limits.
  - exact (rw_plain (H := kernelvars_ok)).
  - by left.
  - exact rw_content.
  - vm_compute. reflexivity.
  - vm_compute. reflexivity.
  - exact rw_not_executed.
  - exact demo_printable.
Defined.

Definition demo_state : AppArmorRecorder :=
  exec (handleEvent (rw_raw "/etc/app:1/b")) (exec (handleEvent (rw_raw "/etc/app:1/a")) (newAppArmorRecorder [])).

Lemma recorded_profile_printed_witness :
  ∃ t, GenerateProfile id id (bytes "demo") AppArmorModeComplain
      (Some (generateAppArmorProfile (GetAppArmorProcessed demo_state [7001]).1)) = inr t ∧
    [bytes "/etc/app?1/*"; bytes "rwlk"] ∈ statements t ∧
    List.filter (starts (bytes "deny")) (statements t) = [].
Proof.
  assert (∃ ts, reachable request kernel_step (newAppArmorRecorder []) (ts, demo_state)) as [ts Hr].
  { eexists. unfold reachable. etrans; [apply run_reachable; apply (req_event (rw_raw "/etc/app:1/a"))|].
    eapply rtc_l; [apply (pstep_start _ _ _ _ (handleEvent (rw_raw "/etc/app:1/b"))); constructor|].
    apply (run_steps request kernel_step _ _ [_] []). }
  assert (printable (bytes "demo") (GetAppArmorProcessed demo_state [7001]).1) as Hp.
  { split; [right; by vm_compute|apply (bool_decide_unpack _); by vm_compute..]. }
  destruct (recorded_profile_printed id id [] ts demo_state [7001] (bytes "demo") AppArmorModeComplain Hr Hp)
    as (t & Ht & Hf & _ & Hd).
  exists t. split; [exact Ht|]. split; [|by apply Hd]. apply Hf; [done|].
  do 4 right; left. split; [|done]. apply (bool_decide_unpack _). by vm_compute.
Defined.

(** ** Rules that deny *)

(** A file whose name has a long number, only read, and a file next to it that is
    read and written. *)
Definition deny_ops : list op :=
  [OpEvent (encode (FileRecord (EventHeader 42 4026532000 7001 EVENT_TYPE_APPARMOR_FILE 1) (bytes "/tmp/123456" ++ [0])));
   OpEvent (rw_raw "/tmp/state")].

(** A profile that enforces can deny what was recorded: the rule of a file that
    was only read also denies to write what its path covers, and after the
    normalisation the path of one file can cover another file, which was
    written.  A rule that denies takes precedence over all that allow. *)
Theorem deny_hides_recorded {T : Tunables} :
  let b := run_ops deny_ops (newAppArmorRecorder []) in
  recorded b 7001 (UsedFile (bytes "/tmp/state") Write) ∧
  match GenerateProfile id id (bytes "demo") (bytes "Enforce")
    (Some (generateAppArmorProfile (GetAppArmorProcessed b [7001]).1)) with
  | inr t => [bytes "/tmp/state"; bytes "rwlk"] ∈ statements t ∧
      [bytes "deny"; bytes "/tmp/*"; bytes "wlk"] ∈ statements t
  | inl _ => False
  end ∧ gmatch (bytes "/tmp/*") (bytes "/tmp/state").
Proof.
  split; [by vm_compute|]. split.
  - vm_compute. split; repeat constructor.
  - change (bytes "/tmp/state") with (bytes "/tmp/" ++ bytes "state" ++ []).
    do 5 (apply gm_lit; [done|]). apply gm_star; [done| |constructor]. repeat constructor; done.
Qed.
