(* ===== verification/AuditLog.v ===== *)
(** * Lines of the audit log ([auditsource/audit.go])

    The log enricher reads the records of the kernel from the audit log or from
    syslog: [ExtractAuditLine] takes the header of a record, splits its rest into
    fields and makes an audit line of a seccomp, SELinux or AppArmor record.

    Some fields are chosen by the process the record is about, as its name.  The
    kernel quotes such a string, or prints its bytes as hexadecimal digits if it
    has a space, a quote or a control character.  [fields_roundtrip] shows that
    the fields of a record are read as they were logged, whatever a process
    chose, so that no process can add a field to a record or hide one; and
    [seccomp_line_roundtrip] that for the whole line of a seccomp record. *)
From S2P Require Import Prelude Paths Dirs Profile Armor.
Import String.StringSyntax.
#[local] Open Scope string_scope.
#[local] Open Scope list_scope.
#[local] Open Scope Z_scope.

(** ** Audit lines ([types.go]) *)

Inductive audit_type := AuditTypeSeccomp | AuditTypeSelinux | AuditTypeApparmor.

Record auditLine := MkAuditLine {
  AuditType : audit_type;
  ProcessID : Z;
  TimestampID : text;
  SystemCallID : Z;
  l_executable : text;
  Arch : text;
  Uid : option Z;
  Gid : option Z;
  Scontext : text;
  Tcontext : text;
  Tclass : text;
  Perm : text;
  l_apparmor : text;
  Operation : text;
  l_profile : text;
  l_name : text;
  ExtraInfo : text
}.

(** A line of which only the type is set. *)
Definition new_line (t : audit_type) : auditLine :=
  MkAuditLine t 0 [] 0 [] [] None None [] [] [] [] [] [] [] [] [].

(** ** Numbers ([strconv]) *)

Fixpoint parse_digits (acc : Z) (s : text) : option Z :=
  match s with
  | [] => Some acc
  | c :: s => if is_digit c then parse_digits (10 * acc + (c - 48)) s else None
  end.

(** [strconv.ParseUint] and [ParseInt] of base 10. *)
Definition ParseUint (s : text) (bits : Z) : option Z :=
  if empty s then None
  else n ← parse_digits 0 s; if n <? 2 ^ bits then Some n else None.

Definition ParseInt (s : text) (bits : Z) : option Z :=
  match s with
  | [] => None
  | c :: s' =>
      let '(neg, digits) := if c =? 45 then (true, s') else if c =? 43 then (false, s') else (false, s) in
      n ← ParseUint digits 64;
      let cutoff := 2 ^ (bits - 1) in
      if neg then if cutoff <? n then None else Some (- n)
      else if cutoff <=? n then None else Some n
  end.

(** ** Fields *)

Definition EQUALS : Z := 61.

Definition untrustedFields : list text :=
  map bytes ["comm"; "exe"; "name"; "path"; "profile"; "target"; "peer"].

Record auditField := MkField { f_key : text; f_value : text; f_raw : text }.

Fixpoint fields_get (fields : list auditField) (key : text) : option text :=
  match fields with
  | [] => None
  | f :: fields => if bool_decide (f_key f = key) then Some (f_value f) else fields_get fields key
  end.

(** The value of a hexadecimal digit. *)
Definition hex_digit (c : Z) : option Z :=
  if is_digit c then Some (c - 48)
  else if between 97 102 c then Some (c - 87)
  else if between 65 70 c then Some (c - 55)
  else None.

(** [hex.DecodeString]. *)
Fixpoint hex_decode (s : text) : option text :=
  match s with
  | [] => Some []
  | a :: b :: s => x ← hex_digit a; y ← hex_digit b; r ← hex_decode s; Some (16 * x + y :: r)
  | _ => None
  end.

Definition decodeUntrusted (raw : text) : text :=
  if empty raw || bool_decide (raw = bytes "(null)") || negb (Nat.even (length raw)) then raw
  else default raw (hex_decode raw).

(** [strings.IndexByte]. *)
Fixpoint IndexByte (s : text) (c : Z) : option nat :=
  match s with
  | [] => None
  | x :: s => if x =? c then Some O else S <$> IndexByte s c
  end.

(** The value after a [=], as it was logged and as it is meant, and the rest. *)
Definition parse_value (key s : text) : text * text * text :=
  match s with
  | c :: q =>
      if c =? QUOTE then
        match IndexByte q QUOTE with
        | None => (s, q, [])
        | Some closing => (take (closing + 2) s, take closing q, drop (closing + 2) s)
        end
      else
        let '(raw, rest) := cut_run (λ c, negb (c =? SPACE)) s in
        (raw, if memb key untrustedFields then decodeUntrusted raw else raw, rest)
  | [] => ([], if memb key untrustedFields then decodeUntrusted [] else [], [])
  end.

(** The loop, with the rest of the record; every round takes at least a byte. *)
Fixpoint parse_fields (fuel : nat) (s : text) : list auditField :=
  match fuel, s with
  | S fuel, c :: s' =>
      if c =? SPACE then parse_fields fuel s'
      else
        let '(key, rest) := cut_run (λ c, negb (c =? SPACE) && negb (c =? EQUALS)) s in
        match rest with
        | e :: rest =>
            if e =? EQUALS then
              let '(raw, value, rest) := parse_value key rest in
              MkField key value raw :: parse_fields fuel rest
            else parse_fields fuel (e :: rest)
        | [] => []
        end
  | _, _ => []
  end.

Definition parseAuditFields (record : text) : list auditField := parse_fields (length record) record.

(** ** The header *)

(** [auditHeaderRegex] at the start of a text: the type, the timestamp, and what
    follows the match. *)
Definition header_at (s : text) : option (text * text * text) :=
  s ← CutPrefix s (bytes "type=");
  let '(recordType, s) := cut_run is_word s in
  let '(space, s) := cut_run re_space s in
  if empty recordType || empty space then None
  else
    let s := default s (CutPrefix s (bytes "msg=")) in
    s ← CutPrefix s (bytes "audit(");
    let '(timestamp, s) := cut_run (λ c, negb (c =? 41)) s in
    if empty timestamp then None
    else
      s ← CutPrefix s (bytes ")");
      Some (recordType, timestamp, default s (CutPrefix s (bytes ":"))).

(** The leftmost match. *)
Fixpoint auditHeaderRegex (s : text) : option (text * text * text) :=
  match header_at s with
  | Some h => Some h
  | None => match s with [] => None | _ :: s => auditHeaderRegex s end
  end.

(** ** Records *)

Definition extractID (fields : list auditField) (key : text) : option Z :=
  value ← fields_get fields key; ParseUint value 32.

Definition extractProcessID (line : auditLine) (capturedProcessID : text) : option auditLine :=
  pid ← ParseUint capturedProcessID 31;
  if pid =? 0 then None else Some {| line with ProcessID := pid |}.

Definition extractSeccompLine (fields : list auditField) : option auditLine :=
  pid ← fields_get fields (bytes "pid");
  syscall ← fields_get fields (bytes "syscall");
  syscallID ← ParseInt syscall 32;
  extractProcessID {| (new_line AuditTypeSeccomp) with
    l_executable := default [] (fields_get fields (bytes "exe"));
    SystemCallID := syscallID;
    Arch := default [] (fields_get fields (bytes "arch"));
    Uid := extractID fields (bytes "uid");
    Gid := extractID fields (bytes "gid") |} pid.

(** [(.*?)\s*\}]: the shortest match, [acc] is reversed. *)
Fixpoint lazy_perms (acc s : text) : option text :=
  if HasPrefix (skip re_space s) (bytes "}") then Some (reverse acc)
  else match s with
       | [] => None
       | c :: s => if c =? NL then None else lazy_perms (c :: acc) s
       end.

(** [selinuxPermsRegex]: the submatch. *)
Fixpoint selinuxPermsRegex (s : text) : option text :=
  match s with
  | [] => None
  | c :: s =>
      match (if c =? 123 then lazy_perms [] (skip re_space s) else None) with
      | Some perms => Some perms
      | None => selinuxPermsRegex s
      end
  end.

Definition extractSelinuxLine (body : text) (fields : list auditField) : option auditLine :=
  perms ← selinuxPermsRegex body;
  pid ← fields_get fields (bytes "pid");
  scontext ← fields_get fields (bytes "scontext");
  tcontext ← fields_get fields (bytes "tcontext");
  tclass ← fields_get fields (bytes "tclass");
  extractProcessID {| (new_line AuditTypeSelinux) with
    Perm := perms; Scontext := scontext; Tcontext := tcontext; Tclass := tclass |} pid.

Definition apparmorKnownFields : list text :=
  map bytes ["apparmor"; "operation"; "profile"; "name"; "pid"; "comm"].

(** [strings.ReplaceAll(raw, ...)] of a double by a single quote. *)
Definition single_quotes (s : text) : text := map (λ c, if c =? QUOTE then 39 else c) s.

(** The loop over the fields. *)
Fixpoint extra_info (afterComm : bool) (fields : list auditField) : list text :=
  match fields with
  | [] => []
  | f :: fields =>
      if bool_decide (f_key f = bytes "comm") then extra_info true fields
      else if negb afterComm || memb (f_key f) apparmorKnownFields then extra_info afterComm fields
      else (f_key f ++ bytes "=" ++ single_quotes (f_raw f)) :: extra_info afterComm fields
  end.

Definition extractApparmorLine (fields : list auditField) : option auditLine :=
  operation ← fields_get fields (bytes "operation");
  pid ← fields_get fields (bytes "pid");
  line ← extractProcessID {| (new_line AuditTypeApparmor) with
    l_apparmor := default [] (fields_get fields (bytes "apparmor"));
    Operation := operation;
    l_profile := default [] (fields_get fields (bytes "profile"));
    l_name := default [] (fields_get fields (bytes "name"));
    l_executable := default [] (fields_get fields (bytes "comm")) |} pid;
  Some {| line with ExtraInfo := Join (extra_info false fields) (bytes " ") |}.

Definition auditdEnrichmentSeparator : Z := 29.

(** The record without what auditd appends to it. *)
Definition cut_enrichment (logLine : text) : text :=
  match IndexByte logLine auditdEnrichmentSeparator with Some i => take i logLine | None => logLine end.

Definition seccompTypes : list text := map bytes ["SECCOMP"; "1326"].
Definition avcTypes : list text := map bytes
  ["AVC"; "1400"; "APPARMOR"; "APPARMOR_DENIED"; "APPARMOR_ALLOWED"; "APPARMOR_AUDIT"; "1503"; "1502"; "1501"].

Definition ExtractAuditLine (logLine : text) : option auditLine :=
  if negb (Contains logLine (bytes "audit(")) then None
  else
    '(recordType, timestamp, body) ← auditHeaderRegex (cut_enrichment logLine);
    let fields := parseAuditFields body in
    line ← (if memb recordType seccompTypes then extractSeccompLine fields
            else if memb recordType avcTypes then
              match fields_get fields (bytes "apparmor") with
              | Some _ => extractApparmorLine fields
              | None => extractSelinuxLine body fields
              end
            else None);
    Some {| line with TimestampID := timestamp |}.

Definition IsAuditLine (logLine : text) : bool :=
  match ExtractAuditLine logLine with Some _ => true | None => false end.

(** ** How the kernel logs a record *)

(** A value that a process chose, one the kernel puts into quotes, and one it
    prints as it is. *)
Inductive logged := Untrusted (v : text) | Quoted (v : text) | Bare (v : text).

Definition needs_hex (v : text) : bool := existsb (λ c, (c =? QUOTE) || (c <? 33) || (126 <? c)) v.

Definition hex_char (d : Z) : Z := if d <? 10 then 48 + d else 55 + d.
Definition hex_encode (v : text) : text := concat (map (λ b, [hex_char (b / 16); hex_char (b mod 16)]) v).

Definition quote (v : text) : text := QUOTE :: v ++ [QUOTE].

Definition log_value (l : logged) : text :=
  match l with
  | Untrusted v => if needs_hex v then hex_encode v else quote v
  | Quoted v => quote v
  | Bare v => v
  end.

Definition meant (l : logged) : text := match l with Untrusted v | Quoted v | Bare v => v end.

Definition log_field (f : text * logged) : text := f.1 ++ EQUALS :: log_value f.2.
Definition log_record (fields : list (text * logged)) : text := Join (map log_field fields) [SPACE].

(** No value the kernel prints itself has a separator of auditd. *)
Definition value_ok (key : text) (l : logged) : Prop :=
  match l with
  | Untrusted v => key ∈ untrustedFields ∧ Forall (λ c, 0 <= c < 256) v
  | Quoted v => Forall (λ c, c ≠ QUOTE ∧ c ≠ auditdEnrichmentSeparator) v
  | Bare v => (key ∉ untrustedFields) ∧ head v ≠ Some QUOTE ∧
      Forall (λ c, c ≠ SPACE ∧ c ≠ auditdEnrichmentSeparator) v
  end.

Definition field_ok (f : text * logged) : Prop :=
  f.1 ≠ [] ∧ Forall (λ c, c ≠ SPACE ∧ c ≠ EQUALS ∧ c ≠ auditdEnrichmentSeparator) f.1 ∧ value_ok f.1 f.2.

(** ** Hexadecimal digits *)

Lemma hex_digit_char d : 0 <= d < 16 → hex_digit (hex_char d) = Some d.
Proof.
  intros Hd. unfold hex_digit, hex_char, is_digit, between.
  destruct (d <? 10) eqn:E; zbool; repeat case_match; zbool; f_equal; lia.
Qed.

Lemma hex_roundtrip v : Forall (λ c, 0 <= c < 256) v → hex_decode (hex_encode v) = Some v.
Proof.
  induction 1 as [|c v Hc _ IH]; [done|]. unfold hex_encode. cbn [map concat app hex_decode].
  rewrite !hex_digit_char by first [apply Z.mod_pos_bound; lia|split; [apply Z.div_pos; lia|apply Z.div_lt_upper_bound; lia]].
  fold (hex_encode v). cbn. rewrite IH. cbn. f_equal. f_equal. rewrite <-(Z.div_mod c 16) by lia. done.
Qed.

Lemma hex_chars v : Forall (λ c, 0 <= c < 256) v → Forall (λ c, 48 <= c <= 70) (hex_encode v).
Proof.
  induction 1 as [|c v Hc _ IH]; [constructor|]. unfold hex_encode. cbn [map concat app].
  pose proof (Z.div_pos c 16). pose proof (Z.div_lt_upper_bound c 16 16). pose proof (Z.mod_pos_bound c 16).
  unfold hex_char at 1 2. repeat constructor; try (destruct (_ <? 10) eqn:E; zbool; lia). exact IH.
Qed.

Lemma hex_length v : length (hex_encode v) = (2 * length v)%nat.
Proof. unfold hex_encode. induction v as [|c v IH]; [done|]. cbn [map concat app length]. rewrite IH. lia. Qed.

Lemma decode_untrusted v : v ≠ [] → Forall (λ c, 0 <= c < 256) v → decodeUntrusted (hex_encode v) = v.
Proof.
  intros Hn Hv. unfold decodeUntrusted. rewrite hex_roundtrip by done.
  assert (empty (hex_encode v) = false) as -> by by destruct v.
  rewrite hex_length, Nat.even_mul. cbn [orb negb andb Nat.even]. rewrite orb_false_r.
  rewrite bool_decide_eq_false_2; [done|]. intros Heq. pose proof (hex_chars v Hv) as Hc. rewrite Heq in Hc.
  apply Forall_cons in Hc as [Hc _]. cbn in Hc. lia.
Qed.

(** ** Cutting a text *)

Lemma span_run f a b : Forall (λ c, f c = true) a → (∀ c, head b = Some c → f c = false) →
  cut_run f (a ++ b) = (a, b).
Proof.
  intros Ha Hb. assert (span f (a ++ b) = length a) as Hs.
  { induction Ha as [|c a Hc _ IH]; cbn; [|by rewrite Hc, IH].
    destruct b as [|c b]; [done|]. cbn. by rewrite (Hb c). }
  unfold cut_run. by rewrite Hs, take_app_length, drop_app_length.
Qed.

Lemma IndexByte_app a c b : c ∉ a → IndexByte (a ++ c :: b) c = Some (length a).
Proof.
  induction a as [|x a IH]; intros Ha; cbn; [by rewrite Z.eqb_refl|].
  apply not_elem_of_cons in Ha as [Hx Ha]. apply not_eq_sym, Z.eqb_neq in Hx as ->. by rewrite IH.
Qed.

Lemma IndexByte_none a c : c ∉ a → IndexByte a c = None.
Proof.
  induction a as [|x a IH]; intros Ha; cbn; [done|].
  apply not_elem_of_cons in Ha as [Hx Ha]. apply not_eq_sym, Z.eqb_neq in Hx as ->. by rewrite IH.
Qed.

(** ** A field *)

(** The end of a field. *)
Definition ends (rest : text) : Prop := rest = [] ∨ ∃ r, rest = SPACE :: r.

Lemma parse_quoted key v rest : QUOTE ∉ v → parse_value key (quote v ++ rest) = (quote v, v, rest).
Proof.
  intros Hv. unfold quote. cbn [app parse_value]. change (QUOTE =? QUOTE) with true. cbn match.
  rewrite <-app_assoc. cbn [app]. rewrite IndexByte_app by done.
  replace (length v + 2)%nat with (length (QUOTE :: v ++ [QUOTE])) by (cbn; rewrite length_app; cbn; lia).
  assert (QUOTE :: v ++ QUOTE :: rest = (QUOTE :: v ++ [QUOTE]) ++ rest) as -> by (cbn; by rewrite <-app_assoc).
  rewrite take_app_length, drop_app_length. by rewrite take_app_length.
Qed.

Lemma parse_bare key v rest : head v ≠ Some QUOTE → Forall (λ c, c ≠ SPACE) v → ends rest →
  parse_value key (v ++ rest) = (v, if memb key untrustedFields then decodeUntrusted v else v, rest).
Proof.
  intros Hq Hv Hr.
  assert (cut_run (λ c, negb (c =? SPACE)) (v ++ rest) = (v, rest)) as Hc.
  { apply span_run.
    - eapply Forall_impl; [exact Hv|]. intros c Hc. by apply negb_true_iff, Z.eqb_neq.
    - by destruct Hr as [-> | [r ->]]; [|intros ? [= <-]]. }
  destruct v as [|c v]; cbn [app] in *.
  - destruct Hr as [-> | [r ->]]; [done|]. cbn [parse_value]. change (SPACE =? QUOTE) with false. cbn match.
    by rewrite Hc.
  - cbn [parse_value]. assert ((c =? QUOTE) = false) as -> by (apply Z.eqb_neq; intros ->; done).
    by rewrite Hc.
Qed.

Lemma plain_unquoted v : needs_hex v = false → QUOTE ∉ v.
Proof.
  intros Hv Hin. apply list_elem_of_In in Hin.
  assert (needs_hex v = true); [|congruence]. apply existsb_exists. by exists QUOTE.
Qed.

(** A value is read as it was meant. *)
Lemma parse_logged key l rest : value_ok key l → ends rest →
  parse_value key (log_value l ++ rest) = (log_value l, meant l, rest).
Proof.
  intros Hl Hr. destruct l as [v|v|v]; cbn [log_value meant value_ok] in *.
  - destruct Hl as [Hk Hv]. destruct (needs_hex v) eqn:E; [|by apply parse_quoted, plain_unquoted].
    pose proof (hex_chars v Hv) as Hc.
    rewrite parse_bare; [| |eapply Forall_impl; [exact Hc|unfold SPACE; lia]|done].
    + apply memb_spec in Hk as ->. rewrite decode_untrusted; [done| |done]. by destruct v.
    + destruct (hex_encode v); [done|]. apply Forall_cons in Hc as [? _]. unfold QUOTE. intros [= ->]. lia.
  - apply parse_quoted. intros Hin. rewrite Forall_forall in Hl. by apply Hl in Hin as [? _].
  - destruct Hl as (Hk & Hq & Hv).
    rewrite parse_bare; [|done|eapply Forall_impl; [exact Hv|by intros ? []]|done].
    destruct (memb key untrustedFields) eqn:E; [|done]. by apply memb_spec in E.
Qed.

(** ** A record *)

Lemma parse_field fuel f rest : field_ok f → ends rest →
  parse_fields (S fuel) (log_field f ++ rest) =
    MkField f.1 (meant f.2) (log_value f.2) :: parse_fields fuel rest.
Proof.
  destruct f as [key l]. intros (Hn & Hk & Hl) Hr. cbn [fst snd] in *. unfold log_field. cbn [fst snd].
  assert (cut_run (λ c, negb (c =? SPACE) && negb (c =? EQUALS)) (key ++ EQUALS :: log_value l ++ rest) =
    (key, EQUALS :: log_value l ++ rest)) as Hc.
  { apply span_run; [|by intros ? [= <-]]. eapply Forall_impl; [exact Hk|].
    intros c (H1 & H2 & _). by rewrite (proj2 (Z.eqb_neq _ _) H1), (proj2 (Z.eqb_neq _ _) H2). }
  rewrite <-app_assoc. cbn [app]. destruct key as [|c key]; [done|].
  apply Forall_cons in Hk as [(Hs & _) _]. cbn [app] in *. cbn [parse_fields].
  rewrite (proj2 (Z.eqb_neq _ _) Hs), Hc. change (EQUALS =? EQUALS) with true. cbn match.
  by rewrite parse_logged.
Qed.

Lemma parse_record fuel fields : Forall field_ok fields → (2 * length fields <= fuel)%nat →
  map (λ f, (f_key f, f_value f)) (parse_fields fuel (log_record fields)) =
  map (λ f, (f.1, meant f.2)) fields.
Proof.
  intros Hf. revert fuel. induction Hf as [|f fields Hf Hfs IH]; intros fuel Hl.
  - by destruct fuel.
  - unfold log_record. destruct fuel as [|fuel]; [cbn in Hl; lia|]. cbn [length] in Hl.
    destruct fields as [|g fields].
    + cbn [map Join]. rewrite <-(app_nil_r (log_field f)), parse_field; [|done|by left].
      by destruct fuel.
    + change (Join (map log_field (f :: g :: fields)) [SPACE])
        with (log_field f ++ SPACE :: log_record (g :: fields)).
      rewrite parse_field; [|done|right; by eexists]. cbn [length] in Hl.
      destruct fuel as [|fuel]; [lia|]. cbn [parse_fields]. change (SPACE =? SPACE) with true. cbn match.
      cbn [map]. f_equal. apply IH. cbn [length]. lia.
Qed.

Lemma length_log_record fields : Forall field_ok fields → (3 * length fields <= length (log_record fields) + 1)%nat.
Proof.
  induction 1 as [|f fields (Hn & _) _ IH]; [cbn; lia|]. destruct f as [key l]. cbn in Hn.
  assert (2 <= length (log_field (key, l)))%nat as Hl.
  { unfold log_field. rewrite length_app. cbn. destruct key; [done|]. cbn. lia. }
  unfold log_record in *. destruct fields as [|g fields].
  - cbn [map Join length]. lia.
  - change (Join (map log_field ((key, l) :: g :: fields)) [SPACE])
      with (log_field (key, l) ++ SPACE :: Join (map log_field (g :: fields)) [SPACE]).
    rewrite length_app. cbn [length] in *. lia.
Qed.

(** The values of a record, by their keys. *)
Definition pairs (fields : list auditField) : list (text * text) := map (λ f, (f_key f, f_value f)) fields.

Definition said (fields : list (text * logged)) : list (text * text) := map (λ f, (f.1, meant f.2)) fields.

Fixpoint value_of (l : list (text * text)) (key : text) : option text :=
  match l with
  | [] => None
  | (k, v) :: l => if bool_decide (k = key) then Some v else value_of l key
  end.

Lemma fields_get_pairs fields key : fields_get fields key = value_of (pairs fields) key.
Proof. induction fields as [|f fields IH]; [done|]. cbn. by destruct (bool_decide _). Qed.

(** C26 The fields of a record are read as they were logged: whatever bytes the
    process of the record chose for its name, its executable and the files it
    names, the fields found in the record are those the kernel logged, in their
    order and with the values that were meant.  So no process can add a field to
    its record, hide one or change another one. *)
Theorem fields_roundtrip fields :
  Forall field_ok fields → pairs (parseAuditFields (log_record fields)) = said fields.
Proof.
  intros Hf. apply parse_record; [done|]. pose proof (length_log_record fields Hf). destruct fields; cbn in *; lia.
Qed.

Lemma body_fields fields : Forall field_ok fields →
  pairs (parseAuditFields (SPACE :: log_record fields)) = said fields.
Proof.
  intros Hf. unfold parseAuditFields. cbn [length parse_fields]. change (SPACE =? SPACE) with true. cbn match.
  apply parse_record; [done|]. pose proof (length_log_record fields Hf). destruct fields; cbn in *; lia.
Qed.

(** *** The separator of auditd *)

Lemma log_record_bytes fields : Forall field_ok fields → auditdEnrichmentSeparator ∉ log_record fields.
Proof.
  intros Hf. assert (∀ f, field_ok f → auditdEnrichmentSeparator ∉ log_field f) as Hfield.
  { intros [key l] (_ & Hk & Hl) Hin. unfold log_field in Hin. cbn [fst snd] in *.
    rewrite elem_of_app, elem_of_cons in Hin. destruct Hin as [Hin|[Hin|Hin]]; [|done|].
    - rewrite Forall_forall in Hk. by apply Hk in Hin as (_ & _ & ?).
    - assert (∀ v, auditdEnrichmentSeparator ∉ v → auditdEnrichmentSeparator ∉ quote v) as Hq.
      { intros v Hv. unfold quote. rewrite not_elem_of_cons, not_elem_of_app, list_elem_of_singleton. done. }
      destruct l as [v|v|v]; cbn [log_value value_ok] in *.
      + destruct Hl as [_ Hv]. destruct (needs_hex v) eqn:E.
        * apply hex_chars in Hv. rewrite Forall_forall in Hv. apply Hv in Hin. unfold auditdEnrichmentSeparator in Hin. lia.
        * revert Hin. apply Hq. intros Hin%list_elem_of_In. assert (needs_hex v = true); [|congruence].
          apply existsb_exists. by eexists.
      + revert Hin. apply Hq. intros Hin. rewrite Forall_forall in Hl. by apply Hl in Hin as [_ ?].
      + destruct Hl as (_ & _ & Hv). rewrite Forall_forall in Hv. by apply Hv in Hin as [_ ?]. }
  unfold log_record. induction Hf as [|f fields Hf1 _ IH]; [apply not_elem_of_nil|].
  destruct fields as [|g fields]; [by apply Hfield|].
  change (Join (map log_field (f :: g :: fields)) [SPACE])
    with (log_field f ++ SPACE :: Join (map log_field (g :: fields)) [SPACE]).
  rewrite not_elem_of_app, not_elem_of_cons. split; [by apply Hfield|done].
Qed.

(** *** The header *)

(** A line of the log: what syslog puts before a record, the record in the format
    of the kernel or of auditd, and what auditd appends to it. *)
Record log_line_parts := LogLine {
  ll_prefix : text;
  ll_type : text;
  ll_msg : bool;
  ll_time : text;
  ll_appended : option text
}.

Definition log_line (p : log_line_parts) (fields : list (text * logged)) : text :=
  ll_prefix p ++ bytes "type=" ++ ll_type p ++ SPACE :: (if ll_msg p then bytes "msg=" else []) ++
  bytes "audit(" ++ ll_time p ++ bytes "):" ++ SPACE :: log_record fields ++
  match ll_appended p with Some a => auditdEnrichmentSeparator :: a | None => [] end.

Record parts_ok (p : log_line_parts) : Prop := {
  po_prefix : Contains (ll_prefix p ++ bytes "type") (bytes "type=") = false;
  po_separator : auditdEnrichmentSeparator ∉ ll_prefix p;
  po_type : ll_type p ≠ [] ∧ Forall (λ c, is_word c = true) (ll_type p);
  po_time : ll_time p ≠ [] ∧ Forall (λ c, c ≠ 41 ∧ c ≠ auditdEnrichmentSeparator) (ll_time p)
}.

Lemma HasPrefix_app p s : HasPrefix (p ++ s) p = true.
Proof. apply HasPrefix_spec. by exists s. Qed.

Lemma CutPrefix_app p s : CutPrefix (p ++ s) p = Some s.
Proof. unfold CutPrefix. by rewrite HasPrefix_app, drop_app_length. Qed.

Lemma header_at_line p s : parts_ok p →
  header_at (bytes "type=" ++ ll_type p ++ SPACE :: (if ll_msg p then bytes "msg=" else []) ++
    bytes "audit(" ++ ll_time p ++ bytes "):" ++ s) = Some (ll_type p, ll_time p, s).
Proof.
  intros [_ _ [Htn Ht] [Hsn Hs]]. unfold header_at. rewrite CutPrefix_app. cbn [mbind option_bind].
  rewrite (span_run is_word) by (done || by intros ? [= <-]).
  change (SPACE :: ?u) with ([SPACE] ++ u).
  rewrite (span_run re_space) by (repeat constructor; done || by destruct (ll_msg p); intros ? [= <-]).
  assert (empty (ll_type p) = false) as -> by by destruct (ll_type p). cbn [orb empty].
  assert (∀ u, default ((if ll_msg p then bytes "msg=" else []) ++ bytes "audit(" ++ u)
    (CutPrefix ((if ll_msg p then bytes "msg=" else []) ++ bytes "audit(" ++ u) (bytes "msg=")) = bytes "audit(" ++ u) as ->.
  { intros u. destruct (ll_msg p); [by rewrite CutPrefix_app|done]. }
  rewrite CutPrefix_app. cbn [mbind option_bind].
  change (bytes "):" ++ s) with (bytes ")" ++ bytes ":" ++ s).
  rewrite (span_run (λ c, negb (c =? 41))).
  - assert (empty (ll_time p) = false) as -> by by destruct (ll_time p).
    rewrite CutPrefix_app. cbn [mbind option_bind]. by rewrite CutPrefix_app.
  - eapply Forall_impl; [exact Hs|]. intros c [Hc _]. by apply negb_true_iff, Z.eqb_neq.
  - by intros ? [= <-].
Qed.

Lemma header_prefix pre s : Contains (pre ++ bytes "type") (bytes "type=") = false →
  auditHeaderRegex (pre ++ bytes "type=" ++ s) = auditHeaderRegex (bytes "type=" ++ s).
Proof.
  induction pre as [|c pre IH]; [done|]. cbn [app Contains]. intros [Hp Hc]%orb_false_iff.
  cbn [auditHeaderRegex]. unfold header_at at 1.
  assert (HasPrefix (c :: pre ++ bytes "type=" ++ s) (bytes "type=") =
    HasPrefix (c :: pre ++ bytes "type") (bytes "type=")) as E
    by (do 5 (destruct pre as [|? pre]; [reflexivity|]); reflexivity).
  unfold CutPrefix. rewrite E, Hp. by apply IH.
Qed.

Lemma Contains_app a p b : Contains (a ++ p ++ b) p = true.
Proof.
  induction a as [|c a IH]; cbn [app].
  - pose proof (HasPrefix_app p b) as H. by destruct (p ++ b); cbn [Contains]; rewrite H.
  - cbn [Contains]. by rewrite IH, orb_true_r.
Qed.

Lemma cut_enrichment_line p fields : parts_ok p → Forall field_ok fields →
  cut_enrichment (log_line p fields) =
  ll_prefix p ++ bytes "type=" ++ ll_type p ++ SPACE :: (if ll_msg p then bytes "msg=" else []) ++
    bytes "audit(" ++ ll_time p ++ bytes "):" ++ SPACE :: log_record fields.
Proof.
  intros [_ Hp [_ Ht] [_ Hs]] Hf. unfold log_line, cut_enrichment.
  set (r := ll_prefix p ++ bytes "type=" ++ ll_type p ++ SPACE :: (if ll_msg p then bytes "msg=" else []) ++
    bytes "audit(" ++ ll_time p ++ bytes "):" ++ SPACE :: log_record fields).
  assert (auditdEnrichmentSeparator ∉ r) as Hr.
  { unfold r. rewrite !not_elem_of_app, !not_elem_of_cons, !not_elem_of_app, not_elem_of_cons.
    repeat split; try (by apply (bool_decide_unpack _); vm_compute); [done| | | |by apply log_record_bytes].
    - intros Hin. rewrite Forall_forall in Ht. by apply Ht in Hin.
    - destruct (ll_msg p); [|apply not_elem_of_nil]. by apply (bool_decide_unpack _); vm_compute.
    - intros Hin. rewrite Forall_forall in Hs. by apply Hs in Hin as [_ ?]. }
  destruct (ll_appended p) as [a|].
  - match goal with |- context [IndexByte ?l _] => replace l with (r ++ auditdEnrichmentSeparator :: a) end.
    + rewrite IndexByte_app by done. by rewrite take_app_length.
    + unfold r. by rewrite <-?app_assoc, <-?app_comm_cons, <-?app_assoc, <-?app_comm_cons, <-?app_assoc.
  - rewrite app_nil_r. fold r. by rewrite IndexByte_none.
Qed.

(** *** Numbers *)

Lemma parse_digits_app acc a b : parse_digits acc (a ++ b) = parse_digits acc a ≫= λ n, parse_digits n b.
Proof. revert acc. induction a as [|c a IH]; intros acc; [done|]. cbn. by destruct (is_digit c). Qed.

Lemma parse_printed fuel n : 0 <= n < 10 ^ Z.of_nat fuel → parse_digits 0 (digits fuel n) = Some n.
Proof.
  revert n. induction fuel as [|fuel IH]; intros n Hn; [cbn in *; f_equal; lia|].
  rewrite Nat2Z.inj_succ, Z.pow_succ_r in Hn by lia. cbn [digits].
  pose proof (Z.mod_pos_bound n 10). pose proof (Z.div_mod n 10).
  assert (is_digit (48 + n mod 10) = true) as Hd by (apply between_spec; lia).
  rewrite parse_digits_app. destruct (n <? 10) eqn:E; zbool.
  - cbn [parse_digits mbind option_bind]. rewrite Hd. f_equal. rewrite Z.mod_small; lia.
  - rewrite IH by (split; [apply Z.div_pos; lia|apply Z.div_lt_upper_bound; lia]).
    cbn [parse_digits mbind option_bind]. rewrite Hd. f_equal. lia.
Qed.

Lemma ParseUint_digits bits n : 0 <= bits <= 64 → 0 <= n < 2 ^ bits → ParseUint (digits 20 n) bits = Some n.
Proof.
  intros Hb Hn. pose proof (Z.pow_le_mono_r 2 bits 64). unfold ParseUint.
  assert (empty (digits 20 n) = false) as -> by (cbn [digits]; by destruct (if n <? 10 then _ else _)).
  rewrite parse_printed by (cbn; lia). cbn. by rewrite (proj2 (Z.ltb_lt _ _)) by lia.
Qed.

Lemma ParseUint_decimal bits n : 0 <= bits <= 64 → 0 <= n < 2 ^ bits → ParseUint (decimal n) bits = Some n.
Proof.
  intros Hb Hn. unfold decimal. rewrite (proj2 (Z.ltb_ge _ _)) by lia. by apply ParseUint_digits.
Qed.

Lemma digits_bytes fuel n : 0 <= n → Forall (λ c, 48 <= c <= 57) (digits fuel n).
Proof.
  revert n. induction fuel as [|fuel IH]; intros n Hn; [constructor|]. cbn [digits].
  pose proof (Z.mod_pos_bound n 10). apply Forall_app. split; [|repeat constructor; lia].
  destruct (n <? 10); [constructor|]. apply IH, Z.div_pos; lia.
Qed.

Lemma ParseInt_decimal n : - 2 ^ 31 <= n < 2 ^ 31 → ParseInt (decimal n) 32 = Some n.
Proof.
  intros Hn. unfold decimal. destruct (n <? 0) eqn:E; zbool.
  - cbn [ParseInt]. change (45 =? 45) with true. cbn match. rewrite ParseUint_digits by lia.
    cbn [mbind option_bind]. rewrite (proj2 (Z.ltb_ge _ _)) by (cbn; lia). f_equal. lia.
  - pose proof (digits_bytes 20 n E) as Hd. pose proof (ParseUint_digits 64 n) as Hp.
    destruct (digits 20 n) as [|c s]; [by specialize (Hp ltac:(lia) ltac:(lia))|].
    apply Forall_cons in Hd as [Hc _]. cbn [ParseInt].
    rewrite (proj2 (Z.eqb_neq c 45)), (proj2 (Z.eqb_neq c 43)) by lia. rewrite Hp by lia.
    cbn [mbind option_bind]. by rewrite (proj2 (Z.leb_gt _ _)) by (cbn; lia).
Qed.

(** A value the kernel prints as it is. *)
Definition bare_ok (v : text) : Prop :=
  head v ≠ Some QUOTE ∧ Forall (λ c, c ≠ SPACE ∧ c ≠ auditdEnrichmentSeparator) v.

Lemma decimal_ok n : bare_ok (decimal n).
Proof.
  assert (∀ m, 0 <= m → bare_ok (digits 20 m)) as Hd.
  { intros m Hm. pose proof (digits_bytes 20 m Hm) as Hb. split.
    - destruct (digits 20 m); [done|]. apply Forall_cons in Hb as [? _]. intros [= ->]. unfold QUOTE in *. lia.
    - eapply Forall_impl; [exact Hb|]. unfold SPACE, auditdEnrichmentSeparator. intros c Hc. cbn in Hc. lia. }
  unfold decimal. destruct (n <? 0) eqn:E; zbool; [|by apply Hd].
  destruct (Hd (- n) ltac:(lia)) as [_ ?]. split; [done|]. by constructor.
Qed.

(** ** A record of seccomp *)

(** The fields the kernel logs ([audit_seccomp]), of a process with the name [comm]
    and the executable [exe]. *)
Definition seccomp_record (auid uid gid ses pid : Z) (comm exe : text) (sig : Z) (arch : text) (nr : Z)
    (rest : list (text * logged)) : list (text * logged) :=
  [(bytes "auid", Bare (decimal auid)); (bytes "uid", Bare (decimal uid)); (bytes "gid", Bare (decimal gid));
   (bytes "ses", Bare (decimal ses)); (bytes "pid", Bare (decimal pid)); (bytes "comm", Untrusted comm);
   (bytes "exe", Untrusted exe); (bytes "sig", Bare (decimal sig)); (bytes "arch", Bare arch);
   (bytes "syscall", Bare (decimal nr))] ++ rest.

Definition is_bytes (v : text) : Prop := Forall (λ c, 0 <= c < 256) v.

Lemma bare_field key v : bare_ok v →
  bool_decide (bytes key ≠ [] ∧ Forall (λ c, c ≠ SPACE ∧ c ≠ EQUALS ∧ c ≠ auditdEnrichmentSeparator) (bytes key) ∧
    (bytes key ∉ untrustedFields)) = true → field_ok (bytes key, Bare v).
Proof. intros [Hq Hv] (Hn & Hk & Hu)%bool_decide_eq_true. by split. Qed.

Lemma untrusted_field key v : is_bytes v →
  bool_decide (bytes key ≠ [] ∧ Forall (λ c, c ≠ SPACE ∧ c ≠ EQUALS ∧ c ≠ auditdEnrichmentSeparator) (bytes key) ∧
    bytes key ∈ untrustedFields) = true → field_ok (bytes key, Untrusted v).
Proof. intros Hv (Hn & Hk & Hu)%bool_decide_eq_true. by split. Qed.

Lemma seccomp_record_ok auid uid gid ses pid comm exe sig arch nr rest :
  is_bytes comm → is_bytes exe → bare_ok arch → Forall field_ok rest →
  Forall field_ok (seccomp_record auid uid gid ses pid comm exe sig arch nr rest).
Proof.
  intros Hc He Ha Hr. unfold seccomp_record. apply Forall_app. split; [|exact Hr].
  repeat (apply Forall_cons; split); try apply Forall_nil_2;
    first [apply bare_field; [first [exact Ha|apply decimal_ok]|by vm_compute]
          |apply untrusted_field; [assumption|by vm_compute]].
Qed.

(** A seccomp record is read as the kernel logged it: for every line of the
    audit log or of syslog, the audit line has the process, the syscall, the
    architecture, the user and the group of the record, and the executable with
    its exact bytes, whatever names the process chose and whatever auditd
    appended. *)
Theorem seccomp_line_roundtrip p auid uid gid ses pid comm exe sig arch nr rest :
  parts_ok p → ll_type p ∈ seccompTypes →
  0 <= uid < 2 ^ 32 → 0 <= gid < 2 ^ 32 → 0 < pid < 2 ^ 31 → - 2 ^ 31 <= nr < 2 ^ 31 →
  is_bytes comm → is_bytes exe → bare_ok arch → Forall field_ok rest →
  ExtractAuditLine (log_line p (seccomp_record auid uid gid ses pid comm exe sig arch nr rest)) =
  Some {| (new_line AuditTypeSeccomp) with
    ProcessID := pid; TimestampID := ll_time p; SystemCallID := nr; l_executable := exe; Arch := arch;
    Uid := Some uid; Gid := Some gid |}.
Proof.
  intros Hp Hty Hu Hg Hpid Hnr Hc He Ha Hr.
  pose proof (seccomp_record_ok auid uid gid ses pid comm exe sig arch nr rest Hc He Ha Hr) as Hf.
  set (fields := seccomp_record auid uid gid ses pid comm exe sig arch nr rest) in *.
  unfold ExtractAuditLine.
  assert (Contains (log_line p fields) (bytes "audit(") = true) as ->.
  { unfold log_line. rewrite !(app_assoc (ll_prefix p)), !(app_assoc _ (ll_type p)).
    rewrite app_comm_cons, app_assoc. apply Contains_app. }
  cbn [negb]. rewrite cut_enrichment_line, header_prefix by (done || apply Hp).
  assert (∀ s, auditHeaderRegex (bytes "type=" ++ s) =
    match header_at (bytes "type=" ++ s) with Some h => Some h | None => auditHeaderRegex (drop 1 (bytes "type=" ++ s)) end) as -> by done.
  rewrite header_at_line by done. cbn [mbind option_bind].
  apply memb_spec in Hty as ->.
  assert (∀ key, fields_get (parseAuditFields (SPACE :: log_record fields)) key = value_of (said fields) key) as Hget.
  { intros key. by rewrite fields_get_pairs, body_fields. }
  unfold extractSeccompLine, extractID. rewrite !Hget.
  change (value_of (said fields) (bytes "pid")) with (Some (decimal pid)).
  change (value_of (said fields) (bytes "syscall")) with (Some (decimal nr)).
  change (value_of (said fields) (bytes "exe")) with (Some exe).
  change (value_of (said fields) (bytes "arch")) with (Some arch).
  change (value_of (said fields) (bytes "uid")) with (Some (decimal uid)).
  change (value_of (said fields) (bytes "gid")) with (Some (decimal gid)).
  cbn [mbind option_bind]. rewrite ParseInt_decimal, !ParseUint_decimal by lia. cbn [mbind option_bind].
  unfold extractProcessID. rewrite ParseUint_decimal by lia. cbn [mbind option_bind].
  by rewrite (proj2 (Z.eqb_neq _ _)) by lia.
Qed.

(** *** Examples *)

(** A process whose name looks like fields of a record. *)
Definition hostile_comm : text := QUOTE :: bytes " pid=1 arch=0 ".

Definition demo_parts : log_line_parts :=
  LogLine (bytes "[  12.3] audit: ") (bytes "1326") false (bytes "1613596317.899:6461") (Some (bytes "pid=1")).

Lemma demo_parts_ok : parts_ok demo_parts.
Proof.
  split; [by vm_compute|apply (bool_decide_unpack _); by vm_compute|split..]; try done;
    apply (bool_decide_unpack _); by vm_compute.
Qed.

Example hostile_value :
  log_field (bytes "comm", Untrusted hostile_comm) = bytes "comm=22207069643D3120617263683D3020".
Proof. by vm_compute. Qed.

Lemma fields_roundtrip_witness :
  pairs (parseAuditFields (log_record [(bytes "pid", Bare (bytes "7")); (bytes "comm", Untrusted hostile_comm);
    (bytes "exe", Untrusted (bytes "/bin/sh"))])) =
  [(bytes "pid", bytes "7"); (bytes "comm", hostile_comm); (bytes "exe", bytes "/bin/sh")].
Proof.
  apply (fields_roundtrip [(bytes "pid", Bare (bytes "7")); (bytes "comm", Untrusted hostile_comm);
    (bytes "exe", Untrusted (bytes "/bin/sh"))]).
  repeat (apply Forall_cons; split); try apply Forall_nil_2.
  - apply bare_field; [split; [done|]; apply (bool_decide_unpack _); by vm_compute|by vm_compute].
  - apply untrusted_field; [apply (bool_decide_unpack _); by vm_compute|by vm_compute].
  - apply untrusted_field; [apply (bool_decide_unpack _); by vm_compute|by vm_compute].
Defined.

Lemma seccomp_line_roundtrip_witness :
  ExtractAuditLine (log_line demo_parts
    (seccomp_record 4294967295 1000 1000 2 4711 hostile_comm (bytes "/bin/sh") 0 (bytes "c000003e") 59 [])) =
  Some {| (new_line AuditTypeSeccomp) with
    ProcessID := 4711; TimestampID := bytes "1613596317.899:6461"; SystemCallID := 59;
    l_executable := bytes "/bin/sh"; Arch := bytes "c000003e"; Uid := Some 1000; Gid := Some 1000 |}.
Proof.
  apply (seccomp_line_roundtrip demo_parts); try lia.
  - exact demo_parts_ok.
  - apply (bool_decide_unpack _); by vm_compute.
  - apply (bool_decide_unpack _); by vm_compute.
  - apply (bool_decide_unpack _); by vm_compute.
  - split; [done|]. apply (bool_decide_unpack _); by vm_compute.
  - constructor.
Defined.

Example selinux_example :
  ExtractAuditLine (bytes "type=AVC msg=audit(1613173578.156:2945): avc:  denied  { read open } for  pid=75593 comm=6170 scontext=a:b:c tcontext=d:e:f tclass=file") =
  Some {| (new_line AuditTypeSelinux) with ProcessID := 75593; TimestampID := bytes "1613173578.156:2945";
    Perm := bytes "read open"; Scontext := bytes "a:b:c"; Tcontext := bytes "d:e:f"; Tclass := bytes "file" |}.
Proof. by vm_compute. Qed.

Example unsupported_examples :
  map IsAuditLine (map bytes ["type=SECCOMP msg=audit(1.2:3): pid=0 syscall=1"; "type=SECCOMP msg=audit(1.2:3): pid=7";
    "kauditd_printk_skb: 1 callbacks suppressed"; "type=1300 audit(1.2:3): pid=7 syscall=1"]) = [false; false; false; false].
Proof. by vm_compute. Qed.
