(* ===== verification/Filters.v ===== *)
(** * Filters of enriched log lines ([enricher/filter.go])

    A configured list of filters decides whether an enriched audit line is logged.
    The filters are sorted by their priority once, and the first that matches a
    line gives its level.  [filter_of_priority] relates that to the list as it is
    configured: the level is the one of the filter that matches with the lowest
    priority value, the first of them if there are several. *)
From stdpp Require Import sorting.
From S2P Require Import Prelude Paths Dirs Profile Armor AuditLog.
Import String.StringSyntax.
#[local] Open Scope string_scope.
#[local] Open Scope list_scope.
#[local] Open Scope Z_scope.

(** ** Values of a log record *)

(** A value of a map: a string, the signed integers, a [uint32] and a pointer to
    one, and a map again.  The last two are the types [[]string] and
    [map[string]string]. *)
Inductive log_any :=
  | LString (s : text)
  | LInt (bits : Z) (n : Z)
  | LUint32 (n : Z)
  | LUint32Ptr (n : option Z)
  | LMap (m : list (text * log_any))
  | LStrings (l : list text)
  | LStringMap (m : list (text * text)).

Abbreviation log_map := (list (text * log_any)).

(** The value of a key; a map has no key twice. *)
Fixpoint lookup (m : log_map) (key : text) : option log_any :=
  match m with
  | [] => None
  | (k, v) :: m => if bool_decide (k = key) then Some v else lookup m key
  end.

(** ** Filters *)

(** A level is any string; only [EnricherLogLevelNone] keeps a record out of the
    log. *)
Definition EnricherLogLevel : Type := text.
Definition EnricherLogLevelMetadata : EnricherLogLevel := bytes "Metadata".
Definition EnricherLogLevelNone : EnricherLogLevel := bytes "None".

#[export] Instance EnricherLogLevel_eq_dec : EqDecision EnricherLogLevel := list_eq_dec.

Record EnricherFilterOptions := Filter {
  Priority : Z;
  Level : EnricherLogLevel;
  MatchKeys : list text;
  MatchValues : option (list text)
}.

(** A signed integer of any width fits into an [int] of 64 bits. *)
Definition convertToInt (val : log_any) : option Z :=
  match val with
  | LInt _ v => Some v
  | LUint32 v => Some v
  | LUint32Ptr v => v
  | _ => None
  end.

(** [strconv.Atoi] of 64 bits. *)
Definition Atoi (s : text) : option Z := ParseInt s 64.

(** [reflect.DeepEqual] of a string and a value. *)
Definition same_string (value : text) (logValue : log_any) : bool :=
  match logValue with LString s => bool_decide (value = s) | _ => false end.

Definition match_value (logValue : log_any) (value : text) : bool :=
  same_string value logValue ||
  match Atoi value, convertToInt logValue with
  | Some valueInt, Some retrievedInt => valueInt =? retrievedInt
  | _, _ => false
  end.

Definition matchAnyFilterValue (logValue : log_any) (filter : EnricherFilterOptions) : bool :=
  match MatchValues filter with
  | None | Some [] => true
  | Some values => existsb (match_value logValue) values
  end.

(** [strings.SplitN(label, "/", 2)]: the first part, and the rest if there is a
    slash. *)
Definition split_label (label : text) : text * option text :=
  match IndexByte label SLASH with
  | Some i => (take i label, Some (drop (S i) label))
  | None => (label, None)
  end.

(** Every round takes a slash off the label, so its length is enough. *)
Fixpoint match_path (fuel : nat) (label : text) (filter : EnricherFilterOptions) (logMap : log_map) : bool :=
  match fuel with
  | O => false
  | S fuel =>
      match split_label label with
      | (label, Some rest) =>
          match lookup logMap label with
          | Some (LMap subMap) => match_path fuel rest filter subMap
          | _ => false
          end
      | (label, None) =>
          match lookup logMap label with
          | Some logValue => matchAnyFilterValue logValue filter
          | None => false
          end
      end
  end.

Definition matchPathFilterLabel (label : text) (filter : EnricherFilterOptions) (logMap : log_map) : bool :=
  match_path (S (length label)) label filter logMap.

Definition matchAnyFilterLabel (filter : EnricherFilterOptions) (logMap : log_map) : bool :=
  existsb (λ label, matchPathFilterLabel label filter logMap) (MatchKeys filter).

Fixpoint ApplyEnricherFilters (logMap : log_map) (filters : list EnricherFilterOptions) : EnricherLogLevel :=
  match filters with
  | [] => EnricherLogLevelMetadata
  | filter :: filters =>
      if matchAnyFilterLabel filter logMap then Level filter else ApplyEnricherFilters logMap filters
  end.

(** [slices.SortStableFunc] by the priority: a filter goes before those of the
    same priority that were after it. *)
Fixpoint insert_filter (f : EnricherFilterOptions) (l : list EnricherFilterOptions) : list EnricherFilterOptions :=
  match l with
  | [] => [f]
  | g :: l' => if Priority f <=? Priority g then f :: l else g :: insert_filter f l'
  end.

Fixpoint sort_filters (l : list EnricherFilterOptions) : list EnricherFilterOptions :=
  match l with [] => [] | f :: l => insert_filter f (sort_filters l) end.

(** [GetEnricherFilters], of the list that [json.Unmarshal] returns. *)
Definition GetEnricherFilters (unmarshalled : option (list EnricherFilterOptions)) :
    option (list EnricherFilterOptions) := sort_filters <$> unmarshalled.

(** The map of [logLevelFor], only made if there are filters. *)
Definition logLevelFor (filters : list EnricherFilterOptions) (kv : log_map) : EnricherLogLevel :=
  match filters with [] => EnricherLogLevelMetadata | _ => ApplyEnricherFilters kv filters end.

(** ** The order of filters *)

(** The filter of a configured list that decides: of those that match, the first
    with the lowest priority value. *)
Fixpoint deciding (logMap : log_map) (l : list EnricherFilterOptions) : option EnricherFilterOptions :=
  match l with
  | [] => None
  | f :: l =>
      match deciding logMap l with
      | Some g => if matchAnyFilterLabel f logMap && (Priority f <=? Priority g) then Some f else Some g
      | None => if matchAnyFilterLabel f logMap then Some f else None
      end
  end.

(** What is first in a sorted list. *)
Definition first_match (logMap : log_map) (l : list EnricherFilterOptions) : option EnricherFilterOptions :=
  List.find (λ f, matchAnyFilterLabel f logMap) l.

Lemma find_insert logMap f l : StronglySorted (λ f g, Priority f <= Priority g) l →
  first_match logMap (insert_filter f l) =
  match first_match logMap l with
  | Some g => if matchAnyFilterLabel f logMap && (Priority f <=? Priority g) then Some f else Some g
  | None => if matchAnyFilterLabel f logMap then Some f else None
  end.
Proof.
  induction 1 as [|g l Hl IH Hg]; cbn [insert_filter]; [done|]. unfold first_match in *.
  destruct (Priority f <=? Priority g) eqn:E; zbool.
  - cbn [find]. destruct (matchAnyFilterLabel f logMap); cbn [andb].
    + destruct (matchAnyFilterLabel g logMap); [by rewrite (proj2 (Z.leb_le _ _))|].
      destruct (find _ l) as [h|] eqn:Eh; [|done]. apply List.find_some in Eh as [Hin%list_elem_of_In _].
      rewrite Forall_forall in Hg. apply Hg in Hin. by rewrite (proj2 (Z.leb_le _ _)) by lia.
    + by destruct (matchAnyFilterLabel g logMap); [|destruct (find _ l)].
  - cbn [find]. destruct (matchAnyFilterLabel g logMap); [|exact IH].
    by rewrite (proj2 (Z.leb_gt _ _)), andb_false_r.
Qed.

Lemma insert_sorted f l : StronglySorted (λ f g, Priority f <= Priority g) l →
  StronglySorted (λ f g, Priority f <= Priority g) (insert_filter f l).
Proof.
  induction 1 as [|g l Hl IH Hg]; cbn [insert_filter]; [repeat constructor|].
  destruct (Priority f <=? Priority g) eqn:E; zbool.
  - constructor; [by constructor|]. constructor; [done|]. eapply Forall_impl; [exact Hg|]. cbn. lia.
  - constructor; [done|]. clear IH Hl. induction l as [|h l IH]; cbn [insert_filter]; [repeat constructor; lia|].
    apply Forall_cons in Hg as [Hh Hg]. destruct (Priority f <=? Priority h); repeat constructor; auto; lia.
Qed.

Lemma sort_sorted l : StronglySorted (λ f g, Priority f <= Priority g) (sort_filters l).
Proof. induction l; cbn; [constructor|by apply insert_sorted]. Qed.

Lemma apply_first logMap l :
  ApplyEnricherFilters logMap l = match first_match logMap l with Some f => Level f | None => EnricherLogLevelMetadata end.
Proof. induction l as [|f l IH]; [done|]. cbn. by destruct (matchAnyFilterLabel f logMap). Qed.

Lemma deciding_spec logMap l :
  match deciding logMap l with
  | Some f => ∃ l1 l2, l = l1 ++ f :: l2 ∧ matchAnyFilterLabel f logMap = true ∧
      (∀ g, g ∈ l1 → matchAnyFilterLabel g logMap = true → Priority f < Priority g) ∧
      (∀ g, g ∈ l2 → matchAnyFilterLabel g logMap = true → Priority f <= Priority g)
  | None => ∀ g, g ∈ l → matchAnyFilterLabel g logMap = false
  end.
Proof.
  induction l as [|f l IH]; cbn [deciding]; [by intros g ?%elem_of_nil|].
  destruct (deciding logMap l) as [h|].
  - destruct IH as (l1 & l2 & -> & Hh & H1 & H2).
    destruct (matchAnyFilterLabel f logMap) eqn:Ef; cbn [andb]; [destruct (Priority f <=? Priority h) eqn:E; zbool|].
    + exists [], (l1 ++ h :: l2). split; [done|]. split; [done|]. split; [by intros ? ?%elem_of_nil|].
      intros g [Hg|[->|Hg]%elem_of_cons]%elem_of_app Hm; [specialize (H1 g Hg Hm)| |specialize (H2 g Hg Hm)]; lia.
    + exists (f :: l1), l2. split; [done|]. split; [done|]. split; [|done].
      intros g [->|Hg]%elem_of_cons Hm; [lia|by apply H1].
    + exists (f :: l1), l2. split; [done|]. split; [done|]. split; [|done].
      intros g [->|Hg]%elem_of_cons Hm; [congruence|by apply H1].
  - destruct (matchAnyFilterLabel f logMap) eqn:Ef.
    + exists [], l. split; [done|]. split; [done|]. split; [by intros ? ?%elem_of_nil|].
      intros g Hg Hm. rewrite IH in Hm by done. done.
    + intros g [->|Hg]%elem_of_cons; auto.
Qed.

(** C33 The configured filter with the lowest priority value decides: for a list of
    filters in any order, the level of a log record is the one of a filter that
    matches it, such that all that match before it have a higher priority value and
    all after it have none lower; a record no filter matches is logged. *)
Theorem filter_of_priority filters kv l :
  GetEnricherFilters (Some filters) = Some l →
  match deciding kv filters with
  | Some f => logLevelFor l kv = Level f ∧
      ∃ l1 l2, filters = l1 ++ f :: l2 ∧ matchAnyFilterLabel f kv = true ∧
        (∀ g, g ∈ l1 → matchAnyFilterLabel g kv = true → Priority f < Priority g) ∧
        (∀ g, g ∈ l2 → matchAnyFilterLabel g kv = true → Priority f <= Priority g)
  | None => logLevelFor l kv = EnricherLogLevelMetadata ∧ (∀ g, g ∈ filters → matchAnyFilterLabel g kv = false)
  end.
Proof.
  intros [= <-]. pose proof (deciding_spec kv filters) as Hs.
  assert (logLevelFor (sort_filters filters) kv =
    match deciding kv filters with Some f => Level f | None => EnricherLogLevelMetadata end) as Hl.
  { assert (first_match kv (sort_filters filters) = deciding kv filters) as Hf.
    { clear Hs. induction filters as [|f fs IH]; [done|]. cbn [sort_filters deciding].
      rewrite find_insert by apply sort_sorted. by rewrite IH. }
    rewrite <-Hf, <-apply_first. unfold logLevelFor. by destruct (sort_filters filters). }
  by destruct (deciding kv filters).
Qed.

(** Two filters for a namespace, and one for a syscall of any namespace that comes
    before them. *)
Definition demo_filters : list EnricherFilterOptions := [
  Filter 100 EnricherLogLevelNone [bytes "namespace"] (Some [bytes "default"]);
  Filter 10 EnricherLogLevelMetadata [bytes "syscallID"] (Some [bytes "59"]);
  Filter 100 EnricherLogLevelMetadata [bytes "resource/namespace"; bytes "namespace"] None].

Definition demo_record (nr : Z) : log_map :=
  [(bytes "namespace", LString (bytes "default")); (bytes "syscallID", LInt 32 nr)].

Example filter_levels :
  map (λ nr, logLevelFor (sort_filters demo_filters) (demo_record nr)) [59; 1] =
  [EnricherLogLevelMetadata; EnricherLogLevelNone].
Proof. by vm_compute. Qed.

Example nested_label :
  matchPathFilterLabel (bytes "resource/pod") (Filter 0 EnricherLogLevelNone [] (Some [bytes "p"]))
    [(bytes "resource", LMap [(bytes "pod", LString (bytes "p"))])] = true.
Proof. by vm_compute. Qed.

Lemma filter_of_priority_witness :
  logLevelFor (sort_filters demo_filters) (demo_record 1) = EnricherLogLevelNone.
Proof.
  pose proof (filter_of_priority demo_filters (demo_record 1) _ eq_refl) as H.
  assert (deciding (demo_record 1) demo_filters = head demo_filters) as Hd by by vm_compute.
  rewrite Hd in H. exact (proj1 H).
Defined.
