(* ===== verification/Delivered.v ===== *)
(** * From the hook to the profile

    The whole way of a recorded capability or socket: a program of
    [recorder.bpf.c] sends an event, the event loop of the userspace decodes it
    and the AppArmor recorder puts it into the profile.  The first part is about
    the events in the ring buffer: whatever programs run, their fields fit the
    structures, so that the userspace decodes what was sent ([delivered]). *)
From S2P Require Import Prelude Bpf State Names Keys Report Syscalls Activity DPath FsEvents.
From S2P Require Import Hooks Inflight Scratch Reported Wire Paths Dirs AppArmor Recording.
From S2P Require Import Profile.
Import String.StringSyntax.
#[local] Open Scope string_scope.
#[local] Open Scope list_scope.
#[local] Open Scope Z_scope.

(** ** The fields of all events *)

Definition record_header (r : ring_record) : event_header :=
  match r with HeaderRecord h => h | FileRecord h _ => h | ExecRecord e => ex_hdr e end.

(** A header of an event with data: it fits, and is not that of a clear event. *)
Definition data_header_ok (h : event_header) : Prop :=
  header_ok h ∧ eh_type h ≠ EVENT_TYPE_CLEAR_MNTNS.

Definition record_ok (r : ring_record) : Prop :=
  match r with
  | HeaderRecord h => header_ok h
  | _ => data_header_ok (record_header r)
  end.

(** The events, and the header of an event that is assembled, fit. *)
Definition ring_ok (w : World) : Prop :=
  Forall (λ o, ∀ r, o = Some r → record_ok r) (events w) ∧
  map_Forall (λ _ d, data_header_ok (ed_hdr d)) (file_event_scratch w).

Lemma in_u_lor n a b : 0 <= n → in_u n a → in_u n b → in_u n (Z.lor a b).
Proof.
  unfold in_u. intros Hn [Ha Ha'] [Hb Hb'].
  assert (0 <= Z.lor a b) as H0 by (apply Z.lor_nonneg; lia). split; [done|].
  destruct (Z.eq_dec (Z.lor a b) 0) as [->|Hne]; [lia|].
  apply Z.log2_lt_pow2; [lia|]. rewrite Z.log2_lor by done.
  assert (∀ x, 0 <= x → x < 2 ^ n → Z.log2 x < n ∨ x = 0) as Hl.
  { intros x Hx Hx'. destruct (Z.eq_dec x 0); [by right|left]. apply Z.log2_lt_pow2; lia. }
  pose proof (Z.log2_nonneg a). pose proof (Z.log2_nonneg b). change (Z.log2 0) with 0 in *.
  destruct (Hl a Ha Ha') as [?|Ea], (Hl b Hb Hb') as [?|Eb]; subst; cbn [Z.log2] in *; [lia..|done].
Qed.

Lemma get_key_range cfg cur mntns : in_u 32 mntns → in_u 64 (get_key cfg cur mntns).
Proof.
  intros Hm. assert (in_u 64 mntns) as Hm' by (unfold in_u in *; lia).
  unfold get_key, get_mntns_id. repeat case_match; eauto with ebpf.
Qed.

Lemma socket_flags_range d t : in_u 64 (socket_flags d t).
Proof.
  unfold socket_flags. apply in_u_lor; [lia|by apply wrap_range|].
  change 0xffffffff with (Z.ones 32). rewrite Z.land_ones by lia.
  pose proof (Z.mod_pos_bound t (2 ^ 32) ltac:(lia)). unfold in_u. lia.
Qed.

Lemma get_mntns_leaves cfg cur : leaves (in_u 32) (get_mntns cfg cur).
Proof.
  unfold get_mntns. cbv zeta.
  assert (∀ v : Z, v = 0 ∨ v = mntns_inum cur → in_u 32 v) as Hv.
  { intros v [->| ->]; [unfold in_u; lia|eauto with ebpf]. }
  repeat first [apply leaves_bind; intro | apply leaves_ret; apply Hv; auto; fail
    | progress unfold key_excluded, filtered_out; cbv zeta | case_match].
Qed.

Lemma ring_keeps {A} (p : bpf A) :
  keeps (λ w, (events w, file_event_scratch w)) p → preserves ring_ok p.
Proof.
  intros Hp. eapply guar_preserves; [|exact Hp]. cbn. intros w w' [= He Hs]. unfold ring_ok.
  by rewrite He, Hs.
Qed.

(** A value fits its field. *)
Ltac fits :=
  first [assumption | apply cur_pid_range | by apply get_key_range | apply socket_flags_range
    | split; [by vm_compute|by vm_compute]].

Section ring.
Context {KR : Kernel} (cfg : Rodata).

Lemma submit_ring cur type mntns key flags :
  in_u 8 type → in_u 32 mntns → in_u 64 key → in_u 64 flags →
  preserves ring_ok (submit_event cur type mntns key flags).
Proof.
  intros Ht Hm Hk Hf. unfold submit_event. apply preserves_bind.
  - apply preserves_actI. intros w [He Hs]. cbn. destruct (rb_room _ _); cbn; [|by split].
    split; [|done]. apply Forall_app. split; [done|]. by repeat constructor.
  - intros [slot|]; [|apply ring_keeps; solve_keeps]. apply preserves_bind; [|constructor].
    apply preserves_upd. intros w [He Hs]. split; [|done]. cbn. apply Forall_insert; [done|].
    intros r [= <-]. split; cbn; fits.
Qed.

Lemma exec_ring cur a b c mntns :
  in_u 32 mntns → preserves ring_ok (submit_exec_event cfg cur a b c mntns).
Proof.
  intros Hm. unfold submit_exec_event. apply preserves_bind.
  - apply preserves_actI. intros w [He Hs]. cbn. destruct (rb_room _ _); cbn; [|by split].
    split; [|done]. apply Forall_app. split; [done|]. by repeat constructor.
  - intros [slot|]; [|apply ring_keeps; solve_keeps].
    apply preserves_bind; [apply preserves_get|]. intros stale. cbv zeta.
    repeat match goal with |- context [let '(_, _) := ?p in _] => destruct p end.
    apply preserves_upd. intros w [He Hs]. split; [|done]. cbn. apply Forall_insert; [done|].
    intros r [= <-]. split; [|done]. split; cbn; fits.
Qed.

Lemma set_scratch_ring cur h data w :
  data_header_ok h → ring_ok w → ring_ok (set_scratch cur (EventData h data) w).
Proof. intros Hh [He Hs]. split; [done|]. cbn. by apply map_Forall_insert_2. Qed.

Lemma scratch_header cur w : ring_ok w → data_header_ok (ed_hdr (scratch cur w)).
Proof.
  intros [_ Hs]. unfold scratch. destruct (file_event_scratch w !! cpu cur) eqn:E; cbn.
  - by apply Hs in E.
  - split; [split|]; by vm_compute.
Qed.

Lemma event_path_ring cur k root filename mode custom :
  preserves ring_ok (event_path cur k root filename mode custom).
Proof.
  unfold event_path. apply preserves_bind.
  - unfold resolve_path. apply preserves_actI. intros w Hw.
    pose proof (scratch_header cur w Hw) as Hh. cbv zeta.
    destruct custom.
    + destruct (bpf_d_path_tetragon _ _ _ _ _) as [[r data] heap].
      destruct (set_scratch_ring cur _ data w Hh Hw) as [H1 H2]. by split.
    + destruct (bpf_d_path _ _ _) as [r data]. cbn [fst snd]. by apply set_scratch_ring.
  - intros len. repeat case_match; try apply preserves_ret. apply preserves_bind; [|by constructor].
    apply preserves_upd. intros w Hw. apply set_scratch_ring; [by apply scratch_header|done].
Qed.

Lemma locked_ring cur k root t mode flags custom mntns pid inode dev ov :
  in_u 32 mntns → in_u 32 pid → in_u 64 flags →
  preserves ring_ok (register_fs_event_locked cfg cur k root t mode flags custom mntns pid inode dev ov).
Proof.
  intros Hm Hp Hf. unfold register_fs_event_locked. cbv zeta.
  apply preserves_bind; [apply preserves_get|]. intros last. destruct (_ && _); [constructor|].
  apply preserves_bind; [apply event_path_ring|]. intros [len|]; [|constructor].
  apply preserves_bind.
  { apply preserves_upd. intros w Hw. apply set_scratch_ring; [|done].
    split; [split; cbn; fits|done]. }
  intros _. apply preserves_bind.
  - apply preserves_actI. intros w Hw. pose proof (scratch_header cur w Hw) as Hh.
    destruct Hw as [He Hs]. destruct (rb_room _ _); cbn; [|by split].
    split; [|done]. apply Forall_app. split; [done|].
    constructor; [by intros r [= <-]|constructor].
  - intros rc. destruct (negb _); [apply ring_keeps; solve_keeps|].
    destruct (inode =? 0); [constructor|]. apply ring_keeps. solve_keeps.
Qed.

Lemma mntns_bind_ring {A} cur (q : Z → bpf A) :
  (∀ mntns, in_u 32 mntns → preserves ring_ok (q mntns)) →
  preserves ring_ok (get_mntns cfg cur ≫= q).
Proof.
  intros Hq. eapply preserves_bind_leaves; [apply get_mntns_leaves| |exact Hq].
  apply ring_keeps. solve_keeps.
Qed.

Lemma flag_if_range v mask flag flags :
  in_u 64 flag → in_u 64 flags → in_u 64 (flag_if v mask flag flags).
Proof. intros H1 H2. unfold flag_if. destruct (z2b _); [by apply in_u_lor|done]. Qed.

Lemma file_flags_range flags :
  (∃ m, flags = open_flags m) ∨ (∃ m, flags = mmap_flags m) ∨ 0 <= flags < 16 → in_u 64 flags.
Proof.
  intros [[m ->]|[[m ->]|H]]; [| |unfold in_u; lia];
    repeat (apply flag_if_range; [split; by vm_compute|]); split; by vm_compute.
Qed.

Lemma fs_event_ring cur k root t mode flags custom :
  in_u 64 flags → preserves ring_ok (register_fs_event cfg cur k root t mode flags custom).
Proof.
  intros Hf. unfold register_fs_event. destruct (_ =? S_IFIFO); [constructor|].
  apply mntns_bind_ring. intros mntns Hm. destruct (mntns =? 0); [constructor|]. cbv zeta.
  destruct (negb _); [constructor|].
  apply preserves_bind; [apply ring_keeps; solve_keeps|]. intros _.
  apply preserves_bind; [apply preserves_get|]. intros n.
  destruct (negb _); [apply ring_keeps; solve_keeps|].
  apply preserves_bind; [apply locked_ring; fits|]. intros _. apply ring_keeps. solve_keeps.
Qed.

Lemma file_event_ring cur k root f flags :
  in_u 64 flags → preserves ring_ok (when_recording (register_file_event cfg cur k root f flags)).
Proof.
  intros Hf. apply preserves_bind; [apply preserves_get|]. intros rec.
  destruct (negb rec); [constructor|]. destruct f; [by apply fs_event_ring|constructor].
Qed.

Ltac walk_ring :=
  repeat match goal with
  | |- ∀ _, _ => intro
  | |- preserves _ (get_mntns _ _ ≫= _) => apply mntns_bind_ring
  | |- preserves _ (submit_event _ _ _ _ _) => apply submit_ring; fits
  | |- preserves _ (submit_exec_event _ _ _ _ _ _) => apply exec_ring; assumption
  | |- preserves _ (register_fs_event _ _ _ _ _ _ _ _) => apply fs_event_ring
  | |- preserves _ (mret _) => apply preserves_ret
  | |- preserves _ (if ?b then _ else _) => destruct b
  | |- preserves _ (match ?o with Some _ => _ | None => _ end) => destruct o
  | |- preserves _ _ => solve [apply ring_keeps; solve_keeps]
  | |- preserves _ (_ ≫= _) => apply preserves_bind
  | |- preserves _ _ => progress unfold report_process, syscalls_value, container_start, clear_apparmor, report_once,
      sys_enter, sys_enter_getgid, sys_enter_socket, cap_capable, sys_enter_execve,
      sys_enter_execveat, sched_process_exec, sched_process_exit, sched_process_fork,
      path_mkdir, path_mknod, path_unlink, when_recording; cbv zeta
  end.

Lemma hook_ring p : hook cfg p → preserves ring_ok p.
Proof.
  intros Hp. destruct Hp as [cur k root f|cur k root f|cur k root f prot|cur k root f| | | | |
    cur cap opt Hcap| | | | | | |];
    try (apply file_event_ring, file_flags_range; eauto; right; right; by vm_compute).
  all: walk_ring; try (apply file_flags_range; right; right; repeat case_match; by vm_compute).
Qed.
End ring.

Lemma user_ring w w' : user_step w w' → ring_ok w → ring_ok w'.
Proof. by intros []. Qed.

Lemma reachable_ring {KR : Kernel} cfg w0 ts w :
  ring_ok w0 → reachable (hook cfg) user_step w0 (ts, w) → ring_ok w.
Proof.
  intros H0 Hr. apply (pool_preserves (hook cfg) user_step ring_ok) in Hr as [H _]; [done| | |done].
  - apply hook_ring.
  - intros w1 w2 Hw Hu. by eapply user_ring.
Qed.

(** ** Decoding *)

Lemma decode_record r :
  record_ok r → ∃ data, unmarshal (encode r) = Some (BpfEvent (record_header r) data).
Proof.
  assert (∀ h d, header_ok h → unmarshal (encode_header h ++ d) = Some (BpfEvent h d)) as H
    by apply unmarshal_encode.
  intros Hr. destruct r as [h|h d|e]; cbn [encode record_header].
  - exists []. rewrite <- (app_nil_r (encode_header h)). by apply H.
  - exists d. apply H, Hr.
  - eexists. unfold encode_exec. apply H, Hr.
Qed.

(** The events the event loop gets. *)
Definition ring_ops (w : World) : list op := map (λ r, OpEvent (encode r)) (submitted w).

Lemma submitted_ok w r : ring_ok w → r ∈ submitted w → record_ok r.
Proof.
  intros [He _] Hr. unfold submitted in Hr. apply list_elem_of_omap in Hr as (o & Ho & Hr).
  rewrite Forall_forall in He. apply (He o Ho). by destruct o.
Qed.

(** An event the userspace keeps is one the recorder has. *)
Lemma collected_content ty key rs flags f :
  ty ≠ EVENT_TYPE_CLEAR_MNTNS → Forall record_ok rs →
  (∀ e, eh_type (be_hdr e) = ty → eh_flags (be_hdr e) = flags → tells e f) →
  flags ∈ collected ty key rs → content (map (λ r, OpEvent (encode r)) rs) key f.
Proof.
  intros Hty Hok Hf. induction rs as [|r rs IH] using rev_ind; [by intros ?%elem_of_nil|].
  apply Forall_app in Hok as [Hok [Hr _]%Forall_cons].
  rewrite collected_snoc, map_app. cbn [map]. rewrite content_snoc.
  assert (∀ l, ¬ (OpExclude key ∈ map (λ r, OpEvent (encode r)) l)) as Hnx.
  { intros l. rewrite list_elem_of_fmap. by intros (? & ? & _). }
  destruct (decode_record r Hr) as [d Hd]. intros Hin.
  destruct (decide (clears r key)) as [Hc|Hc].
  { destruct r as [h| |]; try done. destruct Hc as [Hc1 Hc2]. cbn in Hin.
    rewrite Hc2, Z.eqb_refl, Hc1 in Hin. by apply elem_of_nil in Hin. }
  assert (¬ drops (OpEvent (encode r)) key) as Hnd.
  { intros (e & He & Ht & Hk). rewrite Hd in He. injection He as <-. cbn in Ht, Hk. apply Hc.
    destruct r as [h| |]; [by split|by destruct Hr|by destruct Hr]. }
  assert (flags ∈ collected ty key rs ∨ r = HeaderRecord (record_header r) ∧
    eh_key (record_header r) = key ∧ eh_type (record_header r) = ty ∧
    eh_flags (record_header r) = flags) as [Hold|(Hh & Hk & Ht & Hfl)].
  { destruct r as [h| |]; cbn in Hin; [|by left..].
    destruct (Z.eqb_spec (eh_key h) key); [|by left].
    destruct (Z.eqb_spec (eh_type h) EVENT_TYPE_CLEAR_MNTNS); [by apply elem_of_nil in Hin|].
    destruct (Z.eqb_spec (eh_type h) ty); [|by left].
    apply elem_of_app in Hin as [?|Hin]; [by left|right].
    by apply list_elem_of_singleton in Hin. }
  - left. by auto.
  - right. split; [|done]. exists (encode r), (BpfEvent (record_header r) d). by auto.
Qed.

(** The recorder that handled all events of the ring buffer. *)
Definition recorder_of (name : list Z) (w : World) : AppArmorRecorder :=
  exec (processEvents (map encode (submitted w))) (newAppArmorRecorder name).

Lemma recorder_of_ops name w : recorder_of name w = run_ops (ring_ops w) (newAppArmorRecorder name).
Proof.
  unfold recorder_of, run_ops, ring_ops, processEvents. generalize (newAppArmorRecorder name).
  induction (submitted w) as [|r rs IH]; intros b; [done|]. cbn [map for_each].
  by rewrite !exec_bind, IH.
Qed.

(** What is collected is recorded. *)
Lemma delivered name w ty key flags f :
  ring_ok w → within_limits (ring_ops w) → ty ≠ EVENT_TYPE_CLEAR_MNTNS →
  (∀ e, eh_type (be_hdr e) = ty → eh_flags (be_hdr e) = flags → tells e f) →
  flags ∈ collected ty key (submitted w) → recorded (recorder_of name w) key f.
Proof.
  intros Hw Hl Hty Hf Hin. rewrite recorder_of_ops. apply (simulates_all name _ Hl).
  eapply collected_content; [exact Hty| |exact Hf|exact Hin].
  apply Forall_forall. intros r. by apply submitted_ok.
Qed.

(** ** The profile *)

Lemma profile_has_cap b keys key c :
  key ∈ keys → recorded b key (UsedCap c) →
  capabilityToString c ∈ pr_capabilities (GetAppArmorProcessed b keys).1.
Proof.
  intros Hk Hc. cbn in Hc. unfold GetAppArmorProcessed, processCapabilities.
  destruct (processExecFsEvents b keys) as [files found]. cbn [fst pr_capabilities].
  rewrite elem_of_Compact, elem_of_Sort. apply list_elem_of_fmap_2.
  destruct (recordedCapabilities b !! key) as [caps|] eqn:E; [|by apply elem_of_nil in Hc].
  apply list_elem_of_In, in_concat. exists caps. split; [|by apply list_elem_of_In].
  apply list_elem_of_In, list_elem_of_omap. by exists key.
Qed.

(** The rules of a profile for sockets are those of all of its keys. *)
Lemma join_sockets_le f l u :
  f ∈ [UseRaw; UseTCP; UseUDP] → (∃ x, x ∈ u :: l ∧ f x = true) →
  f (fold_left join_sockets l u) = true.
Proof.
  intros Hf. assert (∀ a b, f (join_sockets a b) = f a || f b) as Hj.
  { intros a b. repeat (apply elem_of_cons in Hf as [->|Hf]; [done|]). by apply elem_of_nil in Hf. }
  revert u. induction l as [|y l IH]; intros u (x & Hx & Hfx); cbn [fold_left].
  - apply list_elem_of_singleton in Hx. by subst.
  - apply IH. apply elem_of_cons in Hx as [->|[->|Hx]%elem_of_cons].
    + exists (join_sockets u y). split; [by left|]. by rewrite Hj, Hfx.
    + exists (join_sockets u y). split; [by left|]. by rewrite Hj, Hfx, orb_true_r.
    + exists x. split; [by right|done].
Qed.

Lemma profile_has_socket b keys key f proj :
  key ∈ keys → recorded b key f →
  (f, proj) ∈ [(UsedRaw, UseRaw); (UsedTCP, UseTCP); (UsedUDP, UseUDP)] →
  proj (pr_socket (GetAppArmorProcessed b keys).1) = true.
Proof.
  intros Hk Hf Hp. unfold GetAppArmorProcessed, processCapabilities.
  destruct (processExecFsEvents b keys) as [files found]. cbn [fst pr_socket].
  assert (∃ u, recordedSocketsUse b !! key = Some u ∧ proj u = true ∧
    proj ∈ [UseRaw; UseTCP; UseUDP]) as (u & Hu & Hpu & Hin).
  { repeat (apply elem_of_cons in Hp as [[= -> ->]|Hp]; [cbn in Hf;
      (destruct (recordedSocketsUse b !! key) as [u|]; [|done]); exists u; set_solver|]).
    by apply elem_of_nil in Hp. }
  apply join_sockets_le; [done|]. exists u. split; [|done]. right.
  apply list_elem_of_omap. by exists key.
Qed.

Section end_to_end.
Context {KR : Kernel} {KRok : KernelOk} (cfg : Rodata).

(** A recording starts with an empty ring buffer and no marks. *)
Definition started (w : World) : Prop :=
  fresh w ∧ events w = [] ∧ file_event_scratch w = ∅.

Lemma started_ring w : started w → ring_ok w.
Proof. intros (_ & He & Hs). unfold ring_ok. rewrite He, Hs. by split. Qed.

Lemma exec_ring_ok w0 ts w p :
  started w0 → reachable (hook cfg) user_step w0 (ts, w) → hook cfg p → ring_ok (exec p w).
Proof.
  intros H0 Hr Hp. apply preserves_exec; [by eapply hook_ring|].
  eapply reachable_ring; [by apply started_ring|done].
Qed.

(** C2 Every capability a workload uses is in its profile: in every
    interleaving of the programs and the userspace, a check of a capability that
    is seen while no other program runs leaves an event of the capability to the
    userspace, and once the event loop has handled the events, the profile of
    the key names the capability.  This holds also after the userspace was made
    to drop the data of the key.  The only exception is a check whose own event
    did not fit into the ring buffer, which is counted as lost. *)
Theorem used_cap_in_profile w0 ts w cur cap opt name keys :
  started w0 → reachable (hook cfg) user_step w0 (ts, w) → settled ts →
  reported_cap cfg cur cap opt w →
  let w' := exec (cap_capable cfg cur cap opt) w in
  within_limits (ring_ops w') → get_key cfg cur (mntns_inum cur) ∈ keys →
  capabilityToString cap ∈
    pr_capabilities (GetAppArmorProcessed (recorder_of name w') keys).1 ∨
  ∃ t, (tick w <= t < tick w')%nat ∧ rb_room t sizeof_event_header = false.
Proof.
  intros Hw0 Hr Hts Hcap w' Hl Hk. pose proof (rc_cap _ _ _ _ _ Hcap) as Hrange.
  destruct (used_cap_is_told cfg w0 ts w cur cap opt (proj1 Hw0) Hr Hts Hcap) as [Hin|?]; [left|by right].
  eapply profile_has_cap; [exact Hk|]. eapply delivered; [|exact Hl| | |exact Hin]; [|done|].
  - eapply exec_ring_ok; [done|done|]. constructor. unfold in_u. lia.
  - intros e Ht Hf. split; [exact Ht|]. rewrite Hf, swrap_small; [done|lia..].
Qed.

(** C4 An internet socket a workload creates is allowed by its profile: in every
    state an interleaving of the programs and the userspace can reach, a socket
    call that is seen while no other program runs, with AF_INET or AF_INET6 in
    all 64 bits of the register of the domain, has its network rule, for raw
    sockets, TCP or UDP, in the profile of the key, once the event loop has
    handled the events, within the limits of the recorder.  This holds also if
    only another socket of the same kind was reported for it; the exception is a
    call whose own event did not fit into the ring buffer. *)
Theorem used_socket_in_profile w0 ts w cur domain type rest name keys use proj :
  started w0 → reachable (hook cfg) user_step w0 (ts, w) → settled ts →
  is_recording_cached w = true → included cfg cur w = true →
  domain = AF_INET ∨ domain = AF_INET6 →
  socketUse (socket_flags domain type) = Some use →
  proj ∈ [UseRaw; UseTCP; UseUDP] → proj use = true →
  let w' := exec (sys_enter_socket cfg cur (Some domain :: Some type :: rest)) w in
  within_limits (ring_ops w') → get_key cfg cur (mntns_inum cur) ∈ keys →
  proj (pr_socket (GetAppArmorProcessed (recorder_of name w') keys).1) = true ∨
  ∃ t, (tick w <= t < tick w')%nat ∧ rb_room t sizeof_event_header = false.
Proof.
  intros Hw0 Hr Hts Hrec Hi Hd Huse Hp Hpu w' Hl Hk.
  destruct (used_socket_is_told cfg w0 ts w cur domain type rest (proj1 Hw0) Hr Hts Hrec Hi)
    as [(d & t & Hin & Hidx)|?]; [left|by right].
  assert (d = domain ∧ Z.land t 0xf = Z.land type 0xf) as [-> Hty].
  { assert (socket_bit d t = socket_bit domain type) as Hb by (by rewrite !socket_bit_pow, Hidx).
    apply socket_bit_groups in Hb as [Hg Hb]. split; [|done]. unfold socket_group in Hg.
    destruct Hd as [-> | ->]; cbn in Hg;
      destruct (Z.eqb_spec d AF_UNIX), (Z.eqb_spec d AF_INET), (Z.eqb_spec d AF_INET6); done. }
  assert (socketUse (socket_flags domain t) = Some use) as Hu.
  { rewrite <- Huse. unfold socketUse.
    assert (in_u 32 domain) as Hr32 by (destruct Hd as [-> | ->]; by split; vm_compute).
    destruct (socket_flags_seen domain t Hr32) as [-> ->].
    destruct (socket_flags_seen domain type Hr32) as [-> ->]. by rewrite Hty. }
  assert (∀ f, (f, proj) ∈ [(UsedRaw, UseRaw); (UsedTCP, UseTCP); (UsedUDP, UseUDP)] →
    socket_fact use f = true →
    proj (pr_socket (GetAppArmorProcessed (recorder_of name w') keys).1) = true) as Hdone.
  { intros f Hfp Hfu. eapply profile_has_socket; [exact Hk| |exact Hfp].
    eapply delivered; [|exact Hl| | |exact Hin]; [|done|].
    - eapply exec_ring_ok; [done|done|constructor].
    - intros e Ht Hf. destruct f; try done; (split; [exact Ht|]); rewrite Hf, Hu; exact Hfu. }
  apply elem_of_cons in Hp as [->|[->|[->|[]%elem_of_nil]%elem_of_cons]%elem_of_cons].
  - apply (Hdone UsedRaw); [by left|done].
  - apply (Hdone UsedTCP); [by right; left|done].
  - apply (Hdone UsedUDP); [by right; right; left|done].
Qed.

(** C3 A file a workload opens is allowed by its profile: in every interleaving,
    once the event of an opened file is sent and fits into the ring buffer, and
    the event loop has handled the events, the profile of any set of keys with
    the one of the workload has a rule that covers the path and has the
    permission for each access the file was opened for, reading, writing or
    executing.  The exceptions: directories and pipes, files whose path does not
    fit the buffer, deleted and excluded files, those of /sys/devices, those of
    which a number that is no process number becomes a variable, more files or
    keys than the recorder keeps and more rules than the profile; accesses the
    code leaves out, to its known files or the program; and a write to a file
    the workload also executes. *)
Theorem opened_file_permitted {T : Tunables} {TOk : TunablesOk} w0 ts w cur k root f name keys a :
  let s := d_path_of (ft_path (f_target f)) in
  let flags := open_flags (f_mode f) in
  started w0 → reachable (hook cfg) user_step w0 (ts, w) →
  sends cfg cur (f_target f) flags w →
  Z.land (f_i_mode f) S_IFMT ≠ S_IFIFO → Z.land (f_i_mode f) S_IFMT ≠ S_IFDIR →
  0 <= (bpf_d_path (p_mnt (ft_path (f_target f))) (p_dentry (ft_path (f_target f)))
    (Z.to_nat PATH_MAX)).1 →
  Z.of_nat (length s) + 1 < PATH_MAX → plain_file s → shouldExcludeFile (normalized s) = false →
  rb_room (tick w) (sizeof_event_header + Z.of_nat (length s) + 1) = true →
  flagged flags a = true →
  let w' := exec (file_open cfg cur k root f) w in
  let b := recorder_of name w' in
  let key := get_key cfg cur (mntns_inum cur) in
  within_limits (ring_ops w') → key ∈ keys → cl_truncated (classify b keys) = false →
  left_out b (normalized s) a = false → ¬ executed_too b key (normalized s) a →
  profile_permits (processExecFsEvents b keys).1 s a.
Proof.
  intros s flags Hw0 Hr Hs Hfifo Hdir Hn Hlen Hpf Hx Hroom Ha w' b key Hl Hk Ht Hlo Hex.
  unfold b in *. rewrite recorder_of_ops in *.
  assert (path_end (f_i_mode f) = [0]) as He.
  { unfold path_end. by destruct (Z.eqb_spec (Z.land (f_i_mode f) S_IFMT) S_IFDIR). }
  pose proof (file_open_sent cfg cur k root f w Hs Hfifo Hn) as Hsent. cbv zeta in Hsent.
  rewrite He, length_app in Hsent. fold s in Hsent. cbn [length] in Hsent.
  rewrite Nat2Z.inj_add in Hsent. change (Z.of_nat 1) with 1 in Hsent.
  rewrite Z.add_assoc, Hroom in Hsent. specialize (Hsent Hlen).
  eapply used_file_rule; [exact Hl|exact Hpf|exact Hk| |exact Ht|exact Hlo|exact Hex].
  unfold ring_ops, submitted, w'. rewrite Hsent, omap_app, map_app. cbn [omap list_omap map id].
  rewrite content_snoc. right. split.
  - set (h := EventHeader (cur_pid cur) (mntns_inum cur) key EVENT_TYPE_APPARMOR_FILE flags).
    assert (record_ok (FileRecord h (s ++ [0]))) as [Hok _].
    { eapply submitted_ok; [eapply (exec_ring_ok w0 ts w _ Hw0 Hr); apply (hook_file_open cfg cur k root f)|].
      unfold submitted. apply list_elem_of_omap. eexists. split; [|done].
      rewrite Hsent. apply elem_of_app. right. by left. }
    exists (encode (FileRecord h (s ++ [0]))), (BpfEvent h (s ++ [0])).
    split; [done|]. split; [by apply unmarshal_encode|]. split; [done|].
    cbn [be_hdr be_data eh_type eh_flags tells h]. rewrite fileDataToString_nul.
    split; [done|]. split; [|done]. pose proof (pf_clean s Hpf) as Hc. unfold clean_file in Hc.
    destruct s as [|c s']; [done|]. cbn [split_slash] in Hc.
    destruct (Z.eqb_spec c SLASH) as [->|]; [apply HasPrefix_slash|].
    by destruct (split_slash s').
  - rewrite list_elem_of_fmap. by intros (? & ? & _).
Qed.
End end_to_end.

(** ** Witnesses *)

Section witnesses.
#[local] Existing Instance demo_kernel.
#[local] Existing Instance demo_kernel_ok.

Lemma demo_started : started demo_world.
Proof. done. Qed.

(** A few events are within the limits. *)
Lemma limits_few ops :
  ((length ops <=? 100) && (size (event_keys ops) <=? 100))%nat = true → within_limits ops.
Proof.
  rewrite andb_true_iff, !Nat.leb_le. intros [Hl Hs]. pose proof limits as (L1 & L2 & _).
  split; [lia|]. intros key. pose proof (file_events_le key ops). lia.
Qed.

(** CAP_NET_ADMIN again, after it was reported and is not sent again. *)
Lemma used_cap_in_profile_witness :
  let w := exec (cap_capable demo_cfg demo_task 12 0) demo_world in
  let w' := exec (cap_capable demo_cfg demo_task 12 0) w in
  bytes "net_admin" ∈ pr_capabilities (GetAppArmorProcessed (recorder_of [] w') [7001]).1 ∨
  ∃ t, (tick w <= t < tick w')%nat ∧ rb_room t sizeof_event_header = false.
Proof.
  eapply (used_cap_in_profile demo_cfg demo_world _ _ demo_task 12 0 [] [7001]).
  - exact demo_started.
  - apply run_reachable. constructor. split; by vm_compute.
  - constructor; [by eexists|constructor].
  - split; [vm_compute; reflexivity|vm_compute; reflexivity|reflexivity|reflexivity|lia].
  - apply limits_few. vm_compute. reflexivity.
  - apply (bool_decide_unpack _). vm_compute. done.
Defined.

(** A stream socket of IPv4. *)
Lemma used_socket_in_profile_witness :
  let w' := exec (sys_enter_socket demo_cfg demo_task [Some 2; Some 1; Some 0]) demo_world in
  UseTCP (pr_socket (GetAppArmorProcessed (recorder_of [] w') [7001]).1) = true ∨
  ∃ t, (tick demo_world <= t < tick w')%nat ∧ rb_room t sizeof_event_header = false.
Proof.
  eapply (used_socket_in_profile demo_cfg demo_world [] demo_world demo_task 2 1 [Some 0] [] [7001]
    (SocketTypes false true false) UseTCP).
  - exact demo_started.
  - apply rtc_refl.
  - constructor.
  - reflexivity.
  - vm_compute. reflexivity.
  - by left.
  - vm_compute. reflexivity.
  - by right; left.
  - reflexivity.
  - apply limits_few. vm_compute. reflexivity.
  - apply (bool_decide_unpack _). vm_compute. done.
Defined.

(** A file that is opened for reading. *)
Lemma opened_file_permitted_witness :
  let f := KFile (FsTarget (Path 532 2003) 7 1 0) 1 0x81a4 in
  let b := recorder_of [] (exec (file_open demo_cfg demo_task (chain_kmem 2) chain_root f) demo_world) in
  let s := d_path_of (Path 532 2003) in
  s = bytes "/usr/sbin/nginx" ∧
  profile_permits (T := kernelvars) (processExecFsEvents b [7001]).1 s Read.
Proof.
  split; [vm_compute; reflexivity|].
  eapply (opened_file_permitted demo_cfg (TOk := kernelvars_ok) demo_world [] demo_world demo_task (chain_kmem 2) chain_root
    (KFile (FsTarget (Path 532 2003) 7 1 0) 1 0x81a4) [] [7001] Read).
  - exact demo_started.
  - apply rtc_refl.
  - split; [reflexivity|vm_compute; reflexivity|reflexivity|exact demo_fit|reflexivity].
  - done.
  - done.
  - by vm_compute.
  - by vm_compute.
  - split; [vm_compute; reflexivity|vm_compute; reflexivity| |vm_compute; reflexivity].
    apply (pids_only_pids (TOk := kernelvars_ok)). vm_compute. reflexivity.
  - vm_compute. reflexivity.
  - vm_compute. reflexivity.
  - vm_compute. reflexivity.
  - apply limits_few. vm_compute. reflexivity.
  - apply (bool_decide_unpack _). vm_compute. done.
  - vm_compute. reflexivity.
  - vm_compute. reflexivity.
  - by intros [? _].
Defined.
End witnesses.
