(* ===== verification/ProcCache.v ===== *)
(** * The cache of executed processes ([bpfprocesscache.go])

    The audit log enricher looks up the command line and the environment of a
    process in a cache, which is filled with the events of the exec hooks.  The
    composition with the kernel side: after an exec that the hooks captured, the
    cache answers with the arguments the process was given ([exec_cmdline]) and
    its environment variables ([exec_env]).

    The cache forgets entries after a while and holds a bounded number of them
    (ttlcache); an entry that is still there is what was set last. *)
From S2P Require Import Prelude Bpf State Keys Report Activity Wire Delivered.
Import String.StringSyntax.
#[local] Open Scope string_scope.
#[local] Open Scope list_scope.
#[local] Open Scope Z_scope.

(** ** Strings *)

(** [strings.ReplaceAll(s, "\u0000", "")]. *)
Definition remove_nul (s : list Z) : list Z := filter (λ c, c ≠ 0) s.

Definition EQUALS : Z := 61.
Definition QUOTE : Z := 34.
Definition SPACE : Z := 32.

(** [strings.SplitN(s, "=", 2)], if there are two parts. *)
Fixpoint split_equals (s : list Z) : option (list Z * list Z) :=
  match s with
  | [] => None
  | c :: s =>
      if c =? EQUALS then Some ([], s)
      else match split_equals s with Some (k, v) => Some (c :: k, v) | None => None end
  end.

Fixpoint trim_left (c : Z) (s : list Z) : list Z :=
  match s with
  | x :: s' => if x =? c then trim_left c s' else s
  | [] => []
  end.

(** [strings.Trim] with one character. *)
Definition Trim (s : list Z) (c : Z) : list Z := reverse (trim_left c (reverse (trim_left c s))).

(** ** The cache *)

Record BpfProcessInfo := { pi_pid : Z; CmdLine : list Z; Env : gmap (list Z) (list Z) }.

Abbreviation process_cache := (gmap Z BpfProcessInfo).

Definition cmd_line (args : list (list Z)) : list Z := concat (map (λ a, remove_nul a ++ [SPACE]) args).

Definition set_env (m : gmap (list Z) (list Z)) (envVar : list Z) : gmap (list Z) (list Z) :=
  match split_equals envVar with
  | Some (key, value) => <[Trim (remove_nul key) QUOTE := Trim (remove_nul value) QUOTE]> m
  | None => m
  end.

Definition handleEvent (eventBytes : list Z) (cache : process_cache) : process_cache :=
  if (bpfEventHeaderSize <=? Z.of_nat (length eventBytes)) &&
     negb (nthb eventBytes 16 =? EVENT_TYPE_EXECVE_ENTER) then cache
  else
    match unmarshalExec eventBytes with
    | None => cache
    | Some execEvent =>
        let argsLen := Z.to_nat (Z.min (ex_args_len execEvent) maxArgs) in
        let envLen := Z.to_nat (Z.min (ex_env_len execEvent) maxEnv) in
        let pid := eh_pid (ex_hdr execEvent) in
        <[pid := {| pi_pid := pid; CmdLine := cmd_line (take argsLen (ex_args execEvent));
                    Env := fold_left set_env (take envLen (ex_env execEvent)) ∅ |}]> cache
    end.

Definition GetCmdLine (pid : Z) (cache : process_cache) : option (list Z) := CmdLine <$> cache !! pid.
Definition GetEnv (pid : Z) (cache : process_cache) : option (gmap (list Z) (list Z)) := Env <$> cache !! pid.

(** ** What an event leaves *)

Lemma handle_exec_event e cache :
  exec_ok e → eh_type (ex_hdr e) = EVENT_TYPE_EXECVE_ENTER →
  0 <= ex_args_len e <= MAX_ARGS → 0 <= ex_env_len e <= MAX_ENV →
  GetCmdLine (eh_pid (ex_hdr e)) (handleEvent (encode (ExecRecord e)) cache) =
    Some (cmd_line (take (Z.to_nat (ex_args_len e)) (ex_args e))) ∧
  GetEnv (eh_pid (ex_hdr e)) (handleEvent (encode (ExecRecord e)) cache) =
    Some (fold_left set_env (take (Z.to_nat (ex_env_len e)) (ex_env e)) ∅) ∧
  ∀ pid, pid ≠ eh_pid (ex_hdr e) →
    GetCmdLine pid (handleEvent (encode (ExecRecord e)) cache) = GetCmdLine pid cache ∧
    GetEnv pid (handleEvent (encode (ExecRecord e)) cache) = GetEnv pid cache.
Proof.
  intros Hok Ht Ha He. destruct (exec_event_roundtrip e Hok) as [_ Hu]. unfold handleEvent.
  assert (nthb (encode (ExecRecord e)) 16 = EVENT_TYPE_EXECVE_ENTER) as ->.
  { rewrite <- Ht. pose proof (unmarshalHeader_encode (ex_hdr e)
      (ex_filename e ++ concat (ex_args e) ++ concat (ex_env e) ++
       le_bytes 4 (ex_args_len e) ++ le_bytes 4 (ex_env_len e)) (eo_hdr e Hok)) as H.
    by apply (f_equal eh_type) in H. }
  rewrite Z.eqb_refl, andb_false_r, Hu. unfold GetCmdLine, GetEnv. cbv zeta.
  rewrite !Z.min_l by (unfold maxArgs, maxEnv, MAX_ARGS, MAX_ENV in *; lia).
  rewrite lookup_insert_eq. split; [done|]. split; [done|]. intros pid Hne. by rewrite !lookup_insert_ne.
Qed.

Lemma remove_nul_id s : no_nul s → remove_nul s = s.
Proof.
  induction 1 as [|c s Hc Hs IH]; [done|]. unfold remove_nul in *. rewrite filter_cons_True by done. by f_equal.
Qed.

(** A slot with a string in it: the string, and what is left of the bytes behind it. *)
Lemma remove_nul_slot s : 0 ∈ s → ∃ junk, s = cstr s ++ 0 :: junk ∧ remove_nul s = cstr s ++ remove_nul junk.
Proof.
  intros Hs. destruct (cstr_split s Hs) as [junk Hj]. exists junk. split; [done|].
  rewrite Hj at 1. unfold remove_nul. rewrite filter_app, filter_cons_False by auto. f_equal.
  apply remove_nul_id, cstr_no_nul.
Qed.

Section cache.
Context {KR : Kernel} {KRok : KernelOk} (cfg : Rodata) (cur : Task).

(** C31 After an exec that the hooks captured, the command line the cache tells
    for the process is made of the arguments it was given, each followed by a
    space: all of them, in order, up to the first null pointer or one that
    cannot be read, and at most twenty.  An argument is cut to the size of its
    slot, and what the slot in the ring buffer holds behind the end of the string
    is taken as part of it, so an argument is told exactly if that is all zero.
    Other processes keep what is known of them. *)
Theorem exec_cmdline filename argv envp w cache :
  is_recording_cached w = true → included cfg cur w = true → capture_exec_args cfg = true →
  rb_room (tick w) sizeof_exec_event_data = true →
  ∃ e, events (exec (sys_enter_execve cfg cur filename argv envp) w) = events w ++ [Some (ExecRecord e)] ∧
    let cache' := handleEvent (encode (ExecRecord e)) cache in
    (∃ args, GetCmdLine (cur_pid cur) cache' = Some (concat (map (λ a, a ++ [SPACE]) args)) ∧
      Z.of_nat (length args) <= maxArgs ∧
      (Z.of_nat (length args) = maxArgs ∨
       string_at (Z.to_nat maxArgLen) argv (Z.of_nat (length args)) = None) ∧
      ∀ j a, args !! j = Some a → ∃ arg junk,
        string_at (Z.to_nat maxArgLen) argv (Z.of_nat j) = Some (arg ++ 0 :: junk) ∧ no_nul arg ∧
        a = arg ++ remove_nul junk) ∧
    ∀ pid, pid ≠ cur_pid cur → GetCmdLine pid cache' = GetCmdLine pid cache.
Proof.
  intros Hr Hi Hc Hroom. pose proof (execve_event cfg cur filename argv envp w Hr Hi Hc) as He.
  cbv zeta in He. rewrite Hroom in He.
  destruct He as (e & Hev & Hhdr & (Ha & Hstr & Hall) & (Hen & _) & Lf & [La Sa] & Le & Se).
  exists e. split; [done|]. intros cache'.
  destruct (handle_exec_event e cache) as (H1 & _ & H3); [|by rewrite Hhdr|done|done|].
  { split; [|exact Lf|by split|by split|unfold in_u, MAX_ARGS in *; lia|unfold in_u, MAX_ENV in *; lia].
    rewrite Hhdr. split; [apply cur_pid_range|apply mntns_inum_range|apply get_key_range, mntns_inum_range|
      by vm_compute|by vm_compute]. }
  rewrite Hhdr in H1, H3. cbn [eh_pid] in H1, H3. split; [|intros pid Hne; by apply H3].
  exists (map remove_nul (take (Z.to_nat (ex_args_len e)) (ex_args e))).
  assert (Z.of_nat (length (map remove_nul (take (Z.to_nat (ex_args_len e)) (ex_args e)))) = ex_args_len e)
    as -> by (rewrite length_map, length_take, La; unfold MAX_ARGS in *; lia).
  split; [|split; [|split]].
  - subst cache'. rewrite H1. unfold cmd_line. by rewrite map_map.
  - unfold maxArgs, MAX_ARGS in *. lia.
  - exact Hall.
  - intros j a Hj. rewrite list_lookup_fmap in Hj.
    destruct (take (Z.to_nat (ex_args_len e)) (ex_args e) !! j) as [s|] eqn:Hs; [|done].
    cbn in Hj. injection Hj as <-. apply lookup_take_Some in Hs as [Hs Hlt].
    destruct (Hstr (Z.of_nat j)) as (s' & Hat & Hslot); [lia|].
    rewrite Nat2Z.id, Hs in Hslot. injection Hslot as <-.
    assert (slot_ok (Z.to_nat MAX_ARG_LEN) s) as [_ Hnul]
      by (eapply string_at_slot; [unfold MAX_ARG_LEN; lia|exact Hat]).
    destruct (remove_nul_slot _ Hnul) as (junk & Hjunk & ->). exists (cstr s), junk.
    rewrite <- Hjunk. split; [exact Hat|]. split; [apply cstr_no_nul|done].
Qed.
End cache.

(** ** The environment *)

Lemma split_equals_spec k v : EQUALS ∉ k → split_equals (k ++ EQUALS :: v) = Some (k, v).
Proof.
  induction k as [|c k IH]; intros Hk; [done|]. apply not_elem_of_cons in Hk as [Hc Hk].
  cbn. rewrite IH by done. by destruct (Z.eqb_spec c EQUALS).
Qed.

(** The name a slot sets, if it sets one. *)
Definition env_name (s : list Z) : option (list Z) :=
  (λ kv, Trim (remove_nul kv.1) QUOTE) <$> split_equals s.

Lemma set_env_other m s name : env_name s ≠ Some name → set_env m s !! name = m !! name.
Proof.
  unfold env_name, set_env. destruct (split_equals s) as [[k v]|]; [|done]. cbn [fmap option_fmap option_map fst]. intros Hne.
  apply lookup_insert_ne. intros E. by rewrite E in Hne.
Qed.

Lemma set_envs_other l m name :
  Forall (λ s, env_name s ≠ Some name) l → fold_left set_env l m !! name = m !! name.
Proof.
  revert m. induction l as [|s l IH]; intros m Hl; [done|]. apply Forall_cons in Hl as [Hs Hl].
  cbn [fold_left]. rewrite IH by done. by apply set_env_other.
Qed.

Lemma trim_left_id c s : head s ≠ Some c → trim_left c s = s.
Proof. destruct s as [|x s]; [done|]. cbn. destruct (Z.eqb_spec x c); congruence. Qed.

Lemma Trim_id s c : head s ≠ Some c → last s ≠ Some c → Trim s c = s.
Proof.
  intros Hh Hl. unfold Trim. rewrite (trim_left_id c s) by done.
  rewrite trim_left_id; [apply reverse_involutive|]. by rewrite head_reverse.
Qed.

Lemma set_env_var m name value junk :
  no_nul name → no_nul value → EQUALS ∉ name → remove_nul junk = [] →
  head name ≠ Some QUOTE → last name ≠ Some QUOTE →
  head value ≠ Some QUOTE → last value ≠ Some QUOTE →
  set_env m (name ++ EQUALS :: value ++ junk) = <[name := value]> m.
Proof.
  intros Hn Hv He Hj H1 H2 H3 H4. unfold set_env. rewrite split_equals_spec by done.
  unfold remove_nul at 2. rewrite filter_app. fold (remove_nul value) (remove_nul junk).
  rewrite !remove_nul_id, Hj, app_nil_r by done. by rewrite !Trim_id.
Qed.

(** The environment the cache tells for a process has every variable of the
    event with its value, if the slot of the variable holds zeros behind it and
    no later one has the same name; quotes around a name or a value are
    dropped. *)
Theorem exec_env e cache j name value junk :
  exec_ok e → eh_type (ex_hdr e) = EVENT_TYPE_EXECVE_ENTER →
  0 <= ex_args_len e <= MAX_ARGS → 0 <= ex_env_len e <= MAX_ENV →
  (j < Z.to_nat (ex_env_len e))%nat →
  ex_env e !! j = Some (name ++ EQUALS :: value ++ junk) →
  no_nul name → no_nul value → EQUALS ∉ name → remove_nul junk = [] →
  head name ≠ Some QUOTE → last name ≠ Some QUOTE →
  head value ≠ Some QUOTE → last value ≠ Some QUOTE →
  Forall (λ s, env_name s ≠ Some name) (drop (S j) (take (Z.to_nat (ex_env_len e)) (ex_env e))) →
  ∃ env, GetEnv (eh_pid (ex_hdr e)) (handleEvent (encode (ExecRecord e)) cache) = Some env ∧
    env !! name = Some value.
Proof.
  intros Hok Ht Ha He Hj Hs Hn Hv Heq Hjunk H1 H2 H3 H4 Hlater.
  destruct (handle_exec_event e cache Hok Ht Ha He) as (_ & Henv & _).
  eexists. split; [exact Henv|].
  assert (take (Z.to_nat (ex_env_len e)) (ex_env e) !! j = Some (name ++ EQUALS :: value ++ junk)) as Hs'
    by (by apply lookup_take_Some).
  rewrite <- (take_drop_middle _ _ _ Hs'), fold_left_app. cbn [fold_left].
  rewrite set_envs_other by done. by rewrite set_env_var, lookup_insert_eq by done.
Qed.

(** ** Examples *)

#[local] Existing Instance demo_kernel.
#[local] Existing Instance demo_kernel_ok.

(** A slot of 64 bytes with a string, and behind it other bytes. *)
Definition slot (s junk : list Z) : list Z := take 64 (s ++ 0 :: junk ++ replicate 64 0).

Definition ls_event (junk : list Z) : exec_event_data :=
  ExecEventData (EventHeader 42 4026532000 7001 EVENT_TYPE_EXECVE_ENTER 0) (replicate 128 0)
    (slot (bytes "ls") junk :: slot (bytes "-l") [] :: replicate 18 (replicate 64 0))
    (slot (bytes "SPO_EXEC_REQUEST_UID=dde426d5") [] :: replicate 49 (replicate 64 0)) 2 1.

Lemma ls_event_ok : exec_ok (ls_event []) ∧ exec_ok (ls_event (bytes "token=secret")).
Proof.
  split; (split;
    [split; by vm_compute|by vm_compute|split; [by vm_compute|repeat constructor]
    |split; [by vm_compute|repeat constructor]|by vm_compute|by vm_compute]).
Qed.

Lemma exec_env_witness :
  ∃ env, GetEnv 42 (handleEvent (encode (ExecRecord (ls_event []))) ∅) = Some env ∧
    env !! bytes "SPO_EXEC_REQUEST_UID" = Some (bytes "dde426d5").
Proof.
  apply (exec_env (ls_event []) ∅ 0 (bytes "SPO_EXEC_REQUEST_UID") (bytes "dde426d5") (replicate 35 0)).
  - apply ls_event_ok.
  - done.
  - cbn. unfold MAX_ARGS. lia.
  - cbn. unfold MAX_ENV. lia.
  - cbn. lia.
  - by vm_compute.
  - by repeat constructor.
  - by repeat constructor.
  - apply (bool_decide_unpack _). by vm_compute.
  - by vm_compute.
  - by vm_compute.
  - by vm_compute.
  - by vm_compute.
  - by vm_compute.
  - constructor.
Defined.

(** A process that runs [ls -l], with its two arguments in its memory. *)
Definition ls_string (ptr : Z) : option (list Z) :=
  if ptr =? 16384 then Some (bytes "ls") else if ptr =? 16448 then Some (bytes "-l") else None.
Definition ls_ptr (ptr : Z) : option Z :=
  if ptr =? 8192 then Some 16384 else if ptr =? 8200 then Some 16448
  else if ptr =? 8208 then Some 0 else None.
Definition ls_kernel : Kernel := ref_kernel 1000 ls_string ls_ptr.

Lemma exec_cmdline_witness :
  ∃ e, events (exec (@sys_enter_execve ls_kernel demo_cfg demo_task 16384 8192 9216) demo_world) =
      [Some (ExecRecord e)] ∧
    GetCmdLine 42 (handleEvent (encode (ExecRecord e)) ∅) = Some (bytes "ls -l ").
Proof.
  destruct (@exec_cmdline ls_kernel (ref_kernel_ok 1000 ls_string ls_ptr) demo_cfg demo_task
    16384 8192 9216 demo_world ∅) as (e & He & (args & Ha & Hle & Hall & Hargs) & _).
  - reflexivity.
  - reflexivity.
  - reflexivity.
  - reflexivity.
  - exists e. split; [exact He|]. change 42 with (cur_pid demo_task). rewrite Ha. f_equal.
    destruct args as [|a [|b [|c args]]].
    + destruct Hall; by vm_compute in H.
    + destruct Hall; by vm_compute in H.
    + destruct (Hargs 0%nat a) as (arg1 & junk1 & H1 & Hn1 & ->); [done|].
      destruct (Hargs 1%nat b) as (arg2 & junk2 & H2 & Hn2 & ->); [done|].
      rewrite <- (remove_nul_id arg1 Hn1), <- (remove_nul_id arg2 Hn2).
      assert (∀ x y, remove_nul x ++ remove_nul y = remove_nul (x ++ 0 :: y)) as Hx
        by (intros x y; unfold remove_nul; by rewrite filter_app, filter_cons_False by auto).
      cbn [map concat]. rewrite !Hx.
      apply (f_equal (option_map remove_nul)) in H1, H2. cbn [option_map] in H1, H2. revert H1 H2.
      generalize (remove_nul (arg1 ++ 0 :: junk1)), (remove_nul (arg2 ++ 0 :: junk2)). intros x y H1 H2.
      vm_compute in H1, H2. injection H1 as <-. injection H2 as <-. vm_compute. reflexivity.
    + destruct (Hargs 2%nat c) as (? & ? & H & _); [done|]. by vm_compute in H.
Defined.

(** The kernel copies a string into its slot and leaves the bytes behind it as
    they were, which the ring buffer does not clear.  The cache drops the NUL
    between them, so the bytes of another event end up in the command line. *)
Theorem stale_bytes_told :
  exec_ok (ls_event (bytes "token=secret")) ∧
  GetCmdLine 42 (handleEvent (encode (ExecRecord (ls_event (bytes "token=secret")))) ∅) =
    Some (bytes "lstoken=secret -l ").
Proof. split; [apply ls_event_ok|by vm_compute]. Qed.
