(* ===== verification/Seccomp.v ===== *)
(** * The syscalls of a profile ([bpfrecorder_seccomp.go])

    [SeccompRecorder] reads the bit maps of the keys of a profile, joins them and
    turns the numbers of the syscalls into names, with a cache of the names keyed
    by the printed number.  The names come from libseccomp, so they are a
    parameter ([GetName]).  [Syscalls] returns the names of the marked syscalls
    and no others, on every branch ([syscalls_exact]); with the program of the
    kernel, a syscall a workload makes is in its profile
    ([made_syscall_in_profile]). *)
From stdpp Require Import sorting.
From S2P Require Import Prelude Bpf State Names Keys Report Syscalls Activity DPath FsEvents.
From S2P Require Import Reported Profile Delivered Hooks.

(** ** The recorder *)

(** The outcomes of a read of the map of syscalls. *)
Inductive read_result :=
  | Value (syscalls : list Z)
  | ENOENT
  | ReadError (errno : Z).

Inductive syscalls_error := ErrReadSyscalls (errno : Z) | ErrNotFound.

(** Errors are told by their numbers. *)
Abbreviation name_cache := (gmap (list Z) (list Z)).

Section recorder.
Context (GetName : Z → option (list Z)) (GetValue64 : Z → read_result).

(** A [ScmpSyscall] has 32 bits. *)
Definition name_of (id : nat) : option (list Z) := GetName (swrap 32 (Z.of_nat id)).

Definition syscallNameForID (cache : name_cache) (id : nat) : option (list Z) * name_cache :=
  let key := decimal (Z.of_nat id) in
  match cache !! key with
  | Some item => (Some item, cache)
  | None =>
      match name_of id with
      | None => (None, cache)
      | Some name => (Some name, <[key := name]> cache)
      end
  end.

(** The loop over the slice from [id] on. *)
Fixpoint convert_from (id : nat) (cache : name_cache) (syscalls : list Z) :
    list (list Z) * name_cache :=
  match syscalls with
  | [] => ([], cache)
  | set :: syscalls =>
      if set =? 1 then
        let '(name, cache) := syscallNameForID cache id in
        let '(result, cache) := convert_from (S id) cache syscalls in
        (match name with Some name => name :: result | None => result end, cache)
      else convert_from (S id) cache syscalls
  end.

Definition convertSyscallIDsToNames (cache : name_cache) (syscalls : list Z) :
    list (list Z) * name_cache := convert_from 0 cache syscalls.

Definition sortUnique (input : list (list Z)) : list (list Z) := Compact (Sort input).

(** [merged[id] = 1] for the marked numbers within the slice. *)
Fixpoint merge_into (merged syscalls : list Z) : list Z :=
  match merged, syscalls with
  | [], _ => []
  | m :: merged, [] => m :: merged
  | m :: merged, set :: syscalls => (if set =? 1 then 1 else m) :: merge_into merged syscalls
  end.

Definition read_key (st : option (list Z) * option Z) (key : Z) : option (list Z) * option Z :=
  let '(merged, lastErr) := st in
  match GetValue64 key with
  | ENOENT => (merged, lastErr)
  | ReadError errno => (merged, Some errno)
  | Value syscalls =>
      let base := match merged with Some m => m | None => replicate (length syscalls) 0 end in
      (Some (merge_into base syscalls), lastErr)
  end.

Definition Syscalls (cache : name_cache) (keys : list Z) :
    (syscalls_error + list (list Z)) * name_cache :=
  let '(merged, lastErr) := fold_left read_key keys (None, None) in
  match merged with
  | None =>
      (inl (match lastErr with Some errno => ErrReadSyscalls errno | None => ErrNotFound end), cache)
  | Some merged =>
      let '(names, cache) := convertSyscallIDsToNames cache merged in
      (inr (sortUnique names), cache)
  end.
End recorder.

(** [Clear] of the recorder, on the map of the kernel. *)
Definition Clear (keys : list Z) (m : gmap Z (list Z)) : gmap Z (list Z) :=
  fold_left (λ m key, delete key m) keys m.

(** ** Printed numbers *)

(** The number of printed digits. *)
Definition undigits (l : list Z) : Z := fold_left (λ n d, 10 * n + (d - 48)) l 0.

Lemma undigits_digits fuel n : 0 <= n < 10 ^ Z.of_nat fuel → undigits (digits fuel n) = n.
Proof.
  revert n. induction fuel as [|fuel IH]; intros n Hn; [change (10 ^ Z.of_nat 0) with 1 in Hn; cbn; lia|].
  cbn [digits]. unfold undigits in *. rewrite fold_left_app. cbn [fold_left].
  destruct (Z.ltb_spec n 10) as [H|H].
  - cbn [fold_left]. rewrite Z.mod_small; lia.
  - rewrite IH; [pose proof (Z.div_mod n 10); lia|].
    rewrite Nat2Z.inj_succ, Z.pow_succ_r in Hn by lia.
    split; [apply Z.div_pos; lia|apply Z.div_lt_upper_bound; lia].
Qed.

Lemma decimal_inj (m n : nat) :
  Z.of_nat m < 10 ^ 20 → Z.of_nat n < 10 ^ 20 →
  decimal (Z.of_nat m) = decimal (Z.of_nat n) → m = n.
Proof.
  intros Hm Hn. unfold decimal. destruct (Z.ltb_spec (Z.of_nat m) 0), (Z.ltb_spec (Z.of_nat n) 0); try lia.
  intros H1%(f_equal undigits). rewrite !undigits_digits in H1 by (change (Z.of_nat 20) with 20; lia). lia.
Qed.

(** ** Joining the bit maps *)

Lemma merge_into_length m s : length (merge_into m s) = length m.
Proof. revert s. induction m as [|x m IH]; intros [|y s]; cbn; auto. Qed.

Lemma merge_into_lookup m s id :
  merge_into m s !! id = Some 1 ↔ m !! id = Some 1 ∨ s !! id = Some 1 ∧ (id < length m)%nat.
Proof.
  revert m s. induction id as [|id IH]; intros [|x m] [|y s]; cbn; rewrite ?IH;
    try (destruct (Z.eqb_spec y 1)); cbn; intuition (congruence || lia || auto).
Qed.

Section exact.
Context (GetName : Z → option (list Z)) (GetValue64 : Z → read_result).

(** A syscall is marked for one of the keys. *)
Definition marked (keys : list Z) (id : nat) : Prop :=
  ∃ key v, key ∈ keys ∧ GetValue64 key = Value v ∧ v !! id = Some 1.

Definition has_value (keys : list Z) : Prop := ∃ key v, key ∈ keys ∧ GetValue64 key = Value v.

(** The last error of the reads. *)
Definition last_error (keys : list Z) : option Z :=
  last (omap (λ key, match GetValue64 key with ReadError e => Some e | _ => None end) keys).

Lemma marked_snoc keys key id :
  marked (keys ++ [key]) id ↔ marked keys id ∨ ∃ v, GetValue64 key = Value v ∧ v !! id = Some 1.
Proof.
  unfold marked. setoid_rewrite elem_of_app. setoid_rewrite list_elem_of_singleton. naive_solver.
Qed.

Lemma last_error_snoc keys key :
  last_error (keys ++ [key]) =
  match GetValue64 key with ReadError e => Some e | _ => last_error keys end.
Proof.
  unfold last_error. rewrite omap_app. cbn.
  destruct (GetValue64 key); rewrite ?app_nil_r, ?last_snoc; done.
Qed.

(** The values of a map have the same size. *)
Context (n : nat) (Hsize : ∀ key v, GetValue64 key = Value v → length v = n).

Lemma read_keys_spec keys :
  let '(merged, lastErr) := fold_left (read_key GetValue64) keys (None, None) in
  lastErr = last_error keys ∧
  match merged with
  | None => ¬ has_value keys
  | Some m => has_value keys ∧ length m = n ∧ ∀ id, m !! id = Some 1 ↔ marked keys id
  end.
Proof.
  induction keys as [|key keys IH] using rev_ind.
  { cbn. split; [done|]. intros (? & ? & ?%not_elem_of_nil & _). done. }
  rewrite fold_left_app. cbn [fold_left].
  destruct (fold_left _ keys _) as [merged lastErr]. destruct IH as [-> IH].
  unfold read_key. rewrite last_error_snoc. pose proof (marked_snoc keys key) as Hs.
  assert (has_value (keys ++ [key]) ↔ has_value keys ∨ ∃ v, GetValue64 key = Value v) as Hh.
  { unfold has_value. setoid_rewrite elem_of_app. setoid_rewrite list_elem_of_singleton. naive_solver. }
  destruct (GetValue64 key) as [v| |e] eqn:E; (split; [done|]).
  - pose proof (Hsize key v E) as Hv. destruct merged as [m|].
    + destruct IH as (H1 & H2 & H3). split; [rewrite Hh; by left|]. rewrite merge_into_length.
      split; [done|]. intros id. rewrite merge_into_lookup, H3, Hs.
      assert (v !! id = Some 1 → (id < length m)%nat) as Hlt
        by (intros ?%lookup_lt_Some; lia). naive_solver.
    + split; [rewrite Hh; by eauto|]. rewrite merge_into_length, length_replicate. split; [done|].
      intros id. rewrite merge_into_lookup, length_replicate, lookup_replicate, Hs.
      assert (v !! id = Some 1 → (id < length v)%nat) as Hlt by apply lookup_lt_Some.
      assert (¬ marked keys id) by (intros (k & w & ? & ? & _); apply IH; by exists k, w).
      naive_solver.
  - destruct merged; [setoid_rewrite Hs|]; rewrite Hh; naive_solver.
  - destruct merged; [setoid_rewrite Hs|]; rewrite Hh; naive_solver.
Qed.

(** ** The cache of the names *)

Definition cache_ok (cache : name_cache) : Prop :=
  ∀ (id : nat) name, Z.of_nat id < 10 ^ 20 → cache !! decimal (Z.of_nat id) = Some name →
    name_of GetName id = Some name.

Lemma name_for_id cache id :
  cache_ok cache → Z.of_nat id < 10 ^ 20 →
  (syscallNameForID GetName cache id).1 = name_of GetName id ∧
  cache_ok (syscallNameForID GetName cache id).2.
Proof.
  intros Hc Hid. unfold syscallNameForID. destruct (cache !! _) as [item|] eqn:E.
  { apply Hc in E; [|done]. by rewrite E. }
  destruct (name_of GetName id) as [name|] eqn:En; [|done]. split; [done|].
  intros i nm Hi. cbn. rewrite lookup_insert_Some.
  intros [[Hd ->]|[_ H]]; [|by apply Hc in H]. by apply decimal_inj in Hd as ->.
Qed.

Lemma convert_spec l id cache :
  cache_ok cache → Z.of_nat (id + length l) <= 10 ^ 20 →
  let '(names, cache') := convert_from GetName id cache l in
  cache_ok cache' ∧
  ∀ name, name ∈ names ↔ ∃ i, l !! i = Some 1 ∧ name_of GetName (id + i) = Some name.
Proof.
  revert id cache. induction l as [|set l IH]; intros id cache Hc Hlen; cbn [convert_from].
  { split; [done|]. intros name. split; [by intros ?%not_elem_of_nil|]. by intros (? & ? & _). }
  cbn [length] in Hlen.
  assert (∀ name, (∃ i, (set :: l) !! i = Some 1 ∧ name_of GetName (id + i) = Some name) ↔
    (set = 1 ∧ name_of GetName id = Some name) ∨
    ∃ i, l !! i = Some 1 ∧ name_of GetName (S id + i) = Some name) as Hcons.
  { intros name. split.
    - intros ([|i] & H1 & H2); cbn in H1; [left; rewrite Nat.add_0_r in H2; by simplify_eq|].
      right. exists i. by rewrite Nat.add_succ_r in H2.
    - intros [[-> H]|(i & H1 & H2)]; [exists 0%nat; by rewrite Nat.add_0_r|].
      exists (S i). by rewrite Nat.add_succ_r. }
  destruct (Z.eqb_spec set 1) as [->|Hset].
  - destruct (name_for_id cache id Hc ltac:(lia)) as [Hn Hc1].
    destruct (syscallNameForID GetName cache id) as [nm c1]. cbn in Hn, Hc1. subst nm.
    specialize (IH (S id) c1 Hc1 ltac:(lia)). destruct (convert_from GetName (S id) c1 l) as [names c2].
    destruct IH as [Hc2 IH]. split; [done|]. intros name. rewrite Hcons, <- IH.
    destruct (name_of GetName id) as [nm|]; rewrite ?elem_of_cons; naive_solver.
  - specialize (IH (S id) cache Hc ltac:(lia)).
    destruct (convert_from GetName (S id) cache l) as [names c2]. destruct IH as [Hc2 IH].
    split; [done|]. intros name. rewrite IH, Hcons. naive_solver.
Qed.
Lemma Syscalls_found cache keys :
  cache_ok cache → Z.of_nat n <= 10 ^ 20 → has_value keys →
  ∃ names cache', Syscalls GetName GetValue64 cache keys = (inr names, cache') ∧ cache_ok cache' ∧
    ∀ name, name ∈ names ↔ ∃ id, marked keys id ∧ name_of GetName id = Some name.
Proof.
  intros Hc Hn Hv. unfold Syscalls. pose proof (read_keys_spec keys) as Hr.
  destruct (fold_left _ keys _) as [[m|] lastErr]; destruct Hr as [-> Hr]; [|done].
  destruct Hr as (_ & Hl & Hm). unfold convertSyscallIDsToNames.
  pose proof (convert_spec m 0 cache Hc ltac:(lia)) as H.
  destruct (convert_from GetName 0 cache m) as [names c]. destruct H as [Hc1 H].
  do 2 eexists. split; [done|]. split; [done|]. intros name. unfold sortUnique.
  rewrite elem_of_Compact, elem_of_Sort, H. f_equiv. intros id. by rewrite Hm.
Qed.

Lemma Syscalls_inr cache keys names c :
  Syscalls GetName GetValue64 cache keys = (inr names, c) → has_value keys.
Proof.
  unfold Syscalls. pose proof (read_keys_spec keys) as Hr.
  destruct (fold_left _ keys _) as [[m|] lastErr]; [|done]. intros _. apply Hr.
Qed.

(** C34 [Syscalls] returns exactly the names of the syscalls marked for the keys,
    whatever the cache holds that earlier calls left: no marked one is missing
    that libseccomp has a name for, and no other is there.  It fails only if
    there is no bit map for any of the keys, with the last error of a read if
    there was one, and the cache stays correct. *)
Theorem syscalls_exact cache keys :
  cache_ok cache → Z.of_nat n <= 10 ^ 20 →
  cache_ok (Syscalls GetName GetValue64 cache keys).2 ∧
  match (Syscalls GetName GetValue64 cache keys).1 with
  | inr names =>
      has_value keys ∧
      ∀ name, name ∈ names ↔ ∃ id, marked keys id ∧ name_of GetName id = Some name
  | inl (ErrReadSyscalls e) => ¬ has_value keys ∧ last_error keys = Some e
  | inl ErrNotFound => ¬ has_value keys ∧ last_error keys = None
  end.
Proof.
  intros Hc Hn. pose proof (Syscalls_found cache keys Hc Hn) as Hf.
  pose proof (read_keys_spec keys) as Hr. unfold Syscalls in *.
  destruct (fold_left _ keys _) as [[m|] lastErr]; destruct Hr as [-> Hr].
  - destruct (Hf (proj1 Hr)) as (names & c & -> & Hc1 & H). split; [done|]. by split; [apply Hr|].
  - split; [done|]. cbn. by destruct (last_error keys).
Qed.
End exact.

(** ** From the kernel to the profile *)

(** A read of the map finds what the programs left there. *)
Definition reads (w : World) (key : Z) : read_result :=
  match recorded_syscalls w !! key with Some v => Value v | None => ENOENT end.

Section profile.
Context {KR : Kernel} {KRok : KernelOk} (cfg : Rodata) (GetName : Z → option (list Z)).

Lemma reads_size w :
  syscalls_ok (recorded_syscalls w) →
  ∀ key v, reads w key = Value v → length v = Z.to_nat MAX_SYSCALLS.
Proof.
  intros [_ Hw] key v. unfold reads. destruct (recorded_syscalls w !! key) eqn:E; [|done].
  intros [= <-]. apply Hw in E as [E _]. lia.
Qed.

(** What the profile of [keys] names, once one of the keys has a bit map. *)
Lemma profile_names w cache keys :
  syscalls_ok (recorded_syscalls w) → cache_ok GetName cache → has_value (reads w) keys →
  ∃ names cache', Syscalls GetName (reads w) cache keys = (inr names, cache') ∧
    ∀ name, name ∈ names ↔ ∃ id, marked (reads w) keys id ∧ name_of GetName id = Some name.
Proof.
  intros Hw Hc Hv. destruct (Syscalls_found GetName (reads w) _ (reads_size w Hw) cache keys Hc)
    as (names & c & H & _ & Hn); [by vm_compute|done|]. by exists names, c.
Qed.

(** C1 Every syscall a workload makes is in its seccomp profile: in any state
    the programs and the userspace can reach, a native syscall of a recorded
    process, which the map has room for, is among the names of the profile of its
    key, if libseccomp has a name for it.  Nothing that was in the profile is
    lost by it, unless it installs the seccomp filter of a container. *)
Theorem made_syscall_in_profile w0 ts w cur args cache keys name :
  recorded_syscalls w0 = ∅ → reachable (hook cfg) user_step w0 (ts, w) →
  taken cfg cur args w → is_compat_task cfg cur = false →
  has_room w (get_key cfg cur (mntns_inum cur)) → get_key cfg cur (mntns_inum cur) ∈ keys →
  cache_ok GetName cache → name_of GetName (Z.to_nat (u32 (sc_id args))) = Some name →
  let w' := exec (sys_enter cfg cur args) w in
  ∃ names cache', Syscalls GetName (reads w') cache keys = (inr names, cache') ∧ name ∈ names ∧
    (seccomp_start cfg cur (u32 (sc_id args)) args = false →
     ∀ old c, Syscalls GetName (reads w) cache keys = (inr old, c) → old ⊆ names).
Proof.
  intros H0 Hr Ht Hn Hroom Hk Hc Hname w'. set (key := get_key cfg cur (mntns_inum cur)) in *.
  assert (syscalls_ok (recorded_syscalls w)) as Hw.
  { eapply syscalls_bitmaps; [|exact Hr]. by rewrite H0. }
  assert (syscalls_ok (recorded_syscalls w')) as Hw'.
  { apply (preserves_exec (λ w, syscalls_ok (recorded_syscalls w))); [|exact Hw].
    apply (hook_syscalls_ok cfg). constructor. }
  destruct (sys_enter_records cfg cur args w Ht Hn Hroom) as (base & m & Hm & Hid & Hrest & _ & Hbase & _).
  { fold key. destruct (recorded_syscalls w !! key) as [v|] eqn:E; [by apply Hw in E as [E _]|done]. }
  fold key in Hm, Hbase. fold w' in Hm.
  assert (reads w' key = Value m) as Hread by (unfold reads; by rewrite Hm, lookup_insert_eq).
  destruct (profile_names w' cache keys Hw' Hc) as (names & c & HS & Hnames); [by exists key, m|].
  exists names, c. split; [done|]. split.
  { apply Hnames. eexists. split; [|exact Hname]. by exists key, m. }
  intros Hs old c' Hold. specialize (Hbase Hs).
  pose proof (Syscalls_inr GetName (reads w) _ (reads_size w Hw) _ _ _ _ Hold) as Hv.
  destruct (profile_names w cache keys Hw Hc Hv) as (old' & c2 & HS2 & Hold').
  rewrite Hold in HS2. simplify_eq. intros nm (id & (k & v & Hkin & Hkv & Hbit) & Hnm)%Hold'.
  apply Hnames. exists id. split; [|done].
  destruct (decide (k = key)) as [->|Hne].
  - exists key, m. split; [done|]. split; [done|].
    destruct (decide (id = Z.to_nat (u32 (sc_id args)))) as [->|Hne]; [done|].
    rewrite Hrest by done. unfold reads in Hkv. by destruct (recorded_syscalls w !! key); simplify_eq/=.
  - exists k, v. split; [done|]. split; [|done]. unfold reads. rewrite Hm, lookup_insert_ne by done. exact Hkv.
Qed.
End profile.

(** ** Witnesses *)

Section witnesses.
#[local] Existing Instance demo_kernel.
#[local] Existing Instance demo_kernel_ok.

(** Two names of x86_64: read and write. *)
Definition demo_names (id : Z) : option (list Z) :=
  if id =? 0 then Some [114; 101; 97; 100] else if id =? 1 then Some [119; 114; 105; 116; 101] else None.

Lemma empty_cache_ok : cache_ok demo_names ∅.
Proof. intros id name _. by rewrite lookup_empty. Qed.

(** A write after a read. *)
Definition demo_read : sys_enter_ctx := SysEnter 0 [0; 4096; 10; 0; 0; 0].

Lemma made_syscall_in_profile_witness :
  let w := exec (sys_enter demo_cfg demo_task demo_read) demo_world in
  ∃ names cache,
    Syscalls demo_names (reads (exec (sys_enter demo_cfg demo_task demo_write) w)) ∅ [7001] =
      (inr names, cache) ∧ [119; 114; 105; 116; 101] ∈ names ∧ [[114; 101; 97; 100]] ⊆ names.
Proof.
  cbv zeta. destruct (made_syscall_in_profile demo_cfg demo_names demo_world
    [Ret (result (sys_enter demo_cfg demo_task demo_read) demo_world)]
    (exec (sys_enter demo_cfg demo_task demo_read) demo_world) demo_task demo_write
    ∅ [7001] [119; 114; 105; 116; 101]) as (names & cache & H1 & H2 & H3).
  - reflexivity.
  - apply (run_reachable (hook demo_cfg) user_step (sys_enter demo_cfg demo_task demo_read)). constructor.
  - split; vm_compute; reflexivity.
  - reflexivity.
  - vm_compute. reflexivity.
  - left.
  - apply empty_cache_ok.
  - reflexivity.
  - exists names, cache. split; [exact H1|]. split; [exact H2|].
    eapply H3; vm_compute; reflexivity.
Defined.

(** Three keys: a bit map each for two, and a failed read. *)
Definition demo_reads (key : Z) : read_result :=
  if key =? 1 then Value [1; 0; 0] else if key =? 2 then Value [0; 1; 1] else ReadError 14.

Lemma syscalls_exact_witness :
  (Syscalls demo_names demo_reads ∅ [1; 2; 3]).1 = inr [[114; 101; 97; 100]; [119; 114; 105; 116; 101]] ∧
  ((Syscalls demo_names demo_reads ∅ [3]).1 = inl (ErrReadSyscalls 14) ∧
   last_error demo_reads [3] = Some 14) ∧
  [119; 114; 105; 116; 101] ∈ [[114; 101; 97; 100]; [119; 114; 105; 116; 101]].
Proof.
  assert (∀ key v, demo_reads key = Value v → length v = 3%nat) as Hs.
  { intros key v. unfold demo_reads. destruct (key =? 1); [by intros [= <-]|].
    destruct (key =? 2); [by intros [= <-]|done]. }
  destruct (syscalls_exact demo_names demo_reads 3 Hs ∅ [1; 2; 3] empty_cache_ok ltac:(lia)) as [_ H1].
  destruct (syscalls_exact demo_names demo_reads 3 Hs ∅ [3] empty_cache_ok ltac:(lia)) as [_ H2].
  split; [reflexivity|]. split; [split; [reflexivity|exact (proj2 H2)]|].
  apply (proj2 H1). exists 1%nat. split; [|reflexivity].
  exists 2, [0; 1; 1]. split; [right; left|]. split; reflexivity.
Defined.
End witnesses.
