(* ===== verification/ContainerKeys.v ===== *)
(** * The keys of the containers ([containerkeys.go])

    [containerKeys] maps the recording keys of the kernel to the containers they
    belong to, and back, in two maps which the operations keep in step.  The
    specification is one finite map from keys to containers: every sequence of
    operations answers and leaves what the specification does
    ([container_keys_refine]).  Container IDs are Go strings, lists of bytes.  All
    operations run under the lock of the table, one after the other. *)
From stdpp Require Import sorting.
From S2P Require Import Prelude.

Abbreviation str := (list Z).

(** ** Sorted keys *)

Definition sort_keys (l : list Z) : list Z := merge_sort Z.le l.

Fixpoint compact_keys (l : list Z) : list Z :=
  match l with
  | x :: l' =>
      match l' with
      | y :: _ => if x =? y then compact_keys l' else x :: compact_keys l'
      | [] => [x]
      end
  | [] => []
  end.

Lemma elem_of_sort_keys x l : x ∈ sort_keys l ↔ x ∈ l.
Proof. unfold sort_keys. by rewrite merge_sort_Permutation. Qed.

Lemma elem_of_compact_keys x l : x ∈ compact_keys l ↔ x ∈ l.
Proof.
  induction l as [|a l IH]; [done|]. cbn [compact_keys]. destruct l as [|y l]; [done|].
  destruct (Z.eqb_spec a y) as [->|]; rewrite ?elem_of_cons, IH, ?elem_of_cons; tauto.
Qed.

Lemma compact_keys_id l : NoDup l → compact_keys l = l.
Proof.
  induction 1 as [|x l Hx Hl IH]; [done|]. cbn [compact_keys]. destruct l as [|y l]; [done|].
  destruct (Z.eqb_spec x y) as [->|]; [|by rewrite IH]. exfalso. apply Hx. left.
Qed.

Lemma compact_keys_increasing l : StronglySorted Z.le l → StronglySorted Z.lt (compact_keys l).
Proof.
  induction 1 as [|x l Hl IH Hx]; [constructor|]. cbn [compact_keys].
  destruct l as [|y l]; [by repeat constructor|].
  destruct (Z.eqb_spec x y) as [->|Hne]; [done|]. constructor; [done|].
  apply Forall_forall. intros z Hz. rewrite elem_of_compact_keys in Hz.
  apply StronglySorted_inv in Hl as [_ Hl]. rewrite Forall_forall in Hx, Hl.
  pose proof (Hx y ltac:(left)). apply elem_of_cons in Hz as [->|Hz%Hl]; lia.
Qed.

Lemma sort_keys_sorted l : StronglySorted Z.le (sort_keys l).
Proof. apply (StronglySorted_merge_sort Z.le). Qed.

(** ** [containerKeys] *)

Record containerKeys := MkContainerKeys {
  byKey : gmap Z str;
  byContainer : gmap str (gset Z);
  maxPerContainer : nat
}.

Definition maxKeysPerContainer : nat := 256.

Definition newContainerKeys (max : nat) : containerKeys := MkContainerKeys ∅ ∅ max.

(** The set of a container; a missing map reads as an empty one. *)
Definition keys_set (c : containerKeys) (id : str) : gset Z := default ∅ (byContainer c !! id).

Definition removeKeyFrom (containerID : str) (key : Z) (c : containerKeys) : containerKeys :=
  let keys := keys_set c containerID ∖ {[key]} in
  {| c with byContainer :=
       if bool_decide (keys = ∅) then delete containerID (byContainer c)
       else <[containerID := keys]> (byContainer c) |}.

Definition Insert (key : Z) (containerID : str) (c : containerKeys) : bool * containerKeys :=
  let keys := keys_set c containerID in
  if bool_decide (key ∈ keys) then (true, c)
  else if (maxPerContainer c <=? size keys)%nat then (false, c)
  else
    let c := match byKey c !! key with
             | Some oldID => if bool_decide (oldID = containerID) then c
                             else removeKeyFrom oldID key c
             | None => c
             end in
    (true, {| c with byKey := <[key := containerID]> (byKey c);
                     byContainer := <[containerID := {[key]} ∪ keys]> (byContainer c) |}).

Definition Get (key : Z) (c : containerKeys) : option str := byKey c !! key.

Definition Keys (containerID : str) (c : containerKeys) : list Z :=
  sort_keys (elements (keys_set c containerID)).

Definition keysOf (containerIDs : list str) (c : containerKeys) : list Z :=
  compact_keys (sort_keys (containerIDs ≫= λ id, elements (keys_set c id))).

Definition Delete (key : Z) (c : containerKeys) : containerKeys :=
  match byKey c !! key with
  | Some containerID =>
      let c := removeKeyFrom containerID key c in
      {| c with byKey := delete key (byKey c) |}
  | None => c
  end.

Definition DeleteContainer (containerID : str) (c : containerKeys) : containerKeys :=
  {| c with byKey := foldr delete (byKey c) (elements (keys_set c containerID));
            byContainer := delete containerID (byContainer c) |}.

Definition Clear (c : containerKeys) : containerKeys := {| c with byKey := ∅; byContainer := ∅ |}.

Definition Containers (c : containerKeys) : list str := (map_to_list (byContainer c)).*1.

Definition Size (c : containerKeys) : nat := size (byKey c).

(** The two maps are in step, no container has an empty set, and none has more
    keys than allowed. *)
Record keys_ok (c : containerKeys) : Prop := {
  ko_step key id : byKey c !! key = Some id ↔ key ∈ keys_set c id;
  ko_full id : byContainer c !! id ≠ Some ∅;
  ko_max id : (size (keys_set c id) <= maxPerContainer c)%nat
}.

Lemma new_ok max : keys_ok (newContainerKeys max).
Proof.
  split; cbn.
  - intros key id. unfold keys_set. cbn. rewrite !lookup_empty. cbn. set_solver.
  - intros id. by rewrite lookup_empty.
  - intros id. unfold keys_set. cbn. rewrite lookup_empty. cbn. rewrite size_empty. lia.
Qed.

Lemma keys_set_remove id key c id' :
  keys_set (removeKeyFrom id key c) id' =
  if bool_decide (id' = id) then keys_set c id ∖ {[key]} else keys_set c id'.
Proof.
  unfold removeKeyFrom, keys_set. cbn. repeat case_bool_decide; subst;
    rewrite ?lookup_delete_eq, ?lookup_delete_ne, ?lookup_insert_eq, ?lookup_insert_ne by done; done.
Qed.

Lemma keys_remove_full id key c :
  (∀ id', byContainer c !! id' ≠ Some ∅) → ∀ id', byContainer (removeKeyFrom id key c) !! id' ≠ Some ∅.
Proof.
  intros Hf id'. unfold removeKeyFrom. cbn. case_bool_decide as He.
  - rewrite lookup_delete_Some. naive_solver.
  - rewrite lookup_insert_Some. naive_solver.
Qed.

Lemma Insert_ok key id c : keys_ok c → keys_ok (Insert key id c).2.
Proof.
  intros [H1 H2 H3]. unfold Insert. case_bool_decide as Hin; [done|].
  destruct (Nat.leb_spec (maxPerContainer c) (size (keys_set c id))); [done|].
  set (c' := match byKey c !! key with Some _ => _ | None => _ end).
  assert (byKey c' = byKey c ∧ maxPerContainer c' = maxPerContainer c ∧
    (∀ i, byContainer c' !! i ≠ Some ∅) ∧
    ∀ i, i ≠ id → keys_set c' i = keys_set c i ∖ {[key]}) as (E1 & E2 & E3 & E4).
  { unfold c'. destruct (byKey c !! key) as [old|] eqn:Ek.
    - case_bool_decide as Ho.
      + subst. by apply H1 in Ek.
      + split_and!; [done|done|by apply keys_remove_full|]. intros i Hi. rewrite keys_set_remove.
        case_bool_decide; [by subst|]. assert (key ∉ keys_set c i); [|set_solver].
        intros Hk%H1. congruence.
    - split_and!; [done|done|done|]. intros i Hi. assert (key ∉ keys_set c i); [|set_solver].
      intros Hk%H1. congruence. }
  split; cbn.
  - intros k i. unfold keys_set. cbn. rewrite E1. destruct (decide (i = id)) as [->|Hi].
    + rewrite (lookup_insert_eq (byContainer c')). cbn.
      fold (keys_set c id). rewrite elem_of_union, elem_of_singleton, <- H1.
      destruct (decide (k = key)) as [->|Hk]; [rewrite lookup_insert_eq; tauto|].
      rewrite lookup_insert_ne by done. tauto.
    + rewrite (lookup_insert_ne (byContainer c')) by done. fold (keys_set c' i). rewrite E4 by done.
      rewrite elem_of_difference, elem_of_singleton, <- H1.
      destruct (decide (k = key)) as [->|Hk]; [rewrite lookup_insert_eq; naive_solver|].
      rewrite lookup_insert_ne by done. tauto.
  - intros i. rewrite lookup_insert_Some. intros [[-> He]|[_ He]]; [set_solver|by apply E3 in He].
  - intros i. unfold keys_set. cbn. rewrite E2. destruct (decide (i = id)) as [->|Hi].
    + rewrite lookup_insert_eq. cbn. fold (keys_set c id).
      rewrite size_union, size_singleton by set_solver. lia.
    + rewrite lookup_insert_ne by done. fold (keys_set c' i). rewrite E4 by done.
      etrans; [|apply (H3 i)]. apply subseteq_size. set_solver.
Qed.

Lemma Delete_ok key c : keys_ok c → keys_ok (Delete key c).
Proof.
  intros [H1 H2 H3]. unfold Delete. destruct (byKey c !! key) as [id|] eqn:Ek; [|done]. split; cbn.
  - intros k i. change (keys_set _ i) with (keys_set (removeKeyFrom id key c) i).
    rewrite keys_set_remove, lookup_delete_Some, H1. case_bool_decide; [set_solver|].
    split; [tauto|]. intros Hk. split; [|done]. intros <-. apply H1 in Hk. congruence.
  - by apply keys_remove_full.
  - intros i. change (keys_set _ i) with (keys_set (removeKeyFrom id key c) i).
    rewrite keys_set_remove. etrans; [|apply (H3 i)]. apply subseteq_size.
    case_bool_decide; set_solver.
Qed.

Lemma lookup_deletes l (m : gmap Z str) k :
  foldr delete m l !! k = if bool_decide (k ∈ l) then None else m !! k.
Proof.
  case_bool_decide as Hk; [by apply lookup_foldr_delete|by rewrite lookup_foldr_delete_not_elem_of].
Qed.

Lemma keys_set_delete id c i :
  keys_set (DeleteContainer id c) i = if bool_decide (i = id) then ∅ else keys_set c i.
Proof.
  unfold DeleteContainer, keys_set. cbn.
  case_bool_decide; subst; [by rewrite lookup_delete_eq|by rewrite lookup_delete_ne].
Qed.

Lemma DeleteContainer_ok id c : keys_ok c → keys_ok (DeleteContainer id c).
Proof.
  intros [H1 H2 H3]. split.
  - intros k i. rewrite keys_set_delete. cbn. rewrite lookup_deletes, !bool_decide_decide.
    destruct (decide (k ∈ _)) as [Hk|Hk]; rewrite elem_of_elements, <- H1 in Hk;
      destruct (decide (i = id)) as [->|Hi]; try rewrite <- H1; set_solver.
  - intros i. cbn. rewrite lookup_delete_Some. naive_solver.
  - intros i. rewrite keys_set_delete. etrans; [|apply (H3 i)]. apply subseteq_size.
    case_bool_decide; set_solver.
Qed.

Lemma Clear_keys_ok c : keys_ok (Clear c).
Proof. destruct (new_ok (maxPerContainer c)) as [H1 H2 H3]. by split. Qed.

(** ** The specification: one map from keys to containers *)

Abbreviation owners := (gmap Z str).

Definition owned (m : owners) (id : str) : gset Z := dom (filter (λ kv, kv.2 = id) m).

Inductive op :=
  | OpInsert (key : Z) (containerID : str)
  | OpDelete (key : Z)
  | OpDeleteContainer (containerID : str)
  | OpClear.

(** An insertion is refused when the container has its share of keys already; a
    key given to a container is taken from the one which had it. *)
Definition spec_op (max : nat) (o : op) (m : owners) : bool * owners :=
  match o with
  | OpInsert key id =>
      if bool_decide (m !! key = Some id) then (true, m)
      else if bool_decide (size (owned m id) < max)%nat then (true, <[key := id]> m)
      else (false, m)
  | OpDelete key => (true, delete key m)
  | OpDeleteContainer id => (true, filter (λ kv, kv.2 ≠ id) m)
  | OpClear => (true, ∅)
  end.

Definition table_op (o : op) (c : containerKeys) : bool * containerKeys :=
  match o with
  | OpInsert key id => Insert key id c
  | OpDelete key => (true, Delete key c)
  | OpDeleteContainer id => (true, DeleteContainer id c)
  | OpClear => (true, Clear c)
  end.

(** The answers to a sequence of operations, and what it leaves. *)
Fixpoint ops {S} (step : op → S → bool * S) (l : list op) (s : S) : list bool * S :=
  match l with
  | [] => ([], s)
  | o :: l => let '(a, s) := step o s in let '(as_, s) := ops step l s in (a :: as_, s)
  end.

Lemma elem_of_owned m id key : key ∈ owned m id ↔ m !! key = Some id.
Proof.
  unfold owned. rewrite elem_of_dom, map_lookup_filter. unfold is_Some.
  destruct (m !! key) as [i|]; cbn; [|naive_solver]. case_guard; naive_solver.
Qed.

Lemma owned_keys c id : keys_ok c → owned (byKey c) id = keys_set c id.
Proof. intros Hc. apply set_eq. intros key. rewrite elem_of_owned. apply Hc. Qed.

Lemma Insert_max key id c : maxPerContainer (Insert key id c).2 = maxPerContainer c.
Proof.
  unfold Insert. repeat case_bool_decide; try done; destruct (_ <=? _)%nat; try done.
  cbn. destruct (byKey c !! key); [|done]. by case_bool_decide.
Qed.

Lemma Insert_keys key id c :
  byKey (Insert key id c).2 = if (Insert key id c).1 && bool_decide (key ∉ keys_set c id)
                              then <[key := id]> (byKey c) else byKey c.
Proof.
  unfold Insert. repeat case_bool_decide; try done; destruct (_ <=? _)%nat; try done.
  cbn. destruct (byKey c !! key); [|done]. by case_bool_decide.
Qed.

(** Only a container with as many keys as allowed gets no other one. *)
Lemma Insert_full key id c :
  (Insert key id c).1 = false →
  (key ∉ keys_set c id) ∧ (maxPerContainer c <= size (keys_set c id))%nat.
Proof.
  unfold Insert. case_bool_decide as H; [done|].
  destruct (Nat.leb_spec (maxPerContainer c) (size (keys_set c id))); [done|]. done.
Qed.

(** One operation. *)
Lemma keys_table_refines o c :
  keys_ok c →
  keys_ok (table_op o c).2 ∧ maxPerContainer (table_op o c).2 = maxPerContainer c ∧
  ((table_op o c).1, byKey (table_op o c).2) = spec_op (maxPerContainer c) o (byKey c).
Proof.
  intros Hc. destruct o as [key id|key|id|]; cbn.
  - split; [by apply Insert_ok|]. split; [apply Insert_max|]. rewrite Insert_keys.
    rewrite (bool_decide_ext _ _ (ko_step c Hc key id)), owned_keys by done.
    unfold Insert. repeat case_bool_decide; try done;
      destruct (Nat.leb_spec (maxPerContainer c) (size (keys_set c id))); done || lia.
  - split; [by apply Delete_ok|]. unfold Delete. destruct (byKey c !! key) eqn:E; [done|].
    split; [done|]. by rewrite delete_id.
  - split; [by apply DeleteContainer_ok|]. split; [done|]. f_equal. apply map_eq. intros k.
    rewrite lookup_deletes, map_lookup_filter.
    rewrite (bool_decide_ext _ _ (elem_of_elements _ _)), <- (bool_decide_ext _ _ (ko_step c Hc k id)).
    destruct (byKey c !! k) as [i|]; cbn; [|by case_bool_decide].
    case_guard as Hi; case_bool_decide as Hk; naive_solver.
  - split; [apply Clear_keys_ok|done].
Qed.

Lemma keys_ops_refine l c :
  keys_ok c →
  keys_ok (ops table_op l c).2 ∧ maxPerContainer (ops table_op l c).2 = maxPerContainer c ∧
  ((ops table_op l c).1, byKey (ops table_op l c).2) = ops (spec_op (maxPerContainer c)) l (byKey c).
Proof.
  revert c. induction l as [|o l IH]; intros c Hc; [done|]. cbn.
  destruct (keys_table_refines o c Hc) as (Hok & Hmax & Heq).
  destruct (table_op o c) as [a c1]. cbn in Hok, Hmax, Heq. rewrite <- Heq, <- Hmax.
  destruct (IH c1 Hok) as (Hok2 & Hmax2 & Heq2).
  destruct (ops table_op l c1) as [as_ c2]. cbn in *. by rewrite <- Heq2.
Qed.

(** ** What the table answers *)

Lemma elem_of_keysOf ids c key :
  keys_ok c → key ∈ keysOf ids c ↔ ∃ id, id ∈ ids ∧ byKey c !! key = Some id.
Proof.
  intros Hc. unfold keysOf. rewrite elem_of_compact_keys, elem_of_sort_keys, list_elem_of_bind.
  f_equiv. intros id. rewrite elem_of_elements, (ko_step c Hc). tauto.
Qed.

Lemma keysOf_increasing ids c : StronglySorted Z.lt (keysOf ids c).
Proof. apply compact_keys_increasing, sort_keys_sorted. Qed.

Lemma Keys_keysOf id c : Keys id c = keysOf [id] c.
Proof.
  unfold Keys, keysOf. cbn. rewrite app_nil_r, compact_keys_id; [done|].
  unfold sort_keys. rewrite merge_sort_Permutation. apply NoDup_elements.
Qed.

Lemma elem_of_Containers c id :
  keys_ok c → id ∈ Containers c ↔ ∃ key, byKey c !! key = Some id.
Proof.
  intros Hc. unfold Containers. rewrite list_elem_of_fmap.
  trans (is_Some (byContainer c !! id)).
  - split; [intros ([i ks] & -> & H%elem_of_map_to_list); by exists ks|].
    intros [ks H%elem_of_map_to_list]. by exists (id, ks).
  - split.
    + intros [ks Hk]. assert (ks ≠ ∅) as [key Hin]%set_choose_L by (intros ->; by apply Hc in Hk).
      exists key. apply (ko_step c Hc). unfold keys_set. by rewrite Hk.
    + intros [key Hk%(ko_step c Hc)]. unfold keys_set in Hk.
      destruct (byContainer c !! id); [done|set_solver].
Qed.

(** C21 The table of keys behaves as one map from keys to containers: any
    sequence of insertions and deletions gives the answers of that map, and after
    it the lookups do, in both directions.  The keys of containers come sorted
    and without repetition, and no container has more than its share. *)
Theorem container_keys_refine max l :
  let c := (ops table_op l (newContainerKeys max)).2 in
  let m := (ops (spec_op max) l ∅).2 in
  (ops table_op l (newContainerKeys max)).1 = (ops (spec_op max) l ∅).1 ∧
  (∀ key, Get key c = m !! key) ∧ Size c = size m ∧
  (∀ ids, StronglySorted Z.lt (keysOf ids c) ∧
    ∀ key, key ∈ keysOf ids c ↔ ∃ id, id ∈ ids ∧ m !! key = Some id) ∧
  (∀ id, Keys id c = keysOf [id] c ∧ (length (Keys id c) <= max)%nat) ∧
  (∀ id, id ∈ Containers c ↔ ∃ key, m !! key = Some id).
Proof.
  destruct (keys_ops_refine l (newContainerKeys max) (new_ok max)) as (Hok & Hmax & Heq).
  cbn in Hmax, Heq. cbv zeta. rewrite <- Heq. cbn.
  set (c := (ops table_op l (newContainerKeys max)).2) in *.
  split; [done|]. split; [done|]. split; [done|].
  split; [intros ids; split; [apply keysOf_increasing|intros key; by apply elem_of_keysOf]|].
  split; [|intros id; by apply elem_of_Containers]. intros id. split; [apply Keys_keysOf|].
  unfold Keys, sort_keys. rewrite merge_sort_Permutation. rewrite <- Hmax. apply (ko_max c Hok).
Qed.
