(* ===== verification/ContainerProfiles.v ===== *)
(** * The profiles of the containers ([containerprofiles.go])

    [containerProfiles] maps container IDs to the profiles recorded for them, and
    back.  It is no bijection: a container is recorded for several kinds of
    profiles, and a restarted container has a new ID and the same profile.  Both
    directions keep the order of insertion.  The specification is the list of the
    pairs in that order ([container_profiles_refine]).  All operations run under
    the lock of the table.  [slices.DeleteFunc] works in place, but on an array
    no one else holds: the readers get clones. *)
From S2P Require Import Prelude.

Abbreviation str := (list Z).

(** ** The table *)

Record containerProfiles := MkContainerProfiles {
  byContainer : gmap str (list str);
  byProfile : gmap str (list str)
}.

Definition newContainerProfiles : containerProfiles := MkContainerProfiles ∅ ∅.

(** A missing list reads as an empty one. *)
Definition list_at (m : gmap str (list str)) (k : str) : list str := default [] (m !! k).

Definition append_to (k item : str) (m : gmap str (list str)) : gmap str (list str) :=
  if bool_decide (item ∈ list_at m k) then m else <[k := list_at m k ++ [item]]> m.

Definition without (l : list str) (item : str) : list str := filter (λ s, s ≠ item) l.

(** The list of [k] loses [item], and an empty list goes. *)
Definition remove_from (item : str) (m : gmap str (list str)) (k : str) : gmap str (list str) :=
  let m := <[k := without (list_at m k) item]> m in
  if bool_decide (list_at m k = []) then delete k m else m.

Definition Insert (containerID profile : str) (c : containerProfiles) : containerProfiles :=
  let c := {| c with byContainer := append_to containerID profile (byContainer c) |} in
  {| c with byProfile := append_to profile containerID (byProfile c) |}.

Definition Get (containerID : str) (c : containerProfiles) : option str :=
  head (list_at (byContainer c) containerID).

Definition GetAll (containerID : str) (c : containerProfiles) : list str :=
  list_at (byContainer c) containerID.

Definition Containers (profile : str) (c : containerProfiles) : list str :=
  list_at (byProfile c) profile.

Definition Delete (containerID : str) (c : containerProfiles) : containerProfiles :=
  let c := {| c with byProfile :=
    fold_left (remove_from containerID) (list_at (byContainer c) containerID) (byProfile c) |} in
  {| c with byContainer := delete containerID (byContainer c) |}.

(** The loop of [DeleteProfile], which collects the containers left without a
    profile. *)
Fixpoint drop_profile (profile : str) (ids : list str) (m : gmap str (list str)) :
    list str * gmap str (list str) :=
  match ids with
  | [] => ([], m)
  | id :: ids =>
      let emptied := bool_decide (without (list_at m id) profile = []) in
      let '(unused, m) := drop_profile profile ids (remove_from profile m id) in
      (if emptied then id :: unused else unused, m)
  end.

Definition DeleteProfile (profile : str) (c : containerProfiles) : list str * containerProfiles :=
  let '(unused, m) := drop_profile profile (list_at (byProfile c) profile) (byContainer c) in
  let c := {| c with byContainer := m |} in
  (unused, {| c with byProfile := delete profile (byProfile c) |}).

Definition Clear (c : containerProfiles) : containerProfiles := MkContainerProfiles ∅ ∅.

Definition Size (c : containerProfiles) : nat := size (byContainer c).

(** ** The specification: pairs in the order of insertion *)

Abbreviation pairs := (list (str * str)).

Definition profiles_of (l : pairs) (id : str) : list str := (filter (λ x, x.1 = id) l).*2.
Definition containers_of (l : pairs) (p : str) : list str := (filter (λ x, x.2 = p) l).*1.

Inductive op :=
  | OpInsert (containerID profile : str)
  | OpDelete (containerID : str)
  | OpDeleteProfile (profile : str)
  | OpClear.

Definition spec_op (o : op) (l : pairs) : list str * pairs :=
  match o with
  | OpInsert id p => ([], if bool_decide ((id, p) ∈ l) then l else l ++ [(id, p)])
  | OpDelete id => ([], filter (λ x, x.1 ≠ id) l)
  | OpDeleteProfile p =>
      (filter (λ id, profiles_of l id = [p]) (containers_of l p), filter (λ x, x.2 ≠ p) l)
  | OpClear => ([], [])
  end.

Definition table_op (o : op) (c : containerProfiles) : list str * containerProfiles :=
  match o with
  | OpInsert id p => ([], Insert id p c)
  | OpDelete id => ([], Delete id c)
  | OpDeleteProfile p => DeleteProfile p c
  | OpClear => ([], Clear c)
  end.

(** The answers to a sequence of operations, and what it leaves. *)
Fixpoint ops {S} (step : op → S → list str * S) (l : list op) (s : S) : list (list str) * S :=
  match l with
  | [] => ([], s)
  | o :: l => let '(a, s) := step o s in let '(as_, s) := ops step l s in (a :: as_, s)
  end.

(** ** Filters *)

Section Filters.
Context {A : Type} (P Q : A → Prop) `{∀ x, Decision (P x)} `{∀ x, Decision (Q x)}.

Lemma filter_ext_in (l : list A) : (∀ x, x ∈ l → P x ↔ Q x) → filter P l = filter Q l.
Proof.
  induction l as [|x l IH]; intros Hl; [done|]. rewrite !filter_cons, IH by (intros; apply Hl; by right).
  pose proof (Hl x ltac:(left)). repeat case_decide; tauto.
Qed.

Lemma filter_none (l : list A) : (∀ x, x ∈ l → ¬ P x) → filter P l = [].
Proof.
  induction l as [|x l IH]; intros Hl; [done|]. rewrite filter_cons_False by (apply Hl; left).
  apply IH. intros. apply Hl. by right.
Qed.

Lemma filter_map {B} (f : B → A) (l : list B) : filter P (f <$> l) = f <$> filter (λ x, P (f x)) l.
Proof.
  induction l as [|x l IH]; [done|]. rewrite fmap_cons, !filter_cons, IH. by case_decide.
Qed.

Lemma filter_swap (l : list A) : filter P (filter Q l) = filter Q (filter P l).
Proof. rewrite !list_filter_filter. apply list_filter_iff. tauto. Qed.
End Filters.

(** ** One list *)

Lemma list_at_append k item m j :
  list_at (append_to k item m) j =
  if bool_decide (j = k ∧ item ∉ list_at m k) then list_at m k ++ [item] else list_at m j.
Proof.
  unfold append_to. repeat case_bool_decide; try naive_solver; unfold list_at at 1.
  - destruct H0 as [-> _]. by rewrite lookup_insert_eq.
  - rewrite lookup_insert_ne; [done|naive_solver].
Qed.

Lemma remove_from_eq item m k :
  remove_from item m k =
  if bool_decide (without (list_at m k) item = []) then delete k m
  else <[k := without (list_at m k) item]> m.
Proof.
  unfold remove_from. set (v := without (list_at m k) item).
  assert (list_at (<[k := v]> m) k = v) as Hv by (unfold list_at; by rewrite lookup_insert_eq).
  rewrite (bool_decide_ext (list_at _ k = []) (v = [])) by by rewrite Hv.
  case_bool_decide; [apply delete_insert_eq|done].
Qed.

Lemma list_at_remove item m k j :
  list_at (remove_from item m k) j =
  if bool_decide (j = k) then without (list_at m k) item else list_at m j.
Proof.
  rewrite remove_from_eq. repeat case_bool_decide; subst; unfold list_at at 1;
    rewrite ?lookup_delete_eq, ?lookup_delete_ne, ?lookup_insert_eq, ?lookup_insert_ne by done; done.
Qed.

Lemma without_id l item : item ∉ l → without l item = l.
Proof.
  induction l as [|x l IH]; [done|]. intros [Hx Hl]%not_elem_of_cons. unfold without.
  rewrite filter_cons_True by done. f_equal. by apply IH.
Qed.

Lemma without_twice l item : without (without l item) item = without l item.
Proof. apply without_id. unfold without. rewrite list_elem_of_filter. tauto. Qed.

Lemma without_nil l item : NoDup l → without l item = [] ↔ l = [] ∨ l = [item].
Proof.
  intros Hd. split; [|intros [->| ->]; unfold without; by rewrite ?filter_cons_False by tauto].
  intros Hw. assert (∀ x, x ∈ l → x = item) as Hall.
  { intros x Hx. destruct (decide (x = item)); [done|]. exfalso.
    apply (not_elem_of_nil x). rewrite <- Hw. by apply list_elem_of_filter. }
  destruct l as [|x [|y l]]; [by left|right; f_equal; apply Hall; left|].
  apply NoDup_cons in Hd as [Hd _]. exfalso. apply Hd. rewrite (Hall x), (Hall y) by set_solver. left.
Qed.

(** No list of the table is empty. *)
Definition full (m : gmap str (list str)) : Prop := ∀ k, m !! k ≠ Some [].

Lemma append_full k item m : full m → full (append_to k item m).
Proof.
  intros Hm j. unfold append_to. case_bool_decide; [apply Hm|]. rewrite lookup_insert_Some.
  intros [[_ H1]|[_ H1]]; [by destruct (list_at m k)|by apply Hm in H1].
Qed.

Lemma remove_full item m k : full m → full (remove_from item m k).
Proof.
  intros Hm j. rewrite remove_from_eq.
  case_bool_decide as Hw; [rewrite lookup_delete_Some|rewrite lookup_insert_Some].
  - intros [_ Hj]. by apply Hm in Hj.
  - intros [[_ Hj]|[_ Hj]]; [done|by apply Hm in Hj].
Qed.

Lemma delete_full k m : full m → full (delete k m).
Proof. intros Hm j. rewrite lookup_delete_Some. intros [_ H]. by apply Hm in H. Qed.

Lemma dom_full m : full m → ∀ k, k ∈ dom m ↔ list_at m k ≠ [].
Proof.
  intros Hm k. rewrite elem_of_dom. unfold is_Some, list_at. pose proof (Hm k).
  destruct (m !! k) as [l|]; cbn; naive_solver.
Qed.

(** ** The loops *)

Lemma list_at_removes item ks m j :
  list_at (fold_left (remove_from item) ks m) j =
  if bool_decide (j ∈ ks) then without (list_at m j) item else list_at m j.
Proof.
  revert m. induction ks as [|k ks IH]; intros m; [by rewrite bool_decide_eq_false_2 by apply not_elem_of_nil|]. cbn.
  rewrite IH, list_at_remove. rewrite (bool_decide_ext (j ∈ k :: ks) (j = k ∨ j ∈ ks)) by apply elem_of_cons.
  repeat case_bool_decide; subst; rewrite ?without_twice; tauto.
Qed.

Lemma removes_full item ks m : full m → full (fold_left (remove_from item) ks m).
Proof. revert m. induction ks; intros m Hm; [done|]. cbn. by apply IHks, remove_full. Qed.

Lemma drop_profile_table p ids m :
  (drop_profile p ids m).2 = fold_left (remove_from p) ids m.
Proof.
  revert m. induction ids as [|id ids IH]; intros m; [done|]. cbn. rewrite <- IH.
  by destruct (drop_profile p ids _).
Qed.

Lemma drop_profile_unused p ids m :
  NoDup ids →
  (drop_profile p ids m).1 = filter (λ id, without (list_at m id) p = []) ids.
Proof.
  intros Hd. revert m. induction Hd as [|id ids Hid Hd IH]; intros m; [done|]. cbn [drop_profile].
  specialize (IH (remove_from p m id)). destruct (drop_profile p ids _) as [unused m'].
  change (unused = filter (λ i, without (list_at (remove_from p m id) i) p = []) ids) in IH.
  rewrite filter_cons. cbv [fst]. rewrite IH. clear IH.
  assert (filter (λ i, without (list_at (remove_from p m id) i) p = []) ids =
          filter (λ i, without (list_at m i) p = []) ids) as ->.
  { apply filter_ext_in. intros i Hi. rewrite list_at_remove.
    case_bool_decide; [by subst|done]. }
  case_bool_decide; by case_decide.
Qed.

(** ** The table represents its pairs *)

Record rep (l : pairs) (c : containerProfiles) : Prop := {
  rep_nodup : NoDup l;
  rep_container id : list_at (byContainer c) id = profiles_of l id;
  rep_profile p : list_at (byProfile c) p = containers_of l p;
  rep_full : full (byContainer c)
}.

Lemma elem_of_profiles l id p : p ∈ profiles_of l id ↔ (id, p) ∈ l.
Proof.
  unfold profiles_of. rewrite list_elem_of_fmap. setoid_rewrite list_elem_of_filter.
  split; [intros ([i q] & -> & Hi & Hin); cbn in Hi; by subst|]. intros Hin. by exists (id, p).
Qed.

Lemma elem_of_containers l id p : id ∈ containers_of l p ↔ (id, p) ∈ l.
Proof.
  unfold containers_of. rewrite list_elem_of_fmap. setoid_rewrite list_elem_of_filter.
  split; [intros ([i q] & -> & Hi & Hin); cbn in Hi; by subst|]. intros Hin. by exists (id, p).
Qed.

Lemma profiles_nodup l id : NoDup l → NoDup (profiles_of l id).
Proof.
  intros Hl. apply NoDup_fmap_2_strong; [|by apply NoDup_filter].
  intros [i p] [j q] [Hi _]%list_elem_of_filter [Hj _]%list_elem_of_filter Hpq. cbn in *. congruence.
Qed.

Lemma containers_nodup l p : NoDup l → NoDup (containers_of l p).
Proof.
  intros Hl. apply NoDup_fmap_2_strong; [|by apply NoDup_filter].
  intros [i r] [j q] [Hi _]%list_elem_of_filter [Hj _]%list_elem_of_filter Hpq. cbn in *. congruence.
Qed.

(** The projections of the lists the specification makes. *)
Lemma profiles_snoc l id p i :
  profiles_of (l ++ [(id, p)]) i = if bool_decide (i = id) then profiles_of l id ++ [p] else profiles_of l i.
Proof.
  unfold profiles_of. rewrite filter_app, fmap_app. case_bool_decide; subst.
  - by rewrite filter_cons_True.
  - rewrite filter_cons_False by (cbn; congruence). apply app_nil_r.
Qed.

Lemma containers_snoc l id p q :
  containers_of (l ++ [(id, p)]) q =
  if bool_decide (q = p) then containers_of l p ++ [id] else containers_of l q.
Proof.
  unfold containers_of. rewrite filter_app, fmap_app. case_bool_decide; subst.
  - by rewrite filter_cons_True.
  - rewrite filter_cons_False by (cbn; congruence). apply app_nil_r.
Qed.

Lemma profiles_del_container l id i :
  profiles_of (filter (λ x, x.1 ≠ id) l) i = if bool_decide (i = id) then [] else profiles_of l i.
Proof.
  unfold profiles_of. rewrite list_filter_filter. case_bool_decide; subst.
  - rewrite filter_none; [done|]. naive_solver.
  - f_equal. apply list_filter_iff. naive_solver.
Qed.

Lemma containers_del_profile l p q :
  containers_of (filter (λ x, x.2 ≠ p) l) q = if bool_decide (q = p) then [] else containers_of l q.
Proof.
  unfold containers_of. rewrite list_filter_filter. case_bool_decide; subst.
  - rewrite filter_none; [done|]. naive_solver.
  - f_equal. apply list_filter_iff. naive_solver.
Qed.

Lemma profiles_del_profile l p id :
  profiles_of (filter (λ x, x.2 ≠ p) l) id = without (profiles_of l id) p.
Proof. unfold profiles_of, without. by rewrite filter_map, filter_swap. Qed.

Lemma containers_del_container l id p :
  containers_of (filter (λ x, x.1 ≠ id) l) p = without (containers_of l p) id.
Proof. unfold containers_of, without. by rewrite filter_map, filter_swap. Qed.

(** ** Every operation keeps the representation *)

Lemma rep_new : rep [] newContainerProfiles.
Proof. split; [constructor|done|done|]. intros k. cbn. by rewrite lookup_empty. Qed.

Lemma Insert_rep id p l c :
  rep l c → rep (spec_op (OpInsert id p) l).2 (Insert id p c).
Proof.
  intros [Hn Hc Hp Hf]. pose proof (elem_of_profiles l id p) as Ec. rewrite <- Hc in Ec.
  pose proof (elem_of_containers l id p) as Ep. rewrite <- Hp in Ep. unfold Insert, spec_op. cbn.
  case_bool_decide as Hin.
  - unfold append_to. rewrite !bool_decide_eq_true_2 by tauto. by split.
  - split; cbn.
    + apply NoDup_app. split; [done|]. split; [|apply NoDup_singleton].
      intros x Hx ->%list_elem_of_singleton. done.
    + intros i. rewrite list_at_append, profiles_snoc, <- !Hc. repeat case_bool_decide; tauto.
    + intros q. rewrite list_at_append, containers_snoc, <- !Hp. repeat case_bool_decide; tauto.
    + by apply append_full.
Qed.

Lemma Delete_rep id l c : rep l c → rep (spec_op (OpDelete id) l).2 (Delete id c).
Proof.
  intros [Hn Hc Hp Hf]. split; cbn [spec_op Delete byContainer byProfile snd].
  - by apply NoDup_filter.
  - intros i. rewrite profiles_del_container, <- Hc. unfold list_at.
    case_bool_decide; subst; [by rewrite lookup_delete_eq|by rewrite lookup_delete_ne].
  - intros p. rewrite list_at_removes, containers_del_container, Hc, Hp.
    case_bool_decide as Hin; [done|]. rewrite without_id; [done|].
    by rewrite elem_of_containers, <- elem_of_profiles.
  - by apply delete_full.
Qed.

Lemma DeleteProfile_rep p l c :
  rep l c →
  (DeleteProfile p c).1 = (spec_op (OpDeleteProfile p) l).1 ∧
  rep (spec_op (OpDeleteProfile p) l).2 (DeleteProfile p c).2.
Proof.
  intros [Hn Hc Hp Hf]. unfold DeleteProfile.
  pose proof (drop_profile_unused p (list_at (byProfile c) p) (byContainer c)) as Hu.
  pose proof (drop_profile_table p (list_at (byProfile c) p) (byContainer c)) as Ht.
  destruct (drop_profile p _ _) as [unused m]. cbn [spec_op fst snd] in Hu, Ht |- *. subst m. split.
  - rewrite Hu by (rewrite Hp; by apply containers_nodup). rewrite Hp. apply filter_ext_in.
    intros id Hid%elem_of_containers. rewrite Hc, without_nil by by apply profiles_nodup.
    apply elem_of_profiles in Hid. split; [|by right]. intros [E|E]; [|done].
    rewrite E in Hid. by apply not_elem_of_nil in Hid.
  - split; cbn [byContainer byProfile].
    + by apply NoDup_filter.
    + intros i. rewrite list_at_removes, profiles_del_profile, Hc, Hp.
      case_bool_decide as Hin; [done|]. rewrite without_id; [done|].
      by rewrite elem_of_profiles, <- elem_of_containers.
    + intros q. rewrite containers_del_profile, <- Hp. unfold list_at.
      case_bool_decide; subst; [by rewrite lookup_delete_eq|by rewrite lookup_delete_ne].
    + by apply removes_full.
Qed.

Lemma table_refines o l c :
  rep l c → (table_op o c).1 = (spec_op o l).1 ∧ rep (spec_op o l).2 (table_op o c).2.
Proof.
  intros Hr. destruct o as [id p|id|p|].
  - split; [done|by apply Insert_rep].
  - split; [done|by apply Delete_rep].
  - by apply DeleteProfile_rep.
  - split; [done|apply rep_new].
Qed.

Lemma ops_refine os l c :
  rep l c →
  (ops table_op os c).1 = (ops spec_op os l).1 ∧ rep (ops spec_op os l).2 (ops table_op os c).2.
Proof.
  revert l c. induction os as [|o os IH]; intros l c Hr; [done|]. cbn.
  destruct (table_refines o l c Hr) as [Ha Hr1].
  destruct (table_op o c) as [a c1], (spec_op o l) as [a' l1]. cbn in Ha, Hr1. subst a'.
  destruct (IH l1 c1 Hr1) as [Has Hr2].
  destruct (ops table_op os c1) as [as_ c2], (ops spec_op os l1) as [as' l2]. cbn in *. by subst.
Qed.

Lemma rep_size l c : rep l c → Size c = size (list_to_set l.*1 : gset str).
Proof.
  intros [_ Hc _ Hf]. unfold Size. rewrite <- size_dom. f_equal. apply set_eq. intros id.
  rewrite (dom_full _ Hf), elem_of_list_to_set, list_elem_of_fmap, Hc. split.
  - intros Hn. destruct (profiles_of l id) as [|p ps] eqn:E; [done|]. exists (id, p). split; [done|].
    apply elem_of_profiles. rewrite E. left.
  - intros ([i p] & -> & H%elem_of_profiles) E. cbn in E. rewrite E in H. by apply not_elem_of_nil in H.
Qed.

(** C22 The table of profiles behaves as the list of its pairs in the order of
    insertion: a pair is listed once, both lookups give the other halves of the
    pairs in that order, deleting a container or a profile removes its pairs, and
    deleting a profile tells the containers which had no other. *)
Theorem container_profiles_refine os :
  let c := (ops table_op os newContainerProfiles).2 in
  let l := (ops spec_op os []).2 in
  (ops table_op os newContainerProfiles).1 = (ops spec_op os []).1 ∧ NoDup l ∧
  (∀ id, GetAll id c = profiles_of l id ∧ Get id c = head (profiles_of l id)) ∧
  (∀ p, Containers p c = containers_of l p) ∧
  Size c = size (list_to_set l.*1 : gset str).
Proof.
  destruct (ops_refine os [] _ rep_new) as [Ha Hr]. cbv zeta.
  split; [done|]. split; [apply Hr|]. split; [|split; [apply Hr|by apply rep_size]].
  intros id. unfold GetAll, Get. by rewrite !(rep_container _ _ Hr).
Qed.
