(* ===== verification/ProcFs.v ===== *)
(** * Processes and their containers ([util/containers.go], [bpfrecorder.go])

    What the daemon reads of a process under /proc: its start time
    ([getProcessStartTimeTicks]), the ID of its container in its cgroup
    ([containerIDForPID]), and whether it is still the process an event told of
    ([verifyProcess]).  The contents of the files are arguments, [None] if a file
    cannot be read.

    The name of a process is in its stat file, and a workload chooses it:
    [start_time_any_comm] shows that no name can forge the start time.  The cache
    of container IDs is keyed by PID and start time; [container_id_cached] shows
    that it never hands out the container of another process. *)
From S2P Require Import Prelude Bpf Wire Paths AppArmor Recording Profile Seccomp.
Import String.StringSyntax.
#[local] Open Scope string_scope.
#[local] Open Scope list_scope.
#[local] Open Scope Z_scope.

(** ** Strings of Go *)

(** [unicode.IsSpace] of an ASCII byte. *)
Definition is_space (c : Z) : bool := between 9 13 c || (c =? 32).

(** [strings.Fields] *)
Fixpoint fields_from (cur s : list Z) : list (list Z) :=
  match s with
  | [] => if bool_decide (cur = []) then [] else [cur]
  | c :: s =>
      if is_space c then
        if bool_decide (cur = []) then fields_from [] s else cur :: fields_from [] s
      else fields_from (cur ++ [c]) s
  end.
Definition Fields (s : list Z) : list (list Z) := fields_from [] s.

(** What follows the last [c], [None] if there is none ([LastIndexByte]). *)
Fixpoint after_last (c : Z) (s : list Z) : option (list Z) :=
  match s with
  | [] => None
  | x :: s =>
      match after_last c s with
      | Some r => Some r
      | None => if x =? c then Some s else None
      end
  end.

(** [FindAllString]: the matches that do not overlap, from the left; [skip] bytes
    belong to the match before. *)
Fixpoint find_all (m : matcher) (skip : nat) (s : list Z) : list (list Z) :=
  match s with
  | [] => []
  | _ :: t =>
      match skip with
      | S k => find_all m k t
      | O =>
          match m s with
          | Some (S k) => take (S k) s :: find_all m k t
          | _ => find_all m O t
          end
      end
  end.

(** ** The start time *)

Definition CLOSE : Z := 41.

(** [raw[i+2:]] after the last parenthesis: one more byte is skipped, and there
    has to be something left. *)
Definition getProcessStartTimeTicks (stat : option (list Z)) : option (list Z) :=
  match stat with
  | None => None
  | Some raw =>
      match after_last CLOSE raw with
      | Some (_ :: c :: rest) => Fields (c :: rest) !! 19%nat
      | _ => None
      end
  end.

(** ** The container *)

Definition ContainerIDRegex : matcher := m_times (λ c, is_digit c || between 97 102 c) 64.

Definition container_ids (s : list Z) : list (list Z) := find_all ContainerIDRegex 0 s.

Inductive cid_result := CidFound (id : list Z) | CidNotFound | CidError.

(** The lines of a text without their ends ([bufio.Scanner]). *)
Fixpoint lines_from (cur s : list Z) : list (list Z) :=
  match s with
  | [] => if bool_decide (cur = []) then [] else [cur]
  | c :: s => if c =? 10 then cur :: lines_from [] s else lines_from (cur ++ [c]) s
  end.

Definition MaxScanTokenSize : nat := Z.to_nat 65536.

(** The last ID of the first line which has one; the scanner gives up on a line
    that does not fit its buffer. *)
Fixpoint first_container (lines : list (list Z)) : cid_result :=
  match lines with
  | [] => CidNotFound
  | text :: lines =>
      if (MaxScanTokenSize <=? length text)%nat then CidError
      else match last (container_ids text) with
           | Some id => CidFound id
           | None => first_container lines
           end
  end.

Definition pid_key_of (pid : Z) (startTime : list Z) : list Z := decimal pid ++ bytes "_" ++ startTime.

Definition containerIDForPID (cache : gmap (list Z) (list Z)) (pid : Z)
    (stat cgroup : option (list Z)) : cid_result * gmap (list Z) (list Z) :=
  match getProcessStartTimeTicks stat with
  | None => (CidError, cache)
  | Some startTime =>
      let cacheKey := pid_key_of pid startTime in
      match cache !! cacheKey with
      | Some id => (CidFound id, cache)
      | None =>
          match cgroup with
          | None => (CidError, cache)
          | Some data =>
              match first_container (lines_from [] data) with
              | CidFound id => (CidFound id, <[cacheKey := id]> cache)
              | r => (r, cache)
              end
          end
      end
  end.

(** [verifyProcess]: the start time is [None] if it cannot be told, and a
    [seenAt] of zero is not checked. *)
Definition verifyProcess (pid mntns seenAt : Z) (startTime : option Z) (link : option (list Z)) : bool :=
  match startTime with
  | None => false
  | Some started =>
      if (0 <? seenAt) && (seenAt <? started) then false
      else
        match link with
        | None => false
        | Some link => bool_decide (link = bytes "mnt:[" ++ decimal mntns ++ bytes "]")
        end
  end.

(** What the outside answers about the process of an event: the path of its
    cgroup, the container of its PID, and whether it is still the process. *)
Record process_answers := {
  pa_cgroup_path : option (list Z);
  pa_pid : cid_result;
  pa_verified : bool
}.

Definition containerIDForKey (cgroupKeys : bool) (a : process_answers) : cid_result :=
  match (if cgroupKeys then pa_cgroup_path a else None) ≫= λ path, last (container_ids path) with
  | Some id => CidFound id
  | None =>
      match pa_pid a with
      | CidError => CidError
      | r => if pa_verified a then r else CidError
      end
  end.

(** ** The name of a process cannot forge its start time *)

Lemma after_last_app c s r : (∀ x, x ∈ r → x ≠ c) → after_last c (s ++ c :: r) = Some r.
Proof.
  intros Hr. assert (after_last c r = None) as Hn.
  { induction r as [|x r IH]; [done|]. cbn. rewrite IH by (intros; apply Hr; by right).
    destruct (Z.eqb_spec x c); [|done]. exfalso. apply (Hr x); [left|done]. }
  induction s as [|x s IH]; cbn; [by rewrite Hn, Z.eqb_refl|]. by rewrite IH.
Qed.

(** A field: not empty, and without white space. *)
Definition word (w : list Z) : Prop := w ≠ [] ∧ Forall (λ c, is_space c = false) w.

(** Words, each followed by a white space. *)
Definition join_fields (ws : list (list Z * Z)) : list Z := concat (map (λ w, w.1 ++ [w.2]) ws).

Lemma fields_word cur w s :
  Forall (λ c, is_space c = false) w → fields_from cur (w ++ s) = fields_from (cur ++ w) s.
Proof.
  intros Hw. revert cur. induction Hw as [|c w Hc Hw IH]; intros cur; [by rewrite app_nil_r|].
  cbn. rewrite Hc, IH. by rewrite <- app_assoc.
Qed.

Lemma Fields_join ws :
  Forall (λ w, word w.1 ∧ is_space w.2 = true) ws → Fields (join_fields ws) = ws.*1.
Proof.
  unfold Fields, join_fields. induction 1 as [|[w c] ws [[Hne Hw] Hc] _ IH]; [done|]. cbn [map concat].
  rewrite <- app_assoc, fields_word by done. cbn in *. rewrite Hc.
  rewrite bool_decide_eq_false_2 by done. by rewrite IH.
Qed.

Lemma elem_of_join_fields c ws : c ∈ join_fields ws → ∃ w, w ∈ ws ∧ (c ∈ w.1 ∨ c = w.2).
Proof.
  induction ws as [|w ws IH]; [by intros ?%not_elem_of_nil|]. unfold join_fields. cbn [map concat].
  rewrite !elem_of_app, list_elem_of_singleton. intros [Hc|(v & Hv & Hc)%IH].
  - exists w. split; [left|done].
  - exists v. split; [by right|done].
Qed.

(** The name of a process cannot forge its start time: whatever bytes a
    workload gives its process as its name, parentheses, blanks and line ends
    included, the start time that is read of its stat file is the 20th field
    after the name, and the file is refused if there is none. *)
Theorem start_time_any_comm pid comm ws :
  Forall (λ w, word w.1 ∧ is_space w.2 = true ∧ CLOSE ∉ w.1) ws → ws ≠ [] →
  getProcessStartTimeTicks (Some (pid ++ bytes " (" ++ comm ++ CLOSE :: 32 :: join_fields ws)) =
  ws.*1 !! 19%nat.
Proof.
  intros Hw Hne. unfold getProcessStartTimeTicks. rewrite !(app_assoc _ _ (CLOSE :: _)).
  rewrite after_last_app.
  - destruct ws as [|w ws]; [done|]. destruct (join_fields (w :: ws)) as [|x s] eqn:E.
    { apply (f_equal length) in E. unfold join_fields in E. cbn in E.
      rewrite !length_app in E. cbn in E. lia. }
    change (Fields (x :: s) !! 19%nat = (w :: ws).*1 !! 19%nat). rewrite <- E, Fields_join; [done|].
    eapply Forall_impl; [exact Hw|]. by intros ? (? & ? & _).
  - intros x [->|Hx]%elem_of_cons; [done|]. intros ->. rewrite Forall_forall in Hw.
    apply elem_of_join_fields in Hx as (w & (_ & Hs & Hc)%Hw & [Hx|Hx]); [done|]. by rewrite <- Hx in Hs.
Qed.

(** ** The cache of container IDs *)

(** The reads of a call. *)
Record pid_call := { pc_pid : Z; pc_stat : option (list Z); pc_cgroup : option (list Z) }.

Definition lookup_pid (cache : gmap (list Z) (list Z)) (c : pid_call) :
    cid_result * gmap (list Z) (list Z) :=
  containerIDForPID cache (pc_pid c) (pc_stat c) (pc_cgroup c).

Definition cache_after (calls : list pid_call) : gmap (list Z) (list Z) :=
  fold_left (λ cache c, (lookup_pid cache c).2) calls ∅.

(** The call read the container [id] of the process with the PID and start time. *)
Definition read_container (c : pid_call) (pid : Z) (startTime id : list Z) : Prop :=
  pc_pid c = pid ∧ getProcessStartTimeTicks (pc_stat c) = Some startTime ∧
  ∃ data, pc_cgroup c = Some data ∧ first_container (lines_from [] data) = CidFound id.

Lemma digits_digit fuel n c : c ∈ digits fuel n → 48 <= c <= 57.
Proof.
  revert n. induction fuel as [|fuel IH]; intros n; [by intros ?%not_elem_of_nil|]. cbn [digits].
  rewrite elem_of_app, list_elem_of_singleton. pose proof (Z.mod_pos_bound n 10).
  destruct (n <? 10); [rewrite elem_of_nil|]; intros [H1| ->]; try lia; try done. by apply IH in H1.
Qed.

Lemma split_at_mark (c : Z) (a b a' b' : list Z) :
  c ∉ a → c ∉ a' → a ++ c :: b = a' ++ c :: b' → a = a' ∧ b = b'.
Proof.
  revert a'. induction a as [|x a IH]; intros [|y a'] Ha Ha'; cbn; intros E; simplify_eq.
  - done.
  - exfalso. apply Ha'. left.
  - exfalso. apply Ha. left.
  - apply not_elem_of_cons in Ha as [_ Ha], Ha' as [_ Ha']. destruct (IH a' Ha Ha' H0) as [-> ->]. done.
Qed.

Lemma pid_key_inj pid pid' t t' :
  in_u 32 pid → in_u 32 pid' → pid_key_of pid t = pid_key_of pid' t' → pid = pid' ∧ t = t'.
Proof.
  unfold in_u. intros Hp Hp' E. unfold pid_key_of in E. change (bytes "_") with [95] in E.
  assert (∀ n, 0 <= n → 95 ∉ decimal n) as Hd.
  { intros n Hn Hin. unfold decimal in Hin. destruct (Z.ltb_spec n 0); [lia|].
    apply digits_digit in Hin. lia. }
  apply split_at_mark in E as [E ->]; [|apply Hd; lia..]. split; [|done].
  rewrite <- (Z2Nat.id pid), <- (Z2Nat.id pid') in E by lia. apply decimal_inj in E; lia.
Qed.

Lemma cache_after_reads calls :
  Forall (λ c, in_u 32 (pc_pid c)) calls →
  ∀ pid t id, in_u 32 pid → cache_after calls !! pid_key_of pid t = Some id →
    ∃ c, c ∈ calls ∧ read_container c pid t id.
Proof.
  induction calls as [|c calls IH] using rev_ind; intros Hin pid t id Hp; [done|].
  unfold cache_after. rewrite fold_left_app. cbn [fold_left]. fold (cache_after calls).
  apply Forall_app in Hin as [Hin [Hc _]%Forall_cons].
  assert (cache_after calls !! pid_key_of pid t = Some id →
    ∃ c0, c0 ∈ calls ++ [c] ∧ read_container c0 pid t id) as Hold.
  { intros (c' & Hc' & Hr)%IH; [|done..]. exists c'. split; [set_solver|done]. }
  unfold lookup_pid, containerIDForPID. destruct (getProcessStartTimeTicks (pc_stat c)) as [t'|] eqn:Et; [|done].
  destruct (cache_after calls !! pid_key_of (pc_pid c) t') eqn:El; [done|].
  destruct (pc_cgroup c) as [data|] eqn:Ec; [|done].
  destruct (first_container (lines_from [] data)) as [id'| |] eqn:Ef; [|done..]. cbn [snd].
  rewrite lookup_insert_Some. intros [[E ->]|[_ E]]; [|by apply Hold].
  apply pid_key_inj in E as [<- <-]; [|done..]. exists c. split; [set_solver|].
  split; [done|]. split; [done|]. by exists data.
Qed.

(** C39 The cache never hands out the container of another process: after any
    calls, an ID that is returned was read from the cgroup of a process with the
    same PID and the same start time, in this call or in an earlier one. *)
Theorem container_id_cached calls c id :
  Forall (λ c, in_u 32 (pc_pid c)) (calls ++ [c]) →
  (lookup_pid (cache_after calls) c).1 = CidFound id →
  ∃ t c', getProcessStartTimeTicks (pc_stat c) = Some t ∧ c' ∈ calls ++ [c] ∧
    read_container c' (pc_pid c) t id.
Proof.
  intros [Hin [Hc _]%Forall_cons]%Forall_app. unfold lookup_pid, containerIDForPID.
  destruct (getProcessStartTimeTicks (pc_stat c)) as [t|] eqn:Et; [|done].
  destruct (cache_after calls !! pid_key_of (pc_pid c) t) as [id'|] eqn:El.
  - intros [= ->]. apply cache_after_reads in El as (c' & Hc' & Hr); [|done..].
    exists t, c'. split; [done|]. split; [set_solver|done].
  - destruct (pc_cgroup c) as [data|] eqn:Ec; [|done].
    destruct (first_container (lines_from [] data)) as [id'| |] eqn:Ef; [|done..]. intros [= ->].
    exists t, c. split; [done|]. split; [set_solver|]. split; [done|]. split; [done|]. by exists data.
Qed.

(** ** Witnesses *)

(** A process named "x) S 1 (": its start time is 777. *)
Lemma start_time_any_comm_witness :
  getProcessStartTimeTicks (Some (bytes "42" ++ bytes " (" ++ bytes "x) S 1 (" ++ CLOSE :: 32 ::
    join_fields (replicate 19 (bytes "0", 32) ++ [(bytes "777", 10)]))) = Some (bytes "777").
Proof.
  rewrite start_time_any_comm; [by vm_compute| |by vm_compute].
  apply (bool_decide_unpack _). by vm_compute.
Defined.

(** A second lookup of the process is answered from the cache. *)
Definition demo_stat (t : String.string) : option (list Z) :=
  Some (bytes "42 (sh) " ++ join_fields (replicate 19 (bytes "0", 32) ++ [(bytes t, 10)])).
Definition demo_cgroup (d : Z) : option (list Z) :=
  Some (bytes "0::/kubepods/cri-containerd-" ++ replicate 64 d ++ bytes ".scope").

Lemma container_id_cached_witness :
  let c1 := {| pc_pid := 42; pc_stat := demo_stat "100"; pc_cgroup := demo_cgroup 97 |} in
  let c2 := {| pc_pid := 42; pc_stat := demo_stat "100"; pc_cgroup := None |} in
  ∃ t c', getProcessStartTimeTicks (pc_stat c2) = Some t ∧ c' ∈ [c1; c2] ∧
    read_container c' 42 t (replicate 64 97).
Proof.
  intros c1 c2. apply (container_id_cached [c1] c2 (replicate 64 97)).
  - repeat constructor; unfold in_u; cbn; lia.
  - vm_compute. reflexivity.
Defined.
