(* ===== verification/Recorder.v ===== *)
(** * The state of the recorder in userspace ([bpfrecorder.go])

    [BpfRecorder] with the tables of keys and profiles, and the lookups its
    operations share.  [Collect] models the requests that collect a profile,
    [Sessions] the handlers of new processes and the end of a recording,
    [Maintenance] the periodic clean up. *)
From S2P Require Import Prelude Bpf Wire Paths AppArmor Profile Seccomp.
From S2P Require Import ContainerKeys ContainerProfiles.
Import String.StringSyntax.
#[local] Open Scope string_scope.
#[local] Open Scope list_scope.
#[local] Open Scope Z_scope.

(** ** Pods *)

(** The statuses of the init, regular and ephemeral containers: the name, and the
    container ID without its prefix, empty as long as it is not known. *)
Record Pod := { pod_statuses : list (str * str); pod_annotations : gmap str str }.

Definition ContainerIDs (pod : Pod) : list str := filter (λ id, id ≠ []) (pod_statuses pod).*2.

Definition ContainerName (pod : Pod) (id : str) : str :=
  match filter (λ s, s.2 = id) (pod_statuses pod) with (name, _) :: _ => name | [] => [] end.

Definition SeccompProfileRecordBpfAnnotationKey : str := bytes "io.containers.trace-bpf/".
Definition ApparmorProfileRecordBpfAnnotationKey : str := bytes "io.containers.trace-bpf-apparmor/".

(** ** The recorder *)

(** [b.Seccomp] with the cache of its names, [b.AppArmor] with whether it cannot
    record, the map of syscalls, the switch and the excluded keys of the kernel, the tables,
    and the caches of containers that are not recorded.  A time is the number of
    nanoseconds since some origin, [None] the zero value of [time.Time]. *)
Record BpfRecorder := MkBpfRecorder {
  startRequests : Z;
  rec_seccomp : option name_cache;
  rec_apparmor : option AppArmorRecorder;
  unavailable : bool;
  rec_syscalls : gmap Z (list Z);
  rec_keys : containerKeys;
  rec_profiles : containerProfiles;
  collectedProfiles : gset str;
  recordingGeneration : Z;
  keyLimitWarned : gset str;
  containersWithoutProfile : gset str;
  containersNotFound : gset str;
  rec_recording : bool;
  rec_excluded : gset Z;
  uniqueKeys : bool;
  cgroupKeys : bool;
  staleKeys : gmap Z Z;
  idleSince : option Z;
  lastStart : option Z
}.

(** ** Lookups *)

(** The loop of [cacheProfilesOfPod]: both annotations of every container. *)
Definition cache_annotation (pod : Pod) (id : str) (c : containerProfiles) (annotation : str) :
    containerProfiles :=
  match pod_annotations pod !! (annotation ++ ContainerName pod id) with
  | Some profile => if bool_decide (profile = []) then c else ContainerProfiles.Insert id profile c
  | None => c
  end.

Definition cacheProfilesOfPod (pod : Pod) (c : containerProfiles) : containerProfiles :=
  fold_left (λ c id, fold_left (cache_annotation pod id)
    [SeccompProfileRecordBpfAnnotationKey; ApparmorProfileRecordBpfAnnotationKey] c)
    (ContainerIDs pod) c.

Definition cacheProfilesOfUnresolvedContainers (pods : option (str → option Pod)) (b : BpfRecorder) : BpfRecorder :=
  match pods with
  | None => b
  | Some find_pod =>
      {| b with rec_profiles := fold_left (λ c id,
           match ContainerProfiles.Get id c with
           | Some _ => c
           | None => match find_pod id with Some pod => cacheProfilesOfPod pod c | None => c end
           end) (ContainerKeys.Containers (rec_keys b)) (rec_profiles b) |}
  end.

Definition getKeysForProfile (profile : str) (b : BpfRecorder) : list Z :=
  let containerIDs := ContainerProfiles.Containers profile (rec_profiles b) in
  if bool_decide (containerIDs = []) then [] else keysOf containerIDs (rec_keys b).

(** [b.profileOfKey] on one state. *)
Definition profileOfKey (key : Z) (b : BpfRecorder) : option str :=
  match ContainerKeys.Get key (rec_keys b) with
  | Some id => ContainerProfiles.Get id (rec_profiles b)
  | None => None
  end.
