(* ===== verification/LogEnricher.v ===== *)
(** * The log enricher ([enricher/enricher.go], [container.go], [syscall.go], [grpc.go])

    The enricher reads audit lines one by one, finds the container of their
    process, and records the syscalls and the SELinux denials of the containers
    that are recorded from the log.  The pod of a container may become known only
    after its first lines: they wait in a backlog per container, which is bounded.

    The loop of [Run] handles one line or one change of the pods at a time.  What
    /proc and the index of pods answer are arguments of the steps.  The caches
    forget entries after a while and hold a bounded number of them; an entry that
    is still there is what was set last.

    [log_recording_exact] shows that the recorded syscalls of a profile are exactly
    those of the lines of its containers: nothing is lost in the backlog, also not
    what a full one drops, as long as the container did not do more than
    [auditBacklogDistinctMax] different things before its pod was known. *)
From S2P Require Import Prelude Bpf Paths Dirs Profile Armor AuditLog Filters ContainerKeys ContainerProfiles Recorder ProcFs.
Import String.StringSyntax.
#[local] Open Scope string_scope.
#[local] Open Scope list_scope.
#[local] Open Scope Z_scope.

#[export] Instance audit_type_eq_dec : EqDecision audit_type.
Proof. solve_decision. Defined.
#[export] Instance auditLine_eq_dec : EqDecision auditLine.
Proof. solve_decision. Defined.

(** ** Syscalls ([syscall.go]) *)

Definition auditArches : list (text * text) := map (λ p, (bytes p.1, bytes p.2)) [
  ("40000003", "x86"); ("c000003e", "amd64"); ("40000028", "arm"); ("c00000b7", "arm64");
  ("80000015", "ppc64"); ("c0000015", "ppc64le"); ("16", "s390"); ("80000016", "s390x");
  ("c00000f3", "riscv64")].

Definition nativeAuditArches : list (text * text) := map (λ p, (bytes p.1, bytes p.2)) [
  ("386", "40000003"); ("amd64", "c000003e"); ("arm", "40000028"); ("arm64", "c00000b7");
  ("ppc64", "80000015"); ("ppc64le", "c0000015"); ("s390x", "80000016"); ("riscv64", "c00000f3")].

(** ** Containers ([container.go]) *)

Record ContainerInfo := MkContainerInfo {
  PodName : text;
  ci_name : text;
  Namespace : text;
  ContainerID : text;
  RecordProfile : text
}.

(** A pod with its name and namespace. *)
Record log_pod := LogPod { lp_name : text; lp_namespace : text; lp_pod : Pod }.

Definition SeccompProfileRecordLogsAnnotationKey : text := bytes "io.containers.trace-logs/".
Definition SelinuxProfileRecordLogsAnnotationKey : text := bytes "io.containers.trace-avcs/".

Definition containerInfoOf (pod : log_pod) (containerID : text) : ContainerInfo :=
  let containerName := ContainerName (lp_pod pod) containerID in
  let annotation key := pod_annotations (lp_pod pod) !! (key ++ containerName) in
  let recordProfile :=
    match annotation SeccompProfileRecordLogsAnnotationKey with
    | Some p => p
    | None => default [] (annotation SelinuxProfileRecordLogsAnnotationKey)
    end in
  MkContainerInfo (lp_name pod) containerName (lp_namespace pod) containerID recordProfile.

(** ** The enricher *)

(** [containerInfos.get], on its cache; the index of pods is [None] until the
    enricher runs. *)
Definition infos_get (pods : option (text → option log_pod)) (containerID : text)
    (cache : gmap text ContainerInfo) : option ContainerInfo * gmap text ContainerInfo :=
  match cache !! containerID with
  | Some info => (Some info, cache)
  | None =>
      match pods ≫= λ find_pod, find_pod containerID with
      | Some pod =>
          let info := containerInfoOf pod containerID in
          (Some info, <[containerID := info]> cache)
      | None => (None, cache)
      end
  end.

Record SelinuxAvc := MkAvc { avc_perm : text; avc_scontext : text; avc_tcontext : text; avc_tclass : text }.

Definition auditBacklogMax : nat := 1024.
Definition auditBacklogDistinctMax : nat := Z.to_nat (4 * 1024).

Record auditBacklog := Backlog {
  lines : list auditLine;
  seen : list auditLine;
  dropped : Z
}.

(** What the enricher keeps, and what it has logged. *)
Record Enricher := MkEnricher {
  containerIDCache : gmap text text;
  processContainers : gmap Z text;
  infoCache : gmap text ContainerInfo;
  en_syscalls : gmap text (gset text);
  en_avcs : gmap text (gset text);
  auditLineCache : gmap text auditBacklog;
  logged : list (auditLine * ContainerInfo)
}.

Definition new_enricher : Enricher := MkEnricher ∅ ∅ ∅ ∅ ∅ ∅ [].

Section enricher.
(** libseccomp, [protojson] and the architecture of the host. *)
Context (GetName : Z → option text) (GetNameByArch : text → Z → option text).
Context (Marshal : SelinuxAvc → text) (GOARCH : text) (filters : list EnricherFilterOptions).

Definition syscallName (id : Z) (arch : text) : option text :=
  match value_of auditArches arch with
  | Some scmpArch => GetNameByArch scmpArch id
  | None => GetName id
  end.

Definition isNativeArch (arch : text) : bool :=
  empty arch ||
  match value_of nativeAuditArches GOARCH with Some native => bool_decide (arch = native) | None => true end.

(** *** Dispatch *)

Definition type_name (t : audit_type) : text :=
  match t with
  | AuditTypeSeccomp => bytes "seccomp" | AuditTypeSelinux => bytes "selinux" | AuditTypeApparmor => bytes "apparmor"
  end.

Definition common_kv (nodeName : text) (line : auditLine) (info : ContainerInfo) : log_map :=
  [(bytes "timestamp", LString (TimestampID line)); (bytes "type", LString (type_name (AuditType line)));
   (bytes "node", LString nodeName); (bytes "namespace", LString (Namespace info));
   (bytes "pod", LString (PodName info)); (bytes "container", LString (ci_name info))].

(** Logs the line, with the level the filters give it. *)
Definition log_audit (kv : log_map) (line : auditLine) (info : ContainerInfo) (e : Enricher) : Enricher :=
  if bool_decide (logLevelFor filters kv = EnricherLogLevelNone) then e
  else {| e with logged := logged e ++ [(line, info)] |}.

(** [GetOrSetFunc] of a profile and [Insert] into its set. *)
Definition set_insert (m : gmap text (gset text)) (profile item : text) : gmap text (gset text) :=
  <[profile := {[item]} ∪ default ∅ (m !! profile)]> m.

(** [strings.SplitSeq(s, " ")]. *)
Fixpoint split_space (s : text) : list text :=
  match s with
  | [] => [[]]
  | c :: s =>
      if c =? SPACE then [] :: split_space s
      else match split_space s with w :: ws => (c :: w) :: ws | [] => [[c]] end
  end.

Definition dispatchSelinuxLine (nodeName : text) (line : auditLine) (info : ContainerInfo) (e : Enricher) : Enricher :=
  let kv := common_kv nodeName line info ++
    [(bytes "profile", LString (RecordProfile info)); (bytes "perm", LString (Perm line));
     (bytes "scontext", LString (Scontext line)); (bytes "tcontext", LString (Tcontext line));
     (bytes "tclass", LString (Tclass line))] in
  let e := log_audit kv line info e in
  if empty (RecordProfile info) then e
  else {| e with en_avcs := fold_left (λ m perm,
         set_insert m (RecordProfile info) (Marshal (MkAvc perm (Scontext line) (Tcontext line) (Tclass line))))
         (split_space (Perm line)) (en_avcs e) |}.

Definition dispatchSeccompLine (nodeName : text) (line : auditLine) (info : ContainerInfo) (e : Enricher) : Enricher :=
  match syscallName (SystemCallID line) (Arch line) with
  | None => e
  | Some name =>
      let kv := common_kv nodeName line info ++
        [(bytes "executable", LString (l_executable line)); (bytes "pid", LInt 64 (ProcessID line));
         (bytes "syscallID", LInt 32 (SystemCallID line)); (bytes "syscallName", LString name)] ++
        (if empty (Arch line) then [] else [(bytes "arch", LString (Arch line))]) in
      let e := log_audit kv line info e in
      if negb (empty (RecordProfile info)) && negb (isNativeArch (Arch line)) then e
      else if empty (RecordProfile info) then e
      else {| e with en_syscalls := set_insert (en_syscalls e) (RecordProfile info) name |}
  end.

Definition dispatchApparmorLine (nodeName : text) (line : auditLine) (info : ContainerInfo) (e : Enricher) : Enricher :=
  let kv := common_kv nodeName line info ++
    [(bytes "executable", LString (l_executable line)); (bytes "pid", LInt 64 (ProcessID line));
     (bytes "apparmor", LString (l_apparmor line)); (bytes "operation", LString (Operation line));
     (bytes "profile", LString (l_profile line)); (bytes "name", LString (l_name line))] ++
    (if empty (ExtraInfo line) then [] else [(bytes "extra_info", LString (ExtraInfo line))]) in
  log_audit kv line info e.

Definition dispatchAuditLine (nodeName : text) (line : auditLine) (info : ContainerInfo) (e : Enricher) : Enricher :=
  match AuditType line with
  | AuditTypeSelinux => dispatchSelinuxLine nodeName line info e
  | AuditTypeSeccomp => dispatchSeccompLine nodeName line info e
  | AuditTypeApparmor => dispatchApparmorLine nodeName line info e
  end.

(** *** The backlog *)

(** The line without its timestamp and process. *)
Definition line_key (line : auditLine) : auditLine :=
  {| line with TimestampID := []; ProcessID := 0; Uid := None; Gid := None |}.

Definition backlog_add (b : auditBacklog) (line : auditLine) : bool * auditBacklog :=
  let key := line_key line in
  if (auditBacklogMax <=? length (lines b))%nat &&
     (bool_decide (key ∈ seen b) || (auditBacklogDistinctMax <=? length (lines b))%nat)
  then (false, {| b with dropped := u64 (dropped b + 1) |})
  else (true, Backlog (lines b ++ [line]) (key :: seen b) (dropped b)).

(** The backlog of a container is shared with the cache, so what [add] counts is
    kept also if it is not set again. *)
Definition addToBacklog (containerID : text) (line : auditLine) (e : Enricher) : Enricher :=
  let backlog := default (Backlog [] [] 0) (auditLineCache e !! containerID) in
  {| e with auditLineCache := <[containerID := (backlog_add backlog line).2]> (auditLineCache e) |}.

Definition dispatchBacklog (nodeName : text) (info : ContainerInfo) (e : Enricher) : Enricher :=
  match auditLineCache e !! ContainerID info with
  | None => e
  | Some backlog =>
      fold_left (λ e line, dispatchAuditLine nodeName line info e) (lines backlog)
        {| e with auditLineCache := delete (ContainerID info) (auditLineCache e) |}
  end.

(** *** Containers *)

Definition info_get (pods : option (text → option log_pod)) (containerID : text) (e : Enricher) :
    option ContainerInfo * Enricher :=
  let '(info, cache) := infos_get pods containerID (infoCache e) in
  (info, {| e with infoCache := cache |}).

(** What /proc tells of the process of a line: its stat file, its cgroups, and
    whether the process is gone if one of them cannot be read. *)
Record proc_answers := ProcAnswers { pa_stat : option text; pa_cgroup : option text; pa_gone : bool }.

Definition containerIDForProcess (pid : Z) (a : proc_answers) (e : Enricher) : option text * Enricher :=
  let '(r, cache) := containerIDForPID (containerIDCache e) pid (pa_stat a) (pa_cgroup a) in
  let e := {| e with containerIDCache := cache |} in
  match r with
  | CidFound cID => (Some cID, {| e with processContainers := <[pid := cID]> (processContainers e) |})
  | CidError => (if pa_gone a then processContainers e !! pid else None, e)
  | CidNotFound => (None, {| e with processContainers := delete pid (processContainers e) |})
  end.

(** *** The loop of [Run] *)

Definition processAuditLine (nodeName : text) (pods : option (text → option log_pod)) (a : proc_answers)
    (line : auditLine) (e : Enricher) : Enricher :=
  let '(found, e) := containerIDForProcess (ProcessID line) a e in
  match found with
  | None => e
  | Some cID =>
      let '(info, e) := info_get pods cID e in
      match info with
      | None => addToBacklog cID line e
      | Some info => dispatchAuditLine nodeName line info (dispatchBacklog nodeName info e)
      end
  end.

Definition dispatch_listed (nodeName : text) (pods : option (text → option log_pod)) (e : Enricher)
    (containerID : text) : Enricher :=
  let '(info, e) := info_get pods containerID e in
  match info with Some info => dispatchBacklog nodeName info e | None => e end.

Definition dispatchListedBacklogs (nodeName : text) (pods : option (text → option log_pod)) (e : Enricher) : Enricher :=
  fold_left (dispatch_listed nodeName pods) (elements (dom (auditLineCache e))) e.

(** *** Requests ([grpc.go]) *)

Definition Syscalls (profile : text) (e : Enricher) : option (list text) := elements <$> en_syscalls e !! profile.

Definition ResetSyscalls (profile : text) (e : Enricher) : Enricher :=
  {| e with en_syscalls := delete profile (en_syscalls e) |}.

Definition ResetAvcs (profile : text) (e : Enricher) : Enricher :=
  {| e with en_avcs := delete profile (en_avcs e) |}.

(** ** What is recorded *)

(** The pods of the node, whether the index has them already or not. *)
Context (pod_of : text → option log_pod) (nodeName : text).

(** A round of the loop: a line with what /proc and the index answer, a change of
    the pods, and entries that expire from the caches of what can be looked up
    again. *)
Inductive event :=
  | EvLine (pods : option (text → option log_pod)) (a : proc_answers) (line : auditLine)
  | EvChanged (pods : option (text → option log_pod))
  | EvExpire (ids : gmap text text) (pids : gmap Z text) (infos : gmap text ContainerInfo).

(** The index may not have a pod yet, but does not tell another one. *)
Definition index_ok (pods : option (text → option log_pod)) : Prop :=
  ∀ find_pod id pod, pods = Some find_pod → find_pod id = Some pod → pod_of id = Some pod.

Definition event_ok (e : Enricher) (ev : event) : Prop :=
  match ev with
  | EvLine pods _ _ | EvChanged pods => index_ok pods
  | EvExpire ids pids infos => ids ⊆ containerIDCache e ∧ pids ⊆ processContainers e ∧ infos ⊆ infoCache e
  end.

Definition handle (e : Enricher) (ev : event) : Enricher :=
  match ev with
  | EvLine pods a line => processAuditLine nodeName pods a line e
  | EvChanged pods => dispatchListedBacklogs nodeName pods e
  | EvExpire ids pids infos =>
      {| e with containerIDCache := ids; processContainers := pids; infoCache := infos |}
  end.

(** The lines so far, with the container their process was found in. *)
Definition hears (e : Enricher) (ev : event) : list (text * auditLine) :=
  match ev with
  | EvLine _ a line =>
      match (containerIDForProcess (ProcessID line) a e).1 with Some cID => [(cID, line)] | None => [] end
  | _ => []
  end.

Inductive runs : Enricher → list (text * auditLine) → Prop :=
  | runs_start : runs new_enricher []
  | runs_step e heard ev : runs e heard → event_ok e ev → runs (handle e ev) (heard ++ hears e ev).

(** The profile a container is recorded for, and the syscall of a line that a
    profile can allow. *)
Definition info_of (c : text) : option ContainerInfo := (λ pod, containerInfoOf pod c) <$> pod_of c.
Definition profile_of (c : text) : text := match info_of c with Some info => RecordProfile info | None => [] end.

Definition syscall_of (line : auditLine) : option text :=
  match AuditType line with
  | AuditTypeSeccomp => if isNativeArch (Arch line) then syscallName (SystemCallID line) (Arch line) else None
  | _ => None
  end.

Definition recorded_for (e : Enricher) (p : text) : gset text := default ∅ (en_syscalls e !! p).

(** *** Dispatch *)

(** What dispatching a line changes: the recorded syscalls, by that of the line. *)
Definition adds (info : ContainerInfo) (line : auditLine) (p name : text) : Prop :=
  p ≠ [] ∧ p = RecordProfile info ∧ syscall_of line = Some name.

Lemma set_insert_spec m profile item p name :
  name ∈ default ∅ (set_insert m profile item !! p) ↔
  name ∈ default ∅ (m !! p) ∨ p = profile ∧ name = item.
Proof.
  unfold set_insert. destruct (decide (p = profile)) as [->|Hp].
  - rewrite lookup_insert_eq. cbn. rewrite elem_of_union, elem_of_singleton. naive_solver.
  - rewrite lookup_insert_ne by done. naive_solver.
Qed.

Definition caches (e : Enricher) := (containerIDCache e, processContainers e, infoCache e, auditLineCache e).

Lemma log_audit_same kv line info e :
  caches (log_audit kv line info e) = caches e ∧ en_syscalls (log_audit kv line info e) = en_syscalls e.
Proof. unfold log_audit. by case_bool_decide. Qed.

Lemma dispatch_line_spec line info e :
  let e' := dispatchAuditLine nodeName line info e in
  caches e' = caches e ∧
  ∀ p name, name ∈ recorded_for e' p ↔ name ∈ recorded_for e p ∨ adds info line p name.
Proof.
  cbv zeta. unfold dispatchAuditLine, adds, syscall_of, recorded_for. destruct (AuditType line) eqn:Et.
  - unfold dispatchSeccompLine. destruct (syscallName _ _) as [nm|]; [|split; [done|]; repeat case_match; naive_solver].
    match goal with |- context [log_audit ?kv line info e] => destruct (log_audit_same kv line info e) as [Hc Hs] end.
    destruct (empty (RecordProfile info)) eqn:Ee; cbn [negb andb].
    + rewrite Hc, Hs. split; [done|]. destruct (RecordProfile info); [|done]. naive_solver.
    + destruct (isNativeArch (Arch line)); cbn [negb]; [|rewrite Hc, Hs; split; [done|naive_solver]].
      split; [exact Hc|]. intros p name. cbn [en_syscalls]. rewrite Hs, set_insert_spec.
      assert (RecordProfile info ≠ []) by by destruct (RecordProfile info). naive_solver.
  - unfold dispatchSelinuxLine.
    match goal with |- context [log_audit ?kv line info e] => destruct (log_audit_same kv line info e) as [Hc Hs] end.
    destruct (empty (RecordProfile info)); [rewrite Hc, Hs|split; [exact Hc|cbn [en_syscalls]; rewrite Hs]]; [split; [done|]|]; naive_solver.
  - unfold dispatchApparmorLine.
    match goal with |- context [log_audit ?kv line info e] => destruct (log_audit_same kv line info e) as [Hc Hs] end.
    rewrite Hc, Hs. split; [done|naive_solver].
Qed.

Lemma dispatch_lines_spec l info e :
  let e' := fold_left (λ e line, dispatchAuditLine nodeName line info e) l e in
  caches e' = caches e ∧
  ∀ p name, name ∈ recorded_for e' p ↔ name ∈ recorded_for e p ∨ ∃ line, line ∈ l ∧ adds info line p name.
Proof.
  revert e. induction l as [|line l IH]; intros e; cbn [fold_left].
  - split; [done|]. intros p name. split; [by left|]. intros [?|(? & ?%elem_of_nil & _)]; done.
  - destruct (IH (dispatchAuditLine nodeName line info e)) as [Hc Hr].
    destruct (dispatch_line_spec line info e) as [Hc' Hr']. cbv zeta in *. rewrite Hc, Hc'. split; [done|].
    intros p name. rewrite Hr, Hr'. setoid_rewrite elem_of_cons. naive_solver.
Qed.

Lemma dispatch_backlog_spec info e :
  let e' := dispatchBacklog nodeName info e in
  containerIDCache e' = containerIDCache e ∧ processContainers e' = processContainers e ∧
  infoCache e' = infoCache e ∧ auditLineCache e' = delete (ContainerID info) (auditLineCache e) ∧
  ∀ p name, name ∈ recorded_for e' p ↔ name ∈ recorded_for e p ∨
    ∃ b line, auditLineCache e !! ContainerID info = Some b ∧ line ∈ lines b ∧ adds info line p name.
Proof.
  cbv zeta. unfold dispatchBacklog. destruct (auditLineCache e !! ContainerID info) as [b|] eqn:E.
  - destruct (dispatch_lines_spec (lines b) info
      {| e with auditLineCache := delete (ContainerID info) (auditLineCache e) |}) as [Hc Hr].
    cbv zeta in *. injection Hc as H1 H2 H3 H4. rewrite H1, H2, H3, H4. do 4 (split; [done|]).
    intros p name. rewrite Hr. unfold recorded_for. cbn [en_syscalls]. naive_solver.
  - do 3 (split; [done|]). split; [by rewrite delete_id|]. intros p name. naive_solver.
Qed.

Lemma info_get_spec pods c e : index_ok pods → (∀ c' info, infoCache e !! c' = Some info → info_of c' = Some info) →
  let '(r, e') := info_get pods c e in
  (∀ info, r = Some info → info_of c = Some info) ∧
  (∀ c' info, infoCache e' !! c' = Some info → info_of c' = Some info) ∧
  en_syscalls e' = en_syscalls e ∧ auditLineCache e' = auditLineCache e.
Proof.
  intros Hp Hi. unfold info_get, infos_get. destruct (infoCache e !! c) as [info|] eqn:E.
  { split; [|done]. intros ? [= <-]. by apply Hi. }
  destruct pods as [find_pod|]; [|done]. cbn [mbind option_bind].
  destruct (find_pod c) as [pod|] eqn:Ef; [|done].
  assert (info_of c = Some (containerInfoOf pod c)) as Hc by (unfold info_of; by rewrite (Hp find_pod c pod)).
  split; [by intros ? [= <-]|]. split; [|done]. intros c' info. cbn [infoCache].
  destruct (decide (c' = c)) as [->|Hne]; [rewrite lookup_insert_eq; by intros [= <-]|].
  rewrite lookup_insert_ne by done. apply Hi.
Qed.

Lemma process_spec pid a e :
  let e' := (containerIDForProcess pid a e).2 in
  infoCache e' = infoCache e ∧ en_syscalls e' = en_syscalls e ∧ auditLineCache e' = auditLineCache e.
Proof.
  cbv zeta. unfold containerIDForProcess. destruct (containerIDForPID _ _ _ _) as [[] cache]; done.
Qed.

(** *** The invariant *)

(** A container that did too many different things. *)
Definition many (heard : list (text * auditLine)) (c : text) : Prop :=
  ∃ ks, NoDup ks ∧ (auditBacklogDistinctMax - auditBacklogMax < length ks)%nat ∧
    ∀ k, k ∈ ks → ∃ line, (c, line) ∈ heard ∧ line_key line = k.

(** The syscall of a line is recorded. *)
Definition told (e : Enricher) (c : text) (line : auditLine) : Prop :=
  ∀ name, profile_of c ≠ [] → syscall_of line = Some name → name ∈ recorded_for e (profile_of c).

Record backlog_ok (heard : list (text * auditLine)) (c : text) (b : auditBacklog) : Prop := {
  bo_heard : ∀ line, line ∈ lines b → (c, line) ∈ heard;
  bo_seen : ∀ k, k ∈ seen b ↔ ∃ line, line ∈ lines b ∧ line_key line = k;
  bo_distinct : NoDup (map line_key (drop auditBacklogMax (lines b)));
  bo_bound : (length (lines b) <= auditBacklogDistinctMax)%nat
}.

Record enricher_ok (e : Enricher) (heard : list (text * auditLine)) : Prop := {
  eo_info : ∀ c info, infoCache e !! c = Some info → info_of c = Some info;
  eo_backlog : ∀ c b, auditLineCache e !! c = Some b → backlog_ok heard c b;
  eo_sound : ∀ p name, name ∈ recorded_for e p →
    ∃ c line, (c, line) ∈ heard ∧ profile_of c = p ∧ syscall_of line = Some name;
  eo_complete : ∀ c line, (c, line) ∈ heard →
    told e c line ∨ (∃ b, auditLineCache e !! c = Some b ∧ line_key line ∈ seen b) ∨ many heard c
}.

Lemma key_syscall l1 l2 : line_key l1 = line_key l2 → syscall_of l1 = syscall_of l2.
Proof.
  destruct l1, l2. unfold line_key, syscall_of. cbn. by intros [= -> -> -> -> _ _ _ _ _ _ _ _ _].
Qed.

Lemma many_mono heard heard' c : many heard c → many (heard ++ heard') c.
Proof.
  intros (ks & Hn & Hl & Hk). exists ks. split; [done|]. split; [done|]. intros k (line & Hin & He)%Hk.
  exists line. split; [|done]. apply elem_of_app. by left.
Qed.

Lemma backlog_mono heard heard' c b : backlog_ok heard c b → backlog_ok (heard ++ heard') c b.
Proof.
  intros [H1 H2 H3 H4]. split; try done. intros line Hl. apply elem_of_app. left. by apply H1.
Qed.

(** A full backlog that does not have the line. *)
Lemma backlog_full heard c b line : backlog_ok heard c b → (c, line) ∈ heard →
  (backlog_add b line).1 = false → line_key line ∉ seen b → many heard c.
Proof.
  intros [Hh Hs Hd Hb] Hin Ha Hn. unfold backlog_add in Ha. rewrite bool_decide_eq_false_2 in Ha by done.
  destruct (auditBacklogMax <=? _)%nat eqn:E1; [|done]. cbn [andb orb] in Ha.
  destruct (auditBacklogDistinctMax <=? _)%nat eqn:E2; [|done]. apply Nat.leb_le in E1, E2.
  exists (line_key line :: map line_key (drop auditBacklogMax (lines b))). split; [|split].
  - constructor; [|done]. intros (l & Heq & Hl)%list_elem_of_fmap. apply Hn, Hs. exists l. split; [|done].
    rewrite <-(take_drop auditBacklogMax (lines b)). apply elem_of_app. by right.
  - cbn [length]. rewrite length_map, length_drop. lia.
  - intros k [->|(l & -> & Hl)%list_elem_of_fmap]%elem_of_cons; [by exists line|].
    exists l. split; [|done]. apply Hh. rewrite <-(take_drop auditBacklogMax (lines b)). apply elem_of_app. by right.
Qed.

Lemma backlog_add_ok heard c b line : backlog_ok heard c b → (c, line) ∈ heard →
  backlog_ok heard c (backlog_add b line).2 ∧ (∀ k, k ∈ seen b → k ∈ seen (backlog_add b line).2) ∧
  (line_key line ∈ seen (backlog_add b line).2 ∨ many heard c).
Proof.
  intros Hb Hin. destruct ((backlog_add b line).1) eqn:Ea.
  - destruct Hb as [Hh Hs Hd Hl]. unfold backlog_add in *.
    destruct (_ && _) eqn:E; [done|]. cbn [snd]. split; [|split].
    + split; cbn [lines seen].
      * intros l [Hl'|Hl'%list_elem_of_singleton]%elem_of_app; [by apply Hh|by subst].
      * intros k. rewrite elem_of_cons, Hs. setoid_rewrite elem_of_app. setoid_rewrite list_elem_of_singleton.
        naive_solver.
      * destruct (auditBacklogMax <=? length (lines b))%nat eqn:E1; [|apply Nat.leb_gt in E1].
        -- cbn [andb] in E. apply orb_false_iff in E as [En _]. apply bool_decide_eq_false in En.
           apply Nat.leb_le in E1. rewrite drop_app_le, map_app by done. apply NoDup_app. split; [done|].
           split; [|apply NoDup_singleton]. intros k (l & -> & Hl')%list_elem_of_fmap Hk%list_elem_of_singleton.
           apply En, Hs. exists l. split; [|done]. rewrite <-(take_drop auditBacklogMax (lines b)).
           apply elem_of_app. by right.
        -- rewrite drop_ge; [apply NoDup_nil_2|]. rewrite length_app. cbn. lia.
      * rewrite length_app. cbn. destruct (auditBacklogDistinctMax <=? length (lines b))%nat eqn:E2; [|apply Nat.leb_gt in E2; lia].
        rewrite orb_true_r, andb_true_r in E. apply Nat.leb_gt in E. unfold auditBacklogDistinctMax, auditBacklogMax in *. lia.
    + intros k Hk. by right.
    + left. by left.
  - assert ((backlog_add b line).2 = {| b with dropped := u64 (dropped b + 1) |}) as ->.
    { unfold backlog_add in *. by destruct (_ && _). }
    split; [by destruct Hb|]. split; [done|]. cbn [seen].
    destruct (decide (line_key line ∈ seen b)) as [?|Hn]; [by left|right]. by eapply backlog_full.
Qed.

(** *** Steps *)

Lemma told_adds e e' info c line : info_of c = Some info →
  (∀ p name, name ∈ recorded_for e' p ↔ name ∈ recorded_for e p ∨ adds info line p name) → told e' c line.
Proof.
  intros Hi Hr name Hp Hs. apply Hr. right. unfold profile_of in *. rewrite Hi in *. by split.
Qed.

Lemma told_mono e e' c line : (∀ p name, name ∈ recorded_for e p → name ∈ recorded_for e' p) →
  told e c line → told e' c line.
Proof. intros Hr Ht name Hp Hs. by apply Hr, Ht. Qed.

(** Dispatching the backlog of a container whose pod is known. *)
Lemma dispatch_backlog_ok e heard c info : enricher_ok e heard → info_of c = Some info →
  let e' := dispatchBacklog nodeName info e in
  enricher_ok e' heard ∧ auditLineCache e' = delete c (auditLineCache e) ∧
  (∀ p name, name ∈ recorded_for e p → name ∈ recorded_for e' p).
Proof.
  intros [Hi Hb Hs Hc] Hinfo e'.
  assert (ContainerID info = c) as Hid.
  { unfold info_of in Hinfo. destruct (pod_of c); [|done]. by injection Hinfo as <-. }
  assert (profile_of c = RecordProfile info) as Hp by (unfold profile_of; by rewrite Hinfo).
  destruct (dispatch_backlog_spec info e) as (_ & _ & H3 & H4 & Hr). fold e' in H3, H4, Hr. rewrite Hid in *.
  assert (∀ p name, name ∈ recorded_for e p → name ∈ recorded_for e' p) as Hmono by (intros; apply Hr; by left).
  split; [|done]. split.
  - by rewrite H3.
  - intros c' b Hc'. rewrite H4 in Hc'. apply lookup_delete_Some in Hc' as [_ Hc']. by apply Hb.
  - intros p name [Hn|(b & line & Hl & Hin & Hpn & -> & Hsys)]%Hr; [by apply Hs|].
    exists c, line. split; [|done]. by apply (bo_heard _ _ _ (Hb c b Hl)).
  - intros c' line Hin. destruct (Hc c' line Hin) as [Ht|[(b & Hl & Hk)|Hm]].
    + left. by eapply told_mono.
    + destruct (decide (c' = c)) as [->|Hne].
      * left. intros name Hpn Hsys. apply (bo_seen _ _ _ (Hb c b Hl)) in Hk as (l & Hlin & Hkey).
        apply Hr. right. exists b, l. split; [done|]. split; [done|]. split; [done|]. split; [done|].
        rewrite <-Hsys. by apply key_syscall.
      * right; left. exists b. rewrite H4, lookup_delete_ne by done. done.
    + by right; right.
Qed.

Lemma info_get_ok pods c e heard : index_ok pods → enricher_ok e heard →
  let '(r, e') := info_get pods c e in
  enricher_ok e' heard ∧ (∀ info, r = Some info → info_of c = Some info) ∧
  auditLineCache e' = auditLineCache e ∧ (∀ p, recorded_for e' p = recorded_for e p).
Proof.
  intros Hp [Hi Hb Hs Hc]. pose proof (info_get_spec pods c e Hp Hi) as H.
  destruct (info_get pods c e) as [r e']. destruct H as (H1 & H2 & H3 & H4).
  assert (∀ p, recorded_for e' p = recorded_for e p) as Hr by (intros p; unfold recorded_for; by rewrite H3).
  split; [|done]. split; [done| | |].
  - by rewrite H4.
  - intros p name. rewrite Hr. apply Hs.
  - intros c' line Hin. rewrite H4. destruct (Hc c' line Hin) as [Ht|Ht]; [left|by right].
    eapply told_mono; [|exact Ht]. intros. by rewrite Hr.
Qed.

Lemma add_line_ok e heard c line : enricher_ok e heard →
  enricher_ok (addToBacklog c line e) (heard ++ [(c, line)]).
Proof.
  intros [Hi Hb Hs Hc]. set (b := default (Backlog [] [] 0) (auditLineCache e !! c)).
  assert (backlog_ok (heard ++ [(c, line)]) c b) as Hok.
  { unfold b. destruct (auditLineCache e !! c) as [b'|] eqn:E; cbn; [by apply backlog_mono, Hb|].
    split; cbn [lines seen]; [by intros ? ?%elem_of_nil| |rewrite drop_nil; apply NoDup_nil_2|apply Nat.le_0_l].
    intros k. rewrite elem_of_nil. split; [done|]. by intros (? & ?%elem_of_nil & _). }
  assert ((c, line) ∈ heard ++ [(c, line)]) as Hin by (apply elem_of_app; right; by left).
  destruct (backlog_add_ok _ c b line Hok Hin) as (Hok' & Hseen & Hnew).
  split; cbn [infoCache auditLineCache addToBacklog].
  - exact Hi.
  - intros c' b' Hl. unfold addToBacklog in Hl. cbn [auditLineCache] in Hl. fold b in Hl.
    destruct (decide (c' = c)) as [->|Hne].
    + rewrite lookup_insert_eq in Hl. by injection Hl as <-.
    + rewrite lookup_insert_ne in Hl by done. by apply backlog_mono, Hb.
  - intros p name Hn. destruct (Hs p name Hn) as (c' & l & Hl & Hx). exists c', l. split; [|done].
    apply elem_of_app. by left.
  - unfold addToBacklog. cbn [auditLineCache]. fold b. intros c' l [Hl|Hl%list_elem_of_singleton]%elem_of_app.
    + destruct (Hc c' l Hl) as [?|[(b' & Hb' & Hk)|?]]; [by left| |right; right; by apply many_mono].
      right; left. destruct (decide (c' = c)) as [->|Hne].
      * exists (backlog_add b line).2. rewrite lookup_insert_eq. split; [done|]. apply Hseen. unfold b. by rewrite Hb'.
      * exists b'. by rewrite lookup_insert_ne.
    + injection Hl as -> ->. destruct Hnew as [?|?]; [|by right; right].
      right; left. exists (backlog_add b line).2. by rewrite lookup_insert_eq.
Qed.

Lemma dispatch_line_ok e heard c info line : enricher_ok e heard → info_of c = Some info →
  enricher_ok (dispatchAuditLine nodeName line info e) (heard ++ [(c, line)]).
Proof.
  intros [Hi Hb Hs Hc] Hinfo. destruct (dispatch_line_spec line info e) as [Hca Hr]. cbv zeta in Hca, Hr.
  injection Hca as _ _ H3 H4.
  assert (profile_of c = RecordProfile info) as Hp by (unfold profile_of; by rewrite Hinfo).
  split.
  - by rewrite H3.
  - rewrite H4. intros c' b Hl. by apply backlog_mono, Hb.
  - intros p name [Hn|(Hpn & -> & Hsys)]%Hr.
    + destruct (Hs p name Hn) as (c' & l & Hl & Hx). exists c', l. split; [|done]. apply elem_of_app. by left.
    + exists c, line. split; [|done]. apply elem_of_app. right. by left.
  - rewrite H4. intros c' l [Hl|Hl%list_elem_of_singleton]%elem_of_app.
    + destruct (Hc c' l Hl) as [Ht|[?|?]]; [left|by right; left|right; right; by apply many_mono].
      eapply told_mono; [|exact Ht]. intros. apply Hr. by left.
    + injection Hl as -> ->. left. by eapply told_adds.
Qed.

(** The caches of what can be looked up again may change. *)
Lemma same_recording e e' heard :
  infoCache e' ⊆ infoCache e → en_syscalls e' = en_syscalls e → auditLineCache e' = auditLineCache e →
  enricher_ok e heard → enricher_ok e' heard.
Proof.
  intros Hi Hs Hb [H1 H2 H3 H4].
  assert (∀ p, recorded_for e' p = recorded_for e p) as Hr by (intros p; unfold recorded_for; by rewrite Hs).
  split.
  - intros c info Hc. apply H1. by apply (lookup_weaken _ _ _ _ Hc).
  - by rewrite Hb.
  - intros p name. rewrite Hr. apply H3.
  - intros c line Hin. rewrite Hb. destruct (H4 c line Hin) as [Ht|?]; [left|by right].
    eapply told_mono; [|exact Ht]. intros. by rewrite Hr.
Qed.

Lemma line_ok e heard pods a line : index_ok pods → enricher_ok e heard →
  enricher_ok (processAuditLine nodeName pods a line e) (heard ++ hears e (EvLine pods a line)).
Proof.
  intros Hp Hok. unfold processAuditLine, hears.
  destruct (process_spec (ProcessID line) a e) as (P1 & P2 & P3). cbv zeta in *.
  destruct (containerIDForProcess (ProcessID line) a e) as [found e1]. cbn [fst snd] in *.
  assert (enricher_ok e1 heard) as Hok1 by (apply (same_recording e); [by rewrite P1|done..]).
  destruct found as [c|]; [|by rewrite app_nil_r].
  pose proof (info_get_ok pods c e1 heard Hp Hok1) as Hg. destruct (info_get pods c e1) as [[info|] e2].
  - destruct Hg as (Hok2 & Hinfo & _). specialize (Hinfo info eq_refl).
    apply dispatch_line_ok; [|done]. by apply (dispatch_backlog_ok e2 heard c info Hok2 Hinfo).
  - destruct Hg as [Hok2 _]. by apply add_line_ok.
Qed.

Lemma listed_ok pods heard e c : index_ok pods → enricher_ok e heard →
  let e' := dispatch_listed nodeName pods e c in
  enricher_ok e' heard ∧ auditLineCache e' ⊆ auditLineCache e ∧
  (∀ p name, name ∈ recorded_for e p → name ∈ recorded_for e' p) ∧
  (is_Some (pods ≫= λ find_pod, find_pod c) → auditLineCache e' !! c = None).
Proof.
  intros Hp Hok. cbv zeta. unfold dispatch_listed. pose proof (info_get_ok pods c e heard Hp Hok) as Hg.
  destruct (info_get pods c e) as [r e1] eqn:E. destruct Hg as (Hok1 & Hinfo & Hb & Hr).
  destruct r as [info|].
  - specialize (Hinfo info eq_refl). destruct (dispatch_backlog_ok e1 heard c info Hok1 Hinfo) as (H1 & H2 & H3).
    cbv zeta in *. split; [done|]. rewrite H2, Hb. split; [apply delete_subseteq|]. split.
    + intros p name Hn. apply H3. by rewrite Hr.
    + intros _. apply lookup_delete_eq.
  - split; [done|]. rewrite Hb. split; [done|]. split; [intros; by rewrite Hr|].
    intros [pod Hpod]. unfold info_get, infos_get in E. destruct (infoCache e !! c); [done|]. by rewrite Hpod in E.
Qed.

Lemma listed_all_ok pods heard l e : index_ok pods → enricher_ok e heard →
  let e' := fold_left (dispatch_listed nodeName pods) l e in
  enricher_ok e' heard ∧ auditLineCache e' ⊆ auditLineCache e ∧
  (∀ c, c ∈ l → is_Some (pods ≫= λ find_pod, find_pod c) → auditLineCache e' !! c = None).
Proof.
  intros Hp. revert e. induction l as [|c l IH]; intros e Hok; cbn [fold_left].
  - split; [done|]. split; [done|]. by intros ? ?%elem_of_nil.
  - destruct (listed_ok pods heard e c Hp Hok) as (H1 & H2 & _ & H3). cbv zeta in *.
    destruct (IH _ H1) as (J1 & J2 & J3). split; [done|]. split; [by etrans|].
    intros c' [->|Hc]%elem_of_cons Hpod; [|by apply J3]. eapply lookup_weaken_None; [|exact J2]. by apply H3.
Qed.

Lemma runs_ok e heard : runs e heard → enricher_ok e heard.
Proof.
  induction 1 as [|e heard ev _ IH Hev].
  - split; [done|done| |by intros ? ? ?%elem_of_nil]. intros p name. unfold recorded_for. cbn. rewrite lookup_empty. set_solver.
  - destruct ev as [pods a line|pods|ids pids infos]; cbn [handle hears event_ok] in *.
    + by apply line_ok.
    + rewrite app_nil_r. by apply (listed_all_ok pods heard).
    + rewrite app_nil_r. destruct Hev as (_ & _ & Hi). by apply (same_recording e).
Qed.

(** Once the pods are listed, no line of a recorded container waits. *)
Lemma listed_all e heard : enricher_ok e heard →
  let e' := dispatchListedBacklogs nodeName (Some pod_of) e in
  enricher_ok e' heard ∧
  ∀ c line, (c, line) ∈ heard → told e' c line ∨ many heard c.
Proof.
  intros Hr. cbv zeta. assert (index_ok (Some pod_of)) as Hidx by by intros ? ? ? [= <-].
  destruct (listed_all_ok (Some pod_of) heard (elements (dom (auditLineCache e))) e Hidx Hr) as (Hok & Hsub & Hgone).
  fold (dispatchListedBacklogs nodeName (Some pod_of) e) in Hok, Hsub, Hgone.
  split; [done|]. intros c line Hin.
  destruct (eo_complete _ _ Hok c line Hin) as [Ht|[(b & Hb & _)|Hmany]]; [by left|left|by right].
  intros name Hp Hsys. exfalso. rewrite Hgone in Hb; [done| |].
  - apply elem_of_elements, elem_of_dom. exists b. by apply (lookup_weaken _ _ _ _ Hb).
  - cbn. unfold profile_of, info_of in Hp. by destruct (pod_of c).
Qed.

(** C24 The recording of the log is exact: after any lines, changes of the pods and
    expiries, once the pods of the containers are listed, the syscalls recorded for
    a profile are exactly those of the lines whose process was found in a container
    of the profile, which are native and have a name.  Lines that came before the
    pod was known are not lost, although the backlog of a container is bounded,
    unless the container did too many different things meanwhile. *)
Theorem log_recording_exact e heard p name :
  runs e heard → p ≠ [] → (∀ c, profile_of c = p → ¬ many heard c) →
  let e' := dispatchListedBacklogs nodeName (Some pod_of) e in
  name ∈ recorded_for e' p ↔
  ∃ c line, (c, line) ∈ heard ∧ profile_of c = p ∧ syscall_of line = Some name.
Proof.
  intros Hr Hp Hm. cbv zeta. apply runs_ok in Hr.
  destruct (listed_all e heard Hr) as [Hok Ht]. split; [apply (eo_sound _ _ Hok)|].
  intros (c & line & Hin & Hpc & Hsys). subst p.
  destruct (Ht c line Hin) as [H|H]; [by apply H|]. by destruct (Hm c eq_refl).
Qed.

(** C25 A syscall that is logged gets recorded: for a seccomp record in the audit log,
    whatever names its process chose, whose process is found in a container of a
    recorded pod, the name of the syscall is recorded for the profile once the pod
    is listed, if the architecture is the one of the host and the name is known,
    unless the container did too many different things before. *)
Theorem logged_syscall_recorded e heard pods a c name parts auid uid gid ses pid comm exe sig arch nr rest :
  runs e heard → index_ok pods → parts_ok parts → ll_type parts ∈ seccompTypes →
  0 <= uid < 2 ^ 32 → 0 <= gid < 2 ^ 32 → 0 < pid < 2 ^ 31 → - 2 ^ 31 <= nr < 2 ^ 31 →
  is_bytes comm → is_bytes exe → bare_ok arch → Forall field_ok rest →
  (containerIDForProcess pid a e).1 = Some c → profile_of c ≠ [] →
  isNativeArch arch = true → syscallName nr arch = Some name →
  ∃ line, ExtractAuditLine (log_line parts (seccomp_record auid uid gid ses pid comm exe sig arch nr rest)) = Some line ∧
    (many (heard ++ [(c, line)]) c ∨
     name ∈ recorded_for (dispatchListedBacklogs nodeName (Some pod_of) (processAuditLine nodeName pods a line e))
       (profile_of c)).
Proof.
  intros Hr Hidx Hp Hty Hu Hg Hpid Hnr Hc He Ha Hrest Hfound Hprof Hnat Hname.
  eexists. split; [by apply seccomp_line_roundtrip|].
  match goal with |- many (heard ++ [(c, ?l)]) c ∨ _ => set (line := l) end.
  pose proof (runs_step e heard (EvLine pods a line) Hr Hidx) as Hr'. cbn [handle hears] in Hr'.
  change (ProcessID line) with pid in Hr'. rewrite Hfound in Hr'. apply runs_ok in Hr'.
  destruct (listed_all _ _ Hr') as [_ Ht].
  destruct (Ht c line) as [H|?]; [apply elem_of_app; right; by left|right; apply H; [done|]|by left].
  unfold syscall_of. change (AuditType line) with AuditTypeSeccomp. change (Arch line) with arch.
  change (SystemCallID line) with nr. by rewrite Hnat.
Qed.

(** The backlog of every container is bounded, and keeps one line of everything
    that differs as long as it has room. *)
Theorem backlog_bounded e heard c b :
  runs e heard → auditLineCache e !! c = Some b → (length (lines b) <= auditBacklogDistinctMax)%nat.
Proof. intros Hr%runs_ok Hb. apply (bo_bound _ _ _ (eo_backlog _ _ Hr c b Hb)). Qed.
End enricher.

(** A container that did only few things cannot have done too many. *)
Lemma few_lines heard c :
  (length heard <= auditBacklogDistinctMax - auditBacklogMax)%nat → ¬ many heard c.
Proof.
  intros Hl (ks & Hn & Hk & Hin).
  assert (length ks <= length (map (λ h : text * auditLine, line_key h.2) heard))%nat as Hle.
  { apply NoDup_incl_length; [by apply NoDup_ListNoDup|]. intros k Hk'%list_elem_of_In.
    destruct (Hin k Hk') as (line & Hin' & <-). apply in_map_iff. exists (c, line). split; [done|].
    by apply list_elem_of_In. }
  rewrite length_map in Hle. lia.
Qed.

(** ** Example *)

(** A container that calls execve before its pod is listed. *)
Definition demo_container : text := replicate 64 97.
Definition demo_log_pod : log_pod :=
  LogPod (bytes "web") (bytes "default")
    {| pod_statuses := [(bytes "app", demo_container)];
       pod_annotations := {[SeccompProfileRecordLogsAnnotationKey ++ bytes "app" := bytes "prof"]} |}.
Definition demo_pods (id : text) : option log_pod :=
  if bool_decide (id = demo_container) then Some demo_log_pod else None.
Definition demo_line : auditLine :=
  {| (new_line AuditTypeSeccomp) with ProcessID := 7; SystemCallID := 59; Arch := bytes "c000003e" |}.
Definition demo_names (nr : Z) : option text := if nr =? 59 then Some (bytes "execve") else None.
Definition demo_answers : proc_answers := ProcAnswers (demo_stat "100") (demo_cgroup 97) false.

Lemma log_recording_exact_witness :
  let e := processAuditLine demo_names (λ _, demo_names) avc_perm (bytes "amd64") [] (bytes "node") None
    demo_answers demo_line new_enricher in
  auditLineCache e !! demo_container = Some (Backlog [demo_line] [line_key demo_line] 0) ∧
  bytes "execve" ∈ recorded_for (dispatchListedBacklogs demo_names (λ _, demo_names) avc_perm (bytes "amd64") []
    (bytes "node") (Some demo_pods) e) (bytes "prof").
Proof.
  split; [by vm_compute|].
  apply (log_recording_exact demo_names (λ _, demo_names) avc_perm (bytes "amd64") [] demo_pods (bytes "node")
    _ [(demo_container, demo_line)]).
  - apply (runs_step demo_names (λ _, demo_names) avc_perm (bytes "amd64") [] demo_pods (bytes "node") new_enricher []
      (EvLine None demo_answers demo_line)); [constructor|by intros ? ? ? [=]].
  - done.
  - intros c _. apply few_lines. by apply Nat.leb_le.
  - exists demo_container, demo_line. split; [by left|]. by split; vm_compute.
Defined.

Lemma logged_syscall_recorded_witness :
  ∃ line, ExtractAuditLine (log_line demo_parts
      (seccomp_record 4294967295 1000 1000 2 7 hostile_comm (bytes "/bin/sh") 0 (bytes "c000003e") 59 [])) = Some line ∧
    bytes "execve" ∈ recorded_for (dispatchListedBacklogs demo_names (λ _, demo_names) avc_perm (bytes "amd64") []
      (bytes "node") (Some demo_pods)
      (processAuditLine demo_names (λ _, demo_names) avc_perm (bytes "amd64") [] (bytes "node") None demo_answers line
        new_enricher)) (bytes "prof").
Proof.
  destruct (logged_syscall_recorded demo_names (λ _, demo_names) avc_perm (bytes "amd64") [] demo_pods (bytes "node")
    new_enricher [] None demo_answers demo_container (bytes "execve") demo_parts 4294967295 1000 1000 2 7 hostile_comm
    (bytes "/bin/sh") 0 (bytes "c000003e") 59 []) as (line & Hl & Hr); try lia.
  - constructor.
  - by intros ? ? ? [=].
  - exact demo_parts_ok.
  - apply (bool_decide_unpack _); by vm_compute.
  - apply (bool_decide_unpack _); by vm_compute.
  - apply (bool_decide_unpack _); by vm_compute.
  - split; [done|]. apply (bool_decide_unpack _); by vm_compute.
  - constructor.
  - by vm_compute.
  - by vm_compute.
  - by vm_compute.
  - by vm_compute.
  - exists line. split; [exact Hl|]. destruct Hr as [Hm|Hr]; [|exact Hr]. exfalso. revert Hm. apply few_lines.
    by apply Nat.leb_le.
Defined.
