(* ===== verification/ProcessInfo.v ===== *)
(** * What is known of a process ([enricher/process.go], [impl.go])

    The JSON enricher tells with the syscalls of a process its command line and
    the request that started it, if that came from `kubectl exec`.  Both are read
    from /proc, the contents of its files are arguments here, [None] if a file
    cannot be read.  The cache is keyed by PID and start time;
    [process_info_own] shows that no process is told the details of another one
    that had its PID before. *)
From S2P Require Import Prelude Bpf Paths Dirs Profile Armor AuditLog Seccomp ProcCache ProcFs.
Import String.StringSyntax.
#[local] Open Scope string_scope.
#[local] Open Scope list_scope.
#[local] Open Scope Z_scope.

Record ProcessInfo := MkProcessInfo {
  Pid : Z;
  pi_cmdline : text;
  pi_uid : option Z;
  pi_gid : option Z;
  pi_executable : text;
  ExecRequestId : option text
}.

Definition requestIdEnv : text := bytes "SPO_EXEC_REQUEST_UID".

(** ** Files of /proc *)

Definition clockTicks : Z := 100.

Definition processStartTime (stat : option text) : option Z :=
  let tick := 10 ^ 9 / clockTicks in
  raw ← getProcessStartTimeTicks stat;
  ticks ← ParseInt raw 64;
  if (ticks <? 0) || ((2 ^ 63 - 1) / tick <? ticks) then None else Some (ticks * tick).

(** [bufio.ScanLines] drops a carriage return at the end of a line. *)
Definition dropCR (line : text) : text :=
  match reverse line with c :: r => if c =? 13 then reverse r else line | [] => line end.

Definition CmdlineForPID (file : option text) : option text :=
  content ← file;
  let ls := lines_from [] content in
  if existsb (λ l, (MaxScanTokenSize <=? length l)%nat) ls then None
  else Some (concat (map (λ l, map (λ c, if c =? 0 then 32 else c) (dropCR l)) ls)).

(** [bytes.SplitSeq] at NUL bytes. *)
Fixpoint split_nul (cur s : text) : list text :=
  match s with
  | [] => [cur]
  | c :: s => if c =? 0 then cur :: split_nul [] s else split_nul (cur ++ [c]) s
  end.

Definition add_var (m : gmap text text) (envVar : text) : gmap text text :=
  match split_equals envVar with Some (key, value) => <[key := value]> m | None => m end.

Definition EnvForPid (file : option text) : option (gmap text text) :=
  content ← file; Some (fold_left add_var (split_nul [] content) ∅).

(** ** The request *)

(** [strings.Index]. *)
Fixpoint Index (s p : text) : option nat :=
  if HasPrefix s p then Some O else match s with [] => None | _ :: s => S <$> Index s p end.

Definition blank (c : Z) : bool := (c =? 32) || (c =? 9) || (c =? 10) || (c =? 13).

Definition extractSPORequestUID (input : text) : option text :=
  let prefix := requestIdEnv ++ bytes "=" in
  start ← Index input prefix;
  let uid := (cut_run (λ c, negb (blank c)) (drop (start + length prefix) input)).1 in
  if empty uid then None else Some uid.

(** ** The info *)

Record proc_files := ProcFiles { pf_stat : option text; pf_cmdline : option text; pf_environ : option text }.

(** The errors are only logged. *)
Definition processInfo (pid : Z) (files : proc_files) : ProcessInfo :=
  let cmdLine := CmdlineForPID (pf_cmdline files) in
  let reqId := EnvForPid (pf_environ files) ≫= λ env, env !! requestIdEnv in
  MkProcessInfo pid (default [] cmdLine) None None []
    (match reqId with Some id => Some id | None => cmdLine ≫= extractSPORequestUID end).

Definition with_line (executable : text) (uid gid : option Z) (cached : ProcessInfo) : ProcessInfo :=
  {| cached with pi_executable := executable; pi_uid := uid; pi_gid := gid |}.

Definition GetProcessInfo (pid : Z) (executable : text) (uid gid : option Z) (files : proc_files)
    (processCache : gmap text ProcessInfo) : ProcessInfo * gmap text ProcessInfo :=
  let withLine := with_line executable uid gid in
  let lastKey := decimal pid in
  match processStartTime (pf_stat files) with
  | None =>
      match processCache !! lastKey with
      | Some cached => (withLine cached, processCache)
      | None => (withLine (processInfo pid files), processCache)
      end
  | Some startTime =>
      let cacheKey := lastKey ++ bytes "_" ++ decimal startTime in
      match processCache !! cacheKey with
      | Some cached => (withLine cached, processCache)
      | None =>
          let info := processInfo pid files in
          (withLine info, <[lastKey := info]> (<[cacheKey := info]> processCache))
      end
  end.

Example request_examples :
  map extractSPORequestUID (map bytes ["env SPO_EXEC_REQUEST_UID=dbbf5fca ls"; "SPO_EXEC_REQUEST_UID=x";
    "SPO_EXEC_REQUEST_UID= ls"; "ls"; "SPO_EXEC_REQUEST_UID="]) =
  [Some (bytes "dbbf5fca"); Some (bytes "x"); None; None; None].
Proof. by vm_compute. Qed.

Example cmdline_example :
  CmdlineForPID (Some (bytes "ls" ++ [0] ++ bytes "-l" ++ [0])) = Some (bytes "ls -l ").
Proof. by vm_compute. Qed.

(** ** The cache *)

(** A lookup: the process, what /proc tells of it, and what the line tells. *)
Record info_call := InfoCall {
  ic_pid : Z; ic_files : proc_files; ic_executable : text; ic_uid : option Z; ic_gid : option Z
}.

Definition lookup_info (c : info_call) (cache : gmap text ProcessInfo) : ProcessInfo * gmap text ProcessInfo :=
  GetProcessInfo (ic_pid c) (ic_executable c) (ic_uid c) (ic_gid c) (ic_files c) cache.

Definition start_of (c : info_call) : option Z := processStartTime (pf_stat (ic_files c)).
Definition read_info (c : info_call) : ProcessInfo := processInfo (ic_pid c) (ic_files c).

(** The cache after lookups; its entries expire. *)
Inductive info_cache : list info_call → gmap text ProcessInfo → Prop :=
  | info_empty : info_cache [] ∅
  | info_lookup calls cache c : info_cache calls cache → in_u 32 (ic_pid c) →
      info_cache (calls ++ [c]) (lookup_info c cache).2
  | info_expire calls cache cache' : info_cache calls cache → cache' ⊆ cache → info_cache calls cache'.

Lemma decimal_no_mark n : 0 <= n → 95 ∉ decimal n.
Proof.
  intros Hn Hin. unfold decimal in Hin. destruct (Z.ltb_spec n 0); [lia|]. apply digits_digit in Hin. lia.
Qed.

Lemma processStartTime_range stat s : processStartTime stat = Some s → 0 <= s < 2 ^ 63.
Proof.
  unfold processStartTime. destruct (getProcessStartTimeTicks stat) as [raw|]; [|done].
  unfold mbind, option_bind. destruct (ParseInt raw 64) as [n|]; [|done]. cbv zeta.
  replace ((2 ^ 63 - 1) / (10 ^ 9 / clockTicks)) with 922337203685 by by vm_compute.
  replace (10 ^ 9 / clockTicks) with 10000000 by by vm_compute.
  destruct (Z.ltb_spec n 0), (Z.ltb_spec 922337203685 n); try done. intros [= <-]. lia.
Qed.

Lemma decimal_eq n m : 0 <= n < 2 ^ 63 → 0 <= m < 2 ^ 63 → decimal n = decimal m → n = m.
Proof. intros Hn Hm E. rewrite <- (Z2Nat.id n), <- (Z2Nat.id m) in E by lia. apply decimal_inj in E; lia. Qed.

Lemma last_key_other pid pid' s : 0 <= pid → decimal pid ≠ decimal pid' ++ bytes "_" ++ decimal s.
Proof. intros Hp E. apply (decimal_no_mark pid Hp). rewrite E. set_solver. Qed.

Lemma start_key_inj pid pid' s s' :
  in_u 32 pid → in_u 32 pid' → 0 <= s < 2 ^ 63 → 0 <= s' < 2 ^ 63 →
  decimal pid ++ bytes "_" ++ decimal s = decimal pid' ++ bytes "_" ++ decimal s' → pid = pid' ∧ s = s'.
Proof.
  intros Hp Hp' Hs Hs' E. apply pid_key_inj in E as [-> E]; [|done..]. split; [done|]. by apply decimal_eq.
Qed.

(** Every entry was read from the process its key names. *)
Record cache_read (calls : list info_call) (cache : gmap text ProcessInfo) : Prop := {
  cr_last pid info : in_u 32 pid → cache !! decimal pid = Some info →
    ∃ c, c ∈ calls ∧ ic_pid c = pid ∧ info = read_info c;
  cr_start pid s info : in_u 32 pid → 0 <= s < 2 ^ 63 →
    cache !! (decimal pid ++ bytes "_" ++ decimal s) = Some info →
    ∃ c, c ∈ calls ∧ ic_pid c = pid ∧ start_of c = Some s ∧ info = read_info c
}.

Lemma cache_read_mono calls calls' cache : calls ⊆ calls' → cache_read calls cache → cache_read calls' cache.
Proof.
  intros Hs [H1 H2]. split.
  - intros pid info Hp H. destruct (H1 _ _ Hp H) as (c & ? & ?). eauto.
  - intros pid s info Hp Hs' H. destruct (H2 _ _ _ Hp Hs' H) as (c & ? & ?). eauto.
Qed.

Lemma info_cache_read calls cache : info_cache calls cache → cache_read calls cache.
Proof.
  induction 1 as [|calls cache c _ IH Hc|calls cache cache' _ IH Hsub]; [by split|..].
  - apply (cache_read_mono calls (calls ++ [c])) in IH; [|set_solver].
    unfold lookup_info, GetProcessInfo. destruct (processStartTime _) as [s|] eqn:Es;
      [|by destruct (cache !! decimal (ic_pid c))].
    pose proof (processStartTime_range _ _ Es) as Hs. destruct (cache !! _); [done|]. cbn.
    destruct IH as [H1 H2]. split.
    + intros pid info Hp [[E <-]|[_ [[E _]|[_ H]]%lookup_insert_Some]]%lookup_insert_Some; [|exfalso|by apply H1].
      * apply decimal_eq in E; [|unfold in_u in *; lia..]. exists c. set_solver.
      * symmetry in E. by apply last_key_other in E; [|unfold in_u in *; lia].
    + intros pid s' info Hp Hs' [[E _]|[_ [[E <-]|[_ H]]%lookup_insert_Some]]%lookup_insert_Some;
        [exfalso| |by apply H2].
      * by apply last_key_other in E; [|unfold in_u in *; lia].
      * apply start_key_inj in E as [E <-]; [|done..]. exists c. set_solver.
  - destruct IH as [H1 H2]. split; intros; eauto using lookup_weaken.
Qed.

(** A process is told its own details: whatever lookups came before, what the
    cache answers for a PID was read from a process with this PID, and with the
    same start time if it has one, so never from a process that had the PID
    before.  The executable, the user and the group are those of the line. *)
Theorem process_info_own calls cache c :
  info_cache calls cache → in_u 32 (ic_pid c) →
  let info := (lookup_info c cache).1 in
  Pid info = ic_pid c ∧ pi_executable info = ic_executable c ∧ pi_uid info = ic_uid c ∧ pi_gid info = ic_gid c ∧
  ∃ c', c' ∈ calls ++ [c] ∧ ic_pid c' = ic_pid c ∧ pi_cmdline info = pi_cmdline (read_info c') ∧
    ExecRequestId info = ExecRequestId (read_info c') ∧ (is_Some (start_of c) → start_of c' = start_of c).
Proof.
  intros Hr Hp. apply info_cache_read in Hr as [H1 H2]. cbv zeta.
  unfold lookup_info, GetProcessInfo. destruct (processStartTime _) as [s|] eqn:Es.
  - destruct (cache !! _) as [info|] eqn:Ec.
    + apply H2 in Ec as (c' & Hin & Hpid & Hst & ->); [|done|by apply (processStartTime_range _ _ Es)].
      repeat (split; [done|]). exists c'. split; [set_solver|]. repeat (split; [done|]).
      intros _. unfold start_of at 2. by rewrite Es.
    + repeat (split; [done|]). exists c. split; [set_solver|done].
  - assert (¬ is_Some (start_of c)) as Hno by (unfold start_of; rewrite Es; by intros []).
    destruct (cache !! _) as [info|] eqn:Ec.
    + apply H1 in Ec as (c' & Hin & Hpid & ->); [|done].
      repeat (split; [done|]). exists c'. split; [set_solver|]. repeat (split; [done|]). done.
    + repeat (split; [done|]). exists c. split; [set_solver|done].
Qed.
