(* ===== verification/JsonEnricher.v ===== *)
(** * The JSON enricher ([enricher/jsonenricher.go])

    The JSON enricher writes what the processes of the node did as records, one for
    the syscalls of a process over a while.  A line of the audit log goes into the
    bucket of its process; the buckets are in a cache with an expiry (ttlcache),
    and a bucket that leaves the cache is written by a goroutine of its own, while
    the loop may just have taken the bucket to add a line.

    The loop is a program counter over its accesses to the cache and the sections
    under the lock of a bucket ([line_pc]); the cache expires, the janitor cleans
    it, and the goroutines that write buckets run at any time ([jstep]).  Buckets
    are in a store, so that the loop and the goroutines share them.

    [json_log_exact] shows that no line is lost in these races: when the enricher
    has stopped, every syscall of a seccomp line is in a record of its process and
    executable that was written, unless a filter takes the record out, and a record
    has no other syscalls.  [nested_filters_dead] shows that a filter on a field of
    a nested map, like the pod, never matches a record. *)
From S2P Require Import Prelude Bpf Paths Dirs Profile Armor AuditLog Filters ContainerKeys ContainerProfiles.
From S2P Require Import Recorder ProcCache ProcFs LogEnricher ProcessInfo.
Import String.StringSyntax.
#[local] Open Scope string_scope.
#[local] Open Scope list_scope.
#[local] Open Scope Z_scope.

(** ** Timestamps ([common.go]) *)

(** The parts of a text between the bytes [c] ([strings.Split]). *)
Fixpoint split_byte (c : Z) (cur s : text) : list text :=
  match s with
  | [] => [cur]
  | x :: s => if x =? c then cur :: split_byte c [] s else split_byte c (cur ++ [x]) s
  end.

(** The seconds and milliseconds of an audit ID. *)
Definition audit_time (timestampAuditID : text) : option (Z * Z) :=
  let timestampStr := default [] (head (split_byte 58 [] timestampAuditID)) in
  let fractionalParts := split_byte 46 [] timestampStr in
  seconds ← ParseInt (default [] (head fractionalParts)) 64;
  match fractionalParts !! 1%nat with
  | None => Some (seconds, 0)
  | Some part =>
      millis ← ParseInt (take 3 (part ++ bytes "000")) 64;
      if millis <? 0 then None else Some (seconds, millis)
  end.

(** The date of a day after 1970-01-01: years begin in March here, so that the
    leap day is the last one. *)
Definition civil (days : Z) : Z * Z * Z :=
  let z := days + 719468 in
  let era := z / 146097 in
  let doe := z mod 146097 in
  let yoe := (doe - doe / 1460 + doe / 36524 - doe / 146096) / 365 in
  let doy := doe - (365 * yoe + yoe / 4 - yoe / 100) in
  let mp := (5 * doy + 2) / 153 in
  let m := if mp <? 10 then mp + 3 else mp - 9 in
  (yoe + era * 400 + (if m <=? 2 then 1 else 0), m, doy - (153 * mp + 2) / 5 + 1).

(** A number with at least [width] digits. *)
Definition padded (width : nat) (n : Z) : text :=
  let d := decimal (Z.abs n) in
  (if n <? 0 then [45] else []) ++ replicate (width - length d) 48 ++ d.

(** [t.Format("2006-01-02T15:04:05.000Z")] in UTC. *)
Definition iso (t : Z * Z) : text :=
  let '(seconds, millis) := t in
  let '(y, m, d) := civil (seconds / 86400) in
  let s := seconds mod 86400 in
  padded 4 y ++ bytes "-" ++ padded 2 m ++ bytes "-" ++ padded 2 d ++ bytes "T" ++
  padded 2 (s / 3600) ++ bytes ":" ++ padded 2 (s / 60 mod 60) ++ bytes ":" ++ padded 2 (s mod 60) ++
  bytes "." ++ padded 3 millis ++ bytes "Z".

Definition AuditTimeToIso (timestampAuditID : text) : option text := iso <$> audit_time timestampAuditID.

Example time_examples :
  map (λ t, AuditTimeToIso (bytes t)) ["1746611740.574:325"; "1746611740:325"; "invalid"; "invalid.invalid";
    "951782400.5:1"; "-1.999:1"] =
  [Some (bytes "2025-05-07T09:55:40.574Z"); Some (bytes "2025-05-07T09:55:40.000Z"); None; None;
   Some (bytes "2000-02-29T00:00:00.500Z"); Some (bytes "1969-12-31T23:59:59.999Z")].
Proof. by vm_compute. Qed.

(** ** The state *)

Record LogBucket := Bucket {
  SyscallIds : gset (Z * text);
  b_info : option ContainerInfo;
  b_container : text;
  b_process : option ProcessInfo;
  b_timestamp : text;
  Emitted : bool
}.

(** The caches, the buckets ever made, the cache of buckets with whether an entry
    has expired, the evicted buckets whose goroutine has not written them yet, and
    the records that were written. *)
Record JsonEnricher := MkJson {
  je_ids : gmap text text;
  je_infos : gmap text ContainerInfo;
  processCache : gmap text ProcessInfo;
  buckets : list LogBucket;
  logLinesCache : gmap Z (nat * bool);
  evicted : list nat;
  written : list log_map
}.

Definition new_json : JsonEnricher := MkJson ∅ ∅ ∅ [] ∅ [] [].

Definition maxCacheItems : Z := 1000.

(** ** The cache of buckets *)

Definition cache_get (pid : Z) (e : JsonEnricher) : option nat :=
  match logLinesCache e !! pid with Some (r, false) => Some r | _ => None end.

(** Deleting an entry starts the goroutine of its eviction. *)
Definition cache_delete (pid : Z) (e : JsonEnricher) : JsonEnricher :=
  match logLinesCache e !! pid with
  | Some (r, _) => {| e with logLinesCache := delete pid (logLinesCache e); evicted := evicted e ++ [r] |}
  | None => e
  end.

(** An entry that is there is overwritten, without an eviction; for another one
    the least recently used is evicted if the cache is full. *)
Definition cache_set (oldest pid : Z) (r : nat) (e : JsonEnricher) : JsonEnricher :=
  let e := match logLinesCache e !! pid with
           | Some _ => e
           | None => if maxCacheItems <=? Z.of_nat (size (logLinesCache e)) then cache_delete oldest e else e
           end in
  {| e with logLinesCache := <[pid := (r, false)]> (logLinesCache e) |}.

Definition cache_delete_all (e : JsonEnricher) : JsonEnricher :=
  {| e with logLinesCache := ∅; evicted := evicted e ++ (map_to_list (logLinesCache e)).*2.*1 |}.

(** ** A line of a process *)

(** What is known of the process of a line when it is processed: the files of
    /proc, read for the process and for its container, the events of the exec
    hooks if they are loaded, and the index of the pods. *)
Record line_answers := LineAnswers {
  la_files : proc_files;
  la_bpf : option (gmap Z BpfProcessInfo);
  la_stat : option text;
  la_cgroup : option text;
  la_pods : option (text → option log_pod)
}.

Definition processEbpf (bpfProcessCache : option (gmap Z BpfProcessInfo)) (pid : Z) (info : ProcessInfo) :
    ProcessInfo :=
  match bpfProcessCache with
  | None => info
  | Some cache =>
      let info := if empty (pi_cmdline info) then
                    match GetCmdLine pid cache with
                    | Some cmdLine => {| info with pi_cmdline := cmdLine |}
                    | None => info
                    end
                  else info in
      match ExecRequestId info, GetEnv pid cache ≫= (λ env, env !! requestIdEnv) with
      | None, Some reqId => {| info with ExecRequestId := Some reqId |}
      | _, _ => info
      end
  end.

Definition fetchContainerInfo (pid : Z) (a : line_answers) (e : JsonEnricher) :
    option ContainerInfo * text * JsonEnricher :=
  let '(r, ids) := containerIDForPID (je_ids e) pid (la_stat a) (la_cgroup a) in
  let e := {| e with je_ids := ids |} in
  match r with
  | CidFound cID =>
      if empty cID then (None, [], e)
      else let '(info, infos) := infos_get (la_pods a) cID (je_infos e) in
           (info, cID, {| e with je_infos := infos |})
  | _ => (None, [], e)
  end.

(** The section under the lock of the bucket. *)
Definition fill (a : line_answers) (line : auditLine) (b : LogBucket) (e : JsonEnricher) :
    LogBucket * JsonEnricher :=
  let pid := ProcessID line in
  let '(process, e) :=
    match b_process b with
    | Some info => (info, e)
    | None =>
        let '(info, cache) := GetProcessInfo pid (l_executable line) (Uid line) (Gid line) (la_files a) (processCache e) in
        (info, {| e with processCache := cache |})
    end in
  let process := processEbpf (la_bpf a) pid process in
  let '(info, cID, e) :=
    match b_info b with
    | Some info => (Some info, b_container b, e)
    | None => fetchContainerInfo pid a e
    end in
  (Bucket ({[(SystemCallID line, Arch line)]} ∪ SyscallIds b) info cID (Some process) (b_timestamp b) (Emitted b), e).

Definition new_bucket (line : auditLine) : LogBucket := Bucket ∅ None [] None (TimestampID line) false.

(** Where [processLine] and [lockedLogBucket] are: before [Get], before the lock of
    the bucket that was found, before [Delete], before a new bucket is filled, and
    before it is set. *)
Inductive line_pc :=
  | Ready
  | Getting (line : auditLine)
  | Locking (r : nat) (line : auditLine)
  | Deleting (line : auditLine)
  | Creating (line : auditLine)
  | Setting (r : nat) (line : auditLine).

(** The lines that are not ignored. *)
Definition seccomp_line (line : text) : option auditLine :=
  auditLine ← ExtractAuditLine line;
  if bool_decide (AuditType auditLine = AuditTypeSeccomp) then Some auditLine else None.

Definition processLine (line : text) : line_pc :=
  match seccomp_line line with Some l => Getting l | None => Ready end.

Definition same_executable (b : LogBucket) (line : auditLine) : bool :=
  match b_process b with Some info => bool_decide (pi_executable info = l_executable line) | None => true end.

(** The next access of the loop; [oldest] is the entry a full cache evicts. *)
Definition line_step (a : line_answers) (oldest : Z) (pc : line_pc) (e : JsonEnricher) : line_pc * JsonEnricher :=
  match pc with
  | Ready => (Ready, e)
  | Getting line =>
      match cache_get (ProcessID line) e with
      | Some r => (Locking r line, e)
      | None => (Deleting line, e)
      end
  | Locking r line =>
      match buckets e !! r with
      | None => (Ready, e)
      | Some b =>
          if Emitted b then (Creating line, e)
          else if negb (same_executable b line) then (Deleting line, e)
          else let '(b, e) := fill a line b e in (Ready, {| e with buckets := <[r := b]> (buckets e) |})
      end
  | Deleting line => (Creating line, cache_delete (ProcessID line) e)
  | Creating line =>
      let '(b, e) := fill a line (new_bucket line) e in
      (Setting (length (buckets e)) line, {| e with buckets := buckets e ++ [b] |})
  | Setting r line => (Ready, cache_set oldest (ProcessID line) r e)
  end.

(** ** Records *)

Section json.
(** libseccomp, the filters and the node. *)
Context (GetName : Z → option text) (GetNameByArch : text → Z → option text).
Context (filters : list EnricherFilterOptions) (nodeName : text).

Abbreviation syscall_name k := (syscallName GetName GetNameByArch k.1 k.2).

(** The record of a bucket; [auditID] is a new UUID. *)
Definition auditMap (auditID : text) (b : LogBucket) : option log_map :=
  info ← b_process b;
  timestamp ← AuditTimeToIso (b_timestamp b);
  let resource :=
    match b_info b with
    | Some c => [(bytes "pod", PodName c); (bytes "namespace", Namespace c); (bytes "container", ci_name c)]
    | None => []
    end in
  Some ([(bytes "version", LString (bytes "spo/v1_alpha")); (bytes "auditID", LString auditID);
    (bytes "executable", LString (pi_executable info)); (bytes "cmdLine", LString (pi_cmdline info));
    (bytes "resource", LStringMap resource); (bytes "pid", LInt 64 (Pid info));
    (bytes "node", LStringMap [(bytes "name", nodeName)]);
    (bytes "syscalls", LStrings (omap (λ k, syscall_name k) (elements (SyscallIds b))));
    (bytes "timestamp", LString timestamp)] ++
    (match pi_uid info with Some uid => [(bytes "uid", LUint32 uid)] | None => [] end) ++
    (match pi_gid info with Some gid => [(bytes "gid", LUint32 gid)] | None => [] end) ++
    (match ExecRequestId info with Some id => [(bytes "requestUID", LString id)] | None => [] end)).

Definition dispatchSeccompLine (auditID : text) (b : LogBucket) (e : JsonEnricher) : JsonEnricher :=
  match auditMap auditID b with
  | Some m =>
      if bool_decide (ApplyEnricherFilters m filters = EnricherLogLevelNone) then e
      else {| e with written := written e ++ [m] |}
  | None => e
  end.

(** The pod may tell the container by now. *)
Definition late_info (pods : option (text → option log_pod)) (b : LogBucket) (e : JsonEnricher) :
    LogBucket * JsonEnricher :=
  match b_info b with
  | None =>
      if empty (b_container b) then (b, e)
      else let '(info, infos) := infos_get pods (b_container b) (je_infos e) in
           ({| b with b_info := info |}, {| e with je_infos := infos |})
  | Some _ => (b, e)
  end.

(** The goroutine of an eviction, under the lock of the bucket. *)
Definition emit (pods : option (text → option log_pod)) (auditID : text) (r : nat) (e : JsonEnricher) : JsonEnricher :=
  match buckets e !! r with
  | None => e
  | Some b =>
      let '(b, e) := late_info pods {| b with Emitted := true |} e in
      dispatchSeccompLine auditID b {| e with buckets := <[r := b]> (buckets e) |}
  end.

(** The loop, the janitor and the goroutines of evictions, and what expires. *)
Inductive jstep : line_pc * JsonEnricher → line_pc * JsonEnricher → Prop :=
  | jstep_line a oldest pc e : jstep (pc, e) (line_step a oldest pc e)
  | jstep_expire pc e pid r :
      logLinesCache e !! pid = Some (r, false) →
      jstep (pc, e) (pc, {| e with logLinesCache := <[pid := (r, true)]> (logLinesCache e) |})
  | jstep_clean pc e pid r :
      logLinesCache e !! pid = Some (r, true) → jstep (pc, e) (pc, cache_delete pid e)
  | jstep_emit pc e r l1 l2 pods auditID :
      evicted e = l1 ++ r :: l2 →
      jstep (pc, e) (pc, emit pods auditID r {| e with evicted := l1 ++ l2 |})
  | jstep_forget pc e ids infos processes :
      ids ⊆ je_ids e → infos ⊆ je_infos e → processes ⊆ processCache e →
      jstep (pc, e) (pc, {| e with je_ids := ids; je_infos := infos; processCache := processes |})
  (** The end of [run]. *)
  | jstep_stop e : jstep (Ready, e) (Ready, cache_delete_all e).

(** The states that are reached with the lines that were read. *)
Inductive jruns : line_pc * JsonEnricher → list text → Prop :=
  | jruns_new : jruns (Ready, new_json) []
  | jruns_read e lines line : jruns (Ready, e) lines → jruns (processLine line, e) (lines ++ [line])
  | jruns_step s s' lines : jruns s lines → jstep s s' → jruns s' lines.

(** What is left to do when the enricher has stopped: nothing. *)
Definition stopped (s : line_pc * JsonEnricher) : Prop :=
  s.1 = Ready ∧ logLinesCache s.2 = ∅ ∧ evicted s.2 = [].

(** ** The places of buckets *)

Definition refs (m : gmap Z (nat * bool)) : list nat := (map_to_list m).*2.*1.

Lemma refs_insert m pid r x : m !! pid = None → refs (<[pid := (r, x)]> m) ≡ₚ r :: refs m.
Proof. intros H. unfold refs. by rewrite map_to_list_insert. Qed.

Lemma refs_delete m pid r x : m !! pid = Some (r, x) → refs m ≡ₚ r :: refs (delete pid m).
Proof. intros H. rewrite <- (insert_delete_id m pid (r, x)) at 1 by done. apply refs_insert, lookup_delete_eq. Qed.

Lemma refs_expire m pid r x y : m !! pid = Some (r, x) → refs (<[pid := (r, y)]> m) ≡ₚ refs m.
Proof.
  intros H. rewrite (refs_delete m pid r x) by done. rewrite <- insert_delete_eq.
  apply refs_insert, lookup_delete_eq.
Qed.

Definition setting (pc : line_pc) : list nat := match pc with Setting r _ => [r] | _ => [] end.

(** The buckets that are still to be written: in the cache, on their way out of it
    or into it. *)
Definition places (s : line_pc * JsonEnricher) : list nat :=
  refs (logLinesCache s.2) ++ evicted s.2 ++ setting s.1.

Lemma delete_places pc pid e : places (pc, cache_delete pid e) ≡ₚ places (pc, e).
Proof.
  unfold cache_delete, places. cbn. destruct (logLinesCache e !! pid) as [[r x]|] eqn:E; [|done]. cbn.
  rewrite (refs_delete _ _ _ _ E), <- app_assoc. cbn. by rewrite <- !Permutation_middle.
Qed.

Lemma delete_all_places pc e : places (pc, cache_delete_all e) ≡ₚ places (pc, e).
Proof.
  unfold cache_delete_all, places. cbn. change (refs ∅) with (@nil nat). cbn.
  by rewrite (Permutation_app_comm (evicted e)), <- app_assoc.
Qed.

Lemma cache_delete_none pid q e : logLinesCache e !! pid = None → logLinesCache (cache_delete q e) !! pid = None.
Proof.
  intros H. unfold cache_delete. destruct (logLinesCache e !! q) as [[r x]|]; [|done]. cbn.
  by rewrite lookup_delete_None, H; right.
Qed.

Lemma set_places pid oldest r line e :
  logLinesCache e !! pid = None → places (Ready, cache_set oldest pid r e) ≡ₚ places (Setting r line, e).
Proof.
  intros H. unfold cache_set. rewrite H.
  set (e1 := if maxCacheItems <=? Z.of_nat (size (logLinesCache e)) then cache_delete oldest e else e).
  assert (logLinesCache e1 !! pid = None) as H1.
  { unfold e1. destruct (maxCacheItems <=? _); [by apply cache_delete_none|done]. }
  transitivity (places (Setting r line, e1)).
  - unfold places. cbn. rewrite refs_insert by done. by rewrite app_nil_r, (app_assoc _ _ [r]), <- Permutation_cons_append.
  - unfold e1. destruct (maxCacheItems <=? _); [apply delete_places|done].
Qed.

(** What the operations on the cache leave alone. *)
Definition rest (e : JsonEnricher) := (je_ids e, je_infos e, processCache e, buckets e, written e).

Lemma delete_rest pid e : rest (cache_delete pid e) = rest e.
Proof. unfold cache_delete. by destruct (logLinesCache e !! pid) as [[]|]. Qed.

Lemma set_rest oldest pid r e : rest (cache_set oldest pid r e) = rest e.
Proof.
  unfold cache_set. destruct (logLinesCache e !! pid); [done|].
  destruct (maxCacheItems <=? _); [apply (delete_rest oldest e)|done].
Qed.

Lemma delete_subset pid e : logLinesCache (cache_delete pid e) ⊆ logLinesCache e.
Proof.
  unfold cache_delete. destruct (logLinesCache e !! pid) as [[]|]; [apply delete_subseteq|done].
Qed.

Lemma set_lookup oldest pid r e q v :
  logLinesCache (cache_set oldest pid r e) !! q = Some v → (q = pid ∧ v = (r, false)) ∨ logLinesCache e !! q = Some v.
Proof.
  unfold cache_set. cbn. intros [[<- <-]|[_ H]]%lookup_insert_Some; [by left|right].
  destruct (logLinesCache e !! pid); [done|]. destruct (maxCacheItems <=? _); [|done].
  by apply (lookup_weaken _ _ _ _ H), delete_subset.
Qed.

Lemma delete_gone pid e : logLinesCache (cache_delete pid e) !! pid = None.
Proof.
  unfold cache_delete. destruct (logLinesCache e !! pid) as [[]|] eqn:E; [|done]. apply lookup_delete_eq.
Qed.

(** ** Buckets *)

(** A process of a bucket is the one of a line. *)
Definition of_line (b : LogBucket) (line : auditLine) : Prop :=
  ∃ info, b_process b = Some info ∧ Pid info = ProcessID line ∧ pi_executable info = l_executable line.

Definition syscall_key (line : auditLine) : Z * text := (SystemCallID line, Arch line).

(** A bucket has the syscall of a line. *)
Definition covers (b : LogBucket) (line : auditLine) : Prop := of_line b line ∧ syscall_key line ∈ SyscallIds b.

(** What a bucket has comes from lines of its process. *)
Record bucket_ok (heard : list auditLine) (b : LogBucket) : Prop := {
  bk_process : is_Some (b_process b);
  bk_syscalls k : k ∈ SyscallIds b → ∃ line, line ∈ heard ∧ syscall_key line = k ∧ of_line b line;
  bk_timestamp : ∃ line, line ∈ heard ∧ b_timestamp b = TimestampID line
}.

Lemma processEbpf_own bpf pid info :
  Pid (processEbpf bpf pid info) = Pid info ∧ pi_executable (processEbpf bpf pid info) = pi_executable info.
Proof.
  unfold processEbpf. by repeat case_match.
Qed.

(** What filling a bucket leaves of the rest of the enricher. *)
Definition shared (e : JsonEnricher) := (buckets e, logLinesCache e, evicted e, written e).

Definition cache_known (e : JsonEnricher) : Prop := ∃ calls, info_cache calls (processCache e).

Lemma fetchContainerInfo_shared pid a e :
  let e' := (fetchContainerInfo pid a e).2 in shared e' = shared e ∧ processCache e' = processCache e.
Proof.
  unfold fetchContainerInfo. destruct (containerIDForPID _ _ _ _) as [[cID| |] ids]; [|done..].
  destruct (empty cID); [done|]. by destruct (infos_get _ _ _).
Qed.

(** The line goes into a bucket of its process, or into one without a process. *)
Lemma fill_spec a line b e :
  in_u 32 (ProcessID line) → cache_known e → (of_line b line ∨ b_process b = None) →
  let '(b', e') := fill a line b e in
  shared e' = shared e ∧ cache_known e' ∧ of_line b' line ∧
  SyscallIds b' = {[syscall_key line]} ∪ SyscallIds b ∧ b_timestamp b' = b_timestamp b ∧ Emitted b' = Emitted b ∧
  (∀ l, of_line b l → of_line b' l).
Proof.
  intros Hp [calls Hc] Hb. unfold fill.
  set (call := InfoCall (ProcessID line) (la_files a) (l_executable line) (Uid line) (Gid line)).
  assert (∃ info e1, match b_process b with
    | Some info => (info, e)
    | None => let '(info, cache) := GetProcessInfo (ProcessID line) (l_executable line) (Uid line) (Gid line)
        (la_files a) (processCache e) in (info, {| e with processCache := cache |})
    end = (info, e1) ∧ shared e1 = shared e ∧ cache_known e1 ∧
    Pid info = ProcessID line ∧ pi_executable info = l_executable line) as (info & e1 & -> & He1 & Hc1 & Hpid & Hexe).
  { destruct Hb as [(info & -> & H1 & H2)| ->].
    - exists info, e. repeat (split; [done|]). split; [by exists calls|done].
    - destruct (process_info_own calls (processCache e) call Hc Hp) as (H1 & H2 & _).
      pose proof (info_lookup calls (processCache e) call Hc Hp) as Hl. unfold lookup_info in *. cbn [ic_pid ic_executable ic_uid ic_gid ic_files call] in *.
      destruct (GetProcessInfo _ _ _ _ _ _) as [info cache]. exists info, {| e with processCache := cache |}.
      repeat (split; [done|]). split; [by eexists|done]. }
  destruct (processEbpf_own (la_bpf a) (ProcessID line) info) as [Hp1 Hp2].
  set (info' := processEbpf _ _ info) in *.
  assert (∃ ci cID e2, match b_info b with
    | Some info => (Some info, b_container b, e1) | None => fetchContainerInfo (ProcessID line) a e1
    end = (ci, cID, e2) ∧ shared e2 = shared e1 ∧ processCache e2 = processCache e1) as (ci & cID & e2 & -> & He2 & Hc2).
  { destruct (b_info b); [by eexists _, _, _|]. pose proof (fetchContainerInfo_shared (ProcessID line) a e1) as H.
    destruct (fetchContainerInfo _ _ _) as [[ci cID] e2]. by exists ci, cID, e2. }
  split; [by rewrite He2|]. split; [by unfold cache_known; rewrite Hc2|].
  split; [exists info'; cbn; split; [done|]; by rewrite Hp1, Hp2|]. repeat (split; [done|]).
  intros l (i & Hi & H1 & H2). exists info'. cbn. split; [done|]. rewrite Hp1, Hp2.
  destruct Hb as [(i' & Hi' & H3 & H4)|Hn]; [|congruence]. simplify_eq. by rewrite Hpid, Hexe, <- H3, <- H4.
Qed.

Lemma parse_digits_ge s acc n : 0 <= acc → parse_digits acc s = Some n → 0 <= n.
Proof.
  induction s as [|c s IH] in acc |- *; cbn [parse_digits]; [by intros H [= <-]|]. intros Ha.
  destruct (is_digit c) eqn:E; [|done]. apply IH. unfold is_digit in E. apply between_spec in E. lia.
Qed.

Lemma process_id_range line s l : extractProcessID line s = Some l → in_u 32 (ProcessID l).
Proof.
  unfold extractProcessID, ParseUint. destruct (empty s); [done|].
  destruct (parse_digits 0 s) as [n|] eqn:E; [|done]. unfold mbind, option_bind.
  apply parse_digits_ge in E; [|lia]. destruct (Z.ltb_spec n (2 ^ 31)); [|done].
  destruct (n =? 0); [done|]. intros [= <-]. unfold in_u. cbn [ProcessID]. lia.
Qed.

Lemma seccomp_line_pid t line : seccomp_line t = Some line → in_u 32 (ProcessID line).
Proof.
  unfold seccomp_line, ExtractAuditLine, extractSeccompLine, extractApparmorLine, extractSelinuxLine.
  unfold mbind, option_bind. intros H. repeat (case_match; try done); simplify_eq; cbn [ProcessID];
    by eapply process_id_range.
Qed.

(** ** The invariant *)

Definition bucket_pid (e : JsonEnricher) (r : nat) (pid : Z) : Prop :=
  ∃ b info, buckets e !! r = Some b ∧ b_process b = Some info ∧ Pid info = pid.

(** The line whose syscall is not in a bucket yet. *)
Definition pending (pc : line_pc) : option auditLine :=
  match pc with
  | Getting line | Locking _ line | Deleting line | Creating line => Some line
  | Ready | Setting _ _ => None
  end.

Definition pc_ok (heard : list auditLine) (pc : line_pc) (e : JsonEnricher) : Prop :=
  (∀ line, pending pc = Some line → line ∈ heard) ∧
  match pc with
  | Ready | Getting _ | Deleting _ => True
  | Locking r line => bucket_pid e r (ProcessID line) ∧
      ∀ r' x, logLinesCache e !! ProcessID line = Some (r', x) → r' = r
  | Creating line => logLinesCache e !! ProcessID line = None
  | Setting r line => logLinesCache e !! ProcessID line = None ∧ bucket_pid e r (ProcessID line)
  end.

(** A bucket that was emitted has its record written, unless there is none or a
    filter takes it out. *)
Definition emitted_ok (e : JsonEnricher) (b : LogBucket) : Prop :=
  ∃ id, match auditMap id b with
        | Some m => m ∈ written e ∨ ApplyEnricherFilters m filters = EnricherLogLevelNone
        | None => True
        end.

Definition open (e : JsonEnricher) (r : nat) : Prop := ∃ b, buckets e !! r = Some b ∧ Emitted b = false.

Record json_ok (heard : list auditLine) (s : line_pc * JsonEnricher) : Prop := {
  jo_known : cache_known s.2;
  jo_buckets r b : buckets s.2 !! r = Some b → bucket_ok heard b;
  jo_places : NoDup (places s);
  jo_open r : r ∈ places s ↔ open s.2 r;
  jo_pid pid r x : logLinesCache s.2 !! pid = Some (r, x) → bucket_pid s.2 r pid;
  jo_emitted r b : buckets s.2 !! r = Some b → Emitted b = true → emitted_ok s.2 b;
  jo_written m : m ∈ written s.2 →
    ∃ id r b, buckets s.2 !! r = Some b ∧ Emitted b = true ∧ auditMap id b = Some m;
  jo_heard line : line ∈ heard → pending s.1 = Some line ∨ ∃ r b, buckets s.2 !! r = Some b ∧ covers b line;
  jo_pc : pc_ok heard s.1 s.2
}.

(** Steps that move buckets between the places. *)
Lemma bucket_move_ok heard pc e pc' e' :
  json_ok heard (pc, e) → buckets e' = buckets e → written e' = written e → cache_known e' →
  places (pc', e') ≡ₚ places (pc, e) →
  (∀ pid r x, logLinesCache e' !! pid = Some (r, x) → bucket_pid e r pid) →
  (∀ line, pending pc = Some line → pending pc' = Some line) → pc_ok heard pc' e' → json_ok heard (pc', e').
Proof.
  intros [Hk Hb Hp Ho Hpid He Hw Hh Hpc] Eb Ew Hk' HP Hpid' Hpend Hpc'. split; cbn [fst snd] in *.
  - done.
  - rewrite Eb. exact Hb.
  - by rewrite HP.
  - intros r. rewrite HP. unfold open. rewrite Eb. apply Ho.
  - unfold bucket_pid in *. by rewrite Eb.
  - rewrite Eb. intros r b H1 H2. unfold emitted_ok. rewrite Ew. by apply (He r).
  - rewrite Eb, Ew. exact Hw.
  - intros line Hl. rewrite Eb. destruct (Hh line Hl) as [H|H]; [left; by apply Hpend|by right].
  - done.
Qed.

(** Steps of the others keep what the loop relies on. *)
Lemma pc_env heard pc e e' :
  pc_ok heard pc e → (∀ r pid, bucket_pid e r pid → bucket_pid e' r pid) →
  (∀ pid r x, logLinesCache e' !! pid = Some (r, x) → ∃ y, logLinesCache e !! pid = Some (r, y)) →
  pc_ok heard pc e'.
Proof.
  intros [Hl Hpc] Hb Hc. split; [done|].
  assert (∀ pid, logLinesCache e !! pid = None → logLinesCache e' !! pid = None) as Hn.
  { intros pid Hn. destruct (logLinesCache e' !! pid) as [[r x]|] eqn:E; [|done].
    apply Hc in E as [y E]. congruence. }
  destruct pc as [|line|r line|line|line|r line]; try done.
  - destruct Hpc as [H1 H2]. split; [by apply Hb|]. intros r' x Hx. apply Hc in Hx as [y Hx]. by apply (H2 r' y).
  - by apply Hn.
  - destruct Hpc as [H1 H2]. split; [by apply Hn|by apply Hb].
Qed.

Lemma rest_eq e e' : rest e' = rest e →
  buckets e' = buckets e ∧ written e' = written e ∧ (cache_known e → cache_known e').
Proof. intros [= _ _ Hp Hb Hw]. split; [done|]. split; [done|]. unfold cache_known. by rewrite Hp. Qed.

Lemma env_move_ok heard pc e e' :
  json_ok heard (pc, e) → buckets e' = buckets e → written e' = written e → cache_known e' →
  places (pc, e') ≡ₚ places (pc, e) →
  (∀ pid r x, logLinesCache e' !! pid = Some (r, x) → ∃ y, logLinesCache e !! pid = Some (r, y)) →
  json_ok heard (pc, e').
Proof.
  intros Hok Eb Ew Hk HP Hc. apply (bucket_move_ok heard pc e); try done.
  - intros pid r x Hx. apply Hc in Hx as [y Hx]. by apply (jo_pid _ _ Hok pid r y).
  - apply (pc_env heard pc e); [exact (jo_pc _ _ Hok)|unfold bucket_pid; by rewrite Eb|done].
Qed.

Lemma delete_lookup pid e q v : logLinesCache (cache_delete pid e) !! q = Some v → logLinesCache e !! q = Some v.
Proof. intros H. by apply (lookup_weaken _ _ _ _ H), delete_subset. Qed.

(** An open bucket changes, but not its process. *)
Lemma update_ok heard pc pc' e e' r b b' :
  json_ok heard (pc, e) → buckets e !! r = Some b → Emitted b = false →
  bucket_ok heard b' → Emitted b' = false →
  (∀ line, of_line b line → of_line b' line) → SyscallIds b ⊆ SyscallIds b' →
  (∀ info, b_process b = Some info → ∃ info', b_process b' = Some info' ∧ Pid info' = Pid info) →
  shared e' = shared {| e with buckets := <[r := b']> (buckets e) |} → cache_known e' →
  setting pc' = setting pc → pc_ok heard pc' e' →
  (∀ line, pending pc = Some line → pending pc' = Some line ∨ covers b' line) → json_ok heard (pc', e').
Proof.
  intros [Hk Hb Hp Ho Hpid He Hw Hh Hpc] Hr Hopen Hok' Hopen' Hline Hsub Hproc [= Eb Ec Ev Ew] Hk' Hset Hpc' Hpend.
  cbn [fst snd] in *. assert (r < length (buckets e))%nat as Hlt by (by eapply lookup_lt_Some).
  assert (places (pc', e') = places (pc, e)) as HP by (unfold places; cbn; by rewrite Ec, Ev, Hset).
  assert (∀ q c, buckets e !! q = Some c → ∃ c', buckets e' !! q = Some c' ∧ (q = r ∧ c' = b' ∨ q ≠ r ∧ c' = c)) as Hkeep.
  { intros q c Hq. rewrite Eb. destruct (decide (q = r)) as [->|Hne].
    - exists b'. rewrite list_lookup_insert_eq by done. auto.
    - exists c. rewrite list_lookup_insert_ne by done. auto. }
  assert (∀ q c, buckets e' !! q = Some c → (q = r ∧ c = b') ∨ (q ≠ r ∧ buckets e !! q = Some c)) as Hback.
  { intros q c. rewrite Eb, list_lookup_insert_Some. naive_solver. }
  split; cbn [fst snd]; try done.
  - intros q c Hq. apply Hback in Hq as [[_ ->]|[_ Hq]]; [done|by apply (Hb q)].
  - by rewrite HP.
  - intros q. rewrite HP, Ho. split.
    + intros (c & Hc & Hop). destruct (Hkeep q c Hc) as (c' & Hc' & [[-> ->]|[_ ->]]); by eexists.
    + intros (c & Hc & Hop). apply Hback in Hc as [[-> ->]|[_ Hc]]; by eexists.
  - rewrite Ec. intros pid q x Hx. destruct (Hpid pid q x Hx) as (c & info & Hc & Hi & Hpi).
    destruct (Hkeep q c Hc) as (c' & Hc' & [[-> ->]|[_ ->]]); [|by eexists _, _].
    simplify_eq. destruct (Hproc info Hi) as (info' & Hi' & <-). by exists b', info'.
  - intros q c Hq Hem. unfold emitted_ok. rewrite Ew. apply Hback in Hq as [[_ ->]|[_ Hq]]; [congruence|by apply (He q)].
  - rewrite Ew. intros m Hm. destruct (Hw m Hm) as (id & q & c & Hc & Hem & Hma).
    destruct (Hkeep q c Hc) as (c' & Hc' & [[-> ->]|[_ ->]]); [congruence|by exists id, q, c].
  - intros line Hl. destruct (Hh line Hl) as [H|(q & c & Hc & [H1 H2])].
    + destruct (Hpend line H) as [H'|H']; [by left|right]. exists r, b'. split; [|done].
      rewrite Eb. by apply list_lookup_insert_eq.
    + right. destruct (Hkeep q c Hc) as (c' & Hc' & [[-> ->]|[_ ->]]); [|by exists q, c].
      exists r, b'. simplify_eq. split; [done|]. split; [by apply Hline|set_solver].
Qed.

(** A filled bucket is one of its process. *)
Lemma filled_ok heard line b b' :
  line ∈ heard → of_line b' line → SyscallIds b' = {[syscall_key line]} ∪ SyscallIds b →
  (∀ k, k ∈ SyscallIds b → ∃ l, l ∈ heard ∧ syscall_key l = k ∧ of_line b l) →
  (∀ l, of_line b l → of_line b' l) → (∃ l, l ∈ heard ∧ b_timestamp b' = TimestampID l) → bucket_ok heard b'.
Proof.
  intros Hl Hof Hs Hb Hline Ht. split; [|intros k|done].
  - destruct Hof as (info & Hi & _). by exists info.
  - rewrite Hs, elem_of_union, elem_of_singleton. intros [->|Hk]; [by exists line|].
    destruct (Hb k Hk) as (l & ? & ? & ?). exists l. auto.
Qed.

Lemma locking_ok heard a oldest r line e :
  (∀ l, l ∈ heard → in_u 32 (ProcessID l)) → json_ok heard (Locking r line, e) →
  json_ok heard (line_step a oldest (Locking r line) e).
Proof.
  intros Hr Hok. destruct (jo_pc _ _ Hok) as [Hl ((b & info & Hb & Hi & Hpid) & Hone)]. cbn in *.
  specialize (Hl line eq_refl). rewrite Hb. destruct (Emitted b) eqn:Em.
  - apply (bucket_move_ok heard (Locking r line) e); try done; [exact (jo_known _ _ Hok)|exact (jo_pid _ _ Hok)|].
    split; [by intros l [= <-]|]. cbn. destruct (logLinesCache e !! ProcessID line) as [[r' x]|] eqn:Ec; [|done].
    rewrite (Hone r' x eq_refl) in Ec.
    assert (open e r) as (b' & Hb' & Hf); [|congruence].
    apply (jo_open _ _ Hok). unfold places. cbn. rewrite (refs_delete _ _ _ _ Ec). left.
  - destruct (negb (same_executable b line)) eqn:Es.
    { apply (bucket_move_ok heard (Locking r line) e); try done; [exact (jo_known _ _ Hok)|exact (jo_pid _ _ Hok)|].
      split; [by intros l [= <-]|done]. }
    apply negb_false_iff in Es. unfold same_executable in Es. rewrite Hi in Es. apply bool_decide_eq_true_1 in Es.
    assert (of_line b line) as Hof by (by exists info).
    pose proof (fill_spec a line b e (Hr line Hl) (jo_known _ _ Hok) (or_introl Hof)) as Hf.
    destruct (fill a line b e) as [b' e']. destruct Hf as (Hsh & Hk & Hof' & Hs & Ht & He & Hline).
    destruct (jo_buckets _ _ Hok r b Hb) as [_ Hks Hts].
    assert (bucket_ok heard b') as Hok'.
    { eapply filled_ok; [exact Hl|done|exact Hs|exact Hks|done|by rewrite Ht]. }
    injection Hsh as E1 E2 E3 E4.
    eapply (update_ok heard _ _ _ _ r b b' Hok Hb); try done; [congruence|set_solver|..].
    + intros i Hi'. simplify_eq. destruct Hof' as (i' & ? & Hp & _). exists i'. by rewrite Hp.
    + unfold shared. cbn. by rewrite E1, E2, E3, E4.
    + intros l [= <-]. right. split; [done|set_solver].
Qed.

Lemma creating_ok heard a oldest line e :
  (∀ l, l ∈ heard → in_u 32 (ProcessID l)) → json_ok heard (Creating line, e) →
  json_ok heard (line_step a oldest (Creating line) e).
Proof.
  intros Hr Hok. destruct (jo_pc _ _ Hok) as [Hl Hnone]. cbn in Hl, Hnone. specialize (Hl line eq_refl).
  cbn [line_step].
  pose proof (fill_spec a line (new_bucket line) e (Hr line Hl) (jo_known _ _ Hok) (or_intror eq_refl)) as Hf.
  destruct (fill a line (new_bucket line) e) as [b e1]. destruct Hf as ([= E1 E2 E3 E4] & Hk1 & Hof & Hs & Ht & Hem & _).
  assert (bucket_ok heard b) as Hb'.
  { eapply (filled_ok heard line (new_bucket line)); [done|done|exact Hs|set_solver| |by exists line].
    by intros l (i & ? & _). }
  destruct Hok as [Hk Hb Hp Ho Hpid He Hw Hh Hpc]. cbn [fst snd] in *.
  set (n := length (buckets e1)). assert (n = length (buckets e)) as Hn by (unfold n; by rewrite E1).
  assert (∀ q c, (buckets e ++ [b]) !! q = Some c ↔ buckets e !! q = Some c ∨ q = n ∧ c = b) as Hq.
  { intros q c. rewrite lookup_app_Some, list_lookup_singleton_Some, Hn. split; [|].
    - intros [?|(? & ? & ?)]; [by left|right]. split; [lia|done].
    - intros [?|[-> ->]]; [by left|right]. split; [lia|]. split; [lia|done]. }
  assert (bucket_pid {| e1 with buckets := buckets e1 ++ [b] |} n (ProcessID line)) as Hbp.
  { destruct Hof as (info & Hi & Hpi & _). exists b, info. cbn. rewrite E1. split; [by apply Hq; right|done]. }
  assert (¬ open e n) as Hnew by (intros (c & ?%lookup_lt_Some & _); lia).
  assert (places (Setting n line, {| e1 with buckets := buckets e1 ++ [b] |}) ≡ₚ n :: places (Creating line, e)) as HP.
  { unfold places. cbn. by rewrite E2, E3, app_nil_r, (app_assoc _ _ [n]), <- Permutation_cons_append. }
  split; cbn [fst snd buckets].
  - exact Hk1.
  - intros q c. rewrite E1, Hq. intros [H|[_ ->]]; [by apply (Hb q)|done].
  - rewrite HP. constructor; [by rewrite Ho|done].
  - intros q. rewrite HP, elem_of_cons, Ho. unfold open. cbn. rewrite E1. setoid_rewrite Hq. naive_solver.
  - cbn. rewrite E2. intros pid q x Hx. destruct (Hpid pid q x Hx) as (c & i & Hc & ?).
    exists c, i. cbn. rewrite E1. split; [by apply Hq; left|done].
  - intros q c. rewrite E1, Hq. intros [H|[-> ->]] Hem'; [|cbn in Hem; congruence].
    unfold emitted_ok. cbn. rewrite E4. by apply (He q).
  - cbn. rewrite E4, E1. intros m Hm. destruct (Hw m Hm) as (id & q & c & Hc & ?).
    exists id, q, c. split; [by apply Hq; left|done].
  - intros l Hl'. right. rewrite E1. destruct (Hh l Hl') as [[= <-]|(q & c & Hc & ?)].
    + exists n, b. split; [by apply Hq; right|]. split; [done|set_solver].
    + exists q, c. split; [by apply Hq; left|done].
  - split; [done|]. cbn. split; [by rewrite E2|done].
Qed.

Lemma line_step_ok heard a oldest pc e :
  (∀ l, l ∈ heard → in_u 32 (ProcessID l)) → json_ok heard (pc, e) → json_ok heard (line_step a oldest pc e).
Proof.
  intros Hr Hok. pose proof (jo_pc _ _ Hok) as [Hl Hpc]. pose proof (jo_known _ _ Hok) as Hk. cbn in Hl, Hpc, Hk.
  destruct pc as [|line|r line|line|line|r line].
  - done.
  - cbn [line_step]. unfold cache_get. destruct (logLinesCache e !! ProcessID line) as [[r []]|] eqn:Ec;
      apply (bucket_move_ok heard (Getting line) e); try done; try exact (jo_pid _ _ Hok).
    split; [done|]. cbn. split; [by apply (jo_pid _ _ Hok (ProcessID line) r false)|].
    intros r' x Hx. congruence.
  - by apply locking_ok.
  - cbn [line_step]. destruct (rest_eq e (cache_delete (ProcessID line) e) (delete_rest _ _)) as (H1 & H2 & H3).
    apply (bucket_move_ok heard (Deleting line) e); try done; [by apply H3|apply (delete_places (Deleting line))| |].
    + intros pid r x Hx%delete_lookup. by apply (jo_pid _ _ Hok pid r x).
    + split; [done|]. apply delete_gone.
  - by apply creating_ok.
  - destruct Hpc as [Hn Hb]. cbn [line_step].
    destruct (rest_eq e (cache_set oldest (ProcessID line) r e) (set_rest _ _ _ _)) as (H1 & H2 & H3).
    apply (bucket_move_ok heard (Setting r line) e); try done; [by apply H3|by apply set_places|].
    intros pid q x [[-> [= -> ->]]|Hx]%set_lookup; [done|by apply (jo_pid _ _ Hok pid q x)].
Qed.

(** ** Emission *)

Lemma emit_spec pods id r b e :
  buckets e !! r = Some b →
  let e' := emit pods id r e in
  ∃ b', buckets e' = <[r := b']> (buckets e) ∧ Emitted b' = true ∧ SyscallIds b' = SyscallIds b ∧
    b_process b' = b_process b ∧ b_timestamp b' = b_timestamp b ∧
    logLinesCache e' = logLinesCache e ∧ evicted e' = evicted e ∧ processCache e' = processCache e ∧
    ((written e' = written e ∧ (auditMap id b' = None ∨
        ∃ m, auditMap id b' = Some m ∧ ApplyEnricherFilters m filters = EnricherLogLevelNone)) ∨
     ∃ m, auditMap id b' = Some m ∧ written e' = written e ++ [m]).
Proof.
  intros Hb. cbv zeta. unfold emit. rewrite Hb.
  assert (∃ b' e1, late_info pods {| b with Emitted := true |} e = (b', e1) ∧ Emitted b' = true ∧
    SyscallIds b' = SyscallIds b ∧ b_process b' = b_process b ∧ b_timestamp b' = b_timestamp b ∧
    shared e1 = shared e ∧ processCache e1 = processCache e)
    as (b' & e1 & -> & H1 & H2 & H3 & H4 & [= E1 E2 E3 E4] & E5).
  { unfold late_info. cbn. destruct (b_info b); [by eexists _, _|].
    destruct (empty (b_container b)); [by eexists _, _|]. destruct (infos_get _ _ _); by eexists _, _. }
  exists b'. unfold dispatchSeccompLine. destruct (auditMap id b') as [m|] eqn:Em.
  - case_bool_decide as Ef; cbn; rewrite E1; (do 5 (split; [done|]));
      (do 3 (split; [done|])); [left|right].
    + split; [done|]. right. by exists m.
    + exists m. by rewrite E4.
  - cbn. rewrite E1. do 8 (split; [done|]). left. split; [done|by left].
Qed.

Lemma emit_ok heard pc e r l1 l2 pods id :
  json_ok heard (pc, e) → evicted e = l1 ++ r :: l2 →
  json_ok heard (pc, emit pods id r {| e with evicted := l1 ++ l2 |}).
Proof.
  intros [Hk Hb Hp Ho Hpid He Hw Hh Hpc] Ev. cbn [fst snd] in *.
  assert (places (pc, e) ≡ₚ r :: places (pc, {| e with evicted := l1 ++ l2 |})) as HP.
  { unfold places. cbn. rewrite Ev, <- !app_assoc. cbn. by rewrite <- !Permutation_middle. }
  assert (open e r) as (b & Hr & Hopen) by (apply Ho; rewrite HP; left).
  destruct (emit_spec pods id r b {| e with evicted := l1 ++ l2 |} Hr)
    as (b' & E1 & Hem & Hs & Hpr & Ht & E2 & E3 & E5 & Hwr).
  set (e' := emit _ _ _ _) in *. cbn in E1, E2, E3, E5, Hwr.
  assert (∀ l, of_line b' l ↔ of_line b l) as Hof by (intros l; unfold of_line; by rewrite Hpr).
  assert (r < length (buckets e))%nat as Hlt by (by eapply lookup_lt_Some).
  assert (∀ q c, buckets e' !! q = Some c ↔ (q = r ∧ c = b') ∨ (q ≠ r ∧ buckets e !! q = Some c)) as Hq.
  { intros q c. rewrite E1, list_lookup_insert_Some. naive_solver. }
  assert (places (pc, e') = places (pc, {| e with evicted := l1 ++ l2 |})) as HP' by (unfold places; cbn; by rewrite E2, E3).
  assert (∀ m, m ∈ written e → m ∈ written e') as Hmono.
  { intros m Hm. destruct Hwr as [[-> _]|(m' & _ & ->)]; [done|set_solver]. }
  assert (∀ q pid, bucket_pid e q pid → bucket_pid e' q pid) as Hbp.
  { intros q pid (c & i & Hc & Hi & Hpi). destruct (decide (q = r)) as [->|Hne].
    - exists b', i. simplify_eq. split; [by apply Hq; left|]. by rewrite Hpr.
    - exists c, i. split; [by apply Hq; right|done]. }
  rewrite HP in Hp. apply NoDup_cons in Hp as [Hnin Hnd].
  split; cbn [fst snd].
  - unfold cache_known. by rewrite E5.
  - intros q c [[_ ->]|[_ Hc]]%Hq; [|by apply (Hb q)]. destruct (Hb r b Hr) as [B1 B2 B3].
    split; [by rewrite Hpr|intros k; rewrite Hs; setoid_rewrite Hof; apply B2|by rewrite Ht].
  - by rewrite HP'.
  - intros q. rewrite HP'. destruct (decide (q = r)) as [->|Hne].
    + split; [done|]. intros (c & [[_ ->]|[? _]]%Hq & Hc); congruence.
    + specialize (Ho q). rewrite HP, elem_of_cons in Ho. split.
      * intros Hin. destruct (proj1 Ho (or_intror Hin)) as (c & Hc & Hf). exists c. split; [by apply Hq; right|done].
      * intros (c & [[? _]|[_ Hc]]%Hq & Hf); [done|]. destruct (proj2 Ho) as [->|?]; [by exists c|done|done].
  - rewrite E2. intros pid q x Hx. by apply Hbp, (Hpid pid q x).
  - intros q c [[_ ->]|[_ Hc]]%Hq Hce.
    + exists id. destruct Hwr as [[_ [->|(m & -> & Hm)]]|(m & -> & ->)]; [done|by right|left; set_solver].
    + destruct (He q c Hc Hce) as [id' H]. exists id'. destruct (auditMap id' c); [|done]. naive_solver.
  - assert (∀ m, m ∈ written e → ∃ id q c, buckets e' !! q = Some c ∧ Emitted c = true ∧ auditMap id c = Some m) as Hold.
    { intros m Hm. destruct (Hw m Hm) as (id' & q & c & Hc & Hce & Hma). exists id', q, c.
      split; [|done]. apply Hq. right. split; [congruence|done]. }
    intros m Hm. destruct Hwr as [[Ew _]|(m' & Hma & Ew)]; rewrite Ew in Hm; [by apply Hold|].
    apply elem_of_app in Hm as [Hm| ->%list_elem_of_singleton]; [by apply Hold|].
    exists id, r, b'. split; [by apply Hq; left|done].
  - intros l Hl. destruct (Hh l Hl) as [H|(q & c & Hc & [H1 H2])]; [by left|right].
    destruct (decide (q = r)) as [->|Hne].
    + exists r, b'. simplify_eq. split; [by apply Hq; left|]. split; [by apply Hof|by rewrite Hs].
    + exists q, c. split; [by apply Hq; right|done].
  - apply (pc_env heard pc e); [done|done|]. rewrite E2. eauto.
Qed.

Lemma jstep_ok heard s s' :
  (∀ l, l ∈ heard → in_u 32 (ProcessID l)) → json_ok heard s → jstep s s' → json_ok heard s'.
Proof.
  intros Hr Hok Hs. destruct Hs as [a oldest pc e|pc e pid r Hx|pc e pid r Hx|pc e r l1 l2 pods id Hx|
    pc e ids infos processes _ _ Hpr|e].
  - by apply line_step_ok.
  - pose proof (jo_known _ _ Hok) as Hk. apply (env_move_ok heard pc e); try done.
    + unfold places. cbn. by rewrite (refs_expire _ _ _ _ _ Hx).
    + cbn. intros q r' x [[<- [= <- <-]]|[_ H]]%lookup_insert_Some; eauto.
  - destruct (rest_eq e (cache_delete pid e) (delete_rest _ _)) as (H1 & H2 & H3).
    apply (env_move_ok heard pc e); try done; [by apply H3, (jo_known _ _ Hok)|apply delete_places|].
    intros q r' x H%delete_lookup. eauto.
  - by apply emit_ok.
  - destruct (jo_known _ _ Hok) as [calls Hk]. apply (env_move_ok heard pc e); try done; [|by eauto].
    exists calls. by eapply info_expire.
  - pose proof (jo_known _ _ Hok) as Hk. apply (env_move_ok heard Ready e); try done. apply delete_all_places.
Qed.

Definition heard_lines (lines : list text) : list auditLine := omap seccomp_line lines.

Lemma elem_of_heard lines l : l ∈ heard_lines lines ↔ ∃ t, t ∈ lines ∧ seccomp_line t = Some l.
Proof. apply list_elem_of_omap. Qed.

Lemma heard_range lines l : l ∈ heard_lines lines → in_u 32 (ProcessID l).
Proof. intros (t & _ & Ht)%elem_of_heard. by apply (seccomp_line_pid t). Qed.

Lemma heard_more heard heard' s pc :
  heard ⊆ heard' → json_ok heard (Ready, s) → (∀ l, pending pc = Some l → l ∈ heard') →
  (∀ l, l ∈ heard' → l ∈ heard ∨ pending pc = Some l) → (pc = Ready ∨ ∃ l, pc = Getting l) → json_ok heard' (pc, s).
Proof.
  intros Hsub [Hk Hb Hp Ho Hpid He Hw Hh Hpc] Hin Hnew Hshape. cbn [fst snd] in *.
  assert (places (pc, s) = places (Ready, s)) as HP by (by destruct Hshape as [->|[l ->]]).
  split; cbn [fst snd]; try done.
  - intros r b Hr. destruct (Hb r b Hr) as [B1 B2 (l & ? & ?)]. split; [done| |by exists l; auto].
    intros k Hk'. destruct (B2 k Hk') as (l' & ? & ?). eauto.
  - by rewrite HP.
  - intros r. by rewrite HP.
  - intros l [Hl|Hl]%Hnew; [|by left]. destruct (Hh l Hl) as [?|?]; [done|by right].
  - split; [done|]. by destruct Hshape as [->|[l ->]].
Qed.

Lemma jruns_ok s lines : jruns s lines → json_ok (heard_lines lines) s.
Proof.
  induction 1 as [|e lines line _ IH|s s' lines _ IH Hs].
  - split; cbn; try done; [exists []; constructor|by constructor| |by intros m ?%elem_of_nil|by intros l ?%elem_of_nil].
    intros r. split; [by intros ?%elem_of_nil|by intros (b & ? & _)].
  - unfold processLine, heard_lines. rewrite omap_app. cbn.
    destruct (seccomp_line line) as [l|] eqn:El.
    + eapply heard_more; [|exact IH|..]; [set_solver|cbn; intros l' [= <-]; set_solver| |eauto].
      intros l'. cbn. rewrite elem_of_app, list_elem_of_singleton. intros [?| ->]; auto.
    + rewrite app_nil_r. exact IH.
  - apply (jstep_ok _ s); [apply heard_range|done|done].
Qed.

(** ** The records *)

(** A record tells a process, an executable and syscalls. *)
Definition tells (m : log_map) (pid : Z) (executable : text) (names : list text) : Prop :=
  lookup m (bytes "pid") = Some (LInt 64 pid) ∧ lookup m (bytes "executable") = Some (LString executable) ∧
  lookup m (bytes "syscalls") = Some (LStrings names).

Lemma auditMap_tells id b m :
  auditMap id b = Some m → ∃ info, b_process b = Some info ∧
    tells m (Pid info) (pi_executable info) (omap (λ k, syscall_name k) (elements (SyscallIds b))).
Proof.
  unfold auditMap. destruct (b_process b) as [info|]; [|done].
  unfold mbind, option_bind. destruct (AuditTimeToIso _) as [ts|]; [|done]. intros [= <-].
  exists info. split; [done|]. by repeat split.
Qed.

Lemma auditMap_some id b info :
  b_process b = Some info → is_Some (audit_time (b_timestamp b)) → is_Some (auditMap id b).
Proof.
  intros Hi [t Ht]. unfold auditMap, AuditTimeToIso. rewrite Hi, Ht. cbn [mbind option_bind fmap option_fmap option_map].
  by eexists.
Qed.

(** C27 The JSON log has what the processes did: however the loop, the expiry of
    buckets and the goroutines that write them interleave, every syscall in a
    written record is one of a line that was read, of the process and executable
    of the record; and when the enricher has stopped, the syscall of every seccomp
    line that was read is in such a record, which was written unless a filter takes
    it out, if the timestamps of the lines are valid. *)
Theorem json_log_exact s lines :
  jruns s lines →
  (∀ m, m ∈ written s.2 → ∃ pid executable names, tells m pid executable names ∧
    ∀ name, name ∈ names → ∃ t line, t ∈ lines ∧ seccomp_line t = Some line ∧ ProcessID line = pid ∧
      l_executable line = executable ∧ syscall_name (syscall_key line) = Some name) ∧
  (stopped s → (∀ line, line ∈ heard_lines lines → is_Some (audit_time (TimestampID line))) →
   ∀ t line name, t ∈ lines → seccomp_line t = Some line → syscall_name (syscall_key line) = Some name →
     ∃ id b m names, b ∈ buckets s.2 ∧ auditMap id b = Some m ∧
       tells m (ProcessID line) (l_executable line) names ∧ name ∈ names ∧
       (m ∈ written s.2 ∨ ApplyEnricherFilters m filters = EnricherLogLevelNone)).
Proof.
  intros Hr. apply jruns_ok in Hr as [_ Hb _ Ho _ He Hw Hh _]. split.
  - intros m Hm. destruct (Hw m Hm) as (id & r & b & Hr & _ & Hma).
    destruct (auditMap_tells id b m Hma) as (info & Hi & Ht). eexists _, _, _. split; [exact Ht|].
    intros name (k & Hk%elem_of_elements & Hn)%list_elem_of_omap.
    destruct (bk_syscalls _ _ (Hb r b Hr) k Hk) as (l & (t & Htl & Hsl)%elem_of_heard & <- & i & Hi' & H1 & H2).
    simplify_eq. by exists t, l.
  - intros (Hpc & Hc & Hev) Htime t line name Ht Hl Hn.
    assert (line ∈ heard_lines lines) as Hin by (apply elem_of_heard; eauto).
    destruct (Hh line Hin) as [Hp|(r & b & Hr & (info & Hi & H1 & H2) & Hk)]; [by rewrite Hpc in Hp|].
    assert (Emitted b = true) as Hem.
    { apply not_false_iff_true. intros Hf. assert (r ∈ places s) as Hpl by (apply Ho; by exists b).
      unfold places in Hpl. rewrite Hc, Hev, Hpc in Hpl. by apply elem_of_nil in Hpl. }
    destruct (He r b Hr Hem) as [id Hid].
    destruct (bk_timestamp _ _ (Hb r b Hr)) as (l & Hl' & Hts).
    destruct (auditMap_some id b info Hi) as [m Hm]; [rewrite Hts; by apply Htime|].
    destruct (auditMap_tells id b m Hm) as (info' & Hi' & Htells). simplify_eq.
    rewrite Hm in Hid. exists id, b, m. eexists. split; [by eapply list_elem_of_lookup_2|].
    split; [done|]. rewrite <- H1, <- H2. split; [exact Htells|]. split; [|done].
    apply list_elem_of_omap. exists (syscall_key line). split; [by apply elem_of_elements|done].
Qed.

(** ** The enricher stops *)

Definition no_answers : line_answers := LineAnswers (ProcFiles None None None) None None None None.

Lemma jruns_line a oldest s lines : jruns s lines → jruns (line_step a oldest s.1 s.2) lines.
Proof. intros H. eapply jruns_step; [exact H|]. destruct s. constructor. Qed.

(** The loop gets ready for the next line after at most five accesses. *)
Lemma loop_ready s lines : jruns s lines → ∃ e, jruns (Ready, e) lines.
Proof.
  assert (∀ r line e, jruns (Setting r line, e) lines → ∃ e', jruns (Ready, e') lines) as H1.
  { intros r line e H%(jruns_line no_answers 0). cbn [line_step fst snd] in H. eauto. }
  assert (∀ line e, jruns (Creating line, e) lines → ∃ e', jruns (Ready, e') lines) as H2.
  { intros line e H%(jruns_line no_answers 0). cbn [line_step fst snd] in H. destruct (fill _ _ _ _). by eapply H1. }
  assert (∀ line e, jruns (Deleting line, e) lines → ∃ e', jruns (Ready, e') lines) as H3.
  { intros line e H%(jruns_line no_answers 0). cbn [line_step fst snd] in H. by eapply H2. }
  assert (∀ r line e, jruns (Locking r line, e) lines → ∃ e', jruns (Ready, e') lines) as H4.
  { intros r line e H%(jruns_line no_answers 0). cbn [line_step fst snd] in H.
    destruct (buckets e !! r) as [b|]; [|by eexists]. destruct (Emitted b); [by eapply H2|].
    destruct (negb _); [by eapply H3|]. destruct (fill _ _ _ _). by eexists. }
  destruct s as [[|line|r line|line|line|r line] e]; intros H; eauto.
  apply (jruns_line no_answers 0) in H. cbn [line_step fst snd] in H.
  destruct (cache_get _ _); [by eapply H4|by eapply H3].
Qed.

Lemma emit_cache pods id r e :
  logLinesCache (emit pods id r e) = logLinesCache e ∧ evicted (emit pods id r e) = evicted e.
Proof.
  destruct (buckets e !! r) as [b|] eqn:E; [|unfold emit; by rewrite E].
  destruct (emit_spec pods id r b e E) as (b' & _ & _ & _ & _ & _ & H1 & H2 & _). done.
Qed.

(** From every state the enricher can stop, without another line. *)
Theorem json_stops s lines : jruns s lines → ∃ e, jruns (Ready, e) lines ∧ stopped (Ready, e).
Proof.
  intros [e H]%loop_ready. assert (jruns (Ready, cache_delete_all e) lines) as Hd
    by (eapply jruns_step; [exact H|constructor]).
  assert (logLinesCache (cache_delete_all e) = ∅) as Hc by done. revert Hd Hc. generalize (cache_delete_all e).
  clear e H. intros e. remember (evicted e) as l eqn:El. revert e El.
  induction l as [|r l IH]; intros e El Hd Hc; [by exists e|].
  assert (jruns (Ready, emit None [] r {| e with evicted := l |}) lines) as Hr.
  { eapply jruns_step; [exact Hd|]. by apply (jstep_emit Ready e r [] l). }
  destruct (emit_cache None [] r {| e with evicted := l |}) as [H1 H2].
  eapply IH; [|exact Hr|]; [by rewrite H2|by rewrite H1].
Qed.

(** ** Filters of nested fields *)

Lemma IndexByte_some c s : c ∈ s → is_Some (IndexByte s c).
Proof.
  induction s as [|x s IH]; cbn; [by intros ?%elem_of_nil|]. intros [->|H]%elem_of_cons.
  - rewrite Z.eqb_refl. eauto.
  - destruct (x =? c); [eauto|]. destruct (IH H) as [n ->]. by eexists.
Qed.

Definition is_map (v : log_any) : bool := match v with LMap _ => true | _ => false end.

Lemma lookup_not_map (m : log_map) key v :
  Forall (λ kv, is_map kv.2 = false) m → lookup m key = Some v → is_map v = false.
Proof.
  induction 1 as [|[k w] m Hw _ IH]; cbn; [done|]. case_bool_decide; [by intros [= <-]|exact IH].
Qed.

(** A filter on a field of a nested map never matches a record of the JSON log:
    the maps of the resource and the node are of another type than the one
    [matchPathFilterLabel] descends into. *)
Theorem nested_filters_dead id b m label filter :
  auditMap id b = Some m → SLASH ∈ label → matchPathFilterLabel label filter m = false.
Proof.
  intros Hm Hs. unfold matchPathFilterLabel. cbn [match_path]. unfold split_label.
  destruct (IndexByte_some SLASH label Hs) as [i ->].
  destruct (lookup m (take i label)) as [v|] eqn:El; [|done].
  apply lookup_not_map in El; [by destruct v|].
  unfold auditMap in Hm. destruct (b_process b) as [info|]; [|done]. unfold mbind, option_bind in Hm.
  destruct (AuditTimeToIso _) as [ts|]; [|done]. injection Hm as <-.
  destruct (pi_uid info), (pi_gid info), (ExecRequestId info); by repeat constructor.
Qed.
End json.

(** ** Witnesses *)

Definition demo_text (nr : String.string) : text :=
  bytes "type=SECCOMP msg=audit(1746611740.574:325): auid=0 uid=1 gid=2 pid=100 comm=" ++ [QUOTE] ++ bytes "ls" ++
  [QUOTE] ++ bytes " exe=" ++ [QUOTE] ++ bytes "/bin/ls" ++ [QUOTE] ++ bytes " sig=0 arch=c000003e syscall=" ++ bytes nr.

Definition json_names (arch : text) (nr : Z) : option text :=
  if nr =? 59 then Some (bytes "execve") else if nr =? 0 then Some (bytes "read") else None.

Definition demo_json_line : auditLine := {| (new_line AuditTypeSeccomp) with
  ProcessID := 100; TimestampID := bytes "1746611740.574:325"; SystemCallID := 59;
  l_executable := bytes "/bin/ls"; Arch := bytes "c000003e"; Uid := Some 1; Gid := Some 2 |}.

(** The accesses for one line, the end of the enricher, and the goroutine. *)
Definition demo_filled : line_pc * JsonEnricher :=
  Nat.iter 4 (λ s, line_step no_answers 0 s.1 s.2) (Getting demo_json_line, new_json).
Definition demo_json : JsonEnricher :=
  emit (json_names []) json_names [] (bytes "node") None (bytes "id") 0
    {| (cache_delete_all demo_filled.2) with evicted := [] |}.

Abbreviation demo_jruns := (jruns (json_names []) json_names [] (bytes "node")).

Lemma demo_json_runs : demo_jruns (Ready, demo_json) [demo_text "59"].
Proof.
  assert (demo_jruns demo_filled [demo_text "59"]) as H.
  { unfold demo_filled. cbn [Nat.iter].
    do 4 apply jruns_line. replace (Getting demo_json_line) with (processLine (demo_text "59")) by by vm_compute.
    apply (jruns_read _ _ _ _ new_json [] (demo_text "59")). constructor. }
  assert (demo_filled.1 = Ready) as Hpc by by vm_compute.
  destruct demo_filled as [pc e] eqn:E. cbn in Hpc. subst pc.
  unfold demo_json. rewrite E. cbn [snd].
  eapply jruns_step; [eapply jruns_step; [exact H|apply jstep_stop]|].
  apply (jstep_emit _ _ _ _ Ready (cache_delete_all e) 0%nat [] []).
  replace e with demo_filled.2 by by rewrite E. by vm_compute.
Qed.

Lemma demo_line_read : seccomp_line (demo_text "59") = Some demo_json_line.
Proof. by vm_compute. Qed.

Lemma demo_json_stopped : stopped (Ready, demo_json).
Proof. split; [done|]. split; by vm_compute. Qed.

Lemma demo_line_time line : line ∈ heard_lines [demo_text "59"] → is_Some (audit_time (TimestampID line)).
Proof.
  intros (t & ->%list_elem_of_singleton & Hl)%elem_of_heard. rewrite demo_line_read in Hl.
  assert (line = demo_json_line) as -> by congruence. exists (1746611740, 574). by vm_compute.
Qed.

Lemma demo_line_name :
  syscallName (json_names []) json_names (SystemCallID demo_json_line) (Arch demo_json_line) = Some (bytes "execve").
Proof. by vm_compute. Qed.

Lemma json_log_exact_witness :
  ∃ id b m names, b ∈ buckets demo_json ∧ auditMap (json_names []) json_names (bytes "node") id b = Some m ∧
    tells m 100 (bytes "/bin/ls") names ∧ bytes "execve" ∈ names ∧
    (m ∈ written demo_json ∨ ApplyEnricherFilters m [] = EnricherLogLevelNone).
Proof.
  exact (proj2 (json_log_exact (json_names []) json_names [] (bytes "node") (Ready, demo_json)
    [demo_text "59"] demo_json_runs) demo_json_stopped demo_line_time (demo_text "59") demo_json_line
    (bytes "execve") (list_elem_of_here _ _) demo_line_read demo_line_name).
Defined.

(** A filter that is to take the records of a pod out, and a record of the pod it
    does not match. *)
Example nested_filter_example :
  let info := MkProcessInfo 100 [] None None (bytes "/bin/ls") None in
  let pod := MkContainerInfo (bytes "p") (bytes "c") (bytes "ns") (bytes "id") [] in
  let b := Bucket {[(59, bytes "c000003e")]} (Some pod) (bytes "id") (Some info) (bytes "1.0:1") false in
  let filter := Filter 0 EnricherLogLevelNone [bytes "resource/pod"] (Some [bytes "p"]) in
  (λ m, ApplyEnricherFilters m [filter]) <$> auditMap (json_names []) json_names (bytes "node") [] b =
    Some EnricherLogLevelMetadata.
Proof. by vm_compute. Qed.
