(* ===== verification/Rely.v ===== *)
(** * Rely and guarantee

    A logic for programs that interleave ([Bpf]): [rg I R J p Q] says that [p],
    started in a state with [J], only makes steps that keep the invariant [I] and
    are allowed by [R], and that its result satisfies [Q], as long as all others
    only make such steps too.  The assertions are stable under the steps of the
    others, so what a program has established still holds when it goes on, and
    what it has established in the end holds from then on ([pool_rg]). *)
From S2P Require Import Prelude Bpf.

Section rely.
Context {W : Type} (I : W → Prop) (R : W → W → Prop).

Definition stable (J : W → Prop) : Prop := ∀ w w', I w → I w' → R w w' → J w → J w'.

Fixpoint rg {A} (Q : A → W → Prop) (J : W → Prop) (p : prog W A) : Prop :=
  match p with
  | Ret a => ∀ w, I w → J w → Q a w
  | Act f k => ∀ w, I w → J w → I (f w).2 ∧ R w (f w).2 ∧
      ∃ J', J' (f w).2 ∧ stable J' ∧ rg Q J' (k (f w).1)
  end.

Lemma rg_weaken {A} (Q : A → W → Prop) (J J' : W → Prop) p :
  (∀ w, I w → J' w → J w) → rg Q J p → rg Q J' p.
Proof. intros HJ Hp. destruct p; cbn in *; eauto. Qed.

Lemma rg_bind {A B} (P : A → W → Prop) (Q : B → W → Prop) J (p : prog W A) (q : A → prog W B) :
  rg P J p → (∀ a, rg Q (P a) (q a)) → rg Q J (p ≫= q).
Proof.
  intros Hp Hq. unfold mbind, prog_bind.
  induction p as [a|T f k IH] in J, Hp |- *; cbn.
  - eapply rg_weaken; [|apply Hq]. exact Hp.
  - intros w Hw HJ. destruct (Hp w Hw HJ) as (H1 & H2 & J' & H3 & H4 & H5).
    split; [done|]. split; [done|]. exists J'. split; [done|]. split; [done|]. by apply IH.
Qed.

Lemma rg_post {A} (Q Q' : A → W → Prop) J p :
  (∀ a w, I w → Q a w → Q' a w) → rg Q J p → rg Q' J p.
Proof.
  intros HQ. induction p as [a|T f k IH] in J |- *; cbn; [eauto|]. intros Hp w Hw HJ.
  destruct (Hp w Hw HJ) as (H1 & H2 & J' & H3 & H4 & H5).
  split; [done|]. split; [done|]. exists J'. auto.
Qed.

(** What is stable is kept. *)
Lemma rg_frame {A} (Q : A → W → Prop) J F p :
  stable F → rg Q J p → rg (λ a w, Q a w ∧ F w) (λ w, J w ∧ F w) p.
Proof.
  intros HF. induction p as [a|T f k IH] in J |- *; cbn; [naive_solver|]. intros Hp w Hw [HJ HFw].
  destruct (Hp w Hw HJ) as (H1 & H2 & J' & H3 & H4 & H5).
  split; [done|]. split; [done|]. exists (λ w, J' w ∧ F w).
  split; [split; [done|by apply (HF w (f w).2)]|]. split; [|by apply IH].
  intros w1 w2 ? ? ? []. split; [by apply (H4 w1 w2)|by apply (HF w1 w2)].
Qed.

(** An access keeps what is stable. *)
Lemma rg_step {A} (Q : A → W → Prop) J {T : Set} (f : W → T * W) (q : T → prog W A)
    (P : T → W → Prop) :
  (∀ w, I w → J w → I (f w).2 ∧ R w (f w).2 ∧ P (f w).1 (f w).2) →
  (∀ r, stable (P r)) → (∀ r, rg Q (P r) (q r)) → rg Q J (act f ≫= q).
Proof.
  intros Hf HP Hq w Hw HJ. destruct (Hf w Hw HJ) as (H1 & H2 & H3).
  split; [done|]. split; [done|]. exists (P (f w).1). split; [done|]. split; [apply HP|apply Hq].
Qed.

Lemma rg_pure {A} (φ : Prop) (Q : A → W → Prop) J p :
  (∀ w, I w → J w → φ) → (φ → rg Q J p) → rg Q J p.
Proof. intros Hφ Hp. destruct p; cbn in *; intros w Hw HJ; by apply (Hp (Hφ w Hw HJ)). Qed.

Lemma rg_act {T : Set} (f : W → T * W) J (P : T → W → Prop) :
  (∀ w, I w → J w → I (f w).2 ∧ R w (f w).2 ∧ P (f w).1 (f w).2) →
  (∀ r, stable (P r)) → rg P J (act f).
Proof. intros Hf HP. apply (rg_step P J f Ret P); [done|done|]. by intros r w _ Hr. Qed.

Lemma stable_and J J' : stable J → stable J' → stable (λ w, J w ∧ J' w).
Proof. intros H1 H2 w w' ? ? ? []. split; eauto. Qed.

Lemma stable_const φ : stable (λ _, φ).
Proof. by intros w w' _ _ _. Qed.

(** ** The pool *)

(** A thread of the pool. *)
Definition running {A} (Q : A → W → Prop) (w : W) (p : prog W A) : Prop :=
  ∃ J, J w ∧ stable J ∧ rg Q J p.

Section pool.
Context {A : Type} (hooks : prog W A → Prop) (env : W → W → Prop).
Context (Hhooks : ∀ p, hooks p → rg (λ _ _, True) (λ _, True) p).
Context (Henv : ∀ w w', I w → env w w' → I w' ∧ R w w').

Lemma running_other Q w w' (p : prog W A) : I w → I w' → R w w' → running Q w p → running Q w' p.
Proof. intros Hw Hw' HR (J & HJ & Hs & Hp). exists J. split; [by apply (Hs w w')|by split]. Qed.

Lemma running_access Q w (T : Set) (f : W → T * W) (k : T → prog W A) :
  I w → running Q w (Act f k) → I (f w).2 ∧ R w (f w).2 ∧ running Q (f w).2 (k (f w).1).
Proof.
  intros Hw (J & HJ & Hs & Hp). destruct (Hp w Hw HJ) as (H1 & H2 & J' & H3).
  split; [done|]. split; [done|]. by exists J'.
Qed.

(** The post condition of the thread [i] ([None]: of no thread). *)
Definition pool_ok (i : option nat) (Q : A → W → Prop) (s : list (prog W A) * W) : Prop :=
  I s.2 ∧ ∀ j p, s.1 !! j = Some p →
    running (if bool_decide (i = Some j) then Q else λ _ _, True) s.2 p.

Lemma pool_step i Q s s' :
  (∀ j, i = Some j → (j < length s.1)%nat) →
  pool_ok i Q s → pstep hooks env s s' → pool_ok i Q s' ∧ (length s.1 <= length s'.1)%nat.
Proof.
  intros Hi Hok Hs. destruct Hs as [ts w j T f k Hj|ts w p Hp|ts w w' Hw];
    destruct Hok as [HI Ht]; cbn in *.
  - destruct (running_access _ w _ f k HI (Ht _ _ Hj)) as (H1 & H2 & H3).
    rewrite length_insert. split; [|lia]. split; [done|]. cbn. intros j' p.
    destruct (decide (j' = j)) as [->|Hne].
    + rewrite list_lookup_insert_eq by (apply lookup_lt_is_Some; eauto). by intros [= <-].
    + rewrite list_lookup_insert_ne by done. intros H%Ht. by apply (running_other _ w).
  - rewrite length_app. split; [|lia]. split; [done|]. cbn. intros j q.
    rewrite lookup_app_Some. intros [H|[Hl H]]; [by apply Ht|].
    apply list_lookup_singleton_Some in H as [Hj ->].
    rewrite bool_decide_eq_false_2 by (intros ->; specialize (Hi j eq_refl); lia).
    exists (λ _, True). split; [done|]. split; [apply stable_const|by apply Hhooks].
  - destruct (Henv w w' HI Hw) as [H1 H2]. split; [|lia]. split; [done|]. cbn.
    intros j p H%Ht. by apply (running_other _ w).
Qed.

Lemma pool_steps i Q s s' :
  (∀ j, i = Some j → (j < length s.1)%nat) →
  pool_ok i Q s → rtc (pstep hooks env) s s' → pool_ok i Q s'.
Proof.
  intros Hi Hok Hr. induction Hr as [s|s s1 s2 Hs Hr IH]; [done|].
  destruct (pool_step i Q s s1 Hi Hok Hs) as [Hok1 Hl]. apply IH; [|done].
  intros j Hj. specialize (Hi j Hj). lia.
Qed.

(** The invariant holds in every interleaving. *)
Lemma pool_rg w0 ts w : I w0 → reachable hooks env w0 (ts, w) → I w.
Proof.
  intros H0 Hr. apply (pool_steps None (λ _ _, True)) in Hr as [H _]; [done|done|].
  split; [done|]. by intros j p.
Qed.

(** A program that is started in some state of the pool and has returned has
    its post condition, whatever else has run since. *)
Lemma pool_post w0 ts w p Q ts' w' a :
  I w0 → reachable hooks env w0 (ts, w) → hooks p → rg Q (λ _, True) p →
  rtc (pstep hooks env) (ts ++ [p], w) (ts', w') → ts' !! length ts = Some (Ret a) → Q a w'.
Proof.
  intros H0 Hr Hh Hp Hr' Ha.
  assert (pool_ok None (λ _ _, True) (ts, w)) as [HI Ht].
  { apply (pool_steps None _ ([], w0)); [done| |exact Hr]. split; [done|]. by intros j q. }
  apply (pool_steps (Some (length ts)) Q) in Hr' as [HI' Ht'].
  - cbn in Ht'. apply Ht' in Ha. rewrite bool_decide_eq_true_2 in Ha by done.
    destruct Ha as (J & HJ & _ & Hrg). by apply Hrg.
  - intros j [= <-]. cbn. rewrite length_app. cbn. lia.
  - split; [done|]. cbn. intros j q. rewrite lookup_app_Some. intros [H|[Hl H]].
    + rewrite bool_decide_eq_false_2; [by apply (Ht j)|]. intros [= <-].
      apply lookup_lt_Some in H. lia.
    + apply list_lookup_singleton_Some in H as [Hj ->]. assert (j = length ts) as -> by lia.
      rewrite bool_decide_eq_true_2 by done. exists (λ _, True).
      split; [done|]. split; [apply stable_const|done].
Qed.
End pool.
End rely.
