(* ===== verification/Collect.v ===== *)
(** * Collecting and resetting profiles ([bpfrecorder.go])

    The requests of the operator to the recorder: [SyscallsForProfile] and
    [ApparmorForProfile] hand out what was recorded for a profile, and once it is
    stored, [ResetSyscallsForProfile] and [ResetApparmorForProfile] drop it.  A
    container can be recorded for several profiles at once, so a reset must leave
    the others alone ([reset_apparmor_isolated], [reset_syscalls_isolated]).

    The requests are modelled whole, one after the other; between the tries of
    [getKeysForProfileWithRetry], which sleeps, the rest of the recorder may
    change the state in any way ([env]).  What libseccomp and the index of the
    pods answer are parameters. *)
From S2P Require Import Prelude Bpf State Wire Paths AppArmor Recording Profile Seccomp.
From S2P Require Import ContainerKeys ContainerProfiles Recorder.
Import String.StringSyntax.
#[local] Open Scope string_scope.
#[local] Open Scope list_scope.
#[local] Open Scope Z_scope.

Inductive rpc_error :=
  | InvalidArgument
  | NotRunning
  | NoSeccomp
  | NoAppArmor
  | AppArmorUnavailable
  | NotFound
  | ContextDone
  | ReadSyscalls (errno : Z).

Definition validateProfileRequest (name : str) : bool := negb (bool_decide (name = [])).

Section requests.
Context (GetName : Z → option (list Z)) (pods : option (str → option Pod)).
Context (env : nat → BpfRecorder → BpfRecorder) (ctx_done : nat → bool).

(** [wait.ExponentialBackoffWithContext]: try [i], with [steps] more to go. *)
Fixpoint try_keys (profile : str) (steps i : nat) (b : BpfRecorder) :
    (rpc_error + list Z) * BpfRecorder :=
  if ctx_done i then (inl ContextDone, b)
  else
    let found := getKeysForProfile profile b in
    if negb (bool_decide (found = [])) then (inr found, b)
    else
      match steps with
      | O => (inl (if ctx_done (S i) then ContextDone else NotFound), b)
      | S steps => try_keys profile steps (S i) (env i b)
      end.

Definition backoffSteps : nat := 5.

Definition getKeysForProfileWithRetry (profile : str) (b : BpfRecorder) :
    (rpc_error + list Z) * BpfRecorder :=
  if bool_decide (profile ∈ collectedProfiles b) then (inl NotFound, b)
  else try_keys profile (pred backoffSteps) 0 (cacheProfilesOfUnresolvedContainers pods b).

(** A read of the map of syscalls; the map of the kernel is there. *)
Definition GetValue64 (b : BpfRecorder) (key : Z) : read_result :=
  match rec_syscalls b !! key with Some v => Value v | None => ENOENT end.

Definition SyscallsForProfile (name : str) (b : BpfRecorder) :
    (rpc_error + list (list Z)) * BpfRecorder :=
  if negb (validateProfileRequest name) then (inl InvalidArgument, b)
  else if startRequests b =? 0 then (inl NotRunning, b)
  else
    match rec_seccomp b with
    | None => (inl NoSeccomp, b)
    | Some _ =>
        match getKeysForProfileWithRetry name b with
        | (inl err, b) => (inl err, b)
        | (inr keys, b) =>
            let '(res, cache) :=
              Syscalls GetName (GetValue64 b) (default ∅ (rec_seccomp b)) keys in
            let b := {| b with rec_seccomp := Some cache |} in
            match res with
            | inl ErrNotFound => (inl NotFound, b)
            | inl (ErrReadSyscalls errno) => (inl (ReadSyscalls errno), b)
            | inr syscalls => (inr syscalls, b)
            end
        end
    end.

Definition ApparmorForProfile (name : str) (b : BpfRecorder) :
    (rpc_error + BpfAppArmorProcessed) * BpfRecorder :=
  if negb (validateProfileRequest name) then (inl InvalidArgument, b)
  else if startRequests b =? 0 then (inl NotRunning, b)
  else
    match rec_apparmor b with
    | None => (inl NoAppArmor, b)
    | Some _ =>
        if unavailable b then (inl AppArmorUnavailable, b)
        else
          match getKeysForProfileWithRetry name b with
          | (inl err, b) => (inl err, b)
          | (inr keys, b) =>
              match rec_apparmor b with
              | None => (inl NoAppArmor, b)
              | Some a =>
                  let '(apparmor, ok) := GetAppArmorProcessed a keys in
                  if negb ok then (inl NotFound, b) else (inr apparmor, b)
              end
          end
    end.

(** ** Resets *)

Definition resetProfile (profile : str) (clearData : list Z → BpfRecorder → BpfRecorder)
    (b : BpfRecorder) : BpfRecorder :=
  let containerIDs := ContainerProfiles.Containers profile (rec_profiles b) in
  if bool_decide (containerIDs = []) then b
  else
    let b := clearData (keysOf containerIDs (rec_keys b)) b in
    let b := {| b with collectedProfiles := {[profile]} ∪ collectedProfiles b |} in
    let '(unused, profiles) := DeleteProfile profile (rec_profiles b) in
    {| b with rec_profiles := profiles;
              rec_keys := fold_left (λ c id, DeleteContainer id c) unused (rec_keys b) |}.

Definition clear_syscalls (keys : list Z) (b : BpfRecorder) : BpfRecorder :=
  {| b with rec_syscalls := Seccomp.Clear keys (rec_syscalls b) |}.

Definition clear_apparmor_data (keys : list Z) (b : BpfRecorder) : BpfRecorder :=
  {| b with rec_apparmor := (λ a, exec (AppArmor.Clear keys) a) <$> rec_apparmor b |}.

Definition ResetSyscallsForProfile (name : str) (b : BpfRecorder) :
    (rpc_error + unit) * BpfRecorder :=
  if negb (validateProfileRequest name) then (inl InvalidArgument, b)
  else match rec_seccomp b with
       | None => (inl NoSeccomp, b)
       | Some _ => (inr tt, resetProfile name clear_syscalls b)
       end.

Definition ResetApparmorForProfile (name : str) (b : BpfRecorder) :
    (rpc_error + unit) * BpfRecorder :=
  if negb (validateProfileRequest name) then (inl InvalidArgument, b)
  else match rec_apparmor b with
       | None => (inl NoAppArmor, b)
       | Some _ => (inr tt, resetProfile name clear_apparmor_data b)
       end.
End requests.

(** ** The tables after a reset *)

(** The tables of the recorder, and the pairs of the second one. *)
Definition tables_ok (l : pairs) (b : BpfRecorder) : Prop :=
  keys_ok (rec_keys b) ∧ rep l (rec_profiles b).

Lemma keys_deletes unused c :
  keys_ok c →
  keys_ok (fold_left (λ c id, DeleteContainer id c) unused c) ∧
  ∀ id, keys_set (fold_left (λ c id, DeleteContainer id c) unused c) id =
        if bool_decide (id ∈ unused) then ∅ else keys_set c id.
Proof.
  revert c. induction unused as [|i unused IH]; intros c Hc; cbn [fold_left].
  { split; [done|]. intros id. by rewrite bool_decide_eq_false_2 by apply not_elem_of_nil. }
  destruct (IH _ (DeleteContainer_ok i c Hc)) as [Hk Hs]. split; [done|].
  intros id. rewrite Hs, keys_set_delete.
  rewrite (bool_decide_ext (id ∈ i :: unused) (id = i ∨ id ∈ unused)) by apply elem_of_cons.
  repeat case_bool_decide; tauto.
Qed.

Lemma keysOf_ext ids c c' :
  (∀ id, id ∈ ids → keys_set c' id = keys_set c id) → keysOf ids c' = keysOf ids c.
Proof.
  intros H. unfold keysOf. do 2 f_equal. induction ids as [|id ids IH]; [done|]. cbn.
  rewrite H by left. f_equal. apply IH. intros i Hi. apply H. by right.
Qed.

Section reset.
Context (clearData : list Z → BpfRecorder → BpfRecorder).
Context (Hclear : ∀ keys b, let b' := clearData keys b in
  startRequests b' = startRequests b ∧ rec_keys b' = rec_keys b ∧
  rec_profiles b' = rec_profiles b ∧ collectedProfiles b' = collectedProfiles b).

(** What a reset of [p] does to the tables. *)
Lemma reset_tables p l b :
  tables_ok l b → (∃ id, (id, p) ∈ l) →
  let b' := resetProfile p clearData b in
  tables_ok (filter (λ x, x.2 ≠ p) l) b' ∧ startRequests b' = startRequests b ∧
  collectedProfiles b' = {[p]} ∪ collectedProfiles b ∧
  (∀ id, keys_set (rec_keys b') id =
     if bool_decide (id ∈ filter (λ i, profiles_of l i = [p]) (containers_of l p)) then ∅
     else keys_set (rec_keys b) id) ∧
  (let b1 := clearData (getKeysForProfile p b) b in
   rec_seccomp b' = rec_seccomp b1 ∧ rec_apparmor b' = rec_apparmor b1 ∧
   unavailable b' = unavailable b1 ∧ rec_syscalls b' = rec_syscalls b1).
Proof.
  intros [Hk Hr] [i Hi]. unfold resetProfile, getKeysForProfile.
  assert (ContainerProfiles.Containers p (rec_profiles b) ≠ []) as Hne.
  { unfold ContainerProfiles.Containers. rewrite (rep_profile _ _ Hr). intros E.
    apply elem_of_containers in Hi. rewrite E in Hi. by apply not_elem_of_nil in Hi. }
  rewrite (bool_decide_eq_false_2 _ Hne). cbv zeta.
  set (keys := keysOf _ (rec_keys b)). destruct (Hclear keys b) as (H1 & H2 & H3 & H4).
  cbn [rec_profiles rec_keys]. rewrite H3.
  destruct (DeleteProfile_rep p l _ Hr) as [Hu Hr']. cbn [spec_op fst snd] in Hu, Hr'.
  destruct (DeleteProfile p (rec_profiles b)) as [unused profiles]. cbn [fst snd] in Hu, Hr'. subst unused.
  rewrite H2. destruct (keys_deletes (filter (λ i, profiles_of l i = [p]) (containers_of l p)) _ Hk)
    as [Hk' Hs'].
  cbn [rec_keys rec_profiles startRequests collectedProfiles]. rewrite H4.
  split; [by split|]. split; [done|]. split; [done|]. split; [done|].
  by split_and!.
Qed.

(** Every other profile keeps its keys. *)
Lemma reset_keys p l b q :
  tables_ok l b → (∃ id, (id, p) ∈ l) →
  getKeysForProfile q (resetProfile p clearData b) =
  if bool_decide (q = p) then [] else getKeysForProfile q b.
Proof.
  intros Ht Hp. destruct (reset_tables p l b Ht Hp) as ([Hk' Hr'] & _ & _ & Hs & _).
  destruct Ht as [Hk Hr]. unfold getKeysForProfile, ContainerProfiles.Containers.
  rewrite (rep_profile _ _ Hr'), (rep_profile _ _ Hr), containers_del_profile.
  destruct (decide (q = p)) as [->|Hq]; [by rewrite (bool_decide_eq_true_2 (p = p))|].
  rewrite (bool_decide_eq_false_2 (q = p)) by done. case_bool_decide; [done|].
  apply keysOf_ext. intros id Hid.
  rewrite Hs, bool_decide_eq_false_2; [done|]. intros [He _]%list_elem_of_filter.
  apply elem_of_containers, elem_of_profiles in Hid. rewrite He in Hid.
  by apply list_elem_of_singleton in Hid.
Qed.

(** Every container with keys has a profile. *)
Definition resolved (b : BpfRecorder) : Prop :=
  ∀ id, id ∈ ContainerKeys.Containers (rec_keys b) →
    is_Some (ContainerProfiles.Get id (rec_profiles b)).

Lemma resolved_iff l b :
  tables_ok l b → resolved b ↔ ∀ id, keys_set (rec_keys b) id ≠ ∅ → profiles_of l id ≠ [].
Proof.
  intros [Hk Hr]. unfold resolved, ContainerProfiles.Get.
  setoid_rewrite (elem_of_Containers _ _ Hk). setoid_rewrite (rep_container _ _ Hr).
  assert (∀ id, (∃ key, byKey (rec_keys b) !! key = Some id) ↔ keys_set (rec_keys b) id ≠ ∅) as He.
  { intros id. setoid_rewrite (ko_step _ Hk). split; [set_solver|apply set_choose_L]. }
  setoid_rewrite He. assert (∀ ps : list str, is_Some (head ps) ↔ ps ≠ []) as Hh.
  { intros [|p ps]; cbn; split; try done; by intros []. }
  by setoid_rewrite Hh.
Qed.

Lemma reset_resolved p l b :
  tables_ok l b → (∃ id, (id, p) ∈ l) → resolved b → resolved (resetProfile p clearData b).
Proof.
  intros Ht Hp. destruct (reset_tables p l b Ht Hp) as (Ht' & _ & _ & Hs & _).
  rewrite (resolved_iff _ _ Ht), (resolved_iff _ _ Ht'). intros Hb id. rewrite Hs, profiles_del_profile.
  case_bool_decide as Hu; [done|]. intros Hne%Hb. destruct Ht as [_ Hr].
  rewrite without_nil by by apply profiles_nodup, Hr. intros [E|E]; [done|]. apply Hu.
  apply list_elem_of_filter. split; [done|].
  rewrite elem_of_containers, <- elem_of_profiles, E. left.
Qed.
End reset.

(** ** What the requests answer *)

Section answers.
Context (GetName : Z → option (list Z)) (pods : option (str → option Pod)).
Context (env : nat → BpfRecorder → BpfRecorder) (ctx_done : nat → bool).

Lemma resolved_cache b : resolved b → cacheProfilesOfUnresolvedContainers pods b = b.
Proof.
  intros Hb. unfold cacheProfilesOfUnresolvedContainers. destruct pods as [find_pod|]; [|done].
  assert (∀ l, (∀ id, id ∈ l → is_Some (ContainerProfiles.Get id (rec_profiles b))) →
    fold_left (λ c id, match ContainerProfiles.Get id c with
      | Some _ => c
      | None => match find_pod id with Some pod => cacheProfilesOfPod pod c | None => c end
      end) l (rec_profiles b) = rec_profiles b) as Hl.
  { induction l as [|id l IH]; intros Hl; [done|]. cbn [fold_left].
    destruct (Hl id ltac:(left)) as [p ->]. apply IH. intros i Hi. apply Hl. by right. }
  rewrite Hl by done. by destruct b.
Qed.

Lemma retry_found p b :
  resolved b → p ∉ collectedProfiles b → getKeysForProfile p b ≠ [] →
  getKeysForProfileWithRetry pods env ctx_done p b =
  if ctx_done 0 then (inl ContextDone, b) else (inr (getKeysForProfile p b), b).
Proof.
  intros Hb Hc Hk. unfold getKeysForProfileWithRetry. rewrite bool_decide_eq_false_2 by done.
  rewrite resolved_cache by done. cbn [try_keys pred backoffSteps].
  by rewrite (bool_decide_eq_false_2 _ Hk).
Qed.

Lemma retry_collected p b :
  p ∈ collectedProfiles b →
  getKeysForProfileWithRetry pods env ctx_done p b = (inl NotFound, b).
Proof. intros H. unfold getKeysForProfileWithRetry. by rewrite bool_decide_eq_true_2. Qed.
End answers.

(** ** The data after a reset *)

(** What a profile is made of: the data of its keys. *)
Definition same_data (keys : list Z) (a a' : AppArmorRecorder) : Prop :=
  programName a' = programName a ∧
  ∀ key, key ∈ keys →
    recordedFiles a' !! key = recordedFiles a !! key ∧
    recordedCapabilities a' !! key = recordedCapabilities a !! key ∧
    recordedSocketsUse a' !! key = recordedSocketsUse a !! key.

Lemma classify_file_program a a' files cl fileName :
  programName a' = programName a → classify_file a' files cl fileName = classify_file a files cl fileName.
Proof. intros H. unfold classify_file, classifyFileAccess. by rewrite H. Qed.

Lemma fold_left_ext_in {A B} (f g : A → B → A) l a :
  (∀ a x, x ∈ l → f a x = g a x) → fold_left f l a = fold_left g l a.
Proof.
  revert a. induction l as [|x l IH]; intros a H; [done|]. cbn. rewrite H by left.
  apply IH. intros. apply H. by right.
Qed.

Lemma omap_ext_in {A B} (f g : A → option B) (l : list A) :
  (∀ x, x ∈ l → f x = g x) → omap f l = omap g l.
Proof.
  induction l as [|x l IH]; intros H; [done|]. cbn. rewrite H by left.
  rewrite IH; [done|]. intros. apply H. by right.
Qed.

Lemma processed_same keys a a' :
  same_data keys a a' → GetAppArmorProcessed a' keys = GetAppArmorProcessed a keys.
Proof.
  intros [Hp Hd]. unfold GetAppArmorProcessed, processExecFsEvents, processCapabilities.
  assert (classify a' keys = classify a keys) as ->.
  { apply fold_left_ext_in. intros cl key Hk. unfold classify_key.
    destruct (Hd key Hk) as (-> & _ & _). destruct (recordedFiles a !! key); [|done].
    apply fold_left_ext_in. intros. by apply classify_file_program. }
  rewrite (omap_ext_in (λ k, recordedCapabilities a' !! k) (λ k, recordedCapabilities a !! k))
    by apply Hd.
  by rewrite (omap_ext_in (λ k, recordedSocketsUse a' !! k) (λ k, recordedSocketsUse a !! k))
    by apply Hd.
Qed.

Lemma fold_program keys a : programName (fold_left clear_data keys a) = programName a.
Proof. revert a. induction keys as [|k keys IH]; intros a; [done|]. cbn. by rewrite IH. Qed.

Lemma clear_program keys a : programName (exec (AppArmor.Clear keys) a) = programName a.
Proof.
  assert (guar (λ b b', programName b' = programName b) (AppArmor.Clear keys)) as H.
  { unfold AppArmor.Clear, forgetReported. apply guar_bind.
    - constructor; [intros w; apply fold_program|constructor].
    - intros _. apply guar_bind; [by repeat constructor|]. intros set.
      destruct set; cbn [negb]; [|constructor].
      apply guar_bind; intros; apply for_each_guar; intros; by repeat constructor. }
  apply (guar_exec _ _ a) in H; [done|by intros ?|]. intros b1 b2 b3. congruence.
Qed.

Lemma clear_same pkeys keys a :
  (∀ key, key ∈ keys → key ∉ pkeys) → same_data keys a (exec (AppArmor.Clear pkeys) a).
Proof.
  intros Hd. split; [apply clear_program|]. intros key Hk%Hd.
  pose proof (clear_run pkeys a) as [= -> -> -> _ _ _]. clear Hd. revert a.
  induction pkeys as [|k pkeys IH]; intros a; [done|]. apply not_elem_of_cons in Hk as [Hne Hk].
  cbn [fold_left]. destruct (IH Hk (clear_data a k)) as (-> & -> & ->). cbn.
  by rewrite !lookup_delete_ne by done.
Qed.

Lemma clear_syscalls_lookup keys m key :
  Seccomp.Clear keys m !! key = if bool_decide (key ∈ keys) then None else m !! key.
Proof.
  unfold Seccomp.Clear. revert m. induction keys as [|k keys IH]; intros m; cbn [fold_left].
  { by rewrite bool_decide_eq_false_2 by apply not_elem_of_nil. }
  rewrite IH, (bool_decide_ext (key ∈ k :: keys) (key = k ∨ key ∈ keys)) by apply elem_of_cons.
  destruct (decide (key = k)) as [->|Hne]; [rewrite lookup_delete_eq|rewrite lookup_delete_ne by done];
    repeat case_bool_decide; tauto.
Qed.

(** Profiles of different containers have different keys. *)
Lemma keys_disjoint p q l b :
  tables_ok l b → (∀ id, (id, p) ∈ l → (id, q) ∉ l) →
  ∀ key, key ∈ getKeysForProfile q b → key ∉ getKeysForProfile p b.
Proof.
  intros [Hk Hr] Hd key. unfold getKeysForProfile, ContainerProfiles.Containers.
  rewrite !(rep_profile _ _ Hr).
  case_bool_decide; [by intros ?%not_elem_of_nil|]. rewrite elem_of_keysOf by done.
  intros (i & Hi & Hki). case_bool_decide; [apply not_elem_of_nil|]. rewrite elem_of_keysOf by done.
  intros (j & Hj & Hkj). apply elem_of_containers in Hi, Hj. simplify_eq. by eapply Hd.
Qed.

(** The names of a profile depend on the bit maps of its keys only. *)
Lemma Syscalls_ext GetName read read' cache keys :
  (∀ key, key ∈ keys → read' key = read key) →
  Syscalls GetName read' cache keys = Syscalls GetName read cache keys.
Proof.
  intros H. unfold Syscalls.
  rewrite (fold_left_ext_in (read_key read') (read_key read)); [done|].
  intros [m e] key Hk. unfold read_key. by rewrite (H key Hk).
Qed.

Section isolation.
Context (GetName : Z → option (list Z)) (pods : option (str → option Pod)).
Context (env : nat → BpfRecorder → BpfRecorder) (ctx_done : nat → bool).
Abbreviation syscalls_for := (λ q b, (SyscallsForProfile GetName pods env ctx_done q b).1).
Abbreviation apparmor_for := (λ q b, (ApparmorForProfile pods env ctx_done q b).1).

(** The answers for [q] of two states which agree on what is asked. *)
Lemma syscalls_for_same q b b' :
  resolved b → resolved b' → (q ∈ collectedProfiles b' ↔ q ∈ collectedProfiles b) →
  startRequests b' = startRequests b → rec_seccomp b' = rec_seccomp b →
  getKeysForProfile q b ≠ [] → getKeysForProfile q b' = getKeysForProfile q b →
  (∀ key, key ∈ getKeysForProfile q b → rec_syscalls b' !! key = rec_syscalls b !! key) →
  syscalls_for q b' = syscalls_for q b.
Proof.
  intros Hb Hb' Hc H1 H2 Hne Hk Hd. unfold SyscallsForProfile. rewrite H1, H2.
  destruct (negb _); [done|]. destruct (_ =? 0); [done|]. destruct (rec_seccomp b) as [cache|] eqn:E; [|done].
  destruct (decide (q ∈ collectedProfiles b)) as [Hin|Hin].
  { by rewrite !retry_collected by tauto. }
  rewrite !retry_found by (rewrite ?Hk; tauto). destruct (ctx_done 0); [done|].
  rewrite Hk, H2, E. rewrite (Syscalls_ext GetName (GetValue64 b) (GetValue64 b')).
  - destruct (Syscalls _ _ _ _) as [[[|]|] ?]; done.
  - intros key Hkey. unfold GetValue64. by rewrite Hd.
Qed.

Lemma apparmor_for_same q b b' :
  resolved b → resolved b' → (q ∈ collectedProfiles b' ↔ q ∈ collectedProfiles b) →
  startRequests b' = startRequests b → unavailable b' = unavailable b →
  getKeysForProfile q b ≠ [] → getKeysForProfile q b' = getKeysForProfile q b →
  match rec_apparmor b, rec_apparmor b' with
  | Some a, Some a' => same_data (getKeysForProfile q b) a a'
  | None, None => True
  | _, _ => False
  end →
  apparmor_for q b' = apparmor_for q b.
Proof.
  intros Hb Hb' Hc H1 H2 Hne Hk Hd. unfold ApparmorForProfile. rewrite H1, H2.
  destruct (negb _); [done|]. destruct (_ =? 0); [done|].
  destruct (rec_apparmor b) as [a|] eqn:E, (rec_apparmor b') as [a'|] eqn:E'; try done.
  destruct (unavailable b); [done|].
  destruct (decide (q ∈ collectedProfiles b)) as [Hin|Hin].
  { by rewrite !retry_collected by tauto. }
  rewrite !retry_found by (rewrite ?Hk; tauto). destruct (ctx_done 0); [done|].
  rewrite Hk, E, E', (processed_same _ _ _ Hd). by destruct (GetAppArmorProcessed a _) as [? []].
Qed.

(** C10 A reset of an AppArmor profile is complete and touches nothing else: the
    profile is not found any more, exactly the data of the keys of its containers
    is gone, every other profile gets the same syscalls as before, also one of
    the same container, and every AppArmor profile of other containers gets the
    same rules. *)
Theorem reset_apparmor_isolated p l b a :
  tables_ok l b → resolved b → rec_apparmor b = Some a → p ≠ [] → (∃ id, (id, p) ∈ l) →
  let b' := (ResetApparmorForProfile p b).2 in
  (startRequests b ≠ 0 → unavailable b = false → apparmor_for p b' = inl NotFound) ∧
  (∀ a', rec_apparmor b' = Some a' → ∀ key f,
     recorded a' key f ↔ recorded a key f ∧ key ∉ getKeysForProfile p b) ∧
  (∀ q, q ≠ p → getKeysForProfile q b ≠ [] → syscalls_for q b' = syscalls_for q b) ∧
  (∀ q, q ≠ p → getKeysForProfile q b ≠ [] → (∀ id, (id, p) ∈ l → (id, q) ∉ l) →
     apparmor_for q b' = apparmor_for q b).
Proof.
  intros Ht Hres Ha Hp Hid b'.
  assert (b' = resetProfile p clear_apparmor_data b) as Eb.
  { unfold b', ResetApparmorForProfile, validateProfileRequest.
    by rewrite bool_decide_eq_false_2, Ha by done. }
  destruct (reset_tables clear_apparmor_data ltac:(done) p l b Ht Hid)
    as (_ & H1 & Hc & _ & H2 & H3 & H4 & H5).
  pose proof (λ q : str, reset_keys clear_apparmor_data ltac:(done) p l b q Ht Hid) as Hk.
  pose proof (reset_resolved clear_apparmor_data ltac:(done) p l b Ht Hid Hres) as Hres'.
  rewrite <- Eb in *. unfold clear_apparmor_data in H2, H3, H4, H5.
  cbn [rec_seccomp rec_apparmor unavailable rec_syscalls] in H2, H3, H4, H5. rewrite Ha in H3.
  change (rec_apparmor b' = Some (exec (AppArmor.Clear (getKeysForProfile p b)) a)) in H3.
  split_and!.
  - intros Hs Hu. unfold ApparmorForProfile, validateProfileRequest.
    rewrite bool_decide_eq_false_2, H1, H3, H4, Hu by done. cbn [negb].
    destruct (Z.eqb_spec (startRequests b) 0); [done|]. rewrite retry_collected; [done|].
    rewrite Hc. set_solver.
  - intros a'. rewrite H3. intros [= <-] key f.
    by rewrite (recorded_data _ _ key f (clear_run _ a)), recorded_fold.
  - intros q Hq Hne. apply syscalls_for_same; try done; [rewrite Hc; set_solver| |].
    + by rewrite Hk, bool_decide_eq_false_2.
    + by rewrite H5.
  - intros q Hq Hne Hd. apply apparmor_for_same; try done; [rewrite Hc; set_solver| |].
    + by rewrite Hk, bool_decide_eq_false_2.
    + rewrite Ha, H3. apply clear_same. by eapply keys_disjoint.
Qed.

(** C19 A reset of a seccomp profile is complete and touches nothing else: the profile is not found any more,
    exactly the bit maps of its keys are gone, every other profile gets the same
    AppArmor rules as before, also one of the same container, and every seccomp
    profile of other containers gets the same syscalls. *)
Theorem reset_syscalls_isolated p l b c :
  tables_ok l b → resolved b → rec_seccomp b = Some c → p ≠ [] → (∃ id, (id, p) ∈ l) →
  let b' := (ResetSyscallsForProfile p b).2 in
  (startRequests b ≠ 0 → syscalls_for p b' = inl NotFound) ∧
  (∀ key, rec_syscalls b' !! key =
     if bool_decide (key ∈ getKeysForProfile p b) then None else rec_syscalls b !! key) ∧
  (∀ q, q ≠ p → getKeysForProfile q b ≠ [] → apparmor_for q b' = apparmor_for q b) ∧
  (∀ q, q ≠ p → getKeysForProfile q b ≠ [] → (∀ id, (id, p) ∈ l → (id, q) ∉ l) →
     syscalls_for q b' = syscalls_for q b).
Proof.
  intros Ht Hres Ha Hp Hid b'.
  assert (b' = resetProfile p clear_syscalls b) as Eb.
  { unfold b', ResetSyscallsForProfile, validateProfileRequest.
    by rewrite bool_decide_eq_false_2, Ha by done. }
  destruct (reset_tables clear_syscalls ltac:(done) p l b Ht Hid)
    as (_ & H1 & Hc & _ & H2 & H3 & H4 & H5).
  pose proof (λ q : str, reset_keys clear_syscalls ltac:(done) p l b q Ht Hid) as Hk.
  pose proof (reset_resolved clear_syscalls ltac:(done) p l b Ht Hid Hres) as Hres'.
  rewrite <- Eb in *. cbn in H2, H3, H4, H5.
  split_and!.
  - intros Hs. unfold SyscallsForProfile, validateProfileRequest.
    rewrite bool_decide_eq_false_2, H1, H2, Ha by done. cbn [negb].
    destruct (Z.eqb_spec (startRequests b) 0); [done|]. rewrite retry_collected; [done|].
    rewrite Hc. set_solver.
  - intros key. rewrite H5. apply clear_syscalls_lookup.
  - intros q Hq Hne. apply apparmor_for_same; try done; [rewrite Hc; set_solver| |].
    + by rewrite Hk, bool_decide_eq_false_2.
    + rewrite H3. by destruct (rec_apparmor b).
  - intros q Hq Hne Hd. apply syscalls_for_same; try done; [rewrite Hc; set_solver| |].
    + by rewrite Hk, bool_decide_eq_false_2.
    + intros key Hkey. rewrite H5, clear_syscalls_lookup, bool_decide_eq_false_2; [done|].
      by eapply keys_disjoint.
Qed.
End isolation.

(** ** The requests keep the tables in order *)

Definition in_order (b : BpfRecorder) : Prop := ∃ l, tables_ok l b.

Lemma cache_pod_rep pod c : (∃ l, rep l c) → ∃ l, rep l (cacheProfilesOfPod pod c).
Proof.
  unfold cacheProfilesOfPod. generalize (ContainerIDs pod) as ids. intros ids. revert c.
  induction ids as [|id ids IH]; intros c Hc; [done|]. cbn [fold_left]. apply IH. clear IH.
  assert (∀ annotation c, (∃ l, rep l c) → ∃ l, rep l (cache_annotation pod id c annotation)) as Ha.
  { intros annotation c' [l Hl]. unfold cache_annotation.
    destruct (pod_annotations pod !! _) as [profile|]; [|by exists l].
    case_bool_decide; [by exists l|]. eexists. by apply Insert_rep. }
  by do 2 apply Ha.
Qed.

Lemma cache_in_order pods b : in_order b → in_order (cacheProfilesOfUnresolvedContainers pods b).
Proof.
  intros [l [Hk Hr]]. unfold cacheProfilesOfUnresolvedContainers. destruct pods as [find_pod|]; [|by exists l].
  assert (∃ l, rep l (rec_profiles b)) as Hc by by exists l. clear l Hr. revert Hc.
  generalize (rec_profiles b) as c, (ContainerKeys.Containers (rec_keys b)) as ids. intros c ids Hc.
  enough (∃ l, rep l (fold_left (λ c id, match ContainerProfiles.Get id c with
    | Some _ => c
    | None => match find_pod id with Some pod => cacheProfilesOfPod pod c | None => c end
    end) ids c)) as [l Hl] by by exists l.
  revert c Hc. induction ids as [|id ids IH]; intros c Hc; [done|]. cbn [fold_left]. apply IH.
  destruct (ContainerProfiles.Get id c); [done|]. destruct (find_pod id); [by apply cache_pod_rep|done].
Qed.

Lemma try_in_order env ctx_done p steps i b :
  (∀ j b, in_order b → in_order (env j b)) → in_order b →
  in_order (try_keys env ctx_done p steps i b).2.
Proof.
  intros He. revert i b. induction steps as [|steps IH]; intros i b Hb; cbn [try_keys];
    destruct (ctx_done i); try done; destruct (negb _); try done. by apply IH, He.
Qed.

Lemma retry_in_order pods env ctx_done p b :
  (∀ j b, in_order b → in_order (env j b)) → in_order b →
  in_order (getKeysForProfileWithRetry pods env ctx_done p b).2.
Proof.
  intros He Hb. unfold getKeysForProfileWithRetry. case_bool_decide; [done|].
  apply try_in_order; [done|]. by apply cache_in_order.
Qed.

Lemma reset_in_order p clearData b :
  (∀ keys b, let b' := clearData keys b in
     startRequests b' = startRequests b ∧ rec_keys b' = rec_keys b ∧
     rec_profiles b' = rec_profiles b ∧ collectedProfiles b' = collectedProfiles b) →
  in_order b → in_order (resetProfile p clearData b).
Proof.
  intros Hc [l Hl]. destruct (containers_of l p) as [|id ids] eqn:E.
  - exists l. unfold resetProfile. rewrite bool_decide_eq_true_2; [done|].
    unfold ContainerProfiles.Containers. by rewrite (rep_profile _ _ (proj2 Hl)).
  - eexists. apply reset_tables; [done|done|]. exists id. apply elem_of_containers. rewrite E. left.
Qed.

(** The requests keep the tables of keys and profiles in step: whatever is
    asked for and whatever the parts the requests wait for do, as long as they
    keep the tables in step, every request leaves them so. *)
Theorem requests_in_order GetName pods env ctx_done name b :
  (∀ j b, in_order b → in_order (env j b)) → in_order b →
  in_order (SyscallsForProfile GetName pods env ctx_done name b).2 ∧
  in_order (ApparmorForProfile pods env ctx_done name b).2 ∧
  in_order (ResetSyscallsForProfile name b).2 ∧
  in_order (ResetApparmorForProfile name b).2.
Proof.
  intros He Hb. pose proof (retry_in_order pods env ctx_done name b He Hb) as Hr.
  unfold SyscallsForProfile, ApparmorForProfile, ResetSyscallsForProfile, ResetApparmorForProfile.
  destruct (negb _); [done|]. split_and!.
  - destruct (_ =? 0); [done|]. destruct (rec_seccomp b); [|done].
    destruct (getKeysForProfileWithRetry _ _ _ _ _) as [[e|keys] b1]; [done|].
    destruct Hr as [l Hl]. destruct (Syscalls _ _ _ _) as [[[|]|] ?]; by exists l.
  - destruct (_ =? 0); [done|]. destruct (rec_apparmor b); [|done]. destruct (unavailable b); [done|].
    destruct (getKeysForProfileWithRetry _ _ _ _ _) as [[e|keys] b1]; [done|].
    destruct (rec_apparmor b1) as [a1|]; [|done].
    destruct (GetAppArmorProcessed a1 keys) as [? []]; done.
  - destruct (rec_seccomp b); [|done]. by apply reset_in_order.
  - destruct (rec_apparmor b); [|done]. by apply reset_in_order.
Qed.

(** ** Witnesses *)

Section witnesses.

(** Two containers with two and one keys; the first is recorded for a seccomp and
    an AppArmor profile, the second for an AppArmor profile. *)
Definition c1 : str := bytes "c1".
Definition c2 : str := bytes "c2".
Definition demo_key_ops : list ContainerKeys.op :=
  [ContainerKeys.OpInsert 11 c1; ContainerKeys.OpInsert 12 c1; ContainerKeys.OpInsert 21 c2].
Definition demo_profile_ops : list ContainerProfiles.op :=
  [ContainerProfiles.OpInsert c1 (bytes "web-seccomp"); ContainerProfiles.OpInsert c1 (bytes "web-apparmor");
   ContainerProfiles.OpInsert c2 (bytes "db-apparmor")].
Definition demo_pairs : pairs := (ContainerProfiles.ops ContainerProfiles.spec_op demo_profile_ops []).2.

Definition demo_apparmor : AppArmorRecorder :=
  record_cap 21 5 (record_cap 12 10 (record_cap 11 12 (newAppArmorRecorder []))).

Definition demo_recorder : BpfRecorder := {|
  startRequests := 1; rec_seccomp := Some ∅; rec_apparmor := Some demo_apparmor; unavailable := false;
  rec_syscalls := <[11 := [1; 0]]> (<[12 := [0; 1]]> (<[21 := [1; 0]]> ∅));
  rec_keys := (ContainerKeys.ops ContainerKeys.table_op demo_key_ops (newContainerKeys maxKeysPerContainer)).2;
  rec_profiles :=
    (ContainerProfiles.ops ContainerProfiles.table_op demo_profile_ops newContainerProfiles).2;
  collectedProfiles := ∅; recordingGeneration := 0; keyLimitWarned := ∅;
  containersWithoutProfile := ∅; containersNotFound := ∅; rec_recording := true; rec_excluded := ∅;
  uniqueKeys := true; cgroupKeys := true; staleKeys := ∅; idleSince := None; lastStart := None
|}.

Lemma demo_tables_ok : tables_ok demo_pairs demo_recorder.
Proof.
  split; [apply (ContainerKeys.keys_ops_refine demo_key_ops), new_ok|].
  apply (ContainerProfiles.ops_refine demo_profile_ops), rep_new.
Qed.

Lemma demo_resolved : resolved demo_recorder.
Proof.
  assert (Forall (λ id, is_Some (ContainerProfiles.Get id (rec_profiles demo_recorder)))
    (ContainerKeys.Containers (rec_keys demo_recorder))) as H.
  { apply (bool_decide_unpack _). by vm_compute. }
  rewrite Forall_forall in H. exact H.
Qed.

(** The AppArmor profile of the first container is reset. *)
Lemma reset_apparmor_isolated_witness :
  let b' := (ResetApparmorForProfile (bytes "web-apparmor") demo_recorder).2 in
  (ApparmorForProfile None (λ _ b, b) (λ _, false) (bytes "web-apparmor") b').1 = inl NotFound ∧
  (SyscallsForProfile demo_names None (λ _ b, b) (λ _, false) (bytes "web-seccomp") b').1 =
    inr [bytes "read"; bytes "write"] ∧
  match (ApparmorForProfile None (λ _ b, b) (λ _, false) (bytes "db-apparmor") b').1 with
  | inr apparmor => pr_capabilities apparmor
  | inl _ => []
  end = [bytes "kill"].
Proof.
  destruct (reset_apparmor_isolated demo_names None (λ _ b, b) (λ _, false) (bytes "web-apparmor")
    demo_pairs demo_recorder demo_apparmor demo_tables_ok demo_resolved) as (H1 & _ & H2 & H3).
  - reflexivity.
  - done.
  - exists c1. right. left.
  - cbv zeta. split; [apply H1; done|]. split; [rewrite H2|rewrite H3]; try by vm_compute.
    intros id. rewrite <- !elem_of_containers.
    replace (containers_of demo_pairs (bytes "web-apparmor")) with [c1] by (by vm_compute).
    replace (containers_of demo_pairs (bytes "db-apparmor")) with [c2] by (by vm_compute).
    intros ->%list_elem_of_singleton. by intros ?%list_elem_of_singleton.
Defined.

(** Its seccomp profile is reset: both others get what they got before. *)
Lemma reset_syscalls_isolated_witness :
  let b' := (ResetSyscallsForProfile (bytes "web-seccomp") demo_recorder).2 in
  (SyscallsForProfile demo_names None (λ _ b, b) (λ _, false) (bytes "web-seccomp") b').1 = inl NotFound ∧
  rec_syscalls b' !! 11 = None ∧
  match (ApparmorForProfile None (λ _ b, b) (λ _, false) (bytes "web-apparmor") b').1 with
  | inr apparmor => pr_capabilities apparmor
  | inl _ => []
  end = [bytes "net_admin"; bytes "net_bind_service"].
Proof.
  destruct (reset_syscalls_isolated demo_names None (λ _ b, b) (λ _, false) (bytes "web-seccomp")
    demo_pairs demo_recorder ∅ demo_tables_ok demo_resolved) as (H1 & H2 & H3 & _).
  - reflexivity.
  - done.
  - exists c1. left.
  - cbv zeta. split; [apply H1; done|]. split; [rewrite H2; by vm_compute|].
    rewrite H3; by vm_compute.
Defined.

(** A profile without keys, while a pod turns up. *)
Definition demo_pod : Pod :=
  {| pod_statuses := [(bytes "web", bytes "c3")];
     pod_annotations := <[bytes "io.containers.trace-bpf/web" := bytes "web-seccomp"]> ∅ |}.

Lemma requests_in_order_witness :
  let pods := Some (λ id, if bool_decide (id = bytes "c3") then Some demo_pod else None) in
  in_order (SyscallsForProfile demo_names pods (λ _ b, b) (λ _, false) (bytes "job") demo_recorder).2 ∧
  in_order (ResetApparmorForProfile (bytes "web-apparmor") demo_recorder).2.
Proof.
  cbv zeta. split.
  - apply (requests_in_order demo_names _ (λ _ b, b) (λ _, false)); [done|].
    exists demo_pairs. exact demo_tables_ok.
  - apply (requests_in_order demo_names None (λ _ b, b) (λ _, false)); [done|].
    exists demo_pairs. exact demo_tables_ok.
Defined.
End witnesses.
