(* ===== verification/Sessions.v ===== *)
(** * Recording sessions ([bpfrecorder.go])

    A new process is handled by one of a pool of handlers: [handleNewPidEvent]
    finds the container of its key and the profile of the container, notes both in
    the tables, and excludes the keys of what is not recorded.  [StopRecording]
    ends a session while handlers may be under way, which carry the generation of
    their session.

    Every access to a table, a cache or the generation is an access of the model,
    and so is a section under [attachUnattachMutex].  [StopRecording] holds its
    write lock; what it does before it ends the generation touches nothing the
    handlers use without the lock, so it is one access with that.  The AppArmor
    recorder's own accesses are those of [AppArmor]; here its operations are
    whole.

    What /proc, the cgroups and the pods answer are arguments of a handler.  As
    handlers share a lookup of the same container, a handler may get the result of
    another one's. *)
From S2P Require Import Prelude Bpf Wire Paths AppArmor Recording Profile Seccomp.
From S2P Require Import ContainerKeys ContainerProfiles ProcFs Recorder Collect.
Import String.StringSyntax.
#[local] Open Scope string_scope.
#[local] Open Scope list_scope.
#[local] Open Scope Z_scope.

Abbreviation rp := (prog BpfRecorder).

(** ** The handler of new processes *)

(** The time an event was seen at only serves [verifyProcess], whose answer is an
    argument of a handler. *)
Record newPidEvent := NewPidEvent { ev_pid : Z; ev_mntns : Z; ev_key : Z; ev_generation : Z }.

Inductive profile_error := errNoProfileForContainer | errContainerNotInCluster.
Abbreviation profile_result := (profile_error + str)%type.

(** What the outside answers to a handler: about the process, the pod of the
    container if its lookup is successful, the result of another handler that is
    shared, and whether the map of excluded keys takes a key. *)
Record answers := {
  an_process : process_answers;
  an_pod : option Pod;
  an_shared : option profile_result;
  an_exclude : bool
}.

Section handler.
Context (a : answers).

(** A section under the read lock. *)
Definition exclude_section (key generation : Z) (b : BpfRecorder) : BpfRecorder :=
  if negb (recordingGeneration b =? generation) then b
  else {| b with
    rec_excluded := if an_exclude a then {[key]} ∪ rec_excluded b else rec_excluded b;
    rec_syscalls := match rec_seccomp b with
                    | Some _ => Seccomp.Clear [key] (rec_syscalls b)
                    | None => rec_syscalls b
                    end;
    rec_apparmor := (λ r, exec (Exclude key) r) <$> rec_apparmor b |}.

Definition excludeKey (key generation : Z) : rp unit :=
  unique ← get uniqueKeys;
  if negb unique then mret tt else upd (exclude_section key generation).

(** The annotations of the containers of a pod, in the order of [cacheProfilesOfPod]. *)
Definition pod_pairs (pod : Pod) : list (str * str) :=
  ContainerIDs pod ≫= λ id, omap (λ annotation,
    match pod_annotations pod !! (annotation ++ ContainerName pod id) with
    | Some profile => if bool_decide (profile = []) then None else Some (id, profile)
    | None => None
    end) [SeccompProfileRecordBpfAnnotationKey; ApparmorProfileRecordBpfAnnotationKey].

(** [cacheProfilesOfPod]: every insertion takes the lock of the table. *)
Definition cache_pod (pod : Pod) : rp unit :=
  for_each (pod_pairs pod) (λ x, upd (λ b,
    {| b with rec_profiles := ContainerProfiles.Insert x.1 x.2 (rec_profiles b) |})).

Definition lookupProfileForContainerID (in_cluster : bool) (id : str) : rp profile_result :=
  if negb in_cluster then mret (inl errContainerNotInCluster)
  else
    match an_pod a with
    | None =>
        _ ← upd (λ b, {| b with containersNotFound := {[id]} ∪ containersNotFound b |});
        mret (inl errContainerNotInCluster)
    | Some pod =>
        _ ← cache_pod pod;
        p ← get (λ b, ContainerProfiles.Get id (rec_profiles b));
        match p with
        | Some profile => mret (inr profile)
        | None =>
            _ ← upd (λ b, {| b with containersWithoutProfile := {[id]} ∪ containersWithoutProfile b |});
            mret (inl errNoProfileForContainer)
        end
    end.

Definition findProfileForContainerID (in_cluster : bool) (id : str) : rp profile_result :=
  without ← get (λ b, bool_decide (id ∈ containersWithoutProfile b));
  if without : bool then mret (inl errNoProfileForContainer)
  else
    p ← get (λ b, ContainerProfiles.Get id (rec_profiles b));
    match p with
    | Some profile => mret (inr profile)
    | None =>
        missing ← get (λ b, bool_decide (id ∈ containersNotFound b));
        if missing : bool then mret (inl errContainerNotInCluster)
        else
          match an_shared a with
          | Some r => mret r
          | None => lookupProfileForContainerID in_cluster id
          end
    end.

(** [profileOfKey]: the tables are read one after the other. *)
Definition profile_of_key (key : Z) : rp (option str) :=
  id ← get (λ b, ContainerKeys.Get key (rec_keys b));
  match id with
  | Some id => get (λ b, ContainerProfiles.Get id (rec_profiles b))
  | None => mret None
  end.

Definition insert_key (key : Z) (id : str) : rp bool := act (λ b,
  let '(ok, c) := ContainerKeys.Insert key id (rec_keys b) in (ok, {| b with rec_keys := c |})).

Definition delete_key (key : Z) : rp unit :=
  upd (λ b, {| b with rec_keys := ContainerKeys.Delete key (rec_keys b) |}).

(** The part of [handleNewPidEvent] with the container of the key. *)
Definition handle_container (in_cluster : bool) (key generation : Z) (id : str) : rp unit :=
  g ← get recordingGeneration;
  if negb (g =? generation) then mret tt
  else
    ok ← insert_key key id;
    if negb ok then
      _ ← upd (λ b, {| b with keyLimitWarned := {[id]} ∪ keyLimitWarned b |});
      excludeKey key generation
    else
      r ← findProfileForContainerID in_cluster id;
      match r with
      | inl errNoProfileForContainer =>
          _ ← delete_key key;
          excludeKey key generation
      | inl errContainerNotInCluster => mret tt
      | inr _ =>
          g ← get recordingGeneration;
          if negb (g =? generation) then
            _ ← delete_key key;
            upd (λ b, {| b with rec_profiles := ContainerProfiles.Delete id (rec_profiles b) |})
          else mret tt
      end.

Definition handleNewPidEvent (clientset in_cluster : bool) (event : newPidEvent) : rp unit :=
  let key := ev_key event in
  let generation := ev_generation event in
  if negb clientset then mret tt
  else
    known ← profile_of_key key;
    match known with
    | Some _ => mret tt
    | None =>
        cgroup ← get cgroupKeys;
        match containerIDForKey cgroup (an_process a) with
        | CidError => mret tt
        | CidNotFound => excludeKey key generation
        | CidFound id => handle_container in_cluster key generation id
        end
    end.
End handler.

(** ** The end of a session *)

(** The step at which a call of libbpf fails, and what is left in the map that
    could not be cleared. *)
Inductive stop_error :=
  | StopSwitch
  | StopSyscalls (left_keys : gset Z)
  | StopAppArmor (caps sockets : option (gmap Z Z))
  | StopPids (left_keys : gset Z).

(** The part of [StopRecording] until the generation ends. *)
Definition end_session (err : option stop_error) (b : BpfRecorder) : bool * BpfRecorder :=
  match err with
  | Some StopSwitch => (false, b)
  | _ =>
      let syscalls := match rec_seccomp b, err with
                      | None, _ => rec_syscalls b
                      | Some _, Some (StopSyscalls left_keys) =>
                          filter (λ kv, kv.1 ∈ left_keys) (rec_syscalls b)
                      | Some _, _ => ∅
                      end in
      match err with
      | Some (StopSyscalls _) =>
          (false, {| b with rec_recording := false; rec_syscalls := syscalls |})
      | _ =>
          let stopped := (λ r, exec StopRecording r) <$> rec_apparmor b in
          match err with
          | Some (StopAppArmor caps sockets) =>
              (false, {| b with rec_recording := false; rec_syscalls := syscalls;
                 rec_apparmor := (λ r, {| r with recordedCaps := caps;
                                                 recordedSockets := sockets |}) <$> stopped |})
          | Some (StopPids left_keys) =>
              (false, {| b with rec_recording := false; rec_syscalls := syscalls;
                 rec_apparmor := stopped; rec_excluded := rec_excluded b ∩ left_keys |})
          | _ =>
              (true, {| b with rec_recording := false; rec_syscalls := syscalls;
                 rec_apparmor := stopped; rec_excluded := ∅;
                 recordingGeneration := u64 (recordingGeneration b + 1) |})
          end
      end
  end.

Definition stop_recording (err : option stop_error) : rp bool :=
  ok ← act (end_session err);
  if negb ok then mret false
  else
    _ ← upd (λ b, {| b with rec_keys := ContainerKeys.Clear (rec_keys b) |});
    _ ← upd (λ b, {| b with rec_profiles := ContainerProfiles.Clear (rec_profiles b) |});
    _ ← upd (λ b, {| b with collectedProfiles := ∅ |});
    _ ← upd (λ b, {| b with keyLimitWarned := ∅ |});
    _ ← upd (λ b, {| b with containersWithoutProfile := ∅ |});
    _ ← upd (λ b, {| b with containersNotFound := ∅ |});
    mret true.
