(* ===== verification/Handlers.v ===== *)
(** * What a session guarantees ([bpfrecorder.go])

    During a session any number of handlers of new processes run interleaved with
    each other and with the requests that look at the tables.  The container of a
    key ([owner]) and the pod of a container ([pod_of]) are fixed, and /proc, the
    cgroups and the index of pods do not lie about them ([answers_ok]).  Then no
    recorded key is ever excluded ([recorded_never_excluded]), and a key whose
    process was handled is collected with a profile of its container
    ([handled_is_collected]), whatever handlers of ended sessions, other handlers
    and evictions from the caches do.  [StopRecording] leaves the state such a
    session starts from ([stop_starts_afresh]).  The races of handlers which are
    under way when a session ends are the traces at the end of the file. *)
From S2P Require Import Prelude Bpf Rely Wire Paths AppArmor Recording Profile Seccomp.
From S2P Require Import ContainerKeys ContainerProfiles ProcFs Recorder Collect Sessions.
Import String.StringSyntax.
#[local] Open Scope string_scope.
#[local] Open Scope list_scope.
#[local] Open Scope Z_scope.

(** ** The keys of the recorder after an operation *)

Lemma Exclude_excluded key r : excluded (exec (Exclude key) r) = {[key]} ∪ excluded r.
Proof.
  unfold Exclude. rewrite exec_bind. unfold upd. rewrite exec_act. cbn [snd].
  pose proof (clear_run [key] {| r with excluded := {[key]} ∪ excluded r |}) as Hb.
  by injection Hb as _ _ _ _ -> _.
Qed.

Lemma elem_of_GetAll_Insert id p i q c :
  q ∈ GetAll i (ContainerProfiles.Insert id p c) ↔ q ∈ GetAll i c ∨ (i, q) = (id, p).
Proof.
  unfold GetAll, ContainerProfiles.Insert. cbn. rewrite list_at_append, pair_eq.
  case_bool_decide as H.
  - destruct H as [-> _]. rewrite elem_of_app, list_elem_of_singleton. naive_solver.
  - split; [by left|]. intros [?|[-> ->]]; [done|].
    destruct (decide (p ∈ list_at (ContainerProfiles.byContainer c) id)); [done|]. by destruct H.
Qed.

Lemma Get_GetAll id p c : p ∈ GetAll id c → ContainerProfiles.Get id c ≠ None.
Proof. unfold GetAll, ContainerProfiles.Get. destruct (list_at _ _); [by intros ?%elem_of_nil|done]. Qed.

(** ** A session *)

Section session.
Context (owner : Z → option str) (pod_of : str → option Pod) (gen : Z).

Definition annotated (x : str * str) : Prop := ∃ pod, pod_of x.1 = Some pod ∧ x ∈ pod_pairs pod.
Definition recorded_container (id : str) : Prop := ∃ profile, annotated (id, profile).
Definition recorded_key (key : Z) : Prop := ∃ id, owner key = Some id ∧ recorded_container id.

(** The pods of the node, and how many keys their containers use. *)
Record cluster_ok : Prop := {
  cl_pods id pod id' : pod_of id = Some pod → id' ∈ ContainerIDs pod → pod_of id' = Some pod;
  cl_few id : recorded_container id → ∃ keys : gset Z,
    (size keys <= maxKeysPerContainer)%nat ∧ ∀ key, owner key = Some id → key ∈ keys
}.

(** A lookup that another handler has made for the container. *)
Definition shared_ok (id : str) (r : profile_result) : Prop :=
  r = inl errNoProfileForContainer → ¬ recorded_container id.

(** What is answered about the process of a key. *)
Record answers_ok (key : Z) (a : answers) : Prop := {
  an_owner cgroup :
    match containerIDForKey cgroup (an_process a) with
    | CidFound id => owner key = Some id
    | CidNotFound => owner key = None
    | CidError => True
    end;
  an_pod_ok id pod : owner key = Some id → an_pod a = Some pod → pod_of id = Some pod;
  an_shared_ok id r : owner key = Some id → an_shared a = Some r → shared_ok id r
}.

(** The handlers that are started while the session lasts.  An event of an ended
    session may still be in the queue. *)
Definition session_handler (p : rp unit) : Prop :=
  ∃ a clientset in_cluster ev, p = handleNewPidEvent a clientset in_cluster ev ∧
    (ev_generation ev = gen → answers_ok (ev_key ev) a).

(** What else happens: data is recorded and collected, entries of the caches
    expire, and a request caches a profile of a pod. *)
Record session_env (w w' : BpfRecorder) : Prop := {
  se_gen : recordingGeneration w' = recordingGeneration w;
  se_keys : rec_keys w' = rec_keys w;
  se_profiles : rec_profiles w' = rec_profiles w ∨ ∃ x, annotated x ∧
    rec_profiles w' = ContainerProfiles.Insert x.1 x.2 (rec_profiles w);
  se_excluded : rec_excluded w' = rec_excluded w;
  se_apparmor : excluded <$> rec_apparmor w' = excluded <$> rec_apparmor w;
  se_without : containersWithoutProfile w' ⊆ containersWithoutProfile w
}.

(** The state a session starts from. *)
Record new_session (w : BpfRecorder) : Prop := {
  ns_gen : recordingGeneration w = gen;
  ns_max : maxPerContainer (rec_keys w) = maxKeysPerContainer;
  ns_keys : rec_keys w = newContainerKeys (maxPerContainer (rec_keys w));
  ns_profiles : rec_profiles w = newContainerProfiles;
  ns_excluded : rec_excluded w = ∅;
  ns_apparmor r : rec_apparmor w = Some r → excluded r = ∅;
  ns_without : containersWithoutProfile w = ∅
}.

(** *** The invariant *)

Record session_ok (w : BpfRecorder) : Prop := {
  so_gen : recordingGeneration w = gen;
  so_max : maxPerContainer (rec_keys w) = maxKeysPerContainer;
  so_keys : keys_ok (rec_keys w);
  so_owner key id : ContainerKeys.byKey (rec_keys w) !! key = Some id → owner key = Some id;
  so_profiles : ∃ l, rep l (rec_profiles w) ∧ ∀ x, x ∈ l → annotated x;
  so_excluded key : key ∈ rec_excluded w → ¬ recorded_key key;
  so_apparmor r key : rec_apparmor w = Some r → key ∈ excluded r → ¬ recorded_key key;
  so_without id : id ∈ containersWithoutProfile w → ¬ recorded_container id
}.

(** What every access keeps: the keys of recorded containers, and the profiles. *)
Record grows (w w' : BpfRecorder) : Prop := {
  gr_keys key id : recorded_container id →
    ContainerKeys.byKey (rec_keys w) !! key = Some id → ContainerKeys.byKey (rec_keys w') !! key = Some id;
  gr_profiles id p : p ∈ GetAll id (rec_profiles w) → p ∈ GetAll id (rec_profiles w')
}.

#[local] Instance grows_refl : Reflexive grows.
Proof. by split. Qed.

Lemma new_session_ok w : new_session w → session_ok w.
Proof.
  intros [Hg Hm Hk Hp Hx Ha Hw]. split; try done.
  - rewrite Hk. apply new_ok.
  - intros key id. rewrite Hk. cbn. by rewrite lookup_empty.
  - exists []. rewrite Hp. split; [apply rep_new|]. by intros x ?%elem_of_nil.
  - rewrite Hx. set_solver.
  - intros r key Hr. rewrite (Ha r Hr). set_solver.
  - rewrite Hw. set_solver.
Qed.

Lemma insert_profile_ok w w' x :
  session_ok w → annotated x → recordingGeneration w' = recordingGeneration w →
  rec_keys w' = rec_keys w → rec_profiles w' = ContainerProfiles.Insert x.1 x.2 (rec_profiles w) →
  rec_excluded w' = rec_excluded w → excluded <$> rec_apparmor w' = excluded <$> rec_apparmor w →
  containersWithoutProfile w' ⊆ containersWithoutProfile w →
  session_ok w' ∧ grows w w'.
Proof.
  intros [Hg Hm Hk Ho (l & Hl & Hx) He Ha Hw] Hann E1 E2 E3 E4 E5 E6. split; split.
  - congruence.
  - congruence.
  - by rewrite E2.
  - by rewrite E2.
  - exists (ContainerProfiles.spec_op (ContainerProfiles.OpInsert x.1 x.2) l).2. rewrite E3.
    split; [by apply Insert_rep|]. intros y. cbn. case_bool_decide; [apply Hx|].
    rewrite elem_of_app, list_elem_of_singleton, <- surjective_pairing. intros [?| ->]; [by apply Hx|done].
  - by rewrite E4.
  - intros r key Hr Hin. rewrite Hr in E5. destruct (rec_apparmor w) as [r0|] eqn:E; [|done].
    cbn in E5. injection E5 as E5. apply (Ha r0); [done|]. by rewrite <- E5.
  - intros id Hid. by apply Hw, E6.
  - intros key id _. by rewrite E2.
  - intros id p Hp. rewrite E3. apply elem_of_GetAll_Insert. by left.
Qed.

Lemma env_ok w w' : session_ok w → session_env w w' → session_ok w' ∧ grows w w'.
Proof.
  intros Hok [E1 E2 [E3|(x & Hx & E3)] E4 E5 E6]; [|by eapply insert_profile_ok].
  destruct Hok as [Hg Hm Hk Ho Hl He Ha Hw]. split; split; rewrite ?E1, ?E2, ?E3, ?E4; try done.
  - intros r key Hr Hin. rewrite Hr in E5. destruct (rec_apparmor w) as [r0|] eqn:E; [|done].
    cbn in E5. injection E5 as E5. apply (Ha r0); [done|]. by rewrite <- E5.
  - intros id Hid. by apply Hw, E6.
Qed.

(** *** The accesses of a handler *)

#[local] Abbreviation triple J p Q := (rg session_ok grows Q J p).
#[local] Abbreviation steady := (stable session_ok grows).

Lemma rg_read {A} {T : Set} (f : BpfRecorder → T) (q : T → rp A) Q J (P : T → BpfRecorder → Prop) :
  (∀ w, session_ok w → J w → P (f w) w) → (∀ r, steady (P r)) → (∀ r, triple (P r) (q r) Q) →
  triple J (get f ≫= q) Q.
Proof.
  intros Hf HP Hq. apply (rg_step _ _ _ _ _ _ P); [|done|done]. cbn. intros w Hw HJ.
  split; [done|]. split; [done|]. by apply Hf.
Qed.

(** A write that changes neither table. *)
Lemma rg_mark {A} (f : BpfRecorder → BpfRecorder) (q : rp A) Q J :
  (∀ w, session_ok w → J w → session_ok (f w)) →
  (∀ w, rec_keys (f w) = rec_keys w ∧ rec_profiles (f w) = rec_profiles w) →
  steady J → (∀ w, J w → J (f w)) → triple J q Q → triple J (upd f ≫= λ _, q) Q.
Proof.
  intros Hf Ht HJ Hs Hq. apply (rg_step _ _ _ _ _ _ (λ _, J)); [|done|done]. cbn.
  intros w Hw Hj. destruct (Ht w) as [E1 E2]. split; [by apply Hf|]. split; [|by apply Hs].
  split; rewrite ?E1, ?E2; done.
Qed.

Definition tied (key : Z) (id : str) (w : BpfRecorder) : Prop :=
  recorded_container id → ContainerKeys.byKey (rec_keys w) !! key = Some id.

Lemma tied_steady key id : steady (tied key id).
Proof. intros w w' _ _ Hg H Hr. apply (gr_keys _ _ Hg); auto. Qed.

Definition cached (x : str * str) (w : BpfRecorder) : Prop := x.2 ∈ GetAll x.1 (rec_profiles w).

Lemma cached_steady x : steady (cached x).
Proof. intros w w' _ _ Hg. apply (gr_profiles _ _ Hg). Qed.

Lemma cache_pairs_rg l J :
  (∀ x, x ∈ l → annotated x) → steady J →
  triple J (for_each l (λ x, upd (λ b,
    {| b with rec_profiles := ContainerProfiles.Insert x.1 x.2 (rec_profiles b) |})))
    (λ _ w, ∀ x, x ∈ l → cached x w).
Proof.
  intros Hl HJ. induction l as [|x l IH] in J, Hl, HJ |- *; cbn [for_each].
  - intros w _ _ x ?%elem_of_nil. done.
  - apply (rg_step _ _ _ _ _ _ (λ _, cached x)); [|intros _; apply cached_steady|].
    + intros w Hw _. cbn. destruct (insert_profile_ok w {| w with rec_profiles :=
        ContainerProfiles.Insert x.1 x.2 (rec_profiles w) |} x) as [H1 H2]; try done.
      { apply Hl. left. }
      split; [done|]. split; [done|]. apply elem_of_GetAll_Insert. right. by destruct x.
    + intros _. apply (rg_post _ _ (λ _ w, (∀ y, y ∈ l → cached y w) ∧ cached x w)).
      * intros _ w _ [H1 H2] y [->|Hy]%elem_of_cons; auto.
      * apply (rg_weaken _ _ _ (λ w, cached x w ∧ cached x w)); [done|].
        apply rg_frame; [apply cached_steady|]. apply IH; [|apply cached_steady].
        intros y Hy. apply Hl. by right.
Qed.
Context (Hcl : cluster_ok).

Lemma pod_pairs_annotated id pod x : pod_of id = Some pod → x ∈ pod_pairs pod → annotated x.
Proof.
  intros Hp Hx. exists pod. split; [|done]. apply (cl_pods Hcl id pod); [done|].
  unfold pod_pairs in Hx. apply list_elem_of_bind in Hx as (i & Hx & Hi).
  apply list_elem_of_omap in Hx as (an & _ & Hx). destruct (_ !! _); [|done].
  by case_bool_decide; simplify_eq.
Qed.

Lemma lookup_rg a in_cluster id :
  (∀ pod, an_pod a = Some pod → pod_of id = Some pod) →
  triple (λ _, True) (lookupProfileForContainerID a in_cluster id) (λ r _, shared_ok id r).
Proof.
  intros Hpod. unfold lookupProfileForContainerID. destruct in_cluster; [|by intros w _ _]. cbn [negb].
  destruct (an_pod a) as [pod|].
  - specialize (Hpod pod eq_refl). unfold cache_pod.
    eapply rg_bind; [apply (cache_pairs_rg _ (λ _, True)); [|done]|intros []].
    { intros x. by apply (pod_pairs_annotated id). }
    apply (rg_read _ _ _ _ (λ p _, p = None → ¬ recorded_container id)); [|intros; apply stable_const|].
    + intros w _ Hc Hn (p & pod' & Hp & Hin). cbn in Hp. assert (pod' = pod) as -> by congruence.
      apply Hc in Hin. by apply Get_GetAll in Hin.
    + intros [p|]; [by intros w _ _|]. apply rg_mark; try done.
      * intros w [Hg Hm Hk Ho Hl He Ha Hw] Hn. split; try done. cbn. intros i.
        rewrite elem_of_union, elem_of_singleton. intros [->|?]; auto.
      * apply stable_const.
      * intros w _ Hn _. by apply Hn.
  - apply rg_mark; try done. intros w [Hg Hm Hk Ho Hl He Ha Hw] _. by split.
Qed.

Lemma find_rg a in_cluster id :
  (∀ pod, an_pod a = Some pod → pod_of id = Some pod) → (∀ r, an_shared a = Some r → shared_ok id r) →
  triple (λ _, True) (findProfileForContainerID a in_cluster id) (λ r _, shared_ok id r).
Proof.
  intros Hpod Hsh. unfold findProfileForContainerID.
  apply (rg_read _ _ _ _ (λ b _, b = true → ¬ recorded_container id)); [|intros; apply stable_const|].
  { intros w Hw _ Hin%bool_decide_eq_true. by apply (so_without _ Hw). }
  intros [].
  - intros w _ Hn _. by apply Hn.
  - apply (rg_read _ _ _ _ (λ _ _, True)); [done|done|]. intros [p|]; [by intros w _ _|].
    apply (rg_read _ _ _ _ (λ _ _, True)); [done|done|]. intros []; [by intros w _ _|].
    destruct (an_shared a) as [r|]; [intros w _ _; by apply Hsh|].
    by apply lookup_rg.
Qed.

Lemma insert_rg key id :
  owner key = Some id →
  triple (λ _, True) (insert_key key id)
    (λ r w, (r = true → tied key id w) ∧ (r = false → ¬ recorded_container id)).
Proof.
  intros Ho. unfold insert_key.
  apply (rg_act _ _ _ _ (λ r w, (r = true → tied key id w) ∧ (r = false → ¬ recorded_container id))).
  2: { intros r w w' H1 H2 HR [H E]. split; [|done]. intros Er. apply (tied_steady key id w w'); auto. }
  intros w [Hg Hm Hk Hown Hl He Ha Hw] _.
  pose proof (Insert_ok key id _ Hk) as Hk'. pose proof (Insert_max key id (rec_keys w)) as Hm'.
  pose proof (Insert_keys key id (rec_keys w)) as Hi. pose proof (Insert_full key id (rec_keys w)) as Hf.
  destruct (ContainerKeys.Insert key id (rec_keys w)) as [ok c]. cbn in *.
  assert (∀ k, ContainerKeys.byKey c !! k = if bool_decide (k = key) && ok then Some id
            else ContainerKeys.byKey (rec_keys w) !! k) as Hlk.
  { intros k. rewrite Hi. destruct ok; cbn; [|by rewrite andb_false_r]. rewrite andb_true_r.
    repeat case_bool_decide; subst; rewrite ?lookup_insert_eq, ?lookup_insert_ne by done; try done.
    apply (ko_step _ Hk). destruct (decide (key ∈ keys_set (rec_keys w) id)); done. }
  split; [|split].
  - split; cbn; try done; [congruence|]. intros k i. rewrite Hlk.
    destruct (bool_decide_reflect (k = key)) as [->|]; cbn; [|apply Hown].
    destruct ok; [congruence|apply Hown].
  - split; cbn; [|done]. intros k i _ Hki. rewrite Hlk.
    destruct (bool_decide_reflect (k = key)) as [->|]; cbn; [|done].
    destruct ok; [|done]. apply Hown in Hki. congruence.
  - split; [intros -> _; cbn; rewrite Hlk; by rewrite bool_decide_eq_true_2|].
    intros -> Hr. destruct (Hf eq_refl) as [Hnin Hsz]. destruct (cl_few Hcl id Hr) as (keys & Hle & Hall).
    assert (size ({[key]} ∪ keys_set (rec_keys w) id) <= size keys)%nat as Hs.
    { apply subseteq_size. intros k. rewrite elem_of_union, elem_of_singleton.
      intros [->|Hin%(ko_step _ Hk)]; auto. }
    rewrite size_union, size_singleton in Hs by set_solver. lia.
Qed.

Lemma exclude_rg a key generation :
  (generation = gen → ¬ recorded_key key) →
  triple (λ _, True) (excludeKey a key generation) (λ _ _, True).
Proof.
  intros Hn. unfold excludeKey. apply (rg_read _ _ _ _ (λ _ _, True)); [done|done|].
  intros []; cbn [negb]; [|by intros w _ _].
  apply (rg_act _ _ _ _ (λ _ _, True)); [|done]. cbn. intros w Hw _. unfold exclude_section.
  rewrite (so_gen _ Hw). destruct (Z.eqb_spec gen generation) as [<-|]; cbn [negb]; [|done].
  specialize (Hn eq_refl). destruct Hw as [Hg Hm Hk Hown Hl He Ha Hw]. split; [|done].
  split; try done.
  - intros k. cbn [rec_excluded]. destruct (an_exclude a); [|apply He].
    rewrite elem_of_union, elem_of_singleton. intros [->|?]; auto.
  - intros r k Hr. cbn [rec_apparmor] in Hr. destruct (rec_apparmor w) as [r0|] eqn:E; [|done].
    assert (r = exec (Exclude key) r0) as -> by (by injection Hr).
    rewrite Exclude_excluded, elem_of_union, elem_of_singleton. intros [->|?]; eauto.
Qed.
Lemma delete_rg key id :
  owner key = Some id → ¬ recorded_container id →
  triple (λ _, True) (delete_key key) (λ _ _, True).
Proof.
  intros Ho Hn. apply (rg_act _ _ _ _ (λ _ _, True)); [|done]. cbn.
  intros w [Hg Hm Hk Hown Hl He Ha Hw] _.
  destruct (keys_table_refines (ContainerKeys.OpDelete key) (rec_keys w) Hk) as (Hok & Hmax & Heq).
  cbn in Hok, Hmax, Heq. injection Heq as Heq. split; [|split; [|done]].
  - split; cbn; try done; [congruence|]. intros k i. rewrite Heq.
    intros [_ Hki]%lookup_delete_Some. by apply Hown.
  - split; cbn; [|done]. intros k i Hr Hki. rewrite Heq, lookup_delete_ne; [done|].
    intros <-. apply Hown in Hki. congruence.
Qed.

(** The rest of a handler whose container is not recorded. *)
Lemma drop_rg a key id generation (p : rp unit) :
  owner key = Some id → ¬ recorded_container id →
  triple (λ _, True) p (λ _ _, True) →
  triple (λ _, True) (p ≫= λ _, excludeKey a key generation) (λ _ _, True).
Proof.
  intros Ho Hn Hp. eapply rg_bind; [exact Hp|]. intros []. apply exclude_rg.
  intros _ (i & Hi & Hr). congruence.
Qed.

Lemma handle_container_rg a in_cluster key generation id :
  (generation = gen → owner key = Some id ∧ (∀ pod, an_pod a = Some pod → pod_of id = Some pod) ∧
     ∀ r, an_shared a = Some r → shared_ok id r) →
  triple (λ _, True) (handle_container a in_cluster key generation id)
    (λ _ w, generation = gen → tied key id w).
Proof.
  intros Hans. unfold handle_container.
  apply (rg_read _ _ _ _ (λ g _, g = gen)); [intros w Hw _; apply Hw|intros; apply stable_const|]. intros g.
  apply (rg_pure _ _ (g = gen)); [done|]. intros ->.
  destruct (Z.eqb_spec gen generation) as [<-|Hne]; cbn [negb]; [|intros w _ _ ->; done].
  destruct (Hans eq_refl) as (Ho & Hpod & Hsh).
  apply (rg_weaken _ _ _ (λ _, True)); [done|].
  eapply rg_bind; [by apply insert_rg|]. intros []; cbn [negb].
  - eapply rg_bind.
    { apply (rg_weaken _ _ _ (λ w, True ∧ tied key id w)); [intros w _ [H _]; auto|].
      apply rg_frame; [apply tied_steady|by apply find_rg]. }
    intros [[]|profile].
    + apply (rg_pure _ _ (¬ recorded_container id)); [intros w _ [H _]; auto|]. intros Hn.
      apply (rg_weaken _ _ _ (λ _, True)); [done|].
      apply (rg_post _ _ (λ _ _, True)); [intros _ w _ _ _ Hr; done|].
      apply (drop_rg _ _ id); [done|done|by apply (delete_rg key id)].
    + by intros w _ [_ H] _.
    + apply (rg_read _ _ _ _ (λ g w, g = gen ∧ tied key id w)).
      * intros w Hw [_ H]. split; [apply Hw|done].
      * intros r w w' H1 H2 HR [-> H]. split; [done|by apply (tied_steady key id w w')].
      * intros g. apply (rg_pure _ _ (g = gen)); [by intros w _ [H _]|]. intros ->.
        rewrite Z.eqb_refl. cbn [negb]. by intros w _ [_ H] _.
  - apply (rg_pure _ _ (¬ recorded_container id)); [intros w _ [_ H]; auto|]. intros Hn.
    apply (rg_weaken _ _ _ (λ _, True)); [done|].
    apply (rg_post _ _ (λ _ _, True)); [intros _ w _ _ _ Hr; done|].
    apply (drop_rg _ _ id); [done|done|].
    apply (rg_act _ _ _ _ (λ _ _, True)); [|done]. cbn. intros w [Hg Hm Hk Hown Hl He Ha Hw] _.
    split; [by split|done].
Qed.

(** What a handler has done when it returns. *)
Lemma handler_rg a clientset in_cluster ev :
  (ev_generation ev = gen → answers_ok (ev_key ev) a) →
  triple (λ _, True) (handleNewPidEvent a clientset in_cluster ev)
    (λ _ w, clientset = true → ev_generation ev = gen →
       ∀ id, (∀ cgroup, containerIDForKey cgroup (an_process a) = CidFound id) → tied (ev_key ev) id w).
Proof.
  intros Hans. unfold handleNewPidEvent. cbv zeta. destruct clientset; cbn [negb]; [|by intros w _ _].
  unfold profile_of_key. set (key := ev_key ev) in *.
  set (Q := λ (_ : unit) w, true = true → ev_generation ev = gen → ∀ id,
    (∀ cgroup, containerIDForKey cgroup (an_process a) = CidFound id) → tied key id w).
  assert (triple (λ _, True) (cgroup ← get cgroupKeys;
    match containerIDForKey cgroup (an_process a) with
    | CidError => mret tt
    | CidNotFound => excludeKey a key (ev_generation ev)
    | CidFound id => handle_container a in_cluster key (ev_generation ev) id
    end) Q) as Hrest.
  { apply (rg_read _ _ _ _ (λ _ _, True)); [done|done|]. intros cgroup.
    destruct (containerIDForKey cgroup (an_process a)) as [id| |] eqn:Hc.
    - apply (rg_post _ _ (λ _ w, ev_generation ev = gen → tied key id w)).
      + intros _ w _ H _ Hg i Hi. specialize (Hi cgroup). assert (i = id) as -> by congruence. auto.
      + apply handle_container_rg. intros Hg. destruct (Hans Hg) as [H1 H2 H3].
        specialize (H1 cgroup). rewrite Hc in H1. eauto.
    - apply (rg_post _ _ (λ _ _, True)); [intros _ w _ _ _ _ i Hi; specialize (Hi cgroup); congruence|].
      apply exclude_rg. intros Hg (i & Hi & _). destruct (Hans Hg) as [H1 _ _].
      specialize (H1 cgroup). rewrite Hc in H1. congruence.
    - intros w _ _ _ _ i Hi. specialize (Hi cgroup). congruence. }
  apply (rg_read _ _ _ _ (λ r w, ∀ id, r = Some id → owner key = Some id ∧ tied key id w)).
  - intros w Hw _ id Hid. split; [by apply (so_owner _ Hw)|]. by intros _.
  - intros r w w' H1 H2 HR H id Hid. destruct (H id Hid) as [Ho Ht].
    split; [done|by apply (tied_steady key id w w')].
  - intros [id|]; [|apply (rg_weaken _ _ _ (λ _, True)); [done|exact Hrest]].
    apply (rg_read _ _ _ _ (λ _ w, owner key = Some id ∧ tied key id w)).
    + intros w _ H. by apply H.
    + intros r w w' H1 H2 HR [Ho Ht]. split; [done|by apply (tied_steady key id w w')].
    + intros [profile|]; [|apply (rg_weaken _ _ _ (λ _, True)); [done|exact Hrest]].
      intros w _ [Ho Ht] _ Hg i Hi. destruct (Hans Hg) as [H1 _ _]. specialize (H1 true).
      rewrite (Hi true) in H1. assert (i = id) as -> by congruence. done.
Qed.
Lemma handlers_rg p : session_handler p → triple (λ _, True) p (λ _ _, True).
Proof.
  intros (a & clientset & in_cluster & ev & -> & Hans).
  eapply rg_post; [|by apply handler_rg]. done.
Qed.

(** *** Caching the profiles of a pod *)

Definition insert_pair (c : containerProfiles) (x : str * str) : containerProfiles :=
  ContainerProfiles.Insert x.1 x.2 c.

(** [cacheProfilesOfPod] inserts the annotations in order. *)
Lemma cacheProfilesOfPod_pairs pod c : cacheProfilesOfPod pod c = fold_left insert_pair (pod_pairs pod) c.
Proof.
  unfold cacheProfilesOfPod, pod_pairs.
  generalize (ContainerIDs pod) at 1 2. generalize [SeccompProfileRecordBpfAnnotationKey;
    ApparmorProfileRecordBpfAnnotationKey]. intros ans ids. revert c.
  induction ids as [|id ids IH]; intros c; [done|]. cbn [fold_left mbind list_bind].
  rewrite IH, fold_left_app. f_equal. clear. revert c.
  induction ans as [|an ans IH]; intros c; [done|]. cbn [fold_left omap list_omap]. rewrite IH.
  unfold cache_annotation. destruct (_ !! _); [|done]. by case_bool_decide.
Qed.

Definition profiles_ok (c : containerProfiles) : Prop := ∃ l, rep l c ∧ ∀ x, x ∈ l → annotated x.

Lemma insert_pairs l c :
  (∀ x, x ∈ l → annotated x) → profiles_ok c →
  profiles_ok (fold_left insert_pair l c) ∧
  ∀ i p, p ∈ GetAll i (fold_left insert_pair l c) ↔ p ∈ GetAll i c ∨ (i, p) ∈ l.
Proof.
  induction l as [|x l IH] in c |- *; intros Hl Hc; cbn [fold_left].
  { split; [done|]. intros i p. rewrite elem_of_nil. tauto. }
  destruct Hc as (l0 & Hrep & Hann). destruct (IH (insert_pair c x)) as [H1 H2].
  - intros y Hy. apply Hl. by right.
  - exists (ContainerProfiles.spec_op (ContainerProfiles.OpInsert x.1 x.2) l0).2.
    split; [by apply Insert_rep|]. intros y. cbn. case_bool_decide; [apply Hann|].
    rewrite elem_of_app, list_elem_of_singleton, <- surjective_pairing.
    intros [?| ->]; [by apply Hann|]. apply Hl. left.
  - split; [done|]. intros i p. rewrite H2. unfold insert_pair. rewrite elem_of_GetAll_Insert, elem_of_cons.
    rewrite <- surjective_pairing. tauto.
Qed.

(** The loop of [cacheProfilesOfUnresolvedContainers]. *)
Definition resolve (c : containerProfiles) (id : str) : containerProfiles :=
  match ContainerProfiles.Get id c with
  | Some _ => c
  | None => match pod_of id with Some pod => cacheProfilesOfPod pod c | None => c end
  end.

Lemma resolve_ok id c :
  profiles_ok c →
  profiles_ok (resolve c id) ∧ (∀ i p, p ∈ GetAll i c → p ∈ GetAll i (resolve c id)) ∧
  (recorded_container id → ∃ p, p ∈ GetAll id (resolve c id)).
Proof.
  intros Hc. unfold resolve. destruct (ContainerProfiles.Get id c) as [p|] eqn:Hg.
  { split; [done|]. split; [done|]. intros _. exists p. unfold ContainerProfiles.Get, GetAll in *.
    destruct (list_at _ _); simplify_eq/=. left. }
  destruct (pod_of id) as [pod|] eqn:Hp.
  - rewrite cacheProfilesOfPod_pairs. destruct (insert_pairs (pod_pairs pod) c) as [H1 H2]; [|done|].
    { intros x. by apply (pod_pairs_annotated id). }
    split; [done|]. split; [intros i p ?; apply H2; by left|].
    intros (p & pod' & Hp' & Hin). exists p. apply H2. right. cbn in Hp'. congruence.
  - split; [done|]. split; [done|]. intros (p & pod' & Hp' & _). cbn in Hp'. congruence.
Qed.

(** All recorded containers get their profiles. *)
Lemma unresolved_profiles ids c :
  profiles_ok c →
  profiles_ok (fold_left resolve ids c) ∧
  (∀ i p, p ∈ GetAll i c → p ∈ GetAll i (fold_left resolve ids c)) ∧
  ∀ i, i ∈ ids → recorded_container i → ∃ p, p ∈ GetAll i (fold_left resolve ids c).
Proof.
  induction ids as [|id ids IH] in c |- *; intros Hc; cbn [fold_left].
  { split; [done|]. split; [done|]. by intros i ?%elem_of_nil. }
  destruct (resolve_ok id c Hc) as (H1 & H2 & H3).
  destruct (IH _ H1) as (H4 & H5 & H6). split; [done|]. split; [auto|].
  intros i [->|Hi]%elem_of_cons Hr; [|by apply H6]. destruct (H3 Hr) as [p Hp]. eauto.
Qed.

Lemma tied_collected key id w :
  session_ok w → tied key id w → recorded_container id →
  ∃ profile, annotated (id, profile) ∧
    key ∈ getKeysForProfile profile (cacheProfilesOfUnresolvedContainers (Some pod_of) w).
Proof.
  intros Hok Ht Hr. specialize (Ht Hr). pose proof (so_keys _ Hok) as Hk.
  destruct (unresolved_profiles (ContainerKeys.Containers (rec_keys w)) (rec_profiles w) (so_profiles _ Hok))
    as ((l & Hl & Hann) & _ & Hp).
  destruct (Hp id) as [p Hin]; [apply elem_of_Containers; eauto|done|].
  unfold GetAll in Hin. rewrite (rep_container _ _ Hl), elem_of_profiles in Hin.
  exists p. split; [by apply Hann|]. unfold getKeysForProfile, cacheProfilesOfUnresolvedContainers. cbn.
  unfold ContainerProfiles.Containers. rewrite (rep_profile _ _ Hl).
  pose proof (proj2 (elem_of_containers l id p) Hin) as Hid.
  rewrite bool_decide_eq_false_2 by (intros E; rewrite E in Hid; by apply elem_of_nil in Hid).
  apply elem_of_keysOf; [done|]. eauto.
Qed.
End session.

Lemma session_reached owner pod_of gen w0 ts w :
  cluster_ok owner pod_of → new_session gen w0 →
  reachable (session_handler owner pod_of gen) (session_env pod_of) w0 (ts, w) →
  session_ok owner pod_of gen w.
Proof.
  intros Hcl H0. apply (pool_rg _ (grows pod_of)); [|by apply env_ok|by apply new_session_ok].
  intros p. by apply handlers_rg.
Qed.

(** C12 No key of a recorded container is ever excluded in a session, neither in
    the kernel nor in the AppArmor recorder, however the handlers of new
    processes interleave, share lookups and find the caches, and whatever events
    of ended sessions are still handled. *)
Theorem recorded_never_excluded owner pod_of gen w0 ts w key :
  cluster_ok owner pod_of → new_session gen w0 →
  reachable (session_handler owner pod_of gen) (session_env pod_of) w0 (ts, w) →
  recorded_key owner pod_of key →
  (key ∉ rec_excluded w) ∧ ∀ r, rec_apparmor w = Some r → key ∉ excluded r.
Proof.
  intros Hcl H0 Hr Hk. pose proof (session_reached _ _ _ _ _ _ Hcl H0 Hr) as Hok.
  split; [intros Hin; by apply (so_excluded _ _ _ _ Hok key)|].
  intros r Hr' Hin. by apply (so_apparmor _ _ _ _ Hok r key).
Qed.

(** C11 Once a process of a recorded container was handled in a session, the data
    under its key gets collected: whatever other handlers, evictions and
    requests do from then on, a collection that first resolves the containers
    without a profile finds the key for a profile the pod asks for. *)
Theorem handled_is_collected owner pod_of gen w0 ts w a in_cluster ev id ts' w' :
  cluster_ok owner pod_of → new_session gen w0 →
  reachable (session_handler owner pod_of gen) (session_env pod_of) w0 (ts, w) →
  answers_ok owner pod_of (ev_key ev) a → ev_generation ev = gen →
  (∀ cgroup, containerIDForKey cgroup (an_process a) = CidFound id) →
  recorded_container pod_of id →
  rtc (pstep (session_handler owner pod_of gen) (session_env pod_of))
    (ts ++ [handleNewPidEvent a true in_cluster ev], w) (ts', w') →
  ts' !! length ts = Some (Ret tt) →
  ∃ profile, annotated pod_of (id, profile) ∧
    ev_key ev ∈ getKeysForProfile profile (cacheProfilesOfUnresolvedContainers (Some pod_of) w').
Proof.
  intros Hcl H0 Hr Hans Hg Hid Hrec Hr' Hret.
  assert (session_handler owner pod_of gen (handleNewPidEvent a true in_cluster ev)) as Hh.
  { by exists a, true, in_cluster, ev. }
  assert (Hpost := pool_post _ (grows pod_of) _ _ (handlers_rg owner pod_of gen Hcl)
    (env_ok owner pod_of gen) w0 ts w _ _ ts' w' tt (new_session_ok _ _ _ _ H0) Hr Hh
    (handler_rg owner pod_of gen Hcl a true in_cluster ev (λ _, Hans)) Hr' Hret).
  apply (tied_collected owner pod_of gen); [done| |by apply Hpost|done].
  eapply session_reached; [done|exact H0|]. unfold reachable. etrans; [exact Hr|]. eapply rtc_l; [by apply pstep_start|exact Hr'].
Qed.

(** ** The end of a session *)

Lemma stop_data r : data (exec StopRecording r) = (∅, ∅, ∅, ∅, ∅, ∅).
Proof.
  unfold StopRecording. rewrite !exec_bind. unfold upd. rewrite !exec_act. cbn [snd].
  match goal with |- data (exec _ (exec _ ?r')) = _ => set (r1 := r') end.
  assert (∀ A (p : go A) r, guar (λ b b', data b' = data b) p → data (exec p r) = data r) as Hg.
  { intros A p r' H. apply (guar_exec _ _ r') in H; [done|by intros ?|]. intros b1 b2 b3. congruence. }
  rewrite !Hg; [done| |]; (apply guar_bind; [by repeat constructor|]; intros keys;
    apply for_each_guar; intros; by repeat constructor).
Qed.

Lemma stop_run err b e :
  end_session err b = (true, e) →
  run (stop_recording err) b = (true, {| e with
    rec_keys := ContainerKeys.Clear (rec_keys e); rec_profiles := ContainerProfiles.Clear (rec_profiles e);
    collectedProfiles := ∅; keyLimitWarned := ∅; containersWithoutProfile := ∅;
    containersNotFound := ∅ |}).
Proof.
  intros He. unfold stop_recording. rewrite (run_bind_eq _ _ _ true e); [done|].
  unfold act. cbn [run]. by rewrite He.
Qed.

Lemma end_session_frame b :
  let e := (end_session None b).2 in
  end_session None b = (true, e) ∧ rec_recording e = false ∧ rec_keys e = rec_keys b ∧
  recordingGeneration e = u64 (recordingGeneration b + 1) ∧ rec_excluded e = ∅ ∧
  rec_apparmor e = (λ r, exec StopRecording r) <$> rec_apparmor b ∧
  (rec_seccomp b ≠ None → rec_syscalls e = ∅).
Proof.
  unfold end_session. generalize StopRecording. intros stop.
  destruct (rec_seccomp b); by repeat split.
Qed.

(** C29 [StopRecording] without an error ends the recording: the programs are told
    to stop, all data, tables, exclusions and caches are gone, and the next
    session starts afresh under another generation.  What a handler that is under
    way meanwhile can still do is in [late_handler_unties]. *)
Theorem stop_starts_afresh b :
  maxPerContainer (rec_keys b) = maxKeysPerContainer →
  let b' := exec (stop_recording None) b in
  result (stop_recording None) b = true ∧
  rec_recording b' = false ∧
  new_session (u64 (recordingGeneration b + 1)) b' ∧
  (rec_seccomp b ≠ None → rec_syscalls b' = ∅) ∧
  (∀ r, rec_apparmor b' = Some r → data r = (∅, ∅, ∅, ∅, ∅, ∅)) ∧
  collectedProfiles b' = ∅ ∧ containersNotFound b' = ∅ ∧ keyLimitWarned b' = ∅ ∧
  recordingGeneration b' ≠ u64 (recordingGeneration b).
Proof.
  intros Hmax b'. subst b'. unfold result, exec.
  destruct (end_session_frame b) as (He & H1 & H2 & H3 & H4 & H5 & H6).
  rewrite (stop_run None b _ He). set (e := (end_session None b).2) in *. clearbody e. cbn [fst snd].
  assert (∀ r, rec_apparmor e = Some r → data r = (∅, ∅, ∅, ∅, ∅, ∅)) as Hr.
  { rewrite H5. intros r Hr. destruct (rec_apparmor b) as [r0|]; [|done].
    assert (r = exec StopRecording r0) as -> by (by injection Hr). apply stop_data. }
  split; [done|]. split; [exact H1|]. split.
  { split; try done.
    - cbn. by rewrite H2.
    - intros r Hr'. apply Hr in Hr'. by injection Hr'. }
  split; [exact H6|]. split; [exact Hr|]. repeat split; try done. cbn. rewrite H3.
  unfold wrap. intros Hg. apply (f_equal (λ z, (z - recordingGeneration b) mod 2 ^ 64)) in Hg.
  rewrite !Zminus_mod_idemp_l, Z.sub_diag in Hg. by replace (recordingGeneration b + 1 -
    recordingGeneration b) with 1 in Hg by lia.
Qed.

(** ** A node with one recorded container *)

Section node.
Definition node_id : str := bytes "c0ffee".
Definition node_profile : str := bytes "nginx-profile".
Definition node_pod : Pod := {|
  pod_statuses := [(bytes "nginx", node_id)];
  pod_annotations := {[ SeccompProfileRecordBpfAnnotationKey ++ bytes "nginx" := node_profile ]}
|}.
Definition node_owner (key : Z) : option str := if key =? 7 then Some node_id else None.
Definition node_pod_of (id : str) : option Pod := if bool_decide (id = node_id) then Some node_pod else None.

Definition node_start : BpfRecorder := {|
  startRequests := 1; rec_seccomp := None; rec_apparmor := Some (newAppArmorRecorder []);
  unavailable := false; rec_syscalls := ∅; rec_keys := newContainerKeys maxKeysPerContainer;
  rec_profiles := newContainerProfiles; collectedProfiles := ∅; recordingGeneration := 1;
  keyLimitWarned := ∅; containersWithoutProfile := ∅; containersNotFound := ∅; rec_recording := true;
  rec_excluded := ∅; uniqueKeys := true; cgroupKeys := false; staleKeys := ∅; idleSince := None;
  lastStart := None
|}.

Definition node_answers (pod : option Pod) : answers := {|
  an_process := {| pa_cgroup_path := None; pa_pid := CidFound node_id; pa_verified := true |};
  an_pod := pod; an_shared := None; an_exclude := true
|}.

(** The handler of a process of the container, in a session. *)
Definition node_handler (pod : option Pod) (gen : Z) : rp unit :=
  handleNewPidEvent (node_answers pod) true true (NewPidEvent 100 4026532000 7 gen).

Lemma node_recorded : recorded_container node_pod_of node_id.
Proof.
  exists node_profile, node_pod. split; [done|].
  replace (pod_pairs node_pod) with [(node_id, node_profile)] by by vm_compute. left.
Qed.

Lemma node_owner_Some key id : node_owner key = Some id → key = 7 ∧ id = node_id.
Proof. unfold node_owner. by destruct (Z.eqb_spec key 7) as [->|]; [intros [= <-]|]. Qed.

Lemma node_cluster : cluster_ok node_owner node_pod_of.
Proof.
  split.
  - intros id pod id'. unfold node_pod_of at 1. case_bool_decide; [|done]. intros [= <-].
    replace (ContainerIDs node_pod) with [node_id] by by vm_compute.
    by intros ->%list_elem_of_singleton.
  - intros id _. exists {[7]}. rewrite size_singleton. split; [unfold maxKeysPerContainer; lia|].
    intros key [-> _]%node_owner_Some. set_solver.
Qed.

Lemma node_answers_ok : answers_ok node_owner node_pod_of 7 (node_answers (Some node_pod)).
Proof. split; [by intros []|by intros id pod [_ ->]%node_owner_Some [= <-]|done]. Qed.

Lemma node_new : new_session 1 node_start.
Proof. split; try done. by intros r [= <-]. Qed.

Lemma node_reached :
  reachable (session_handler node_owner node_pod_of 1) (session_env node_pod_of) node_start
    ([Ret tt], exec (node_handler (Some node_pod) 1) node_start).
Proof.
  eapply rtc_l; [apply pstep_start|apply (run_steps _ _ (node_handler (Some node_pod) 1) node_start [] [])].
  exists (node_answers (Some node_pod)), true, true, (NewPidEvent 100 4026532000 7 1).
  split; [done|]. intros _. exact node_answers_ok.
Qed.
End node.

Lemma recorded_never_excluded_witness :
  (7 ∉ rec_excluded (exec (node_handler (Some node_pod) 1) node_start)) ∧
  ∀ r, rec_apparmor (exec (node_handler (Some node_pod) 1) node_start) = Some r → 7 ∉ excluded r.
Proof.
  apply (recorded_never_excluded node_owner node_pod_of 1 node_start [Ret tt]).
  - exact node_cluster.
  - exact node_new.
  - exact node_reached.
  - exists node_id. split; [done|exact node_recorded].
Defined.

Lemma handled_is_collected_witness :
  ∃ profile, annotated node_pod_of (node_id, profile) ∧
    7 ∈ getKeysForProfile profile (cacheProfilesOfUnresolvedContainers (Some node_pod_of)
      (exec (node_handler (Some node_pod) 1) node_start)).
Proof.
  apply (handled_is_collected node_owner node_pod_of 1 node_start [] node_start
    (node_answers (Some node_pod)) true (NewPidEvent 100 4026532000 7 1) node_id [Ret tt]).
  - exact node_cluster.
  - exact node_new.
  - apply rtc_refl.
  - exact node_answers_ok.
  - done.
  - by intros [].
  - exact node_recorded.
  - apply (run_steps _ _ (node_handler (Some node_pod) 1) node_start [] []).
  - done.
Defined.

Lemma stop_starts_afresh_witness :
  new_session 2 (exec (stop_recording None) (exec (node_handler (Some node_pod) 1) node_start)).
Proof.
  exact (proj1 (proj2 (proj2 (stop_starts_afresh
    (exec (node_handler (Some node_pod) 1) node_start) eq_refl)))).
Defined.

(** ** Handlers under way when a session ends *)

Section races.
Definition ended (p : rp unit) : Prop := False.
Definition stop_request : rp unit := _ ← stop_recording None; mret tt.

(** A handler of session 1 makes [n] accesses, the recording is stopped, [p] runs,
    and the handler goes on. *)
Definition late (n : nat) (h p : rp unit) (b : BpfRecorder) : BpfRecorder :=
  let '(h, b) := advance n h b in
  exec h (exec p (exec stop_request b)).

Lemma late_reachable n h p b :
  rtc (pstep ended eq) ([h; stop_request; p], b) ([Ret tt; Ret tt; Ret tt], late n h p b).
Proof.
  assert (∀ (q : rp unit) w, result q w = tt) as Hu by (intros q w; by destruct (result q w)).
  etrans; [apply (advance_steps ended eq n h b [] [stop_request; p])|]. unfold late.
  destruct (advance n h b) as [h1 b1]. cbn [fst snd].
  etrans; [apply (run_steps ended eq stop_request b1 [h1] [p])|].
  etrans; [apply (run_steps ended eq p _ [h1; _] [])|].
  etrans; [apply (run_steps ended eq h1 _ [] [_; _])|]. by rewrite !Hu.
Qed.

(** The check of a handler of an ended session removes what the session that
    runs by then has found: the key of a recorded container is tied to nothing
    any more although its process was handled, and its data is not collected. *)
Theorem late_handler_unties :
  ∃ b', rtc (pstep ended eq)
    ([node_handler (Some node_pod) 1; stop_request; node_handler (Some node_pod) 2], node_start)
    ([Ret tt; Ret tt; Ret tt], b') ∧
  recordingGeneration b' = 2 ∧ rec_excluded b' = ∅ ∧
  getKeysForProfile node_profile (cacheProfilesOfUnresolvedContainers (Some node_pod_of) b') = [].
Proof.
  exists (late 9 (node_handler (Some node_pod) 1) (node_handler (Some node_pod) 2) node_start).
  split; [apply late_reachable|]. by vm_compute.
Qed.

(** A handler whose lookup fails does not check its session again: the key it
    inserted after [StopRecording] has cleared the table stays there. *)
Theorem late_key_stays :
  ∃ b', rtc (pstep ended eq) ([node_handler None 1; stop_request; mret tt], node_start)
    ([Ret tt; Ret tt; Ret tt], b') ∧
  recordingGeneration b' = 2 ∧ ContainerKeys.Get 7 (rec_keys b') = Some node_id.
Proof.
  exists (late 3 (node_handler None 1) (mret tt) node_start). split; [apply late_reachable|]. by vm_compute.
Qed.

(** A handler which has cached the profile of a container right before
    [StopRecording] clears it takes the container for one without a profile, and
    remembers that after the cache was cleared.  The next session then excludes
    the key of a recorded container. *)
Theorem late_lookup_excludes :
  ∃ b', rtc (pstep ended eq)
    ([node_handler (Some node_pod) 1; stop_request; mret tt], node_start)
    ([Ret tt; Ret tt; Ret tt], b') ∧
  recordingGeneration b' = 2 ∧ recorded_container node_pod_of node_id ∧
  7 ∈ rec_excluded (exec (node_handler (Some node_pod) 2) b').
Proof.
  exists (late 8 (node_handler (Some node_pod) 1) (mret tt) node_start).
  split; [apply late_reachable|]. split; [by vm_compute|]. split; [exact node_recorded|].
  apply (bool_decide_unpack _). by vm_compute.
Qed.
End races.
