(* ===== verification/Selected.v ===== *)
(** * The selection of processes in a session

    The handlers of new processes exclude the keys of workloads nobody records,
    in the map [exclude_keys] of the programs; [get_mntns] of [recorder.bpf.c]
    skips the processes of these keys.  The two together: no process of a recorded
    container is skipped, however the programs, the handlers and the rest of the
    userspace interleave ([recorded_process_selected]). *)
From S2P Require Import Prelude Bpf State Names Keys Report Syscalls Activity DPath FsEvents Hooks Rely.
From S2P Require Import Wire Paths AppArmor Recording Profile Seccomp.
From S2P Require Import ContainerKeys ContainerProfiles ProcFs Recorder Collect Sessions Handlers.
#[local] Open Scope Z_scope.

Lemma preserves_rg {W A} (I : W → Prop) (p : prog W A) :
  preserves I p → rg I (λ _ _, True) (λ _ _, True) (λ _, True) p.
Proof.
  intros H. induction H as [a|T f k Hf Hk IH]; cbn; [done|]. intros w Hw _.
  split; [by apply Hf|]. split; [done|]. exists (λ _, True). split; [done|].
  split; [apply stable_const|by apply (IH w)].
Qed.

Section selected.
Context {KR : Kernel} (cfg : Rodata) (cur : Task).
Context (owner : Z → option str) (pod_of : str → option Pod) (gen : Z) (b0 : BpfRecorder).

(** The keys excluded in the kernel are those of a state the handlers of the
    session reach. *)
Definition excluded_by_session (w : World) : Prop :=
  ∃ ts b, reachable (session_handler owner pod_of gen) (session_env pod_of) b0 (ts, b) ∧
    dom (exclude_keys w) = rec_excluded b.

(** The userspace while a session lasts: it writes to the maps as [user_step]
    says; the keys it excludes are those of the handlers, and the mount namespaces
    it excludes stay. *)
Definition session_user (w w' : World) : Prop :=
  user_step w w' ∧ exclude_mntns w' = exclude_mntns w ∧ excluded_by_session w'.

(** The programs, and [get_mntns] for the process [cur] in one of them. *)
Definition selecting (p : bpf Z) : Prop := hook cfg p ∨ p = get_mntns cfg cur.

Definition not_excluded (w : World) : Prop :=
  exclude_mntns w !! mntns_inum cur = None ∧
  exclude_keys w !! get_key cfg cur (mntns_inum cur) = None.

Lemma hook_not_excluded p : hook cfg p → preserves not_excluded p.
Proof.
  intros Hp%hook_keeps_excluded. by apply (keeps_preserves (λ w, (exclude_mntns w, exclude_keys w))
    (λ m, m.1 !! mntns_inum cur = None ∧ m.2 !! get_key cfg cur (mntns_inum cur) = None)).
Qed.

Lemma get_mntns_rg :
  mntns_inum cur ≠ 0 → has_filter cfg = false →
  rg not_excluded (λ _ _, True) (λ r _, r = mntns_inum cur) (λ _, True) (get_mntns cfg cur).
Proof.
  intros Hi Hf. unfold get_mntns, key_excluded, filtered_out. rewrite Hf.
  destruct (Z.eqb_spec (mntns_inum cur) 0) as [?|_]; [done|].
  apply (rg_step _ _ _ _ _ _ (λ e _, e = None)); [by intros w [Hw Hk] _|by intros r w w'|].
  intros e. apply (rg_pure _ _ (e = None)); [by intros|]. intros ->.
  rewrite bool_decide_eq_false_2 by (by intros []).
  apply (rg_bind _ _ (λ ke _, ke = false)).
  - destruct (unique_keys cfg); [|done].
    apply (rg_step _ _ _ _ _ _ (λ e _, e = None)); [by intros w [Hw Hk] _|by intros r w w'|].
    intros e w _ ->. by rewrite bool_decide_eq_false_2 by (by intros []).
  - intros ke. apply (rg_pure _ _ (ke = false)); [by intros|]. by intros -> w.
Qed.

Lemma session_not_excluded w :
  cluster_ok owner pod_of → new_session gen b0 →
  recorded_key owner pod_of (get_key cfg cur (mntns_inum cur)) →
  exclude_mntns w !! mntns_inum cur = None → excluded_by_session w → not_excluded w.
Proof.
  intros Hcl H0 Hk Hm (ts & b & Hr & Hd). split; [done|].
  pose proof (session_reached _ _ _ _ _ _ Hcl H0 Hr) as Hok.
  apply not_elem_of_dom. rewrite Hd. intros Hin. by apply (so_excluded _ _ _ _ Hok _ Hin).
Qed.
End selected.

(** C13 While a session of recording lasts, no process of a recorded container is
    skipped: however the programs, the handlers of new processes and the other
    writes of the userspace interleave, [get_mntns] returns the mount namespace of
    such a process, if that is not excluded and there is no filter on program
    names. *)
Theorem recorded_process_selected `{!Kernel} cfg cur owner pod_of gen b0 w0 ts w ts' w' r :
  cluster_ok owner pod_of → new_session gen b0 →
  recorded_key owner pod_of (get_key cfg cur (mntns_inum cur)) →
  mntns_inum cur ≠ 0 → has_filter cfg = false →
  exclude_mntns w0 !! mntns_inum cur = None → excluded_by_session owner pod_of gen b0 w0 →
  reachable (selecting cfg cur) (session_user owner pod_of gen b0) w0 (ts, w) →
  rtc (pstep (selecting cfg cur) (session_user owner pod_of gen b0))
    (ts ++ [get_mntns cfg cur], w) (ts', w') →
  ts' !! length ts = Some (Ret r) → r = mntns_inum cur.
Proof.
  intros Hcl H0 Hk Hi Hf Hm Hx Hr Hr' Hret.
  refine (pool_post (not_excluded cfg cur) (λ _ _, True) (selecting cfg cur) _ _ _ w0 ts w
    (get_mntns cfg cur) (λ r _, r = mntns_inum cur) ts' w' r _ Hr (or_intror eq_refl) _ Hr' Hret).
  - intros p [Hp| ->]; [by apply preserves_rg, hook_not_excluded|].
    by eapply rg_post, get_mntns_rg.
  - intros w1 w2 [Hm1 _] (_ & Hm2 & Hx2). split; [|done].
    eapply (session_not_excluded cfg cur owner pod_of); [done|exact H0|done| |done]. by rewrite Hm2.
  - by eapply (session_not_excluded cfg cur owner pod_of).
  - by apply get_mntns_rg.
Qed.

(** ** Witness *)

(** A process of the recorded container of [Handlers], whose key is 7. *)
Definition node_task : Task := {| demo_task with raw_cgroup_id := 7 |}.

Lemma recorded_process_selected_witness :
  result (get_mntns demo_cfg node_task) demo_world = mntns_inum node_task.
Proof.
  apply (@recorded_process_selected demo_kernel demo_cfg node_task node_owner node_pod_of 1 node_start
    demo_world [] demo_world
    [Ret (result (get_mntns demo_cfg node_task) demo_world)]
    (exec (get_mntns demo_cfg node_task) demo_world)).
  - exact node_cluster.
  - exact node_new.
  - exists node_id. split; [by vm_compute|exact node_recorded].
  - by vm_compute.
  - by vm_compute.
  - by vm_compute.
  - exists [], node_start. split; [apply rtc_refl|by vm_compute].
  - apply rtc_refl.
  - apply (run_steps _ _ (get_mntns demo_cfg node_task) demo_world [] []).
  - done.
Defined.
