(* ===== verification/Exits.v ===== *)
(** * Waiting for the exit of a process ([bpfrecorder.go])

    [WaitForPidExit] registers a channel for the PID before it looks whether the
    exit was seen already, and [handleExitEvent] remembers the exit before it
    takes and closes the channel.  The callers of [WaitForPidExit] run
    concurrently; the events are handled one after the other by one loop.  The
    steps of both are a step relation on the shared state.

    A wait only reports an exit that was seen ([wait_truthful]), and the only
    waiter of a PID is woken by its exit, wherever it is in [WaitForPidExit]
    ([exit_wakes]).  Waiters that share a channel can lose it
    ([shared_channel_lost]). *)
From S2P Require Import Prelude.
#[local] Open Scope Z_scope.

(** ** State *)

(** A caller: registered with its channel, parked in the [select], on its way out
    (the deferred [CompareAndDelete] is left to do), and back, with whether the
    exit was seen. *)
Inductive waiter :=
  | Registered (pid : Z) (done : nat)
  | Parked (pid : Z) (done : nat)
  | Leaving (pid : Z) (done : nat) (seen : bool)
  | Returned (pid : Z) (seen : bool).

(** The loop: idle, after [recentExits.Set], and after [LoadAndDelete]. *)
Inductive handler :=
  | Idle
  | Remembered (pid : Z)
  | Taken (pid : Z) (done : option nat).

(** Channels are numbered in the order they are made.  [seenExits] are all exits
    ever seen, which the code does not keep. *)
Record exits := MkExits {
  recentExits : gset Z;
  exitWaiters : gmap Z nat;
  closed : gset nat;
  next : nat;
  waiters : gmap nat waiter;
  loop : handler;
  seenExits : gset Z
}.

Definition exits_start : exits := MkExits ∅ ∅ ∅ 0 ∅ Idle ∅.

(** [exitWaiters.CompareAndDelete]. *)
Definition CompareAndDelete (pid : Z) (done : nat) (m : gmap Z nat) : gmap Z nat :=
  if bool_decide (m !! pid = Some done) then delete pid m else m.

(** ** Steps *)

Inductive estep (s : exits) : exits → Prop :=
  (** [LoadOrStore]. *)
  | wait_join t pid done :
      waiters s !! t = None → exitWaiters s !! pid = Some done →
      estep s {| s with waiters := <[t := Registered pid done]> (waiters s); next := S (next s) |}
  | wait_register t pid :
      waiters s !! t = None → exitWaiters s !! pid = None →
      estep s {| s with waiters := <[t := Registered pid (next s)]> (waiters s);
                        exitWaiters := <[pid := next s]> (exitWaiters s); next := S (next s) |}
  | wait_recent t pid done :
      waiters s !! t = Some (Registered pid done) → pid ∈ recentExits s →
      estep s {| s with waiters := <[t := Leaving pid done true]> (waiters s) |}
  | wait_park t pid done :
      waiters s !! t = Some (Registered pid done) → pid ∉ recentExits s →
      estep s {| s with waiters := <[t := Parked pid done]> (waiters s) |}
  | wait_woken t pid done :
      waiters s !! t = Some (Parked pid done) → done ∈ closed s →
      estep s {| s with waiters := <[t := Leaving pid done true]> (waiters s) |}
  (** The context is done. *)
  | wait_cancel t pid done :
      waiters s !! t = Some (Parked pid done) →
      estep s {| s with waiters := <[t := Leaving pid done false]> (waiters s) |}
  | wait_leave t pid done seen :
      waiters s !! t = Some (Leaving pid done seen) →
      estep s {| s with waiters := <[t := Returned pid seen]> (waiters s);
                        exitWaiters := CompareAndDelete pid done (exitWaiters s) |}
  | exit_remember pid :
      loop s = Idle →
      estep s {| s with recentExits := {[pid]} ∪ recentExits s; loop := Remembered pid;
                        seenExits := {[pid]} ∪ seenExits s |}
  | exit_take pid :
      loop s = Remembered pid →
      estep s {| s with exitWaiters := delete pid (exitWaiters s);
                        loop := Taken pid (exitWaiters s !! pid) |}
  | exit_close pid done :
      loop s = Taken pid done →
      estep s {| s with closed := match done with Some c => {[c]} ∪ closed s | None => closed s end;
                        loop := Idle |}
  (** Entries of the cache expire, and go with the end of a recording. *)
  | forget recent :
      recent ⊆ recentExits s → estep s {| s with recentExits := recent |}.

(** The PID and the channel of a caller that has not returned. *)
Definition waits (x : waiter) : option (Z * nat) :=
  match x with
  | Registered pid done | Parked pid done | Leaving pid done _ => Some (pid, done)
  | Returned _ _ => None
  end.

(** ** A wait tells the truth *)

(** The callers, the map and the loop that know a channel for a PID. *)
Definition knows (s : exits) (pid : Z) (c : nat) : Prop :=
  exitWaiters s !! pid = Some c ∨ (∃ t x, waiters s !! t = Some x ∧ waits x = Some (pid, c)) ∨
  loop s = Taken pid (Some c).

Lemma waiter_knows s t x pid c : waiters s !! t = Some x → waits x = Some (pid, c) → knows s pid c.
Proof. intros. right. left. eauto. Qed.

(** A caller that goes on knows no other channel. *)
Lemma knows_move s s' t x x' pid c :
  waiters s !! t = Some x → waiters s' = <[t := x']> (waiters s) → loop s' = loop s →
  (∀ p c, exitWaiters s' !! p = Some c → exitWaiters s !! p = Some c) →
  (∀ p, waits x' = Some p → waits x = Some p) → knows s' pid c → knows s pid c.
Proof.
  intros Ht Hw Hl Hm Hx [H|[(t' & y & Hy & Hp)|H]]; [by left; apply Hm| |right; right; congruence].
  rewrite Hw in Hy. apply lookup_insert_Some in Hy as [[<- <-]|[_ Hy]]; [|by apply (waiter_knows s t' y)].
  apply Hx in Hp. by eapply waiter_knows.
Qed.

Lemma CompareAndDelete_Some pid done m p c : CompareAndDelete pid done m !! p = Some c → m !! p = Some c.
Proof. unfold CompareAndDelete. case_bool_decide; [|done]. by intros [_ ?]%lookup_delete_Some. Qed.

Lemma knows_step s s' pid c :
  estep s s' → knows s' pid c →
  knows s pid c ∨ (c = next s ∧ exitWaiters s !! pid = None ∧ exitWaiters s' !! pid = Some c).
Proof.
  intros Hs Hk. destruct Hs as [t p d Ht Hm|t p Ht Hm|t p d Ht Hr|t p d Ht Hr|t p d Ht Hc|t p d Ht
    |t p d b Ht|p Hl|p Hl|p d Hl|r Hr].
  - left. destruct Hk as [H|[(t' & x & Hx & Hp)|H]]; [by left| |by right; right]. cbn in Hx.
    apply lookup_insert_Some in Hx as [[<- <-]|[_ Hx]]; [|by apply (waiter_knows s t' x)].
    cbn in Hp. simplify_eq. by left.
  - destruct Hk as [H|[(t' & x & Hx & Hp)|H]]; cbn in *; [| |by left; right; right].
    + apply lookup_insert_Some in H as [[<- <-]|[_ H]]; [|by left; left].
      right. by rewrite lookup_insert_eq.
    + apply lookup_insert_Some in Hx as [[<- <-]|[_ Hx]]; [|left; by apply (waiter_knows s t' x)].
      cbn in Hp. simplify_eq. right. by rewrite lookup_insert_eq.
  - left. by apply (knows_move s _ t _ (Leaving p d true) pid c Ht) in Hk.
  - left. by apply (knows_move s _ t _ (Parked p d) pid c Ht) in Hk.
  - left. by apply (knows_move s _ t _ (Leaving p d true) pid c Ht) in Hk.
  - left. by apply (knows_move s _ t _ (Leaving p d false) pid c Ht) in Hk.
  - left. apply (knows_move s _ t _ (Returned p b) pid c Ht) in Hk; try done. cbn.
    intros q e. apply CompareAndDelete_Some.
  - left. destruct Hk as [H|[H|H]]; [by left|by right; left|done].
  - left. destruct Hk as [H|[H|H]]; cbn in *; [left; by apply lookup_delete_Some in H as [_ ?]|by right; left|].
    injection H as <- H. by left.
  - left. destruct Hk as [H|[H|H]]; [by left|by right; left|done].
  - by left.
Qed.

(** [f] tells the PID a channel was made for. *)
Record exits_ok (f : nat → Z) (s : exits) : Prop := {
  eo_recent : recentExits s ⊆ seenExits s;
  eo_loop pid : loop s = Remembered pid ∨ (∃ c, loop s = Taken pid c) → pid ∈ seenExits s;
  eo_known pid c : knows s pid c → (c < next s)%nat ∧ f c = pid;
  eo_closed c : c ∈ closed s → (c < next s)%nat ∧ f c ∈ seenExits s;
  eo_true t pid : (∃ c, waiters s !! t = Some (Leaving pid c true)) ∨
    waiters s !! t = Some (Returned pid true) → pid ∈ seenExits s
}.

Lemma start_ok f : exits_ok f exits_start.
Proof.
  split.
  - done.
  - by intros pid [H|[c H]].
  - intros pid c [H|[(t & x & H & _)|H]]; [| |done]; cbn in H; by rewrite lookup_empty in H.
  - intros c. set_solver.
  - intros t pid [[c H]|H]; cbn in H; by rewrite lookup_empty in H.
Qed.

(** The steps that make no channel. *)
Lemma step_ok_old f s s' :
  exits_ok f s → (∀ pid c, knows s' pid c → knows s pid c) → (next s <= next s')%nat →
  seenExits s ⊆ seenExits s' → recentExits s' ⊆ recentExits s ∪ seenExits s' →
  (∀ pid, loop s' = Remembered pid ∨ (∃ c, loop s' = Taken pid c) → pid ∈ seenExits s') →
  (∀ c, c ∈ closed s' → c ∈ closed s ∨ ∃ pid, knows s pid c ∧ pid ∈ seenExits s) →
  (∀ t pid, (∃ c, waiters s' !! t = Some (Leaving pid c true)) ∨ waiters s' !! t = Some (Returned pid true) →
     pid ∈ seenExits s') →
  exits_ok f s'.
Proof.
  intros [H1 H2 H3 H4 H5] Hk Hn Hse Hre Hl Hc Ht. split; try done.
  - set_solver.
  - intros pid c Hkc. destruct (H3 pid c (Hk _ _ Hkc)). split; [lia|done].
  - intros c [Hin|(pid & Hkc & Hin)]%Hc.
    + destruct (H4 c Hin). split; [lia|]. by apply Hse.
    + destruct (H3 pid c Hkc) as [? ->]. split; [lia|]. by apply Hse.
Qed.

(** A caller goes on, and returns true only with an exit that was seen. *)
Lemma move_ok f s s' t x' :
  exits_ok f s → (∀ pid c, knows s' pid c → knows s pid c) →
  waiters s' = <[t := x']> (waiters s) → (next s <= next s')%nat → seenExits s' = seenExits s →
  recentExits s' = recentExits s → loop s' = loop s → closed s' = closed s →
  (∀ pid, (∃ c, x' = Leaving pid c true) ∨ x' = Returned pid true → pid ∈ seenExits s) →
  exits_ok f s'.
Proof.
  intros Hok Hk Hw Hn Hse Hre Hl Hc Hx. apply (step_ok_old f s); rewrite ?Hse, ?Hre, ?Hl, ?Hc; try done.
  - set_solver.
  - apply Hok.
  - by left.
  - rewrite Hw. intros t' pid [[c Hin]|Hin]; apply lookup_insert_Some in Hin as [[_ ?]|[_ ?]];
      eauto using eo_true.
Qed.

Lemma estep_ok f s s' : exits_ok f s → estep s s' → ∃ f', exits_ok f' s'.
Proof.
  intros Hok Hs. pose proof (λ pid c, knows_step s s' pid c Hs) as Hk.
  assert ((∀ pid, exitWaiters s !! pid = None → exitWaiters s' !! pid = None) →
    ∀ pid c, knows s' pid c → knows s pid c) as Hk'.
  { intros Hn pid c [?|(_ & H%Hn & ?)]%Hk; [done|congruence]. }
  destruct Hs as [t p d Ht Hm|t p Ht Hm|t p d Ht Hr|t p d Ht Hr|t p d Ht Hc|t p d Ht
    |t p d b Ht|p Hl|p Hl|p d Hl|r Hr].
  - exists f. apply (move_ok f s _ t (Registered p d)); auto with arith. by intros pid [[c ?]|?].
  - exists (λ c, if bool_decide (c = next s) then p else f c). destruct Hok as [H1 H2 H3 H4 H5].
    split; try done.
    + intros pid c Hkc. cbn [next]. destruct (Hk pid c Hkc) as [[? ?]%H3|(-> & Hn & Hs)].
      * rewrite bool_decide_eq_false_2 by lia. split; [lia|done].
      * rewrite bool_decide_eq_true_2 by done. split; [lia|]. cbn in Hs.
        apply lookup_insert_Some in Hs as [[? _]|[_ ?]]; [done|congruence].
    + intros c Hin. cbn [next]. destruct (H4 c Hin). rewrite bool_decide_eq_false_2 by lia. split; [lia|done].
    + cbn. intros t' pid [[c Hin]|Hin]; apply lookup_insert_Some in Hin as [[_ ?]|[_ ?]]; eauto; done.
  - exists f. apply (move_ok f s _ t (Leaving p d true)); auto with arith.
    intros pid [[c [= <- _]]|?]; [|done]. by apply (eo_recent f s Hok).
  - exists f. apply (move_ok f s _ t (Parked p d)); auto with arith. by intros pid [[c ?]|?].
  - exists f. apply (move_ok f s _ t (Leaving p d true)); auto with arith.
    intros pid [[c [= <- _]]|?]; [|done]. destruct (eo_known f s Hok p d) as [_ <-].
    + by apply (waiter_knows s t (Parked p d)).
    + by apply (eo_closed f s Hok).
  - exists f. apply (move_ok f s _ t (Leaving p d false)); auto with arith. by intros pid [[c ?]|?].
  - exists f. apply (move_ok f s _ t (Returned p b)); auto with arith.
    + apply Hk'. cbn. intros pid Hn. destruct (CompareAndDelete _ _ _ !! pid) eqn:E; [|done].
      apply CompareAndDelete_Some in E. congruence.
    + intros pid [[c ?]|[= <- ->]]; [done|]. apply (eo_true f s Hok t). left. eauto.
  - exists f. apply (step_ok_old f s); cbn; auto; [set_solver|set_solver| |].
    + intros pid [[= ->]|[c ?]]; [set_solver|done].
    + intros t pid H%(eo_true f s Hok). set_solver.
  - exists f. apply (step_ok_old f s); cbn; auto; [|set_solver| |apply Hok].
    + apply Hk'. cbn. intros pid Hn. apply lookup_delete_None. by right.
    + intros pid [?|[c [= -> _]]]; [done|]. apply (eo_loop f s Hok). by left.
  - exists f. apply (step_ok_old f s); cbn; auto; [set_solver| | |apply Hok].
    + by intros pid [?|[c ?]].
    + intros c. destruct d as [d|]; [|by left]. rewrite elem_of_union, elem_of_singleton.
      intros [->|?]; [|by left]. right. exists p. split; [by right; right|].
      apply (eo_loop f s Hok). eauto.
  - exists f. apply (step_ok_old f s); cbn; auto; [set_solver|apply Hok|apply Hok].
Qed.

(** [WaitForPidExit] reports the exit of a process only if the exit was seen,
    however many callers wait for it, give up or share a channel, and whatever
    the cache of exits forgets. *)
Theorem wait_truthful s t pid :
  rtc estep exits_start s → waiters s !! t = Some (Returned pid true) → pid ∈ seenExits s.
Proof.
  intros Hr Ht. assert (∃ f, exits_ok f s) as [f Hok]; [|by eauto using eo_true].
  assert (∃ f, exits_ok f exits_start) as H0 by (exists (λ _, 0); apply start_ok).
  clear Ht. induction Hr as [|s s1 s2 Hs Hr IH]; [done|]. apply IH. destruct H0. by eapply estep_ok.
Qed.

(** ** An exit wakes its waiter *)

Section alone.
Context (t : nat) (pid : Z).

(** [t] still waits on a channel, and only [t] waits for the PID. *)
Definition waiting (s : exits) (c : nat) : Prop :=
  waiters s !! t = Some (Registered pid c) ∨ waiters s !! t = Some (Parked pid c).
Definition alone (s : exits) : Prop :=
  ∀ t' x c, waiters s !! t' = Some x → waits x = Some (pid, c) → t' = t.
Definition astep (s s' : exits) : Prop := estep s s' ∧ alone s'.

(** The channel of [t] is not lost. *)
Definition reached (s : exits) (c : nat) : Prop := c ∈ closed s ∨ loop s = Taken pid (Some c).

Lemma waiting_move s s' t' x' c :
  waiters s' = <[t' := x']> (waiters s) → waiting s' c →
  waiting s c ∨ (t' = t ∧ (x' = Registered pid c ∨ x' = Parked pid c)).
Proof.
  unfold waiting. intros ->. rewrite !lookup_insert_Some. intros [[[-> ->]|[_ ?]]|[[-> ->]|[_ ?]]]; auto.
Qed.

Lemma reached_step s s' c : estep s s' → reached s c → reached s' c.
Proof.
  unfold reached. intros Hs [Hc|Hl].
  - left. destruct Hs as [| | | | | | | | |p d _|]; try done. cbn. destruct d; set_solver.
  - destruct Hs as [| | | | | | |p Hi|p Hi|p d Hi|]; try congruence; try by right.
    left. rewrite Hl in Hi. injection Hi as <- <-. cbn. set_solver.
Qed.

(** Before the exit of the PID is handled, [t] can be found. *)
Definition kept (s : exits) : Prop := ∀ c, waiting s c → exitWaiters s !! pid = Some c ∨ reached s c.

Lemma kept_move s s' t' x' :
  kept s → estep s s' → waiters s' = <[t' := x']> (waiters s) →
  (∀ c, waiting s c → exitWaiters s !! pid = Some c →
     exitWaiters s' !! pid = Some c ∨ waiters s' !! t = Some x') →
  (∀ c, x' = Registered pid c ∨ x' = Parked pid c →
     exitWaiters s' !! pid = Some c ∨ waiting s c ∧ exitWaiters s' = exitWaiters s) →
  kept s'.
Proof.
  intros Hk Hs Hw Hm Hx c Hc.
  assert (∀ c, x' = Registered pid c ∨ x' = Parked pid c → exitWaiters s' !! pid = Some c ∨ reached s' c) as Hx'.
  { intros d [?|[[?|?]%Hk Hm']]%Hx; [by left|left; congruence|right; by apply (reached_step s)]. }
  destruct (waiting_move s s' t' x' c Hw Hc) as [Hws|[_ Hxc]]; [|by apply Hx'].
  destruct (Hk c Hws) as [Hmap|Hr]; [|right; by apply (reached_step s)].
  destruct (Hm c Hws Hmap) as [?|Hxt]; [by left|]. apply Hx'.
  unfold waiting in Hc. rewrite Hxt in Hc. destruct Hc as [[= ->]|[= ->]]; auto.
Qed.

Lemma kept_step s s' : alone s → kept s → estep s s' → kept s'.
Proof.
  intros Ha Hk Hs. pose proof Hs as Hs'.
  destruct Hs as [t' p d Ht Hm|t' p Ht Hm|t' p d Ht Hr|t' p d Ht Hr|t' p d Ht Hc|t' p d Ht
    |t' p d b Ht|p Hl|p Hl|p d Hl|r Hr].
  - apply (kept_move s _ t' (Registered p d) Hk Hs'); [done|by left|]. cbn.
    intros c [[= -> ->]|?]; [by left|done].
  - apply (kept_move s _ t' (Registered p (next s)) Hk Hs'); [done| |]; cbn.
    + intros c _ Hmap. left. rewrite lookup_insert_ne; congruence.
    + intros c [[= -> ->]|?]; [|done]. left. by rewrite lookup_insert_eq.
  - apply (kept_move s _ t' (Leaving p d true) Hk Hs'); [done|by left|]. by intros c [?|?].
  - apply (kept_move s _ t' (Parked p d) Hk Hs'); [done|by left|]. intros c [?|[= -> ->]]; [done|].
    right. split; [|done]. left. by rewrite <- (Ha t' (Registered pid c) c).
  - apply (kept_move s _ t' (Leaving p d true) Hk Hs'); [done|by left|]. by intros c [?|?].
  - apply (kept_move s _ t' (Leaving p d false) Hk Hs'); [done|by left|]. by intros c [?|?].
  - apply (kept_move s _ t' (Returned p b) Hk Hs'); [done| |by intros c [?|?]]. cbn.
    intros c _ Hmap. unfold CompareAndDelete. case_bool_decide as Hd; [|by left].
    destruct (decide (p = pid)) as [->|]; [right|left; by rewrite lookup_delete_ne].
    rewrite (Ha t' (Leaving pid d b) d) by done. apply lookup_insert_eq.
  - intros c [?|?]%Hk; [by left|]. right. by apply (reached_step s).
  - intros c Hc. destruct (Hk c Hc) as [Hmap|Hr]; [|right; by apply (reached_step s)]. cbn.
    destruct (decide (p = pid)) as [->|]; [|left; by rewrite lookup_delete_ne].
    right. right. cbn. by rewrite Hmap.
  - intros c [?|?]%Hk; [by left|]. right. by apply (reached_step s).
  - done.
Qed.

(** Once the exit of the PID is handled, the channel of [t] is closed or about to be. *)
Definition found (s : exits) : Prop := ∀ c, waiting s c → reached s c.

Lemma found_step s s' :
  is_Some (waiters s !! t) → alone s → found s → estep s s' → is_Some (waiters s' !! t) ∧ found s'.
Proof.
  intros [y Hy] Ha Hf Hs. pose proof Hs as Hs'.
  assert (∀ t' x', waiters s' = <[t' := x']> (waiters s) →
    (∀ c, t' = t → x' = Registered pid c ∨ x' = Parked pid c → waiting s c) →
    is_Some (waiters s' !! t) ∧ found s') as Hmove.
  { intros t' x' Hw Hx. split.
    - rewrite Hw, lookup_insert. case_decide; eauto.
    - intros c Hc. apply (reached_step s); [done|]. apply Hf.
      destruct (waiting_move s s' t' x' c Hw Hc) as [?|[-> ?]]; auto. }
  assert (waiters s' = waiters s → is_Some (waiters s' !! t) ∧ found s') as Hstay.
  { intros Hw. split; [rewrite Hw; eauto|]. intros c Hc. apply (reached_step s); [done|]. apply Hf.
    unfold waiting in *. by rewrite Hw in Hc. }
  destruct Hs as [t' p d Ht Hm|t' p Ht Hm|t' p d Ht Hr|t' p d Ht Hr|t' p d Ht Hc|t' p d Ht
    |t' p d b Ht|p Hl|p Hl|p d Hl|r Hr]; try by apply Hstay.
  - apply (Hmove t' _ eq_refl). intros c ->. congruence.
  - apply (Hmove t' _ eq_refl). intros c ->. congruence.
  - apply (Hmove t' _ eq_refl). by intros c _ [?|?].
  - apply (Hmove t' _ eq_refl). intros c -> [?|[= -> ->]]; [done|by left].
  - apply (Hmove t' _ eq_refl). by intros c _ [?|?].
  - apply (Hmove t' _ eq_refl). by intros c _ [?|?].
  - apply (Hmove t' _ eq_refl). by intros c _ [?|?].
Qed.

(** What holds while the exit is handled, and after that. *)
Record handling (s : exits) : Prop := {
  ha_alone : alone s;
  ha_there : is_Some (waiters s !! t);
  ha_kept : kept s;
  ha_found : loop s = Remembered pid ∨ found s
}.

Lemma handling_step s s' : handling s → astep s s' → handling s'.
Proof.
  intros [Ha Ht Hk Hf] [Hs Ha']. pose proof (kept_step s s' Ha Hk Hs) as Hk'.
  destruct Hf as [Hl|Hf]; [|destruct (found_step s s' Ht Ha Hf Hs); split; auto].
  split; [done| |done|].
  - destruct Ht as [y Hy]. destruct Hs; cbn; rewrite ?lookup_insert; try case_decide; eauto.
  - pose proof Hs as Hs'. destruct Hs; cbn; auto; try congruence.
    right. intros c Hc. destruct (Hk' c Hc) as [Hmap|?]; [|done]. cbn in Hmap.
    assert (pid0 = pid) as -> by congruence. by rewrite lookup_delete_eq in Hmap.
Qed.
End alone.

(** The state after the exit of a PID was remembered. *)
Definition exit_seen (pid : Z) (s : exits) : exits :=
  {| s with recentExits := {[pid]} ∪ recentExits s; loop := Remembered pid;
            seenExits := {[pid]} ∪ seenExits s |}.

(** C28 No wake up is lost to the only waiter of a PID: when the loop has handled
    the exit of the PID, whichever steps of [WaitForPidExit] the waiter has made
    before, in between and after, it has left or its channel is closed, so that
    its [select] returns. *)
Theorem exit_wakes t pid s1 s2 :
  rtc (astep t pid) exits_start s1 → is_Some (waiters s1 !! t) → loop s1 = Idle →
  rtc (astep t pid) (exit_seen pid s1) s2 → loop s2 = Idle →
  ∀ c, waiting t pid s2 c → c ∈ closed s2.
Proof.
  intros Hr1 Ht Hl1 Hr2 Hl2.
  assert (alone t pid s1 ∧ kept t pid s1) as [Ha Hk].
  { assert (alone t pid exits_start ∧ kept t pid exits_start) as H0.
    { split; [intros t' x c Hx|intros c [Hx|Hx]]; cbn in Hx; by rewrite lookup_empty in Hx. }
    clear Ht Hl1 Hr2. induction Hr1 as [|s s' s'' [Hs Ha] Hr IH]; [done|].
    apply IH. split; [done|]. destruct H0. by eapply kept_step. }
  assert (handling t pid (exit_seen pid s1)) as H1.
  { split; [exact Ha|exact Ht| |by left].
    apply (kept_step t pid s1); [done|done|by apply exit_remember]. }
  assert (handling t pid s2) as [_ _ _ [Hf|Hf]].
  { clear -Hr2 H1. induction Hr2; eauto using handling_step. }
  - congruence.
  - intros c [?|?]%Hf; [done|congruence].
Qed.

(** ** Traces *)

Lemma estep_to s s' s'' : estep s s' → s' = s'' → estep s s''.
Proof. by intros ? <-. Qed.

Lemma astep_estep t pid s s' : rtc (astep t pid) s s' → rtc estep s s'.
Proof. intros Hr. induction Hr as [|? ? ? [Hs _]]; [done|]. by eapply rtc_l. Qed.

(** A caller waits for PID 5, its exit is handled, and the caller returns. *)
Definition registered_state := MkExits ∅ {[5 := 0%nat]} ∅ 1 {[1%nat := Registered 5 0]} Idle ∅.
Definition parked_state := MkExits ∅ {[5 := 0%nat]} ∅ 1 {[1%nat := Parked 5 0]} Idle ∅.
Definition taken_state :=
  MkExits {[5]} ∅ ∅ 1 {[1%nat := Parked 5 0]} (Taken 5 (Some 0%nat)) {[5]}.
Definition woken_state := MkExits {[5]} ∅ {[0%nat]} 1 {[1%nat := Parked 5 0]} Idle {[5]}.
Definition leaving_state := MkExits {[5]} ∅ {[0%nat]} 1 {[1%nat := Leaving 5 0 true]} Idle {[5]}.
Definition returned_state := MkExits {[5]} ∅ {[0%nat]} 1 {[1%nat := Returned 5 true]} Idle {[5]}.

Lemma one_alone s x : waiters s = {[1%nat := x]} → alone 1 5 s.
Proof. intros Hs t' y c Hx _. rewrite Hs in Hx. by apply lookup_singleton_Some in Hx as [<- _]. Qed.

(** A step to a state with one caller, by a constructor. *)
Ltac one_step c :=
  split; [apply (estep_to _ _ _ c); by vm_compute|by eapply one_alone].

Lemma parked_reached : rtc (astep 1 5) exits_start parked_state.
Proof.
  apply (rtc_l _ _ registered_state); [one_step (wait_register exits_start 1 5 eq_refl eq_refl)|].
  apply rtc_once. one_step (wait_park registered_state 1 5 0 eq_refl (not_elem_of_empty 5)).
Qed.

Lemma woken_reached : rtc (astep 1 5) (exit_seen 5 parked_state) woken_state.
Proof.
  apply (rtc_l _ _ taken_state); [one_step (exit_take (exit_seen 5 parked_state) 5 eq_refl)|].
  apply rtc_once. one_step (exit_close taken_state 5 (Some 0%nat) eq_refl).
Qed.

Lemma exit_wakes_witness : waiting 1 5 woken_state 0 ∧ 0%nat ∈ closed woken_state.
Proof.
  assert (waiting 1 5 woken_state 0) as Hw by by right. split; [done|].
  by refine (exit_wakes 1 5 parked_state woken_state parked_reached _ eq_refl woken_reached eq_refl 0%nat Hw).
Defined.

Lemma wait_truthful_witness : 5 ∈ seenExits returned_state.
Proof.
  apply (wait_truthful returned_state 1 5); [|done].
  etrans; [apply (astep_estep 1 5), parked_reached|].
  apply (rtc_l _ _ (exit_seen 5 parked_state)); [by apply exit_remember|].
  etrans; [apply (astep_estep 1 5), woken_reached|].
  apply (rtc_l _ _ leaving_state).
  { apply (estep_to _ _ _ (wait_woken woken_state 1 5 0 eq_refl (proj2 (elem_of_singleton 0%nat 0%nat) eq_refl))).
    by vm_compute. }
  apply rtc_once. apply (estep_to _ _ _ (wait_leave leaving_state 1 5 0 true eq_refl)). by vm_compute.
Defined.

(** A caller which finds the exit among the recent ones takes the channel it shares
    with a parked caller out of the map before the loop does.  The exit is handled,
    the parked caller is not woken, and no later exit of the PID wakes it: the
    registration is gone although another caller was parked on it. *)
Definition shared_state (w2 : waiter) (l : handler) (m : gmap Z nat) : exits :=
  MkExits {[5]} m ∅ 2 {[1%nat := Parked 5 0; 2%nat := w2]} l {[5]}.

Theorem shared_channel_lost :
  rtc estep exits_start (shared_state (Returned 5 true) Idle ∅).
Proof.
  etrans; [apply (astep_estep 1 5), parked_reached|].
  apply (rtc_l _ _ (exit_seen 5 parked_state)); [by apply exit_remember|].
  apply (rtc_l _ _ (shared_state (Registered 5 0) (Remembered 5) {[5 := 0%nat]})).
  { apply (estep_to _ _ _ (wait_join (exit_seen 5 parked_state) 2 5 0 eq_refl eq_refl)). by vm_compute. }
  apply (rtc_l _ _ (shared_state (Leaving 5 0 true) (Remembered 5) {[5 := 0%nat]})).
  { apply (estep_to _ _ _ (wait_recent (shared_state (Registered 5 0) (Remembered 5) {[5 := 0%nat]}) 2 5 0 eq_refl
      (proj2 (elem_of_singleton 5 5) eq_refl))). by vm_compute. }
  apply (rtc_l _ _ (shared_state (Returned 5 true) (Remembered 5) ∅)).
  { apply (estep_to _ _ _ (wait_leave (shared_state (Leaving 5 0 true) (Remembered 5) {[5 := 0%nat]}) 2 5 0 true eq_refl)). by vm_compute. }
  apply (rtc_l _ _ (shared_state (Returned 5 true) (Taken 5 None) ∅)).
  { apply (estep_to _ _ _ (exit_take (shared_state (Returned 5 true) (Remembered 5) ∅) 5 eq_refl)). by vm_compute. }
  apply rtc_once. apply (estep_to _ _ _ (exit_close (shared_state (Returned 5 true) (Taken 5 None) ∅) 5 None eq_refl)). by vm_compute.
Qed.
