(* ===== verification/PidQueue.v ===== *)
(** * The queue of new processes ([bpfrecorder.go])

    The loop that reads the ring buffer puts the reported processes into a bounded
    queue without ever waiting ([scheduleNewPidEvent]), and a fixed pool of
    handlers takes them ([runPidHandler]).  The kernel reports a process once, as
    long as it is in the map [active_pids]; a process that did not fit into the
    queue is noted and taken out of that map once the handlers have caught up
    ([reportDroppedPidsAgain]), so that the kernel reports it again.

    The queue and the notes are bounded ([queue_bounded]), and no process is
    forgotten: as soon as the handlers have nothing left to do, every process the
    kernel will not report again was handled, up to the losses the code accepts
    ([no_process_forgotten]). *)
From S2P Require Import Prelude.
#[local] Open Scope Z_scope.

(** A process, as [droppedPid]: its PID and its key. *)
Abbreviation process := (Z * Z)%type.

Definition newPidQueueSize : nat := 1024.
Definition maxNewPidHandlers : nat := 32.

(** A handler of the pool: waiting for an event, in [handleNewPidEvent], before the
    check of [reportDroppedPidsAgain], past it, and in its loop. *)
Inductive pid_handler :=
  | Free
  | Handling (p : process)
  | Checking
  | Draining
  | Deleting (dropped : list process).

(** [ringEvents] are the processes that the kernel has reported and the loop has not
    read yet.  [handledPids] are the processes that got handled at some time, and
    stays so when an entry leaves the map, and [lostPids] those which the code
    gives up; both are only there to state what is shown. *)
Record pid_queue := MkPidQueue {
  activePids : gset process;
  ringEvents : list process;
  newPidEvents : list process;
  droppedPids : gset process;
  droppedNewPidEvents : Z;
  pool : list pid_handler;
  handledPids : gset process;
  lostPids : gset process
}.

Definition pid_queue_start : pid_queue :=
  MkPidQueue ∅ [] [] ∅ 0 (replicate maxNewPidHandlers Free) ∅ ∅.

(** ** Operations *)

(** [scheduleNewPidEvent]: the [select] takes the queue if it has room. *)
Definition scheduleNewPidEvent (p : process) (q : pid_queue) : pid_queue :=
  if (length (newPidEvents q) <? newPidQueueSize)%nat
  then {| q with newPidEvents := newPidEvents q ++ [p] |}
  else if (size (droppedPids q) <? newPidQueueSize)%nat
  then {| q with droppedPids := {[p]} ∪ droppedPids q;
                 droppedNewPidEvents := u64 (droppedNewPidEvents q + 1) |}
  else {| q with droppedNewPidEvents := u64 (droppedNewPidEvents q + 1);
                 lostPids := {[p]} ∪ lostPids q |}.

(** [DeleteActivePid] of one process; it may fail. *)
Definition delete_active (ok : bool) (p : process) (q : pid_queue) : pid_queue :=
  if ok then {| q with activePids := activePids q ∖ {[p]} |}
  else {| q with lostPids := {[p]} ∪ lostPids q |}.

(** ** Steps *)

(** The loop and the handlers. *)
Inductive work (q : pid_queue) : pid_queue → Prop :=
  | loop_schedule p rest :
      ringEvents q = p :: rest →
      work q (scheduleNewPidEvent p {| q with ringEvents := rest |})
  | handler_take h p rest :
      pool q !! h = Some Free → newPidEvents q = p :: rest →
      work q {| q with newPidEvents := rest; pool := <[h := Handling p]> (pool q) |}
  | handler_handled h p :
      pool q !! h = Some (Handling p) →
      work q {| q with pool := <[h := Checking]> (pool q); handledPids := {[p]} ∪ handledPids q |}
  | handler_busy h :
      pool q !! h = Some Checking → (newPidQueueSize / 2 < length (newPidEvents q))%nat →
      work q {| q with pool := <[h := Free]> (pool q) |}
  | handler_room h :
      pool q !! h = Some Checking → (length (newPidEvents q) <= newPidQueueSize / 2)%nat →
      work q {| q with pool := <[h := Draining]> (pool q) |}
  | handler_drain h :
      pool q !! h = Some Draining →
      work q {| q with pool := <[h := Deleting (elements (droppedPids q))]> (pool q); droppedPids := ∅ |}
  | handler_delete h ok p rest :
      pool q !! h = Some (Deleting (p :: rest)) →
      work q (delete_active ok p {| q with pool := <[h := Deleting rest]> (pool q) |})
  | handler_done h :
      pool q !! h = Some (Deleting []) → work q {| q with pool := <[h := Free]> (pool q) |}.

Inductive qstep (q : pid_queue) : pid_queue → Prop :=
  (** The kernel reports a process that is not in the map, and entries go with
      their processes, with the end of a recording and under pressure. *)
  | kernel_report p :
      p ∉ activePids q →
      qstep q {| q with activePids := {[p]} ∪ activePids q; ringEvents := ringEvents q ++ [p] |}
  | kernel_forget active :
      active ⊆ activePids q → qstep q {| q with activePids := active |}
  | userspace q' : work q q' → qstep q q'.

(** ** The invariant *)

(** What a handler has in hand. *)
Definition holds (h : pid_handler) (p : process) : Prop :=
  match h with Handling p' => p = p' | Deleting l => p ∈ l | _ => False end.

(** A handler that will look at the dropped processes. *)
Definition will_drain (h : pid_handler) : Prop :=
  match h with Handling _ | Checking | Draining => True | _ => False end.

(** Where a process is. *)
Definition accounted (q : pid_queue) (p : process) : Prop :=
  p ∈ ringEvents q ∨ p ∈ newPidEvents q ∨ p ∈ droppedPids q ∨
  (∃ h x, pool q !! h = Some x ∧ holds x p) ∨ p ∈ handledPids q ∨ p ∈ lostPids q.

Record queue_ok (q : pid_queue) : Prop := {
  qo_queue : (length (newPidEvents q) <= newPidQueueSize)%nat;
  qo_dropped : (size (droppedPids q) <= newPidQueueSize)%nat;
  qo_pool : length (pool q) = maxNewPidHandlers;
  qo_active p : p ∈ activePids q → accounted q p;
  qo_drain : droppedPids q ≠ ∅ → newPidEvents q ≠ [] ∨ ∃ h x, pool q !! h = Some x ∧ will_drain x
}.

(** A handler goes on: what it had is with it, or elsewhere. *)
Lemma pool_move (P : pid_handler → Prop) (G : Prop) (l : list pid_handler) h x x' :
  l !! h = Some x → (∃ i y, l !! i = Some y ∧ P y) → (P x → P x' ∨ G) →
  (∃ i y, <[h := x']> l !! i = Some y ∧ P y) ∨ G.
Proof.
  intros Hx (i & y & Hy & HP) HG. destruct (decide (i = h)) as [->|Hne].
  - assert (y = x) as -> by congruence. destruct (HG HP) as [Hx'|?]; [left|by right].
    exists h, x'. split; [|done]. apply list_lookup_insert_eq. by eapply lookup_lt_Some.
  - left. exists i, y. by rewrite list_lookup_insert_ne.
Qed.

Lemma pool_there (P : pid_handler → Prop) (l : list pid_handler) h x x' :
  l !! h = Some x → P x' → ∃ i y, <[h := x']> l !! i = Some y ∧ P y.
Proof.
  intros Hx HP. exists h, x'. split; [|done]. apply list_lookup_insert_eq. by eapply lookup_lt_Some.
Qed.

(** A handler goes on and changes nothing but what it holds. *)
Lemma move_accounted q q' h x x' p :
  pool q !! h = Some x → pool q' = <[h := x']> (pool q) →
  ringEvents q' = ringEvents q → newPidEvents q' = newPidEvents q → droppedPids q' = droppedPids q →
  handledPids q ⊆ handledPids q' → lostPids q ⊆ lostPids q' →
  (holds x p → holds x' p ∨ p ∈ handledPids q' ∨ p ∈ lostPids q') →
  accounted q p → accounted q' p.
Proof.
  intros Hx Hp Hr Hn Hd Hh Hl Hm. unfold accounted. rewrite Hr, Hn, Hd, Hp.
  intros [?|[?|[?|[Hheld|[?|?]]]]]; [by auto..| |by set_solver|by set_solver].
  apply (pool_move (λ y, holds y p) (p ∈ handledPids q' ∨ p ∈ lostPids q') _ h x x') in Hheld; tauto.
Qed.

Lemma move_drain q h x x' :
  pool q !! h = Some x → (will_drain x → will_drain x' ∨ newPidEvents q ≠ []) → queue_ok q →
  droppedPids q ≠ ∅ → newPidEvents q ≠ [] ∨ ∃ i y, <[h := x']> (pool q) !! i = Some y ∧ will_drain y.
Proof.
  intros Hx Hm Hok Hd. destruct (qo_drain q Hok Hd) as [?|Hw]; [by left|].
  apply (pool_move will_drain (newPidEvents q ≠ []) _ h x x') in Hw; tauto.
Qed.

(** The steps of a handler that touch neither the queue nor the notes. *)
Lemma move_queue_ok q q' h x x' :
  queue_ok q → pool q !! h = Some x → pool q' = <[h := x']> (pool q) →
  ringEvents q' = ringEvents q → newPidEvents q' = newPidEvents q → droppedPids q' = droppedPids q →
  handledPids q ⊆ handledPids q' → lostPids q ⊆ lostPids q' → activePids q' ⊆ activePids q →
  (∀ p, p ∈ activePids q' → holds x p → holds x' p ∨ p ∈ handledPids q' ∨ p ∈ lostPids q') →
  (will_drain x → will_drain x' ∨ newPidEvents q ≠ []) → queue_ok q'.
Proof.
  intros Hok Hx Hp Hr Hn Hd Hh Hl Ha Hm Hw. split.
  - rewrite Hn. apply Hok.
  - rewrite Hd. apply Hok.
  - rewrite Hp, length_insert. apply Hok.
  - intros p Hin. apply (move_accounted q q' h x x'); auto. apply Hok. by apply Ha.
  - rewrite Hn, Hd, Hp. by apply (move_drain q h x x').
Qed.

Lemma schedule_ok q p rest :
  queue_ok q → ringEvents q = p :: rest → queue_ok (scheduleNewPidEvent p {| q with ringEvents := rest |}).
Proof.
  intros [H1 H2 H3 H4 H5] Hr.
  assert (∀ y, accounted q y → y = p ∨ accounted {| q with ringEvents := rest |} y) as Hacc.
  { unfold accounted. rewrite Hr. intros y. rewrite elem_of_cons. cbn. tauto. }
  unfold scheduleNewPidEvent. cbn [newPidEvents droppedPids lostPids droppedNewPidEvents].
  destruct (Nat.ltb_spec (length (newPidEvents q)) newPidQueueSize) as [Hl|Hl];
    [|destruct (Nat.ltb_spec (size (droppedPids q)) newPidQueueSize) as [Hs|Hs]];
    split; cbn [newPidEvents droppedPids pool activePids]; try done.
  - rewrite length_app. cbn. lia.
  - intros y [->|Hy]%H4%Hacc; unfold accounted in *; cbn in *; rewrite elem_of_app; [|tauto].
    right. left. right. left.
  - intros _. left. by destruct (newPidEvents q).
  - pose proof (size_union_alt {[p]} (droppedPids q)) as Hu. rewrite size_singleton in Hu.
    pose proof (subseteq_size (droppedPids q ∖ {[p]}) (droppedPids q) ltac:(set_solver)). lia.
  - intros y [->|Hy]%H4%Hacc; unfold accounted in *; cbn in *; rewrite elem_of_union; [|tauto].
    right. right. left. left. set_solver.
  - intros _. left. intros E. rewrite E in Hl. cbn in Hl. unfold newPidQueueSize in Hl. lia.
  - intros y [->|Hy]%H4%Hacc; unfold accounted in *; cbn in *; rewrite elem_of_union; [|tauto].
    do 5 right. left. set_solver.
Qed.

Lemma work_ok q q' : queue_ok q → work q q' → queue_ok q'.
Proof.
  intros Hok Hs. destruct Hs as [p rest Hr|h p rest Hh Hn|h p Hh|h Hh Hl|h Hh Hl|h Hh|h ok p rest Hh|h Hh].
  - by apply schedule_ok.
  - destruct Hok as [H1 H2 H3 H4 H5]. rewrite Hn in H1. split; cbn; try done.
    + cbn in H1. lia.
    + by rewrite length_insert.
    + intros y Hy%H4. unfold accounted in *. rewrite Hn, elem_of_cons in Hy. cbn.
      destruct Hy as [?|[[->|?]|[?|[Hheld|?]]]]; [by auto| |by auto|by auto| |by tauto].
      * right. right. right. left. by apply (pool_there (λ z, holds z p) _ _ Free).
      * right. right. right. left.
        destruct (pool_move (λ z, holds z y) False _ _ _ (Handling p) Hh Hheld); done.
    + intros _. right. by apply (pool_there will_drain _ _ Free).
  - apply (move_queue_ok q _ h (Handling p) Checking); cbn; try done; [set_solver| |tauto].
    intros y _ ->. right. left. set_solver.
  - apply (move_queue_ok q _ h Checking Free); cbn; try done. intros _. right.
    destruct (newPidEvents q); [|done]. cbn in Hl. lia.
  - apply (move_queue_ok q _ h Checking Draining); cbn; try done; tauto.
  - destruct Hok as [H1 H2 H3 H4 H5]. split; cbn; try done.
    + rewrite size_empty. lia.
    + by rewrite length_insert.
    + intros y Hy%H4. unfold accounted in *. cbn. destruct Hy as [?|[?|[Hd|[Hheld|?]]]]; [by auto..| | |by tauto].
      * right. right. right. left. apply (pool_there (λ z, holds z y) _ _ Draining); [done|].
        cbn. by apply elem_of_elements.
      * right. right. right. left.
        destruct (pool_move (λ z, holds z y) False _ _ _ (Deleting (elements (droppedPids q))) Hh Hheld); done.
  - apply (move_queue_ok q _ h (Deleting (p :: rest)) (Deleting rest)); destruct ok; cbn; try done;
      try set_solver.
  - apply (move_queue_ok q _ h (Deleting []) Free); cbn; try done. intros y _ ?%elem_of_nil. done.
Qed.

Lemma qstep_ok q q' : queue_ok q → qstep q q' → queue_ok q'.
Proof.
  intros Hok Hs. destruct Hs as [p Hp|active Ha|q' Hw]; [| |by eapply work_ok].
  - destruct Hok as [H1 H2 H3 H4 H5]. split; cbn; try done. intros y. rewrite elem_of_union, elem_of_singleton.
    unfold accounted. cbn. rewrite elem_of_app. intros [->|Hy%H4]; [left; right; left|].
    unfold accounted in Hy. tauto.
  - destruct Hok as [H1 H2 H3 H4 H5]. split; cbn; try done. intros y Hy. by apply H4, Ha.
Qed.

Lemma queue_start_ok : queue_ok pid_queue_start.
Proof.
  split; cbn; try done.
  - unfold newPidQueueSize. lia.
  - rewrite size_empty. unfold newPidQueueSize. lia.
Qed.

Lemma queue_reachable_ok q : rtc qstep pid_queue_start q → queue_ok q.
Proof.
  pose proof queue_start_ok as H0. intros Hr. induction Hr; eauto using qstep_ok.
Qed.

(** ** The work ends *)

Definition handler_weight (h : pid_handler) : nat :=
  match h with
  | Free => 0
  | Handling _ => 4
  | Checking => 3
  | Draining => 2
  | Deleting l => S (length l)
  end.

Fixpoint pool_weight (l : list pid_handler) : nat :=
  match l with [] => 0 | h :: l => handler_weight h + pool_weight l end.

Definition weight (q : pid_queue) : nat :=
  6 * length (ringEvents q) + 5 * length (newPidEvents q) + size (droppedPids q) +
  pool_weight (pool q).

Lemma weight_insert l h x x' :
  l !! h = Some x →
  (pool_weight (<[h := x']> l) + handler_weight x =
   pool_weight l + handler_weight x')%nat.
Proof.
  revert h. induction l as [|y l IH]; intros [|h] Hx; [done..| |].
  - injection Hx as ->. cbn. lia.
  - specialize (IH h Hx). change (<[S h := x']> (y :: l)) with (y :: <[h := x']> l).
    cbn [pool_weight]. lia.
Qed.

Lemma work_weight q q' : work q q' → (weight q' < weight q)%nat.
Proof.
  unfold weight. intros [p rest Hr|h p rest Hh Hn|h p Hh|h Hh Hl|h Hh Hl|h Hh|h ok p rest Hh|h Hh].
  - unfold scheduleNewPidEvent. cbn [newPidEvents droppedPids].
    pose proof (size_union_alt {[p]} (droppedPids q)) as Hu. rewrite size_singleton in Hu.
    pose proof (subseteq_size (droppedPids q ∖ {[p]}) (droppedPids q) ltac:(set_solver)).
    destruct (_ <? _)%nat; [|destruct (_ <? _)%nat]; cbn; rewrite Hr, ?length_app; cbn; lia.
  - pose proof (weight_insert _ _ _ (Handling p) Hh). cbn in *. rewrite Hn. cbn. lia.
  - pose proof (weight_insert _ _ _ Checking Hh). cbn in *. lia.
  - pose proof (weight_insert _ _ _ Free Hh). cbn in *. lia.
  - pose proof (weight_insert _ _ _ Draining Hh). cbn in *. lia.
  - pose proof (weight_insert _ _ _ (Deleting (elements (droppedPids q))) Hh).
    change (length (elements (droppedPids q))) with (size (droppedPids q)) in *. cbn in *.
    rewrite size_empty. unfold size, set_size in *. cbn in *. lia.
  - pose proof (weight_insert _ _ _ (Deleting rest) Hh). destruct ok; cbn in *; lia.
  - pose proof (weight_insert _ _ _ Free Hh). cbn in *. lia.
Qed.

Definition quiet (q : pid_queue) : Prop :=
  ringEvents q = [] ∧ newPidEvents q = [] ∧ Forall (λ h, h = Free) (pool q).

Lemma quiet_or_work q : queue_ok q → quiet q ∨ ∃ q', work q q'.
Proof.
  intros Hok. destruct (ringEvents q) as [|p rest] eqn:Hr; [|right; eexists; by eapply loop_schedule].
  destruct (decide (Forall (λ h, handler_weight h = 0%nat) (pool q))) as [Hf|Hf].
  - assert (Forall (λ h, h = Free) (pool q)) as Hf'.
    { eapply Forall_impl; [exact Hf|]. by intros []. }
    destruct (newPidEvents q) as [|p rest] eqn:Hn; [by left|]. right.
    destruct (pool q) as [|x l] eqn:Hp; [by pose proof (qo_pool q Hok) as H; rewrite Hp in H; vm_compute in H|].
    apply Forall_cons in Hf' as [-> _].
    eexists. apply (handler_take q 0 p rest); [by rewrite Hp|done].
  - right. apply not_Forall_Exists, Exists_exists in Hf; [|apply _]. destruct Hf as (x & Hx & Hne).
    apply list_elem_of_lookup in Hx as [h Hx]. destruct x as [|p| | |[|p l]]; [by destruct Hne| | | | |].
    + eexists. by apply (handler_handled q h p).
    + destruct (decide (newPidQueueSize / 2 < length (newPidEvents q))%nat).
      * eexists. by apply (handler_busy q h).
      * eexists. apply (handler_room q h); [done|lia].
    + eexists. by apply (handler_drain q h).
    + eexists. by apply (handler_done q h).
    + eexists. by apply (handler_delete q h true p l).
Qed.

Lemma work_ends q : Acc (flip work) q.
Proof.
  assert (∀ n q, (weight q < n)%nat → Acc (flip work) q) as H; [|by apply (H (S (weight q))); lia].
  induction n as [|n IH]; intros q1 Hn; [lia|]. constructor. intros q2 Hw%work_weight. apply IH. lia.
Qed.

(** The queue and the notes of dropped processes never exceed their size,
    and the pool neither loses nor gains a handler, so a workload that creates
    processes faster than they are handled takes no more memory. *)
Theorem queue_bounded q :
  rtc qstep pid_queue_start q →
  (length (newPidEvents q) <= newPidQueueSize)%nat ∧ (size (droppedPids q) <= newPidQueueSize)%nat ∧
  length (pool q) = maxNewPidHandlers.
Proof. intros [H1 H2 H3 _ _]%queue_reachable_ok. done. Qed.

(** C18 No process is forgotten.  Once the kernel reports nothing new, the loop and
    the handlers come to rest, in whatever order they run; and when they rest,
    nothing is noted any more, and every process that the kernel would not report
    again was handled, or is one of those that the code has given up: the notes
    were full when it was dropped, or the map could not be changed. *)
Theorem no_process_forgotten q :
  rtc qstep pid_queue_start q →
  Acc (flip work) q ∧ (∃ q', rtc work q q' ∧ quiet q') ∧
  ∀ q', rtc work q q' → quiet q' →
    droppedPids q' = ∅ ∧ ∀ p, p ∈ activePids q' → p ∈ handledPids q' ∨ p ∈ lostPids q'.
Proof.
  intros Hok%queue_reachable_ok.
  pose proof (work_ends q) as Hacc.
  split; [done|]. split.
  - induction Hacc as [q _ IH]. destruct (quiet_or_work q Hok) as [Hq|[q1 Hw]]; [by exists q|].
    destruct (IH q1 Hw) as (q' & Hr & Hq); [by eapply work_ok|]. exists q'. split; [by eapply rtc_l|done].
  - intros q' Hr (Hring & Hqueue & Hpool).
    assert (queue_ok q') as Hok'. { clear -Hok Hr. induction Hr; eauto using work_ok. }
    rewrite Forall_lookup in Hpool. assert (droppedPids q' = ∅) as Hd.
    { destruct (decide (droppedPids q' = ∅)) as [|Hne]; [done|]. exfalso.
      destruct (qo_drain q' Hok' Hne) as [?|(h & x & Hx & Hw)]; [done|]. apply Hpool in Hx as ->. done. }
    split; [done|]. intros p Hp%(qo_active q' Hok'). unfold accounted in Hp.
    rewrite Hring, Hqueue, Hd in Hp. destruct Hp as [?%elem_of_nil|[?%elem_of_nil|[?|[Hh|?]]]]; [done|done|set_solver| |done].
    destruct Hh as (h & x & Hx & Hw). apply Hpool in Hx as ->. done.
Qed.

(** ** A process that is reported *)

Definition reported_state : pid_queue :=
  {| pid_queue_start with activePids := {[(100, 7)]} ∪ ∅; ringEvents := [(100, 7)] |}.

Lemma reported_reached : rtc qstep pid_queue_start reported_state.
Proof. apply rtc_once. apply (kernel_report pid_queue_start (100, 7)). set_solver. Qed.

Lemma queue_bounded_witness :
  let q := scheduleNewPidEvent (100, 7) {| reported_state with ringEvents := [] |} in
  newPidEvents q = [(100, 7)] ∧ (length (newPidEvents q) <= newPidQueueSize)%nat.
Proof.
  split; [done|]. refine (proj1 (queue_bounded _ _)).
  eapply rtc_r; [exact reported_reached|]. apply userspace. by apply (loop_schedule reported_state).
Defined.

Lemma no_process_forgotten_witness :
  ∃ q', rtc work reported_state q' ∧ quiet q' ∧ droppedPids q' = ∅.
Proof.
  destruct (no_process_forgotten reported_state reported_reached) as (_ & (q' & Hr & Hq) & H).
  exists q'. split; [done|]. split; [done|]. by apply H.
Defined.
