(* ===== verification/Maintenance.v ===== *)
(** * Requests to start and stop, and the periodic clean up
    ([bpfrecorder.go], [maintenance.go])

    [Start] and [Stop] count how many recordings are wanted.  Once a minute
    [runMaintenance] caches the profiles of containers, drops the data of keys
    nobody can collect ([sweepStaleKeys]), and stops a recording no pod asks for
    ([releaseAbandonedRecording]).

    A sweep drops the data of a key if and only if it and the sweep before found
    the key without a recorded container, a process and a cgroup
    ([sweep_drops_stale]).  A recording is released only after all looks during
    the timeout have found no pod that records ([release_patient]), and it is
    released then ([abandoned_released]).

    What the maps of the kernel, /proc, the cgroups, the index of pods and the
    clock answer are arguments. *)
From S2P Require Import Prelude Bpf Wire Paths AppArmor Recording Profile Seccomp.
From S2P Require Import ContainerKeys ContainerProfiles ProcFs Recorder Collect Sessions Handlers.
Import String.StringSyntax.
#[local] Open Scope string_scope.
#[local] Open Scope list_scope.
#[local] Open Scope Z_scope.

(** ** Stale keys *)

Definition staleKeySweeps : Z := 2.

Definition GetKnownKeys (r : AppArmorRecorder) : list Z :=
  sort_keys (elements (dom (recordedFiles r) ∪ dom (recordedCapabilities r) ∪ dom (recordedSocketsUse r))).

(** The list of the map of syscalls may fail, then nothing is known of it. *)
Definition recordedKeys (list_ok : bool) (b : BpfRecorder) : list Z :=
  let syscalls := match rec_seccomp b with
                  | Some _ => if list_ok then elements (dom (rec_syscalls b)) else []
                  | None => []
                  end in
  let apparmor := match rec_apparmor b with Some r => GetKnownKeys r | None => [] end in
  compact_keys (sort_keys (syscalls ++ apparmor)).

(** The keys of the entries whose process exists ([stat]). *)
Definition alive_entry (stat : Z → bool) (alive : gset Z) (entry : list Z) : gset Z :=
  if negb (Z.of_nat (length entry) =? 16) then alive
  else
    let pid := Uint32 (slice entry 0 4) in
    let key := Uint64 (slice entry 8 16) in
    if bool_decide (key ∈ alive) then alive
    else if stat pid then {[key]} ∪ alive
    else alive.

Definition keysWithProcesses (stat : Z → bool) (pids : list (list Z)) : gset Z :=
  fold_left (alive_entry stat) pids ∅.

(** What a sweep is answered: the entries of the map [active_pids] or an error, and
    which processes and cgroups exist. *)
Record sweep_answers := {
  sa_list_ok : bool;
  sa_pids : option (list (list Z));
  sa_stat : Z → bool;
  sa_cgroup : Z → bool
}.

Definition isStaleKey (a : sweep_answers) (key : Z) (alive : gset Z) : rp bool :=
  recorded ← profile_of_key key;
  match recorded with
  | Some _ => mret false
  | None =>
      if bool_decide (key ∈ alive) then mret false
      else
        cgroup ← get cgroupKeys;
        mret (negb (cgroup && sa_cgroup a key))
  end.

(** The loop over the recorded keys: the counts of stale keys, and the keys whose
    data is dropped. *)
Fixpoint count_stale (a : sweep_answers) (alive : gset Z) (recorded : list Z)
    (stale : gmap Z Z) (drop : list Z) : rp (gmap Z Z * list Z) :=
  match recorded with
  | [] => mret (stale, drop)
  | key :: recorded =>
      is_stale ← isStaleKey a key alive;
      if negb is_stale then count_stale a alive recorded stale drop
      else
        old ← get (λ b, default 0 (staleKeys b !! key));
        let sweeps := old + 1 in
        if sweeps <? staleKeySweeps
        then count_stale a alive recorded (<[key := sweeps]> stale) drop
        else count_stale a alive recorded stale (drop ++ [key])
  end.

Definition clear_key_data (key : Z) (b : BpfRecorder) : BpfRecorder :=
  {| b with
    rec_syscalls := match rec_seccomp b with
                    | Some _ => Seccomp.Clear [key] (rec_syscalls b)
                    | None => rec_syscalls b
                    end;
    rec_apparmor := (λ r, exec (AppArmor.Clear [key]) r) <$> rec_apparmor b |}.

Definition drop_key (key : Z) : rp unit :=
  recorded ← profile_of_key key;
  match recorded with
  | Some _ => mret tt
  | None => upd (clear_key_data key)
  end.

Definition sweepStaleKeys (clientset : bool) (a : sweep_answers) : rp unit :=
  requests ← get startRequests;
  if negb clientset || (requests =? 0) then upd (λ b, {| b with staleKeys := ∅ |})
  else
    x ← get (λ b, (recordingGeneration b, recordedKeys (sa_list_ok a) b));
    match sa_pids a with
    | None => mret tt
    | Some pids =>
        let alive := keysWithProcesses (sa_stat a) pids in
        y ← count_stale a alive x.2 ∅ [];
        _ ← upd (λ b, {| b with staleKeys := y.1 |});
        if bool_decide (y.2 = []) then mret tt
        else
          g ← get recordingGeneration;
          if negb (g =? x.1) then mret tt
          else for_each y.2 drop_key
    end.

(** ** What a sweep does *)

(** No recorded container, no process and no cgroup. *)
Definition stale_now (a : sweep_answers) (alive : gset Z) (b : BpfRecorder) (key : Z) : bool :=
  bool_decide (profileOfKey key b = None) && negb (bool_decide (key ∈ alive)) &&
  negb (cgroupKeys b && sa_cgroup a key).

Definition counted (b : BpfRecorder) (key : Z) : Z := default 0 (staleKeys b !! key).

Lemma profile_of_key_run key b : run (profile_of_key key) b = (profileOfKey key b, b).
Proof.
  unfold profile_of_key, profileOfKey. cbn. by destruct (ContainerKeys.Get key (rec_keys b)).
Qed.

Lemma isStaleKey_run a key alive b : run (isStaleKey a key alive) b = (stale_now a alive b key, b).
Proof.
  unfold isStaleKey, stale_now. rewrite (run_bind_eq _ _ _ _ _ (profile_of_key_run key b)).
  destruct (profileOfKey key b); [done|]. cbn. by case_bool_decide.
Qed.

Lemma count_stale_run a alive b l stale drop :
  run (count_stale a alive l stale drop) b =
  ((fold_left (λ m key, <[key := counted b key + 1]> m)
      (filter (λ key, stale_now a alive b key = true ∧ counted b key + 1 < staleKeySweeps) l) stale,
    drop ++ filter (λ key, stale_now a alive b key = true ∧ staleKeySweeps <= counted b key + 1) l), b).
Proof.
  revert stale drop. induction l as [|key l IH]; intros stale drop; cbn [count_stale].
  { by rewrite app_nil_r. }
  rewrite (run_bind_eq _ _ _ _ _ (isStaleKey_run a key alive b)), !filter_cons.
  destruct (stale_now a alive b key); cbn [negb].
  - unfold get at 1. unfold mbind, prog_bind, act. cbn [pbind run]. fold (counted b key).
    destruct (Z.ltb_spec (counted b key + 1) staleKeySweeps).
    + rewrite decide_True, decide_False by (intuition lia). by rewrite IH.
    + rewrite decide_False, decide_True by (intuition lia). rewrite IH. by rewrite <- app_assoc.
  - rewrite !decide_False by intuition congruence. by rewrite IH.
Qed.

Lemma drop_key_run key b : profileOfKey key b = None → exec (drop_key key) b = clear_key_data key b.
Proof.
  intros Hk. unfold exec, drop_key. rewrite (run_bind_eq _ _ _ _ _ (profile_of_key_run key b)).
  by rewrite Hk.
Qed.

Lemma drop_keys_run l b :
  Forall (λ key, profileOfKey key b = None) l →
  exec (for_each l drop_key) b = fold_left (λ b key, clear_key_data key b) l b.
Proof.
  induction l as [|key l IH] in b |- *; intros Hl; [done|]. apply Forall_cons in Hl as [Hk Hl].
  cbn [for_each fold_left]. rewrite exec_bind, drop_key_run by done. by apply IH.
Qed.

(** The data under a key. *)
Definition key_data (b : BpfRecorder) (key : Z) :=
  (rec_syscalls b !! key,
   (λ r, (recordedFiles r !! key, recordedCapabilities r !! key, recordedSocketsUse r !! key)) <$>
     rec_apparmor b).

Definition no_data (b : BpfRecorder) (key : Z) : Prop :=
  (rec_seccomp b ≠ None → rec_syscalls b !! key = None) ∧
  ∀ r, rec_apparmor b = Some r → recordedFiles r !! key = None ∧ recordedCapabilities r !! key = None ∧
    recordedSocketsUse r !! key = None.

(** What clearing the data of keys leaves alone. *)
Definition tables (b : BpfRecorder) :=
  (startRequests b, rec_seccomp b, rec_keys b, rec_profiles b, recordingGeneration b, rec_recording b,
   rec_excluded b, excluded <$> rec_apparmor b).

Lemma clear_apparmor_key k r :
  let r' := exec (AppArmor.Clear [k]) r in
  recordedFiles r' = delete k (recordedFiles r) ∧
  recordedCapabilities r' = delete k (recordedCapabilities r) ∧
  recordedSocketsUse r' = delete k (recordedSocketsUse r) ∧ excluded r' = excluded r.
Proof. pose proof (clear_run [k] r) as H. unfold data in H. cbn [fold_left] in H. by simplify_eq. Qed.

Lemma clear_key_frame k b : tables (clear_key_data k b) = tables b.
Proof.
  unfold tables, clear_key_data. cbn [startRequests rec_seccomp rec_keys rec_profiles recordingGeneration
    rec_recording rec_excluded rec_apparmor].
  destruct (rec_apparmor b) as [r|]; [|done]. cbn [fmap option_fmap option_map].
  by destruct (clear_apparmor_key k r) as (_ & _ & _ & ->).
Qed.

Lemma clear_key_other k b key : key ≠ k → key_data (clear_key_data k b) key = key_data b key.
Proof.
  intros Hne. unfold key_data, clear_key_data. cbn [rec_syscalls rec_apparmor]. f_equal.
  - destruct (rec_seccomp b); [|done]. rewrite clear_syscalls_lookup.
    rewrite bool_decide_eq_false_2 by (by rewrite list_elem_of_singleton). done.
  - destruct (rec_apparmor b) as [r|]; [|done]. cbn [fmap option_fmap option_map].
    destruct (clear_apparmor_key k r) as (-> & -> & -> & _). by rewrite !lookup_delete_ne by done.
Qed.

Lemma clear_key_gone k b : no_data (clear_key_data k b) k.
Proof.
  unfold no_data, clear_key_data. cbn [rec_seccomp rec_syscalls rec_apparmor]. split.
  - destruct (rec_seccomp b); [|done]. intros _. rewrite clear_syscalls_lookup.
    by rewrite bool_decide_eq_true_2 by (by rewrite list_elem_of_singleton).
  - intros r'. destruct (rec_apparmor b) as [r|]; [|done]. cbn [fmap option_fmap option_map].
    intros Hr. assert (r' = exec (AppArmor.Clear [k]) r) as -> by (by injection Hr).
    destruct (clear_apparmor_key k r) as (-> & -> & -> & _). by rewrite !lookup_delete_eq.
Qed.

(** The keys whose data a sweep drops. *)
Definition swept (a : sweep_answers) (alive : gset Z) (b : BpfRecorder) : list Z :=
  filter (λ key, stale_now a alive b key = true ∧ staleKeySweeps <= counted b key + 1)
    (recordedKeys (sa_list_ok a) b).

Definition stale_counts (a : sweep_answers) (alive : gset Z) (b : BpfRecorder) : gmap Z Z :=
  fold_left (λ m key, <[key := counted b key + 1]> m)
    (filter (λ key, stale_now a alive b key = true ∧ counted b key + 1 < staleKeySweeps)
      (recordedKeys (sa_list_ok a) b)) ∅.

Lemma sweep_exec a pids b :
  startRequests b ≠ 0 → sa_pids a = Some pids →
  let alive := keysWithProcesses (sa_stat a) pids in
  exec (sweepStaleKeys true a) b =
  fold_left (λ b key, clear_key_data key b) (swept a alive b)
    {| b with staleKeys := stale_counts a alive b |}.
Proof.
  intros Hs Hp alive. unfold sweepStaleKeys, exec.
  rewrite (run_bind_eq (get startRequests) _ b (startRequests b) b eq_refl).
  rewrite (proj2 (Z.eqb_neq (startRequests b) 0) Hs). cbn [negb orb].
  rewrite (run_bind_eq (get _) _ b (recordingGeneration b, recordedKeys (sa_list_ok a) b) b eq_refl), Hp.
  cbn [fst snd]. rewrite (run_bind_eq _ _ _ _ _ (count_stale_run _ _ _ _ _ _)). fold alive. cbn [fst snd app].
  fold (stale_counts a alive b). fold (swept a alive b).
  set (b1 := {| b with staleKeys := stale_counts a alive b |}).
  erewrite (run_bind_eq (upd _) _ b tt _) by (unfold upd, act; cbn [run]; reflexivity). fold b1.
  case_bool_decide as Hd; [by rewrite Hd|].
  rewrite (run_bind_eq (get recordingGeneration) _ b1 (recordingGeneration b) b1 eq_refl), Z.eqb_refl.
  cbn [negb]. apply (drop_keys_run _ b1). apply Forall_forall. intros key Hkey.
  unfold swept in Hkey. apply list_elem_of_filter in Hkey as [[Hst _] _].
  unfold stale_now in Hst. rewrite !andb_true_iff in Hst. destruct Hst as [[Hst _] _].
  by apply bool_decide_eq_true in Hst.
Qed.

Lemma clears_frame l b : tables (fold_left (λ b key, clear_key_data key b) l b) = tables b.
Proof. induction l as [|k l IH] in b |- *; [done|]. cbn [fold_left]. by rewrite IH, clear_key_frame. Qed.

Lemma clears_stale l b : staleKeys (fold_left (λ b key, clear_key_data key b) l b) = staleKeys b.
Proof. induction l as [|k l IH] in b |- *; [done|]. cbn [fold_left]. by rewrite IH. Qed.

Lemma clears_other l b key :
  key ∉ l → key_data (fold_left (λ b key, clear_key_data key b) l b) key = key_data b key.
Proof.
  induction l as [|k l IH] in b |- *; [done|]. intros [Hne Hl]%not_elem_of_cons.
  cbn [fold_left]. rewrite IH by done. by apply clear_key_other.
Qed.

Lemma no_data_clear k b key : no_data b key → no_data (clear_key_data k b) key.
Proof.
  intros [H1 H2]. destruct (decide (key = k)) as [->|Hne]; [apply clear_key_gone|].
  pose proof (clear_key_other k b key Hne) as Hd. unfold key_data in Hd. apply pair_eq in Hd as [Hd1 Hd2].
  split; [by rewrite Hd1|]. intros r' Hr'. rewrite Hr' in Hd2.
  destruct (rec_apparmor b) as [r|] eqn:E; [|done]. cbn in Hd2. injection Hd2 as -> -> ->. by apply H2.
Qed.

Lemma clears_gone l b key : key ∈ l → no_data (fold_left (λ b key, clear_key_data key b) l b) key.
Proof.
  assert (∀ l b, no_data b key → no_data (fold_left (λ b key, clear_key_data key b) l b) key) as Hk.
  { clear. induction l as [|k l IH]; intros b Hb; [done|]. by apply IH, no_data_clear. }
  induction l as [|k l IH] in b |- *; [by intros ?%elem_of_nil|]. cbn [fold_left].
  intros [->|?]%elem_of_cons; [|by apply IH]. apply Hk, clear_key_gone.
Qed.

Lemma stale_counts_lookup a alive b key :
  stale_counts a alive b !! key =
  if bool_decide (key ∈ recordedKeys (sa_list_ok a) b ∧ stale_now a alive b key = true ∧
                  counted b key + 1 < staleKeySweeps)
  then Some (counted b key + 1) else None.
Proof.
  assert (∀ l (m : gmap Z Z), fold_left (λ m key, <[key := counted b key + 1]> m) l m !! key =
    if bool_decide (key ∈ l) then Some (counted b key + 1) else m !! key) as Hf.
  { induction l as [|k l IH]; intros m; cbn [fold_left].
    { by rewrite bool_decide_eq_false_2 by apply not_elem_of_nil. }
    rewrite IH, (bool_decide_ext (key ∈ k :: l) (key = k ∨ key ∈ l)) by apply elem_of_cons.
    destruct (decide (key = k)) as [->|Hne]; [rewrite lookup_insert_eq|rewrite lookup_insert_ne by done];
      repeat case_bool_decide; tauto. }
  unfold stale_counts. rewrite Hf, lookup_empty. erewrite bool_decide_ext; [done|].
  rewrite list_elem_of_filter. tauto.
Qed.

(** C23 The data of a key is dropped only if two sweeps in a row found the key
    without a recorded container, a process and a cgroup, whatever happened in
    between; otherwise the sweep leaves it as it is.  Data under a key that is
    like that in two sweeps in a row is dropped, so that it does not fill the
    maps for the rest of the recording.  The tables and the excluded keys stay. *)
Theorem sweep_drops_stale a1 a2 pids1 pids2 b1 b2 key :
  startRequests b1 ≠ 0 → startRequests b2 ≠ 0 → sa_pids a1 = Some pids1 → sa_pids a2 = Some pids2 →
  staleKeys b2 = staleKeys (exec (sweepStaleKeys true a1) b1) →
  let stale1 := stale_now a1 (keysWithProcesses (sa_stat a1) pids1) b1 key = true in
  let stale2 := stale_now a2 (keysWithProcesses (sa_stat a2) pids2) b2 key = true in
  let b' := exec (sweepStaleKeys true a2) b2 in
  tables b' = tables b2 ∧
  (key_data b' key = key_data b2 key ∨ no_data b' key ∧ stale1 ∧ stale2) ∧
  (staleKeys b1 !! key = None → key ∈ recordedKeys (sa_list_ok a1) b1 →
   key ∈ recordedKeys (sa_list_ok a2) b2 → stale1 → stale2 → no_data b' key).
Proof.
  intros Hs1 Hs2 Hp1 Hp2 Hst stale1 stale2 b'. subst b'.
  rewrite (sweep_exec a1 pids1) in Hst by done. rewrite clears_stale in Hst. cbn [staleKeys] in Hst.
  rewrite (sweep_exec a2 pids2) by done. set (alive1 := keysWithProcesses (sa_stat a1) pids1) in *.
  set (alive2 := keysWithProcesses (sa_stat a2) pids2) in *.
  set (b3 := {| b2 with staleKeys := stale_counts a2 alive2 b2 |}).
  assert (counted b2 key = if bool_decide (key ∈ recordedKeys (sa_list_ok a1) b1 ∧
    stale_now a1 alive1 b1 key = true ∧ counted b1 key + 1 < staleKeySweeps) then counted b1 key + 1 else 0) as Hc.
  { unfold counted at 1. rewrite Hst, stale_counts_lookup. by case_bool_decide. }
  split; [by rewrite clears_frame|]. split.
  - destruct (decide (key ∈ swept a2 alive2 b2)) as [Hin|Hin].
    + right. split; [by apply clears_gone|]. apply list_elem_of_filter in Hin as [[H2 Hcount] _].
      split; [|done]. rewrite Hc in Hcount. case_bool_decide; [tauto|]. unfold staleKeySweeps in Hcount. lia.
    + left. by rewrite clears_other.
  - intros Hn Hr1 Hr2 H1 H2. apply clears_gone. apply list_elem_of_filter. split; [|done]. split; [done|].
    assert (counted b1 key = 0) as H0 by (unfold counted; by rewrite Hn).
    rewrite Hc, H0, bool_decide_eq_true_2; [unfold staleKeySweeps; lia|]. by repeat split.
Qed.

(** ** The entries of the kernel's map *)

(** An entry of [active_pids] as [DeleteActivePid] builds it, [struct pid_key] of
    recorder.bpf.c. *)
Definition active_entry (pid key : Z) : list Z := le_bytes 4 pid ++ replicate 4 0 ++ le_bytes 8 key.

Lemma alive_entry_encoded stat alive pid key :
  0 <= pid < 2 ^ 32 → 0 <= key < 2 ^ 64 →
  alive_entry stat alive (active_entry pid key) = if stat pid then {[key]} ∪ alive else alive.
Proof.
  intros Hp Hk. unfold alive_entry, active_entry.
  rewrite !length_app, !length_le_bytes, length_replicate. cbn [Z.eqb Pos.eqb negb].
  assert (Uint32 (slice (le_bytes 4 pid ++ replicate 4 0 ++ le_bytes 8 key) 0 4) = pid) as ->.
  { unfold Uint32, slice. cbn [Z.to_nat Z.sub]. rewrite drop_0, take_app_length'
      by (by rewrite length_le_bytes). by apply le_value_bytes_u. }
  assert (Uint64 (slice (le_bytes 4 pid ++ replicate 4 0 ++ le_bytes 8 key) 8 16) = key) as ->.
  { unfold Uint64, slice. rewrite app_assoc, drop_app_length'
      by (by rewrite length_app, length_le_bytes, length_replicate).
    rewrite take_ge by (by rewrite length_le_bytes). by apply le_value_bytes_u. }
  case_bool_decide; [|done]. destruct (stat pid); [|done]. set_solver.
Qed.

(** A key is alive if and only if a process of one of its entries is. *)
Lemma alive_keys stat l key :
  Forall (λ e, 0 <= e.1 < 2 ^ 32 ∧ 0 <= e.2 < 2 ^ 64) l →
  key ∈ keysWithProcesses stat (map (λ e, active_entry e.1 e.2) l) ↔
  ∃ pid, (pid, key) ∈ l ∧ stat pid = true.
Proof.
  unfold keysWithProcesses. intros Hl.
  assert (∀ alive, key ∈ fold_left (alive_entry stat) (map (λ e, active_entry e.1 e.2) l) alive ↔
    key ∈ alive ∨ ∃ pid, (pid, key) ∈ l ∧ stat pid = true) as H.
  { induction Hl as [|[pid k] l [Hp Hk] Hl IH]; intros alive; cbn [map fold_left fst snd].
    { split; [by left|]. intros [?|(pid & ?%elem_of_nil & _)]; done. }
    rewrite IH, alive_entry_encoded by done. setoid_rewrite elem_of_cons.
    destruct (stat pid) eqn:Hst; [rewrite elem_of_union, elem_of_singleton|]; split.
    - intros [[->|?]|(q & ? & ?)]; [right; eauto|by left|right; eauto].
    - intros [?|(q & [[= -> ->]|?] & ?)]; eauto.
    - intros [?|(q & ? & ?)]; eauto.
    - intros [?|(q & [[= -> ->]|?] & ?)]; [by left|congruence|eauto]. }
  rewrite H. set_solver.
Qed.

(** ** Start and Stop *)

(** The step at which starting fails: there is no module, the maps of processes
    cannot be cleared (with what is left), or the switch cannot be written. *)
Inductive start_error := StartNotLoaded | StartPids (left_keys : gset Z) | StartSwitch.

Definition start_recording (err : option start_error) (b : BpfRecorder) : bool * BpfRecorder :=
  match err with
  | Some StartNotLoaded => (false, b)
  | Some (StartPids left_keys) => (false, {| b with rec_excluded := rec_excluded b ∩ left_keys |})
  | Some StartSwitch => (false, {| b with rec_excluded := ∅ |})
  | None => (true, {| b with rec_excluded := ∅; rec_recording := true |})
  end.

Definition Start (now : Z) (err : option start_error) (b : BpfRecorder) : bool * BpfRecorder :=
  let b := {| b with lastStart := Some now |} in
  let '(ok, b) := if startRequests b =? 0 then start_recording err b else (true, b) in
  if negb ok then (false, b)
  else (true, {| b with startRequests := swrap 64 (startRequests b + 1) |}).

Definition Stop (err : option stop_error) (b : BpfRecorder) : bool * BpfRecorder :=
  if startRequests b =? 0 then (true, b)
  else
    let b := {| b with startRequests := swrap 64 (startRequests b - 1) |} in
    if startRequests b =? 0 then run (stop_recording err) b else (true, b).

(** ** Abandoned recordings *)

Definition second : Z := 10 ^ 9.
Definition abandonedRecordingTimeout : Z := 10 * 60 * second.
Definition uncollectedRecordingTimeout : Z := 60 * 60 * second.

(** A pod, and whether its phase is that of a finished one. *)
Definition recordsBpf (pod : bool * Pod) : bool :=
  if pod.1 then false
  else existsb (λ kv, negb (bool_decide (kv.2 = [])) &&
      (HasPrefix kv.1 SeccompProfileRecordBpfAnnotationKey ||
       HasPrefix kv.1 ApparmorProfileRecordBpfAnnotationKey)) (map_to_list (pod_annotations pod.2)).

(** [releaseAbandonedRecording]: whether the recording is stopped, and the state.
    The pods are [None] if they are not known yet. *)
Definition releaseAbandonedRecording (pods : option (list (bool * Pod))) (now : Z)
    (err : option stop_error) (b : BpfRecorder) : bool * BpfRecorder :=
  match pods with
  | None => (false, b)
  | Some pods =>
      if startRequests b =? 0 then (false, {| b with idleSince := None |})
      else if existsb recordsBpf pods then (false, {| b with idleSince := None |})
      else
        match idleSince b with
        | None => (false, {| b with idleSince := Some now |})
        | Some since =>
            if match lastStart b with Some t => since <? t | None => false end
            then (false, {| b with idleSince := Some now |})
            else
              let timeout := if (0 <? ContainerProfiles.Size (rec_profiles b))%nat
                             then uncollectedRecordingTimeout else abandonedRecordingTimeout in
              if now - since <? timeout then (false, b)
              else
                let '(ok, b) := run (stop_recording err) {| b with idleSince := None |} in
                if negb ok then (false, b) else (true, {| b with startRequests := 0 |})
        end
  end.

(** [runMaintenance]: what is done with every tick. *)
Definition maintenance_tick (clientset : bool) (find_pod : option (str → option Pod))
    (a : sweep_answers) (pods : option (list (bool * Pod))) (now : Z) (err : option stop_error)
    (b : BpfRecorder) : BpfRecorder :=
  let b := if 0 <? startRequests b then cacheProfilesOfUnresolvedContainers find_pod b else b in
  let b := exec (sweepStaleKeys clientset a) b in
  (releaseAbandonedRecording pods now err b).2.

(** ** A recording is released with patience *)

(** A look at the pods: when, and whether a recording ran that no pod asked for. *)
Abbreviation look := (Z * bool)%type.

(** The recorder with the looks made so far, the latest first: requests, looks and
    whatever else changes neither time. *)
Inductive rstep : BpfRecorder * list look → BpfRecorder * list look → Prop :=
  | do_start b looks now err : rstep (b, looks) ((Start now err b).2, looks)
  | do_stop b looks err : rstep (b, looks) ((Stop err b).2, looks)
  | do_look b looks pods now err :
      rstep (b, looks) ((releaseAbandonedRecording (Some pods) now err b).2,
        (now, negb (startRequests b =? 0) && negb (existsb recordsBpf pods)) :: looks)
  | do_other b b' looks :
      idleSince b' = idleSince b → lastStart b' = lastStart b → rstep (b, looks) (b', looks).

Lemma stop_times err b :
  idleSince (run (stop_recording err) b).2 = idleSince b ∧ lastStart (run (stop_recording err) b).2 = lastStart b.
Proof.
  unfold stop_recording. rewrite run_bind, result_act, exec_act.
  assert (idleSince (end_session err b).2 = idleSince b ∧ lastStart (end_session err b).2 = lastStart b) as H
    by (by destruct err as [[]|]).
  destruct (end_session err b) as [[] e]; exact H.
Qed.

Definition idle_since_look (s : BpfRecorder * list look) : Prop :=
  ∀ since, idleSince s.1 = Some since →
    ∃ post pre, s.2 = post ++ (since, true) :: pre ∧ Forall (λ l : look, l.2 = true) post.

Lemma look_idle b looks pods now err :
  idle_since_look (b, looks) →
  idle_since_look ((releaseAbandonedRecording (Some pods) now err b).2,
    (now, negb (startRequests b =? 0) && negb (existsb recordsBpf pods)) :: looks).
Proof.
  intros Hi since. cbn [fst snd]. unfold releaseAbandonedRecording.
  destruct (startRequests b =? 0); [done|]. destruct (existsb recordsBpf pods); [done|]. cbn [negb andb].
  destruct (idleSince b) as [old|] eqn:Hold; [|intros [= ->]; by exists [], looks].
  destruct (match lastStart b with Some t => old <? t | None => false end);
    [intros [= ->]; by exists [], looks|].
  destruct (_ <? _).
  - cbn. intros Hs. assert (old = since) as -> by congruence.
    destruct (Hi since Hold) as (post & pre & Hlk & Hpost). cbn in Hlk. subst looks. exists ((now, true) :: post), pre.
    split; [done|]. by constructor.
  - destruct (stop_times err {| b with idleSince := None |}) as [Hn _]. cbn [idleSince] in Hn.
    destruct (run (stop_recording err) _) as [[] b1]; cbn in *; congruence.
Qed.

Lemma rstep_idle s s' : rstep s s' → idle_since_look s → idle_since_look s'.
Proof.
  intros [b looks now err|b looks err|b looks pods now err|b b' looks E _] Hi.
  - intros since Hs. apply Hi. rewrite <- Hs. cbn. unfold Start. cbn [startRequests].
    destruct (startRequests b =? 0); [|done]. by destruct err as [[]|].
  - intros since Hs. apply Hi. rewrite <- Hs. cbn [fst]. unfold Stop.
    destruct (startRequests b =? 0); [done|]. cbn [startRequests]. destruct (_ =? _); [|done].
    symmetry. exact (proj1 (stop_times err {| b with startRequests := swrap 64 (startRequests b - 1) |})).
  - by apply look_idle.
  - intros since Hs. apply (Hi since). cbn in *. congruence.
Qed.

(** C30 The recorder stops a recording on its own only with good reason: at the
    moment no pod of the node asks for one, a look at least ten minutes ago found
    the same (an hour if there are profiles that were not collected), and so did
    every look since, and the last Start was not after that look. *)
Theorem release_patient b0 b looks pods now err b' :
  idleSince b0 = None → rtc rstep (b0, []) (b, looks) →
  releaseAbandonedRecording (Some pods) now err b = (true, b') →
  existsb recordsBpf pods = false ∧
  ∃ since post pre, looks = post ++ (since, true) :: pre ∧ Forall (λ l : look, l.2 = true) post ∧
    (if bool_decide (ContainerProfiles.Size (rec_profiles b) = 0%nat) then abandonedRecordingTimeout
     else uncollectedRecordingTimeout) <= now - since ∧
    ∀ t, lastStart b = Some t → t <= since.
Proof.
  intros H0 Hr Hrel. assert (idle_since_look (b, looks)) as Hi.
  { assert (idle_since_look (b0, [])) as Hi0 by (intros since Hs; cbn in Hs; congruence).
    clear -Hr Hi0. induction Hr; eauto using rstep_idle. }
  unfold releaseAbandonedRecording in Hrel. destruct (startRequests b =? 0); [done|].
  destruct (existsb recordsBpf pods); [done|]. split; [done|].
  destruct (idleSince b) as [since|] eqn:Hs; [|done].
  destruct (match lastStart b with Some t => since <? t | None => false end) eqn:Hl; [done|].
  destruct (Hi since Hs) as (post & pre & Hlooks & Hpost). exists since, post, pre.
  destruct (Z.ltb_spec (now - since) (if (0 <? ContainerProfiles.Size (rec_profiles b))%nat
    then uncollectedRecordingTimeout else abandonedRecordingTimeout)) as [?|Ht]; [done|].
  split; [done|]. split; [done|]. split.
  - case_bool_decide as Hz; destruct (Nat.ltb_spec 0 (ContainerProfiles.Size (rec_profiles b))); try done; lia.
  - intros t Ht'. rewrite Ht' in Hl. by apply Z.ltb_ge.
Qed.

(** A recording no pod asks for is stopped by the first look an hour after one that
    found it abandoned, and nothing is left running. *)
Lemma abandoned_released b since pods now :
  startRequests b ≠ 0 → existsb recordsBpf pods = false → idleSince b = Some since →
  (∀ t, lastStart b = Some t → t <= since) → uncollectedRecordingTimeout <= now - since →
  let '(released, b') := releaseAbandonedRecording (Some pods) now None b in
  released = true ∧ startRequests b' = 0 ∧ rec_recording b' = false ∧ idleSince b' = None.
Proof.
  intros Hs Hp Hi Hl Ht. unfold releaseAbandonedRecording.
  rewrite (proj2 (Z.eqb_neq (startRequests b) 0) Hs), Hp, Hi.
  assert ((match lastStart b with Some t => since <? t | None => false end) = false) as ->.
  { destruct (lastStart b) as [t|]; [|done]. by apply Z.ltb_ge, Hl. }
  assert ((now - since <? (if (0 <? ContainerProfiles.Size (rec_profiles b))%nat
    then uncollectedRecordingTimeout else abandonedRecordingTimeout)) = false) as ->.
  { apply Z.ltb_ge. destruct (_ <? _)%nat; [done|].
    assert (abandonedRecordingTimeout <= uncollectedRecordingTimeout) by (by vm_compute). lia. }
  destruct (end_session_frame {| b with idleSince := None |}) as (He & Hrec & _).
  destruct (stop_times None {| b with idleSince := None |}) as [Hn _].
  rewrite (stop_run None _ _ He) in *. cbn in Hrec, Hn |- *. done.
Qed.

(** ** Requests are counted *)

Inductive request := RStart (now : Z) | RStop.

Definition handle_request (b : BpfRecorder) (r : request) : BpfRecorder :=
  match r with RStart now => (Start now None b).2 | RStop => (Stop None b).2 end.

(** The specification: how many recordings are wanted. *)
Definition wanted (n : nat) (r : request) : nat := match r with RStart _ => S n | RStop => pred n end.

Lemma stop_frame err b :
  startRequests (run (stop_recording err) b).2 = startRequests b ∧
  (err = None → rec_recording (run (stop_recording err) b).2 = false).
Proof.
  unfold stop_recording. rewrite run_bind, result_act, exec_act.
  assert (startRequests (end_session err b).2 = startRequests b ∧
    (err = None → rec_recording (end_session err b).2 = false)) as H by (by destruct err as [[]|]).
  destruct (end_session err b) as [[] e]; exact H.
Qed.

Lemma request_counted n b r :
  (Z.of_nat n < 2 ^ 63 - 1) → startRequests b = Z.of_nat n → rec_recording b = (0 <? n)%nat →
  startRequests (handle_request b r) = Z.of_nat (wanted n r) ∧
  rec_recording (handle_request b r) = (0 <? wanted n r)%nat.
Proof.
  intros Hn Hs Hr. destruct r as [now|]; cbn [handle_request wanted].
  - unfold Start. cbn [startRequests]. rewrite Hs.
    destruct (Z.eqb_spec (Z.of_nat n) 0); cbn; rewrite swrap_small by (cbn; lia); split; try lia; try done.
    rewrite Hr. destruct n; [lia|done].
  - unfold Stop. rewrite Hs. destruct n as [|n].
    + by split.
    + rewrite (proj2 (Z.eqb_neq _ 0)) by lia. cbn [startRequests Nat.pred].
      replace (swrap 64 (Z.of_nat (S n) - 1)) with (Z.of_nat n) by (rewrite swrap_small; cbn; lia).
      destruct (Z.eqb_spec (Z.of_nat n) 0) as [Hz|Hz].
      * destruct (stop_frame None {| b with startRequests := Z.of_nat n |}) as [H1 H2].
        rewrite H1, (H2 eq_refl). assert (n = 0%nat) as -> by lia. done.
      * cbn [snd startRequests rec_recording]. split; [done|]. rewrite Hr. by destruct n.
Qed.

(** The recorder records exactly while there are more requests to start than to
    stop, where stopping when nothing is wanted counts for nothing: any sequence
    of requests leaves the count of the specification, and the switch of the
    kernel is on if and only if it is positive. *)
Theorem requests_counted l b :
  Z.of_nat (length l) < 2 ^ 63 - 1 → startRequests b = 0 → rec_recording b = false →
  let b' := fold_left handle_request l b in
  startRequests b' = Z.of_nat (fold_left wanted l 0%nat) ∧
  rec_recording b' = (0 <? fold_left wanted l 0)%nat.
Proof.
  intros Hl Hs Hr.
  assert (∀ n b, Z.of_nat (n + length l) < 2 ^ 63 - 1 → startRequests b = Z.of_nat n →
    rec_recording b = (0 <? n)%nat →
    startRequests (fold_left handle_request l b) = Z.of_nat (fold_left wanted l n) ∧
    rec_recording (fold_left handle_request l b) = (0 <? fold_left wanted l n)%nat) as H.
  { clear. induction l as [|r l IH]; intros n b Hn Hs Hr; [done|]. cbn [fold_left length] in *.
    destruct (request_counted n b r) as [H1 H2]; [lia|done|done|]. apply IH; [|done|done].
    destruct r; cbn [wanted]; lia. }
  by apply (H 0%nat).
Qed.

(** A Stop that fails is not repeated: the request is counted although the session
    has not ended, and the same request again succeeds without doing anything. *)
Theorem failed_stop_sticks err b :
  startRequests b = 1 →
  let '(ok, b1) := Stop (Some err) b in
  ok = false ∧ startRequests b1 = 0 ∧ rec_keys b1 = rec_keys b ∧
  recordingGeneration b1 = recordingGeneration b ∧
  (err = StopSwitch → rec_recording b1 = rec_recording b) ∧
  ∀ err', Stop err' b1 = (true, b1).
Proof.
  intros Hs. unfold Stop at 1. rewrite Hs. cbn [Z.eqb startRequests].
  replace (swrap 64 (1 - 1) =? 0) with true by (by vm_compute).
  unfold stop_recording. rewrite run_bind, result_act, exec_act.
  destruct err as [|left_keys|caps sockets|left_keys]; cbn [end_session fst snd negb];
    (split; [done|]; split; [done|]; split; [done|]; split; [done|]; split; [done|]; done).
Qed.

(** ** Examples *)

(** Data under a key without a container. *)
Definition orphan : BpfRecorder := {| demo_recorder with rec_syscalls := <[99 := [1]]> (rec_syscalls demo_recorder) |}.
Definition nothing_alive : sweep_answers :=
  {| sa_list_ok := true; sa_pids := Some []; sa_stat := λ _, false; sa_cgroup := λ _, false |}.

Lemma sweep_drops_stale_witness :
  no_data (exec (sweepStaleKeys true nothing_alive) (exec (sweepStaleKeys true nothing_alive) orphan)) 99.
Proof.
  destruct (sweep_drops_stale nothing_alive nothing_alive [] [] orphan
    (exec (sweepStaleKeys true nothing_alive) orphan) 99) as (_ & _ & H).
  - done.
  - by vm_compute.
  - done.
  - done.
  - done.
  - apply H; [done| | |by vm_compute|by vm_compute];
      apply (bool_decide_unpack _); by vm_compute.
Defined.

(** A recording that was started at some time and looked at twice. *)
Definition abandoned : BpfRecorder := {| node_start with lastStart := Some 0 |}.

Definition second_look : bool * BpfRecorder :=
  releaseAbandonedRecording (Some []) (abandonedRecordingTimeout + 60) None
    (releaseAbandonedRecording (Some []) 60 None abandoned).2.

Lemma release_patient_witness :
  second_look.1 = true ∧
  ∃ since post pre, [(60, true)] = post ++ (since, true) :: pre ∧ Forall (λ l : look, l.2 = true) post ∧
    abandonedRecordingTimeout <= abandonedRecordingTimeout + 60 - since ∧ ∀ t, Some 0 = Some t → t <= since.
Proof.
  assert (second_look.1 = true) as H1 by (by vm_compute). split; [done|].
  destruct (release_patient abandoned (releaseAbandonedRecording (Some []) 60 None abandoned).2 [(60, true)]
    [] (abandonedRecordingTimeout + 60) None second_look.2) as (_ & since & post & pre & Hl & Hp & Ht & Hs).
  - done.
  - apply rtc_once. apply (do_look abandoned [] [] 60 None).
  - change (second_look = (true, second_look.2)). rewrite <- H1. apply surjective_pairing.
  - exists since, post, pre. split; [done|]. split; [done|]. split; [done|]. intros t Ht0. by apply Hs.
Defined.

Lemma requests_counted_witness :
  let b' := fold_left handle_request [RStart 5; RStart 6; RStop; RStop; RStop; RStart 9]
    {| node_start with startRequests := 0; rec_recording := false |} in
  startRequests b' = 1 ∧ rec_recording b' = true.
Proof. by apply (requests_counted [RStart 5; RStart 6; RStop; RStop; RStop; RStart 9]). Defined.
