(* ===== verification/Enricher.v ===== *)
(** * The AppArmor audit source

    The program of [enricher.bpf.c], which turns the AppArmor audit records of
    the kernel into events, and [parseBpfAuditEvent] of [bpfevent.go], which
    decodes them. *)
From S2P Require Import Prelude Bpf State Wire.
Import String.StringSyntax.
#[local] Open Scope string_scope.
#[local] Open Scope Z_scope.

(** The enum constants of the kernel the program compares with. *)
Definition AUDIT_APPARMOR_HINT : Z := 3.
Definition AUDIT_APPARMOR_STATUS : Z := 4.
Definition APPARMOR_COMPLAIN : Z := 1.

(** ** The state

    The ring buffer and the per CPU counter of lost events. *)
Record EWorld := {
  e_tick : nat;
  (* the records in the order of their reservation, [None] before the submit *)
  audit_log : list (option (list Z));
  e_lost_events : gmap (Z * Z) Z
}.

Definition init_eworld : EWorld := {| e_tick := 0; audit_log := []; e_lost_events := ∅ |}.

(** What is read of a [struct apparmor_audit_data], and of the argument of
    [aa_audit]: before Linux 6.7 it is the common audit data, with a pointer
    to the AppArmor one. *)
Record audit_data := AuditData { ad_error : Z; ad_request : Z; ad_name : Z; ad_op : Z }.

Record audit_mem := {
  (* bpf_core_field_exists(struct apparmor_audit_data, common) *)
  embeds_common : bool;
  audit_datas : gmap Z audit_data;
  (* the apparmor_audit_data pointer of a struct common_audit_data *)
  common_datas : gmap Z Z
}.

Section enricher.
Context {KR : Kernel} (cur : Task) (mem : audit_mem).

Definition zero_audit : audit_data := AuditData 0 0 0 0.
Definition read_audit (p : Z) : audit_data := default zero_audit (audit_datas mem !! p).

Definition e_get_mntns : Z := mntns_inum cur.

(** The buffer and the length of the string in it. *)
Definition read_kernel_str (stack : list Z) (kernel_ptr : Z) : list Z * Z :=
  let '(len, stack) :=
    if z2b kernel_ptr then probe_read_kernel_str kernel_ptr (length stack)
    else (0, stack) in
  if len <? 1 then (write_at stack 0 [0], 1) else (stack, len).

Definition get_audit_data (data : Z) : Z :=
  if embeds_common mem then data else default 0 (common_datas mem !! data).

(** The loop that looks for the end of the name from index [i] on. *)
Fixpoint comm_length (n : nat) (i : Z) (comm : list Z) (comm_len : Z) : Z :=
  match n with
  | O => comm_len
  | S n => if nthb comm i =? 0 then i + 1 else comm_length n (i + 1) comm comm_len
  end.

(** The writes into the reserved memory, in the order of the program. *)
Definition write_event (buf : list Z) (mntns pid request complain : Z)
    (op : list Z) (op_len : Z) (comm : list Z) (comm_len : Z)
    (name : list Z) (name_len : Z) : list Z :=
  let buf := write_at buf 0 (le_bytes 4 mntns) in
  let buf := write_at buf 4 (le_bytes 4 pid) in
  let buf := write_at buf 8 (le_bytes 4 request) in
  let buf := write_at buf 12 (le_bytes 1 complain) in
  let offset := 13 in
  let buf := write_at buf offset (take (Z.to_nat op_len) op) in
  let offset := u32 (offset + op_len) in
  let buf := write_at buf offset (take (Z.to_nat comm_len) comm) in
  let offset := u32 (offset + comm_len) in
  write_at buf offset (take (Z.to_nat name_len) name).

Definition e_count_lost : prog EWorld unit :=
  lost ← get (λ w, percpu_lookup 1 (e_lost_events w) (cpu cur) 0);
  match lost with
  | Some n => upd (λ w, {| w with e_lost_events :=
      <[(cpu cur, 0) := u64 (n + 1)]> (e_lost_events w) |})
  | None => mret tt
  end.

(** The reserved memory, as its slot and what it holds. *)
Definition reserve_dynptr (size : Z) : prog EWorld (option (nat * list Z)) :=
  act (λ w, let t := e_tick w in
    let w := {| w with e_tick := S t |} in
    if rb_room t size
    then (Some (length (audit_log w), rb_stale t (Z.to_nat size)),
          {| w with audit_log := audit_log w ++ [None] |})
    else (None, w)).

Definition submit_dynptr (slot : nat) (buf : list Z) : prog EWorld unit :=
  upd (λ w, {| w with audit_log := <[slot := Some buf]> (audit_log w) |}).

(** [op0] and [name0] are what the uninitialized arrays hold; [mode] is the
    mode of the profile. *)
Definition kprobe__aa_audit (op0 name0 : list Z) (type mode data : Z) : prog EWorld Z :=
  let ad := get_audit_data data in
  if ad =? 0 then mret 0
  else
    let error := ad_error (read_audit ad) in
    if error =? 0 then mret 0
    else if (type =? AUDIT_APPARMOR_HINT) || (type =? AUDIT_APPARMOR_STATUS) then mret 0
    else
      let mntns := e_get_mntns in
      let pid := cur_pid cur in
      let request := ad_request (read_audit ad) in
      let complain := b2z (mode =? APPARMOR_COMPLAIN) in
      let '(op, op_len) := read_kernel_str op0 (ad_op (read_audit ad)) in
      let comm_len := comm_length (Z.to_nat TASK_COMM_LEN) 0 (comm cur) TASK_COMM_LEN in
      let '(name, name_len) := read_kernel_str name0 (ad_name (read_audit ad)) in
      let size := u32 (4 + 4 + 4 + 1 + op_len + comm_len + name_len) in
      event ← reserve_dynptr size;
      match event with
      | None => _ ← e_count_lost; mret 0
      | Some (slot, buf) =>
          _ ← submit_dynptr slot (write_event buf mntns pid request complain op op_len
                (comm cur) comm_len name name_len);
          mret 0
      end.
End enricher.

(** ** The userspace *)

(** The fields [parseBpfAuditEvent] sets from the event.  [Request] is the number
    [ExtraInfo] prints; the type of the line is constant and its timestamp is the
    time of the call. *)
Record AuditLine := {
  ProcessID : Z; Apparmor : list Z; Operation : list Z; Executable : list Z;
  Name : list Z; Request : Z
}.

Definition bpfAuditHeaderSize : Z := 4 + 4 + 4 + 1.

(** bytes.Split at every NUL. *)
Fixpoint split_nul (l : list Z) : list (list Z) :=
  match l with
  | [] => [[]]
  | c :: l =>
      if c =? 0 then [] :: split_nul l
      else match split_nul l with
           | s :: strs => (c :: s) :: strs
           | [] => [[c]]
           end
  end.

(** The audit line and the mount namespace, [None] for an error. *)
Definition parseBpfAuditEvent (raw : list Z) : option (AuditLine * Z) :=
  if Z.of_nat (length raw) <=? bpfAuditHeaderSize then None
  else
    let mntns := Uint32 (slice raw 0 4) in
    let pid := Uint32 (slice raw 4 8) in
    let request := Uint32 (slice raw 8 12) in
    let complain := nthb raw 12 in
    match split_nul (drop (Z.to_nat bpfAuditHeaderSize) raw) with
    | op :: executable :: name :: _ =>
        let apparmor := if 0 <? complain then bytes "ALLOW" else bytes "DENIED" in
        Some ({| ProcessID := pid; Apparmor := apparmor; Operation := op;
                 Executable := executable; Name := name; Request := request |}, mntns)
    | _ => None
    end.

(** ** Round trip *)

Section facts.
Context {KR : Kernel} {KRok : KernelOk} (cur : Task) (mem : audit_mem).

(** The string at a kernel pointer as far as it fits, empty for the null
    pointer and for memory that cannot be read. *)
Definition kernel_string (ptr : Z) (size : nat) : list Z :=
  let '(len, s) := probe_read_kernel_str ptr size in
  if z2b ptr && (1 <=? len) then take (Z.to_nat (len - 1)) s else [].

Lemma read_kernel_str_spec stack ptr :
  (0 < length stack)%nat →
  let '(s, len) := read_kernel_str stack ptr in
  let str := kernel_string ptr (length stack) in
  take (Z.to_nat len) s = str ++ [0] ∧ no_nul str ∧
  len = Z.of_nat (length str) + 1 ∧ (Z.to_nat len <= length stack)%nat.
Proof.
  intros Hl. unfold read_kernel_str, kernel_string.
  assert (∀ s : list Z, length s = length stack →
    take (Z.to_nat 1) (write_at s 0 [0]) = [0]) as H0 by done.
  pose proof (probe_read_kernel_str_ok ptr (length stack) Hl) as [Hs Hr].
  destruct (probe_read_kernel_str ptr (length stack)) as [len s]. cbn [fst snd] in *.
  destruct (z2b ptr); cbn [andb].
  2: { cbn. split_and!; [by apply H0|constructor|done|lia]. }
  destruct (Z.ltb_spec len 1) as [Hlt|Hge].
  { destruct (Z.leb_spec 1 len); [lia|]. cbn. split_and!; [by apply H0|constructor|done|lia]. }
  destruct (Z.leb_spec 1 len); [|lia].
  destruct Hr as (H1 & H2 & H3); [lia|].
  assert (length (take (Z.to_nat (len - 1)) s) = Z.to_nat (len - 1)) as Ht
    by (rewrite length_take; lia).
  split_and!; [|done|lia|lia].
  replace (Z.to_nat len) with (S (Z.to_nat (len - 1))) by lia.
  apply take_S_r. destruct (s !! Z.to_nat (len - 1)) as [x|] eqn:E.
  - apply lookup_nthb in E. rewrite Z2Nat.id in E by lia. congruence.
  - apply lookup_ge_None in E. lia.
Qed.

Lemma comm_length_spec n i cs pre d :
  0 ∈ cs → (length cs <= n)%nat → i = Z.of_nat (length pre) →
  comm_length n i (pre ++ cs) d = i + Z.of_nat (length (cstr cs)) + 1.
Proof.
  revert i cs pre. induction n as [|n IH]; intros i cs pre H0 Hn ->.
  { destruct cs; [by apply elem_of_nil in H0|simpl in Hn; lia]. }
  destruct cs as [|c cs]; [by apply elem_of_nil in H0|]. cbn [comm_length cstr].
  assert (nthb (pre ++ c :: cs) (Z.of_nat (length pre)) = c) as ->.
  { apply lookup_nthb. rewrite lookup_app_r, Nat.sub_diag by done. done. }
  destruct (Z.eqb_spec c 0) as [->|Hc]; [simpl; lia|].
  apply elem_of_cons in H0 as [H0|H0]; [congruence|].
  replace (pre ++ c :: cs) with ((pre ++ [c]) ++ cs) by (by rewrite <- app_assoc).
  rewrite (IH _ cs); [|done|simpl in Hn; lia|rewrite length_app; simpl; lia].
  cbn [length]. lia.
Qed.

Lemma split_nul_app s rest : no_nul s → split_nul (s ++ 0 :: rest) = s :: split_nul rest.
Proof.
  induction s as [|c s IH]; intros H; simpl; [done|]. inversion H; subst.
  destruct (Z.eqb_spec c 0); [done|]. by rewrite IH.
Qed.

(** Writes one after the other fill the memory. *)
Lemma write_at_all buf bs : length bs = length buf → write_at buf 0 bs = bs.
Proof.
  intros H. unfold write_at. change (Z.to_nat 0) with 0%nat.
  rewrite take_0, drop_ge by lia. by rewrite app_nil_r.
Qed.

Lemma write_event_fills buf mntns pid request complain op op_len cm comm_len name name_len
    sop scm snm :
  take (Z.to_nat op_len) op = sop → take (Z.to_nat comm_len) cm = scm →
  take (Z.to_nat name_len) name = snm →
  op_len = Z.of_nat (length sop) → comm_len = Z.of_nat (length scm) →
  (length sop + length scm + length snm <= 1000)%nat →
  (length buf = 13 + length sop + length scm + length snm)%nat →
  write_event buf mntns pid request complain op op_len cm comm_len name name_len =
  le_bytes 4 mntns ++ le_bytes 4 pid ++ le_bytes 4 request ++ le_bytes 1 complain ++
    sop ++ scm ++ snm.
Proof.
  intros Hop Hcm Hnm Hol Hcl Hmax Hb. unfold write_event. cbv zeta. rewrite Hop, Hcm, Hnm.
  rewrite !wrap_small by (unfold in_u; lia).
  assert (∀ n z, Z.of_nat (length (le_bytes n z)) = Z.of_nat n) as Hle
    by (intros; by rewrite length_le_bytes).
  rewrite (write_at_adjacent buf 0 (le_bytes 4 mntns)) by (rewrite ?length_le_bytes; lia).
  assert (∀ x a b off, length x = length buf → off = Z.of_nat (length a) →
    (length a + length b <= length buf)%nat →
    write_at (write_at x 0 a) off b = write_at x 0 (a ++ b)) as Hadj.
  { intros x a b off Hx -> Hab. apply (write_at_adjacent x 0 a b); [done|]. simpl. lia. }
  repeat (rewrite Hadj; [|done|rewrite ?length_app, ?length_le_bytes; lia
                          |rewrite ?length_app, ?length_le_bytes; lia]).
  rewrite write_at_all by (rewrite ?length_app, ?length_le_bytes; lia).
  by rewrite <- !app_assoc.
Qed.

Lemma kernel_string_ok ptr size :
  (0 < size)%nat → no_nul (kernel_string ptr size) ∧ (length (kernel_string ptr size) < size)%nat.
Proof.
  intros Hs. pose proof (read_kernel_str_spec (replicate size 0) ptr) as H.
  rewrite length_replicate in H. specialize (H Hs).
  destruct (read_kernel_str (replicate size 0) ptr) as [s len]. destruct H as (_ & H1 & H2 & H3).
  split; [done|]. lia.
Qed.

Lemma parse_audit mntns pid request complain op cm name :
  in_u 32 mntns → in_u 32 pid → in_u 32 request → 0 <= complain < 256 →
  no_nul op → no_nul cm → no_nul name →
  parseBpfAuditEvent (le_bytes 4 mntns ++ le_bytes 4 pid ++ le_bytes 4 request ++
    le_bytes 1 complain ++ (op ++ [0]) ++ (cm ++ [0]) ++ (name ++ [0])) =
  Some ({| ProcessID := pid;
    Apparmor := if 0 <? complain then bytes "ALLOW" else bytes "DENIED";
    Operation := op; Executable := cm; Name := name; Request := request |}, mntns).
Proof.
  intros Hm Hp Hr Hc Ho Hcm Hn. unfold parseBpfAuditEvent.
  set (rest := (op ++ [0]) ++ (cm ++ [0]) ++ (name ++ [0])).
  set (a := le_bytes 4 mntns). set (b := le_bytes 4 pid). set (c := le_bytes 4 request).
  set (d := le_bytes 1 complain).
  assert (length a = 4%nat ∧ length b = 4%nat ∧ length c = 4%nat ∧ length d = 1%nat)
    as (La & Lb & Lc & Ld) by (split_and!; apply length_le_bytes).
  destruct (Z.leb_spec (Z.of_nat (length (a ++ b ++ c ++ d ++ rest))) bpfAuditHeaderSize) as [Hl|_].
  { exfalso. unfold bpfAuditHeaderSize, rest in Hl. rewrite !length_app in Hl. simpl in Hl. lia. }
  assert (drop (Z.to_nat bpfAuditHeaderSize) (a ++ b ++ c ++ d ++ rest) = rest) as ->.
  { rewrite !app_assoc. apply drop_app_length'. rewrite !length_app, La, Lb, Lc, Ld. done. }
  assert (split_nul rest = [op; cm; name; []]) as ->.
  { unfold rest. rewrite <- !app_assoc. cbn [app]. by rewrite !split_nul_app by done. }
  unfold Uint32.
  assert (nthb (a ++ b ++ c ++ d ++ rest) 12 = complain) as ->.
  { unfold nthb. rewrite !app_nth2 by (rewrite ?La, ?Lb, ?Lc; simpl; lia).
    rewrite La, Lb, Lc. simpl. by rewrite Z.mod_small by lia. }
  pose proof (slice_app [] a (b ++ c ++ d ++ rest) 0 4) as E1. cbn [app] in E1.
  rewrite E1 by (by rewrite ?La). clear E1.
  rewrite (slice_app a b) by (by rewrite ?La, ?Lb).
  rewrite (app_assoc a b). rewrite (slice_app (a ++ b) c) by (by rewrite ?length_app, ?La, ?Lb, ?Lc).
  unfold a, b, c. by rewrite !le_value_4 by done.
Qed.

(** A record that is reported: there is audit data with an error, and it is
    neither a hint nor a status. *)
Record audited (type data : Z) : Prop := {
  au_data : get_audit_data mem data ≠ 0;
  au_error : ad_error (read_audit mem (get_audit_data mem data)) ≠ 0;
  au_type : type ≠ AUDIT_APPARMOR_HINT ∧ type ≠ AUDIT_APPARMOR_STATUS
}.

(** A process name as bpf_get_current_comm returns it. *)
Definition comm_ok : Prop := length (comm cur) = 16%nat ∧ 0 ∈ comm cur.

(** The bytes of the event of a record. *)
Definition audit_event (mode data : Z) : list Z :=
  let ad := read_audit mem (get_audit_data mem data) in
  le_bytes 4 (mntns_inum cur) ++ le_bytes 4 (cur_pid cur) ++ le_bytes 4 (ad_request ad) ++
  le_bytes 1 (b2z (mode =? APPARMOR_COMPLAIN)) ++
  (kernel_string (ad_op ad) 16 ++ [0]) ++ (cstr (comm cur) ++ [0]) ++
  (kernel_string (ad_name ad) 256 ++ [0]).

Lemma run_aa_audit op0 name0 type mode data w :
  audited type data → comm_ok → length op0 = 16%nat → length name0 = 256%nat →
  run (kprobe__aa_audit cur mem op0 name0 type mode data) w =
  let t := e_tick w in
  let ev := audit_event mode data in
  if rb_room t (Z.of_nat (length ev))
  then (0, {| w with e_tick := S t; audit_log := audit_log w ++ [Some ev] |})
  else (0, {| w with e_tick := S t; e_lost_events :=
    <[(cpu cur, 0) := u64 (default 0 (e_lost_events w !! (cpu cur, 0)) + 1)]> (e_lost_events w) |}).
Proof.
  intros [Hd He [Ht1 Ht2]] [Hc1 Hc2] Ho Hn. unfold kprobe__aa_audit, audit_event. cbv zeta.
  destruct (Z.eqb_spec (get_audit_data mem data) 0); [done|].
  set (ad := read_audit mem (get_audit_data mem data)) in *.
  destruct (Z.eqb_spec (ad_error ad) 0); [done|].
  destruct (Z.eqb_spec type AUDIT_APPARMOR_HINT), (Z.eqb_spec type AUDIT_APPARMOR_STATUS);
    try done. cbn [orb].
  pose proof (read_kernel_str_spec op0 (ad_op ad)) as Hop.
  pose proof (read_kernel_str_spec name0 (ad_name ad)) as Hnm.
  destruct (read_kernel_str op0 (ad_op ad)) as [op op_len].
  destruct (read_kernel_str name0 (ad_name ad)) as [name name_len].
  rewrite Ho in Hop. rewrite Hn in Hnm.
  destruct Hop as (Hop & _ & Hopl & Hopm); [lia|]. destruct Hnm as (Hnm & _ & Hnml & Hnmm); [lia|].
  set (sop := kernel_string (ad_op ad) 16) in *. set (snm := kernel_string (ad_name ad) 256) in *.
  pose proof (comm_length_spec (Z.to_nat TASK_COMM_LEN) 0 (comm cur) [] TASK_COMM_LEN Hc2) as Hcl.
  cbn [app] in Hcl. rewrite Hcl by (rewrite ?Hc1; done). clear Hcl. rewrite Z.add_0_l.
  pose proof (length_cstr_lt (comm cur) Hc2) as Hcs. rewrite Hc1 in Hcs.
  assert (take (Z.to_nat (Z.of_nat (length (cstr (comm cur))) + 1)) (comm cur) =
    cstr (comm cur) ++ [0]) as Hcm.
  { rewrite <- take_cstr by done. f_equal. lia. }
  set (size := u32 _). assert (size = Z.of_nat (13 + (length sop + 1) +
    (length (cstr (comm cur)) + 1) + (length snm + 1))) as Hsize.
  { unfold size. rewrite wrap_small by (unfold in_u; lia). lia. }
  assert (∀ buf, length buf = Z.to_nat size →
    write_event buf (e_get_mntns cur) (cur_pid cur) (ad_request ad)
      (b2z (mode =? APPARMOR_COMPLAIN)) op op_len (comm cur)
      (Z.of_nat (length (cstr (comm cur))) + 1) name name_len =
    le_bytes 4 (mntns_inum cur) ++ le_bytes 4 (cur_pid cur) ++ le_bytes 4 (ad_request ad) ++
    le_bytes 1 (b2z (mode =? APPARMOR_COMPLAIN)) ++ (sop ++ [0]) ++
    (cstr (comm cur) ++ [0]) ++ (snm ++ [0])) as Hw.
  { intros buf Hb. apply write_event_fills; try done; rewrite ?length_app; simpl; lia. }
  assert (Z.of_nat (length (le_bytes 4 (mntns_inum cur) ++ le_bytes 4 (cur_pid cur) ++
    le_bytes 4 (ad_request ad) ++ le_bytes 1 (b2z (mode =? APPARMOR_COMPLAIN)) ++
    (sop ++ [0]) ++ (cstr (comm cur) ++ [0]) ++ (snm ++ [0]))) = size) as ->.
  { rewrite Hsize, !length_app, !length_le_bytes. simpl. lia. }
  cbn [run mbind prog_bind pbind reserve_dynptr act].
  destruct (rb_room (e_tick w) size).
  - cbn [run mbind prog_bind pbind submit_dynptr upd act audit_log].
    rewrite Hw by apply rb_stale_length. f_equal. cbn [e_tick e_lost_events]. f_equal.
    rewrite insert_app_r_alt, Nat.sub_diag by done. done.
  - reflexivity.
Qed.

(** C38 Every AppArmor denial that is reported arrives as what it was: the
    userspace decodes the event into the process, the mount namespace, the
    request and whether the profile only complains, and into the operation,
    the name of the process and the name of the object as NUL free strings,
    each as far as it fits.  An event takes at most 301 bytes; one that does
    not fit into the ring buffer is counted as lost. *)
Theorem audit_event_roundtrip op0 name0 type mode data w :
  audited type data → comm_ok → length op0 = 16%nat → length name0 = 256%nat →
  let ad := read_audit mem (get_audit_data mem data) in
  in_u 32 (ad_request ad) →
  let w' := exec (kprobe__aa_audit cur mem op0 name0 type mode data) w in
  ∃ ev, (length ev <= 301)%nat ∧
    parseBpfAuditEvent ev = Some ({|
      ProcessID := cur_pid cur;
      Apparmor := if mode =? APPARMOR_COMPLAIN then bytes "ALLOW" else bytes "DENIED";
      Operation := kernel_string (ad_op ad) 16; Executable := cstr (comm cur);
      Name := kernel_string (ad_name ad) 256; Request := ad_request ad |}, mntns_inum cur) ∧
    if rb_room (e_tick w) (Z.of_nat (length ev))
    then audit_log w' = audit_log w ++ [Some ev] ∧ e_lost_events w' = e_lost_events w
    else audit_log w' = audit_log w ∧ e_lost_events w' =
      <[(cpu cur, 0) := u64 (default 0 (e_lost_events w !! (cpu cur, 0)) + 1)]> (e_lost_events w).
Proof.
  intros Ha Hc Ho Hn ad Hr. cbv zeta. unfold exec. rewrite run_aa_audit by done.
  exists (audit_event mode data). cbv zeta.
  split; [|split; [|by destruct (rb_room _ _)]].
  - unfold audit_event. rewrite !length_app, !length_le_bytes. fold ad. destruct Hc as [Hc1 Hc2].
    pose proof (length_cstr_lt (comm cur) Hc2).
    destruct (kernel_string_ok (ad_op ad) 16) as [_ ?]; [lia|].
    destruct (kernel_string_ok (ad_name ad) 256) as [_ ?]; [lia|]. simpl. lia.
  - unfold audit_event. fold ad. rewrite parse_audit.
    + do 3 f_equal. by destruct (mode =? APPARMOR_COMPLAIN).
    + apply mntns_inum_range.
    + apply cur_pid_range.
    + done.
    + destruct (mode =? APPARMOR_COMPLAIN); cbn; lia.
    + apply kernel_string_ok. lia.
    + apply cstr_no_nul.
    + apply kernel_string_ok. lia.
Qed.

(** What is no denial is not reported: without audit data or without an
    error in it, and for hints and status records, the program does
    nothing. *)
Theorem audit_ignored op0 name0 type mode data w :
  ¬ audited type data →
  run (kprobe__aa_audit cur mem op0 name0 type mode data) w = (0, w).
Proof.
  intros Ha. unfold kprobe__aa_audit. cbv zeta.
  destruct (Z.eqb_spec (get_audit_data mem data) 0); [done|].
  destruct (Z.eqb_spec (ad_error (read_audit mem (get_audit_data mem data))) 0); [done|].
  destruct (Z.eqb_spec type AUDIT_APPARMOR_HINT), (Z.eqb_spec type AUDIT_APPARMOR_STATUS);
    try done.
  by destruct Ha.
Qed.
End facts.

(** A denied write access, on a kernel that passes the AppArmor data itself. *)
Definition demo_audit : audit_mem := {|
  embeds_common := true;
  audit_datas := {[ 5000 := AuditData (-13) 2 6000 6100 ]};
  common_datas := ∅
|}.

Lemma audit_ignored_witness :
  run (@kprobe__aa_audit demo_kernel demo_task demo_audit (replicate 16 7) (replicate 256 7)
    AUDIT_APPARMOR_HINT 0 5000) init_eworld = (0, init_eworld).
Proof. apply (@audit_ignored demo_kernel). intros [_ _ [H _]]. by apply H. Defined.

Lemma audit_event_roundtrip_witness :
  let w' := exec (@kprobe__aa_audit demo_kernel demo_task demo_audit (replicate 16 7)
    (replicate 256 7) 2 0 5000) init_eworld in
  ∃ ev, (length ev <= 301)%nat ∧ audit_log w' = [Some ev] ∧
    ∃ line, parseBpfAuditEvent ev = Some (line, 4026532000) ∧
      Name line = @kernel_string demo_kernel 6000 256.
Proof.
  destruct (@audit_event_roundtrip demo_kernel demo_kernel_ok demo_task demo_audit
    (replicate 16 7) (replicate 256 7) 2 0 5000 init_eworld) as (ev & H1 & H2 & H3).
  - split; [discriminate|discriminate|split; discriminate].
  - split; [reflexivity|]. apply list_elem_of_lookup. by exists 15%nat.
  - reflexivity.
  - reflexivity.
  - done.
  - exists ev. split; [exact H1|]. destruct H3 as [H3 _]. split; [exact H3|].
    eexists. split; [exact H2|]. reflexivity.
Defined.
