(* ===== verification/KernelTypes.v ===== *)
(** * The structures the programs share

    What the programs read of the kernel, at the offsets of its structures on
    both architectures, and the structures they exchange with the userspace. *)
From S2P Require Import Prelude CLayout VmlinuxX86 VmlinuxArm64 Bpf State DPath Wire.
Import String.StringSyntax.
#[local] Open Scope string_scope.
#[local] Open Scope Z_scope.

(** ** The kernel structures of an architecture *)

Record ktypes := {
  k_task_struct : ctype; k_thread_info : ctype; k_nsproxy : ctype; k_mnt_namespace : ctype;
  k_mm_struct : ctype; k_signal_struct : ctype; k_fs_struct : ctype; k_linux_binprm : ctype;
  k_file : ctype; k_path : ctype; k_dentry : ctype; k_qstr : ctype; k_inode : ctype;
  k_super_block : ctype; k_vfsmount : ctype; k_mount : ctype; k_hlist_bl_node : ctype;
  k_raw_sys_enter : ctype; k_syscall_trace_enter : ctype;
  k_apparmor_audit_data : ctype; k_common_audit_data : ctype; k_aa_profile : ctype
}.

Definition x86_types : ktypes := {|
  k_task_struct := VmlinuxX86.task_struct; k_thread_info := VmlinuxX86.thread_info;
  k_nsproxy := VmlinuxX86.nsproxy; k_mnt_namespace := VmlinuxX86.mnt_namespace;
  k_mm_struct := VmlinuxX86.mm_struct; k_signal_struct := VmlinuxX86.signal_struct;
  k_fs_struct := VmlinuxX86.fs_struct; k_linux_binprm := VmlinuxX86.linux_binprm;
  k_file := VmlinuxX86.file; k_path := VmlinuxX86.path; k_dentry := VmlinuxX86.dentry;
  k_qstr := VmlinuxX86.qstr; k_inode := VmlinuxX86.inode;
  k_super_block := VmlinuxX86.super_block; k_vfsmount := VmlinuxX86.vfsmount;
  k_mount := VmlinuxX86.mount; k_hlist_bl_node := VmlinuxX86.hlist_bl_node;
  k_raw_sys_enter := VmlinuxX86.trace_event_raw_sys_enter;
  k_syscall_trace_enter := VmlinuxX86.syscall_trace_enter;
  k_apparmor_audit_data := VmlinuxX86.apparmor_audit_data;
  k_common_audit_data := VmlinuxX86.common_audit_data;
  k_aa_profile := VmlinuxX86.aa_profile
|}.

Definition arm64_types : ktypes := {|
  k_task_struct := VmlinuxArm64.task_struct; k_thread_info := VmlinuxArm64.thread_info;
  k_nsproxy := VmlinuxArm64.nsproxy; k_mnt_namespace := VmlinuxArm64.mnt_namespace;
  k_mm_struct := VmlinuxArm64.mm_struct; k_signal_struct := VmlinuxArm64.signal_struct;
  k_fs_struct := VmlinuxArm64.fs_struct; k_linux_binprm := VmlinuxArm64.linux_binprm;
  k_file := VmlinuxArm64.file; k_path := VmlinuxArm64.path; k_dentry := VmlinuxArm64.dentry;
  k_qstr := VmlinuxArm64.qstr; k_inode := VmlinuxArm64.inode;
  k_super_block := VmlinuxArm64.super_block; k_vfsmount := VmlinuxArm64.vfsmount;
  k_mount := VmlinuxArm64.mount; k_hlist_bl_node := VmlinuxArm64.hlist_bl_node;
  k_raw_sys_enter := VmlinuxArm64.trace_event_raw_sys_enter;
  k_syscall_trace_enter := VmlinuxArm64.syscall_trace_enter;
  k_apparmor_audit_data := VmlinuxArm64.apparmor_audit_data;
  k_common_audit_data := VmlinuxArm64.common_audit_data;
  k_aa_profile := VmlinuxArm64.aa_profile
|}.

Definition types (a : arch) : ktypes :=
  match a with arm64 => arm64_types | _ => x86_types end.

(** ** Chains of reads

    A read like BPF_CORE_READ(task, nsproxy, mnt_ns, ns.inum): members of
    structures that are pointers to the next one, and a last member. *)
Definition chain := list (ctype * list string).

(** The chain follows pointers within the structures and ends with a member that
    fits into [width] bytes. *)
Fixpoint typed (c : chain) (width : Z) : bool :=
  match c with
  | [] => false
  | (t, p) :: rest =>
      wf t &&
      match access t p with
      | None => false
      | Some (_, t') =>
          match rest, t' with
          | [], _ => sizeof t' <=? width
          | _ :: _, Ptr => typed rest width
          | _ :: _, _ => false
          end
      end
  end.

(** The value the chain yields in the memory [mem], byte by byte. *)
Definition load (mem : Z → Z) (addr size : Z) : Z :=
  le_value ((λ i, mem (addr + Z.of_nat i)) <$> seq 0 (Z.to_nat size)).

Fixpoint core_read (mem : Z → Z) (base : Z) (c : chain) : option Z :=
  match c with
  | [] => None
  | (t, p) :: rest =>
      match access t p with
      | None => None
      | Some (off, t') =>
          match rest with
          | [] => Some (load mem (base + off) (sizeof t'))
          | _ :: _ => core_read mem (load mem (base + off) 8) rest
          end
      end
  end.

(** The reads of the programs, function by function, each with the size of the
    variable it goes to, or of the type in which the source compares it.  The
    arguments in the context of a single syscall are a flexible array after the
    structure, and not among them: [args_offset_iff] is about those. *)

(** [get_mntns], of both programs. *)
Definition get_mntns_reads (k : ktypes) : list (chain * Z) :=
  [([(k_task_struct k, ["nsproxy"]); (k_nsproxy k, ["mnt_ns"]);
     (k_mnt_namespace k, ["ns"; "inum"])], 4)].

(** [get_mntns_id]: the namespace, and its ID if its structure has one. *)
Definition get_mntns_id_reads (k : ktypes) : list (chain * Z) :=
  ([(k_task_struct k, ["nsproxy"]); (k_nsproxy k, ["mnt_ns"])], 8) ::
  (if field_exists (k_mnt_namespace k) ["seq"]
   then [([(k_mnt_namespace k, ["seq"])], 8)]
   else if field_exists (k_mnt_namespace k) ["ns"; "ns_id"]
   then [([(k_mnt_namespace k, ["ns"; "ns_id"])], 8)]
   else []).

(** [is_compat_task], which reads nothing on other architectures. *)
Definition is_compat_task_reads (a : arch) (k : ktypes) : list (chain * Z) :=
  match a with
  | x86 => [([(k_task_struct k, ["thread_info"; "status"])], 4)]
  | arm64 => [([(k_task_struct k, ["thread_info"; "flags"])], 8)]
  | other_arch => []
  end.

(** [exe_has_init_prefix]. *)
Definition exe_reads (k : ktypes) : list (chain * Z) :=
  [([(k_task_struct k, ["mm"]); (k_mm_struct k, ["exe_file"]);
     (k_file k, ["f_path"; "dentry"]); (k_dentry k, ["d_name"; "name"])], 8)].

(** [make_path]. *)
Definition make_path_reads (k : ktypes) : list (chain * Z) := [([(k_path k, ["mnt"])], 8)].

(** [register_fs_event]. *)
Definition fs_event_reads (k : ktypes) : list (chain * Z) :=
  [([(k_path k, ["dentry"]); (k_dentry k, ["d_inode"])], 8);
   ([(k_inode k, ["i_ino"])], 8);
   ([(k_inode k, ["i_sb"]); (k_super_block k, ["s_dev"])], 4);
   ([(k_inode k, ["i_sb"]); (k_super_block k, ["s_magic"])], 8)].

(** [register_file_event]: the path and the mode of the file. *)
Definition file_event_reads (k : ktypes) : list (chain * Z) :=
  [([(k_file k, ["f_path"])], 16);
   ([(k_file k, ["f_inode"]); (k_inode k, ["i_mode"])], 2)].

(** [file_open] and [bprm_check_security]. *)
Definition file_open_reads (k : ktypes) : list (chain * Z) := [([(k_file k, ["f_mode"])], 4)].
Definition bprm_reads (k : ktypes) : list (chain * Z) := [([(k_linux_binprm k, ["file"])], 8)].

(** [sched_process_exec], [sched_process_exit] and [sched_process_fork]. *)
Definition sched_exec_reads (k : ktypes) : list (chain * Z) :=
  [([(k_task_struct k, ["real_parent"]); (k_task_struct k, ["tgid"])], 4)].
Definition sched_exit_reads (k : ktypes) : list (chain * Z) :=
  [([(k_task_struct k, ["signal"]); (k_signal_struct k, ["live"; "counter"])], 4)].
Definition sched_fork_reads (k : ktypes) : list (chain * Z) :=
  [([(k_task_struct k, ["pid"])], 4); ([(k_task_struct k, ["tgid"])], 4)].

(** [sys_enter]. *)
Definition sys_enter_reads (k : ktypes) : list (chain * Z) :=
  [([(k_raw_sys_enter k, ["id"])], 8); ([(k_raw_sys_enter k, ["args"])], 48)].

(** [IS_ROOT], [hlist_bl_unhashed], [cwd_read] and the root of [__d_path_local]. *)
Definition d_path_reads (k : ktypes) : list (chain * Z) :=
  [([(k_dentry k, ["d_parent"])], 8);
   ([(k_dentry k, ["d_hash"])], sizeof (k_hlist_bl_node k));
   ([(k_hlist_bl_node k, ["pprev"])], 8)].
Definition cwd_reads (k : ktypes) : list (chain * Z) :=
  [([(k_vfsmount k, ["mnt_root"])], 8);
   ([(k_mount k, ["mnt_parent"])], 8);
   ([(k_mount k, ["mnt_mountpoint"])], 8);
   ([(k_mount k, ["mnt"])], sizeof (k_vfsmount k));
   ([(k_dentry k, ["d_parent"])], 8);
   ([(k_dentry k, ["d_name"])], sizeof (k_qstr k));
   ([(k_qstr k, ["name"])], 8); ([(k_qstr k, ["len"])], 4)].
Definition root_reads (k : ktypes) : list (chain * Z) :=
  [([(k_task_struct k, ["fs"]); (k_fs_struct k, ["root"; "dentry"])], 8);
   ([(k_task_struct k, ["fs"]); (k_fs_struct k, ["root"; "mnt"])], 8)].

(** [get_audit_data] and [kprobe__aa_audit]. *)
Definition audit_data_reads (k : ktypes) : list (chain * Z) :=
  if field_exists (k_apparmor_audit_data k) ["common"]
  then [([(k_apparmor_audit_data k, ["common"])], sizeof (k_common_audit_data k))]
  else [([(k_common_audit_data k, ["apparmor_audit_data"])], 8)].
Definition audit_reads (k : ktypes) : list (chain * Z) :=
  [([(k_apparmor_audit_data k, ["error"])], 4);
   ([(k_apparmor_audit_data k, ["request"])], 4);
   ([(k_apparmor_audit_data k, ["name"])], 8);
   ([(k_apparmor_audit_data k, ["op"])], 8);
   ([(k_aa_profile k, ["mode"])], 8)].

Definition recorder_reads (a : arch) : list (chain * Z) :=
  let k := types a in
  is_compat_task_reads a k ++
  concat ((λ f, f k) <$>
    [get_mntns_reads; get_mntns_id_reads; exe_reads; make_path_reads; fs_event_reads;
     file_event_reads; file_open_reads; bprm_reads; sched_exec_reads;
     sched_exit_reads; sched_fork_reads; sys_enter_reads; d_path_reads; cwd_reads; root_reads;
     audit_data_reads; audit_reads]).

(** ** The reads are within the structures *)

Lemma typed_links c width t p :
  typed c width = true → (t, p) ∈ c →
  ∃ off t', access t p = Some (off, t') ∧ 0 <= off ∧ off + sizeof t' <= sizeof t.
Proof.
  induction c as [|[t0 p0] c IH]; intros Ht Hin; [by apply elem_of_nil in Hin|].
  cbn [typed] in Ht. apply andb_true_iff in Ht as [Hw Ht].
  destruct (access t0 p0) as [[off t']|] eqn:Ea; [|done].
  apply elem_of_cons in Hin as [[= -> ->]|Hin].
  - destruct (access_inside t0 p0 _ Hw Ea) as (H1 & H2 & _). by exists off, t'.
  - destruct c as [|l c]; [by apply elem_of_nil in Hin|]. destruct t'; try done. by apply IH.
Qed.

Lemma load_range mem addr size :
  (∀ x, in_u 8 (mem x)) → 0 <= size → in_u (8 * size) (load mem addr size).
Proof.
  intros Hm Hs. unfold load, in_u. rewrite Z.pow_mul_r by lia. change (2 ^ 8) with 256.
  set (l := _ <$> _). assert (size = Z.of_nat (length l)) as Hl.
  { unfold l. rewrite length_fmap, length_seq. lia. }
  rewrite Hl.
  apply le_value_range. apply Forall_fmap, Forall_forall. intros i _. apply Hm.
Qed.

Lemma typed_reads mem base c width :
  typed c width = true → (∀ x, in_u 8 (mem x)) →
  ∃ v, core_read mem base c = Some v ∧ in_u (8 * width) v.
Proof.
  intros Ht Hm. revert base. induction c as [|[t p] c IH]; intros base; [done|].
  cbn [typed core_read] in *. apply andb_true_iff in Ht as [Hw Ht].
  destruct (access t p) as [[off t']|] eqn:Ea; [|done].
  destruct c as [|l c]; [|destruct t'; try done; by apply IH].
  apply Z.leb_le in Ht. destruct (access_inside t p _ Hw Ea) as (_ & _ & H).
  destruct (measure_ok _ H) as [Hs _]. eexists; split; [done|].
  destruct (load_range mem (base + off) (sizeof t') Hm Hs) as [H0 H1]. split; [done|].
  eapply Z.lt_le_trans; [exact H1|]. apply Z.pow_le_mono_r; lia.
Qed.

Lemma all_typed a : forallb (λ r, typed r.1 r.2) (recorder_reads a) = true.
Proof. destruct a; vm_compute; reflexivity. Qed.

(** Every value of [recorder_reads] is a member of the structure it is read
    from, on both architectures: each pointer on the way and the value lie within
    the structure the header declares, and what is read fits into the variable
    it goes to. *)
Theorem reads_in_bounds a c width :
  (c, width) ∈ recorder_reads a →
  (∀ t p, (t, p) ∈ c →
    ∃ off t', access t p = Some (off, t') ∧ 0 <= off ∧ off + sizeof t' <= sizeof t) ∧
  (∀ mem base, (∀ x, in_u 8 (mem x)) →
    ∃ v, core_read mem base c = Some v ∧ in_u (8 * width) v).
Proof.
  intros Hin. pose proof (all_typed a) as H. rewrite forallb_forall in H.
  apply list_elem_of_In in Hin. specialize (H _ Hin). cbn [fst snd] in H. split.
  - intros t p. by apply (typed_links c width).
  - intros mem base. by apply typed_reads.
Qed.

Lemma reads_in_bounds_witness :
  let c := [(k_task_struct arm64_types, ["thread_info"; "flags"])] in
  ∃ v, core_read (λ _, 255) 0 c = Some v ∧ in_u (8 * 8) v.
Proof.
  apply (reads_in_bounds arm64 [(k_task_struct arm64_types, ["thread_info"; "flags"])] 8).
  - left.
  - intros x. split; [lia|reflexivity].
Defined.

(** ** The context of a tracepoint

    The two structures a syscall entry passes, with the common fields that
    differ between kernels. *)
Definition raw_sys_enter_of (ent : ctype) : ctype := struct [
  Field "ent" ent;
  Field "id" (Int 8);
  Field "args" (Arr 6 (Int 8));
  Field "__data" (Arr 0 (Int 1)) ].

Definition syscall_trace_enter_of (ent : ctype) : ctype := struct [
  Field "ent" ent;
  Field "nr" (Int 4);
  Field "args" (Arr 0 (Int 8)) ].

(** Where the arguments are after common fields of [s] bytes. *)
Lemma args_places s r :
  (s = 8 * r →
    field_start false 48 8 None (field_start false 8 8 None (8 * s) + 64) = 8 * (s + 8) ∧
    field_start false 0 8 None (field_start false 4 4 None (8 * s) + 32) = 8 * (s + 8)) ∧
  (s = 8 * r + 4 →
    field_start false 48 8 None (field_start false 8 8 None (8 * s) + 64) = 8 * (s + 12) ∧
    field_start false 0 8 None (field_start false 4 4 None (8 * s) + 32) = 8 * (s + 4)).
Proof.
  unfold field_start. change (8 * 8) with 64. change (8 * 4) with 32. split; intros ->.
  - rewrite (round_up_eq (8 * (8 * r)) 64 r), (round_up_eq (8 * (8 * r)) 32 (2 * r)) by lia.
    rewrite (round_up_eq _ 64 (r + 1)), (round_up_eq _ 64 (r + 1)) by lia. lia.
  - rewrite (round_up_eq (8 * (8 * r + 4)) 64 (r + 1)),
      (round_up_eq (8 * (8 * r + 4)) 32 (2 * r + 1)) by lia.
    rewrite (round_up_eq _ 64 (r + 2)), (round_up_eq _ 64 (r + 1)) by lia. lia.
Qed.

(** The arguments of a syscall are at the same offset in the context of
    raw_syscalls/sys_enter and in the one of a single syscall exactly if the
    common fields end on an 8 byte boundary, as they do in the headers; with
    four bytes more the second one has them 8 bytes earlier. *)
Theorem args_offset_iff ent :
  wf ent = true → alignof ent = 4 → (4 | sizeof ent) →
  k_raw_sys_enter x86_types = raw_sys_enter_of VmlinuxX86.trace_entry ∧
  k_syscall_trace_enter x86_types = syscall_trace_enter_of VmlinuxX86.trace_entry ∧
  ∃ raw single,
    offsetof (raw_sys_enter_of ent) ["args"] = Some raw ∧
    offsetof (syscall_trace_enter_of ent) ["args"] = Some single ∧
    (raw = single ↔ (8 | sizeof ent)) ∧
    (¬ (8 | sizeof ent) → raw = single + 8).
Proof.
  intros Hw Ha Hd. split; [reflexivity|]. split; [reflexivity|].
  destruct (measure_ok ent Hw) as [Hs _].
  assert (field_start false (sizeof ent) (alignof ent) None 0 = 0) as H0 by (by rewrite Ha).
  assert (∃ r, sizeof ent = 8 * r ∨ sizeof ent = 8 * r + 4) as [r Hr].
  { destruct Hd as [k Hk]. exists (k / 2). pose proof (Z.div_mod k 2 ltac:(lia)).
    pose proof (Z.mod_pos_bound k 2 ltac:(lia)). lia. }
  unfold offsetof, raw_sys_enter_of, syscall_trace_enter_of.
  cbn [access member find_member direct place]. rewrite H0, Z.add_0_l.
  change (sizeof (Int 8)) with 8. change (alignof (Int 8)) with 8.
  change (sizeof (Int 4)) with 4. change (alignof (Int 4)) with 4.
  change (sizeof (Arr 6 (Int 8))) with 48. change (alignof (Arr 6 (Int 8))) with 8.
  change (sizeof (Arr 0 (Int 8))) with 0. change (alignof (Arr 0 (Int 8))) with 8.
  change (8 * 8) with 64. change (8 * 4) with 32.
  destruct (args_places (sizeof ent) r) as [P1 P2].
  assert (∀ x, 8 * x / 8 + 0 = x) as Hdiv
    by (intros x; rewrite Z.mul_comm, Z.div_mul by lia; lia).
  destruct Hr as [Hr|Hr]; [destruct (P1 Hr) as [-> ->]|destruct (P2 Hr) as [-> ->]].
  - eexists _, _. split; [reflexivity|]. split; [reflexivity|]. rewrite !Hdiv. cbn [fst].
    split; [split; [intros _; exists r; lia|done]|]. intros []. exists r. lia.
  - eexists _, _. split; [reflexivity|]. split; [reflexivity|]. rewrite !Hdiv. cbn [fst].
    split; [|intros _; lia]. split; [lia|]. intros [q Hq]. lia.
Qed.

(** Common fields of 12 bytes, as on a PREEMPT_RT kernel. *)
Lemma args_offset_iff_witness :
  ∃ raw single,
    offsetof (raw_sys_enter_of (struct [Field "a" (Int 4); Field "b" (Int 4); Field "c" (Int 1)]))
      ["args"] = Some raw ∧
    offsetof (syscall_trace_enter_of
      (struct [Field "a" (Int 4); Field "b" (Int 4); Field "c" (Int 1)])) ["args"] = Some single ∧
    raw = single + 8.
Proof.
  destruct (args_offset_iff (struct [Field "a" (Int 4); Field "b" (Int 4); Field "c" (Int 1)]))
    as (_ & _ & raw & single & H1 & H2 & _ & H3).
  - reflexivity.
  - reflexivity.
  - by exists 3.
  - exists raw, single. split; [exact H1|]. split; [exact H2|]. apply H3.
    change (sizeof _) with 12. intros [k Hk]. lia.
Defined.

(** ** The structures of the recorder *)

Definition pid_key_t : ctype := struct [
  Field "pid" (Int 4);
  Field "pad" (Int 4);
  Field "key" (Int 8) ].

Definition event_header_t : ctype := packed_struct [
  Field "pid" (Int 4);
  Field "mntns" (Int 4);
  Field "key" (Int 8);
  Field "type" (Int 1);
  Field "flags" (Int 8) ].

Definition event_data_t : ctype := packed_struct [
  Field "hdr" event_header_t;
  Field "data" (Arr PATH_MAX (Int 1)) ].

Definition exec_event_data_t : ctype := packed_struct [
  Field "hdr" event_header_t;
  Field "filename" (Arr MAX_FILENAME_LEN (Int 1));
  Field "args" (Arr MAX_ARGS (Arr MAX_ARG_LEN (Int 1)));
  Field "env" (Arr MAX_ENV (Arr MAX_ENV_LEN (Int 1)));
  Field "args_len" (Int 4);
  Field "env_len" (Int 4) ].

Definition file_event_state_t : ctype := struct [
  Field "inode" (Int 8);
  Field "flags" (Int 8);
  Field "dev" (Int 4);
  Field "overlay" (Int 4) ].

Definition buffer_heap_map_value_t : ctype := struct [
  Field "buf" (Arr (MAX_BUF_LEN + 256) (Int 1)) ].

(** No byte of a structure is outside of its members: the key and the value of
    a map are what their members hold. *)
Definition no_holes (t : ctype) : bool :=
  sizeof t =? foldr Z.add 0 (map (λ m, sizeof m.2.2) (direct t)).

(** The bytes of the member [name] in an encoded structure. *)
Definition member_bytes (t : ctype) (name : string) (raw : list Z) : option (list Z) :=
  (λ m, slice raw m.1 (m.1 + sizeof m.2)) <$> member t name.

(** The events have the layout of the packed structures, without padding:
    their sizes are the ones that are reserved, every member of the header is
    where the encoding puts it, and the keys and values of the maps, like
    [struct pid_key], have no bytes besides their members that could make two
    equal keys differ. *)
Theorem structures_packed h rest :
  sizeof event_header_t = sizeof_event_header ∧
  sizeof event_data_t = sizeof_event_data ∧
  sizeof exec_event_data_t = sizeof_exec_event_data ∧
  Z.of_nat (length zero_buffer_heap) = sizeof buffer_heap_map_value_t ∧
  forallb no_holes [event_header_t; event_data_t; exec_event_data_t; pid_key_t;
    file_event_state_t] = true ∧
  let raw := encode_header h ++ rest in
  member_bytes event_header_t "pid" raw = Some (le_bytes 4 (eh_pid h)) ∧
  member_bytes event_header_t "mntns" raw = Some (le_bytes 4 (eh_mntns h)) ∧
  member_bytes event_header_t "key" raw = Some (le_bytes 8 (eh_key h)) ∧
  member_bytes event_header_t "type" raw = Some (le_bytes 1 (eh_type h)) ∧
  member_bytes event_header_t "flags" raw = Some (le_bytes 8 (eh_flags h)).
Proof.
  split; [reflexivity|]. split; [reflexivity|]. split; [reflexivity|].
  split; [unfold zero_buffer_heap; by rewrite length_replicate|]. split; [reflexivity|]. cbv zeta.
  split_and!; reflexivity.
Qed.
